(* ===== verification/_CoqProject ===== *)
-Q . S2P
Prelude.v
Errors.v
Frame.v
Cmd.v
Aes.v
Secure.v
Channel.v
Device.v
Bus.v
BusFacts.v
BusLaws.v
Pd.v
PdFacts.v
PdLaws.v
Reader.v
Port.v
System.v
Enrol.v
Faults.v
Server.v
Panel.v
PanelLaws.v
Link.v
Store.v
StoreFacts.v
StoreLaws.v
Record.v
Trail.v
Provider.v
Callers.v
Delivery.v
Multidrop.v
Lossy.v
Access.v
Telemetry.v
Spans.v
Untraced.v
Journey.v
Driver.v
Drift.v
