(* ===== verification/Prelude.v ===== *)
(** * Verification of osdp-go

    osdp-go is an SDK for OSDP, the serial protocol between an access control
    panel and the card readers on its line. A panel polls every reader in turn,
    sends a command or asks for news, and the reader answers; frames carry a
    sequence number, a checksum or a CRC and, once both ends have proved they hold
    the same key, an enciphered payload and a chained authentication tag. The
    repository has both ends, the octet-level loops that run them over a port, and
    what an application keeps of the events: records, a store, a service.

    Definitions are translated from the Go source under src/ and named as it names
    things; values that Go mutates are passed and returned. What a theorem says is
    about those definitions, evaluated by the kernel where a witness asks for it.

    ** The parts and where they are

    - [Prelude]: notations, record update, octets, bounded integers, automation and
      the lemmas on lists all the files share. [Errors]: the sentinel errors of every
      package and [result].
    - [Frame] (internal/frame): check.go, control.go, frame.go, encode.go,
      decode.go. [CRC16], [Checksum], [Append], [Seal], [CheckOK], [Decode].
    - [Cmd] (internal/cmd): codes, [Message], every payload parser and builder.
    - [Aes]: crypto/aes and CBC, which the cipher suite calls, executable. [Secure]
      (internal/secure): the suite interface [CipherSuite] with its laws [SuiteLaws], the
      instance [AES128], and [Session]: the four handshake steps, [Seal], [Open],
      [Authenticate], [Verify]. [Channel]: what both ends do to a frame with a session.
    - [Device], [Bus] (internal/bus): the panel's view of one reader and of a line;
      [Next], [Reply], [Timeout], [Send], [InstallKey], [SetCommunication]. Facts and
      laws: [BusFacts], [BusLaws].
    - [Pd] (internal/pd without the loop): [Handle], the reply cache, the command
      table, the channel's other end, the reporting hooks. Facts: [PdFacts], [PdLaws].
    - [Reader] (internal/panel/reader.go, internal/pd/scan.go): octets to frames, in
      one buffer. [Port] (internal/transport/port.go): the interface under both loops; what a
      read or a write does depends on the deadline in force, and a write may block.
    - [Server] (internal/pd/server.go, serve.go) and [Panel], [PanelLaws]
      (internal/panel: panel.go, cycle.go, send.go, options.go): the two loops over an
      environment record. [Callers] (send.go, configure.go): the goroutines that call
      into the running panel, as an interleaving.
    - [System], [Enrol], [Faults], [Delivery]: bus and device together, frame by frame:
      an exchange on a channel, enrolment, what lost frames cost, and a line over time.
      [Multidrop]: the same with many devices on one pair of wires. [Lossy]: outside a
      channel, over a line that loses frames. [Access] (commands.go): [Unlock], the pair
      of commands that grants access, from the application to the relay.
      [Link]: both loops joined by a line, octet by octet; [Journey]: any number of
      rounds of both, from one application to the other.
    - [Driver] (internal/driver: conn.go, serial*.go, termios_unix.go, termios_linux.go):
      the adapters that make a port of a connection or a serial device, and the
      opening of a serial line.
    - [Provider] (internal/provider): vendors and the capabilities they are held to.
    - [Telemetry] (telemetry): [Apply] over a reflected value, and the calls a tracer
      gets. [Spans]: the [Trace] views and, operation by operation, the calls each layer
      makes, following the definitions above. [Untraced]: what these cannot tell.
    - [Drift] (tools/schemadrift): the gate that compares the FlatBuffers schema with the
      protobuf one and with the ledger of slots, from the text of the three files.
    - [Store], [StoreFacts], [StoreLaws] (protobuf/service): names, page tokens, the
      ring of events, the service. [Record] (protobuf/record): events as messages.
      [Trail]: from the line to the page an auditor reads.

    ** How the parts interact

    [Panel.round] drains requests into [Bus.Send], lets [Bus.Next] choose, writes the
    frame, reads with [Reader.next] and hands the answer to [Bus.Reply] or a silence to
    [Bus.Timeout]; [Server.round] reads with [Reader.scan_next], calls [Pd.Handle] and
    writes. [Bus] and [Pd] each hold a [Secure.Session] and use it through [Channel].
    [Enrol.exchange] is one round of each with the octets dropped; [Link] proves that
    two rounds over a line amount to that exchange, so that the laws of bus and device
    hold of the loops.

    Interfaces: [Secure.SuiteLaws] is a class that the session's theorems assume and
    [AES128] discharges; the port, the environment of each loop ([Server.world],
    [Panel.world]) and a vendor's provider are records, over all of which the theorems
    quantify; [BusFacts.bus_ok] and [PdFacts.pd_ok] are the invariants under which
    each end promises its half to [System].

    ** What the theorems show

    - The two ends together: a lone reader that shares a key with the panel, numbers as
      it does and reports that it has a channel is enrolled in four exchanges
      ([Enrol.enrolment]; [Enrol.restarted_panel_declined] is what a restart of the panel
      alone does); on a channel an exchange is the answer of the device to the command of
      the bus, and both cross sealed ([System.channel_transparent]). On an established
      channel on which both ends are in step, over any sequence of exchanges, presented
      cards and commands of eight ordinary codes, each command is obeyed once in order and
      each report is heard once in order ([Delivery.end_to_end], [Delivery.line_settles]);
      each of the devices of a shared line, so long as all are on their channels, has this
      as if it were alone on it ([Multidrop.line_shared]), within a bounded number of
      rounds ([Multidrop.round_robin_fair]), so that granting access releases that door
      and no other ([Access.unlock_opens]). In the clear, when the line loses frames, the
      sequence numbers and the reply cache of a device that is not strict about them still
      have each command performed exactly once ([Lossy.exactly_once]), up to the losses
      that bring the number round ([Lossy.lost_polls_swallow_command]); a strict device
      refuses a command after one lost poll ([Lossy.strict_reader_refuses]). The
      octet-level loops perform these exchanges through any fragmentation and noise that
      cannot start a frame ([Link.runtimes_exchange]), so what holds on a channel holds
      from one application to the other ([Journey.loops_deliver]). [Faults] replays what a
      lost frame costs.
    - The loops: over a port whose deadlines work they stop when their context is
      cancelled ([Panel.panel_stops], [Server.server_stops]); they survive every other
      failure, send and publish what the bus or device decided, and a command leaves the
      panel's queue only for an accepted answer ([PanelLaws.commands_in_order]). A caller
      is answered with what the loop did, within a bounded number of its moves, while the
      events are read ([Callers]). The drivers keep the contract the loops are stated on,
      closing one ends the loop over it, and a serial line is left at the rate and format
      that were asked for ([Driver.close_ends_serving], [Driver.DialSerial_spec]).
    - The channel: nothing but a frame of its session reaches a device's
      state ([PdLaws.channel_protects]); establishing it needs the proof of the key, and a
      wrong proof wipes the session ([Secure.establish_needs_proof]); an installation key
      leaves only while the channel is established, sealed when the panel takes the device
      for secure and in the clear when it takes it for online only
      ([BusLaws.keyset_withheld], [BusLaws.keyset_in_clear]); both ends adopt it together
      ([PdLaws.keyset_handover]).
    - Each end: invariants of every operation, no command lost, a repeated command
      answered and not obeyed twice, all-or-nothing outputs, the order of the events.
    - The codecs: round trips, stability under further octets, the CRC against its
      bit-at-a-time definition and the bursts it detects, exact frame sizes.
    - What is traced: exactly the tagged fields ([Telemetry.apply_exact]), in spans that are
      all closed ([Spans.spans_closed]), and, over any life of a line on its channel, the
      same calls whatever the keys and the credentials are ([Untraced.secrets_untraced]).
    - The schema gate passes exactly when every mirrored table is its message, both as its
      parsers read them ([Drift.gate_exact], [Drift.map_field_unseen]).
    - What the panel believes a device can do is what the device reported, less its
      vendor's quirks ([Provider.negotiation]).
    - The store: a refinement of an unbounded log; a client that follows page tokens
      sees every event it was due once, whatever is appended meanwhile, and the trail of
      a device holds the record of each event observed of it ([Trail.audit_trail]).

    Where the code departs from its own documents the departure is proved as a
    counterexample on a concrete line ([BusLaws], [Reader], [Faults], [Lossy], [Trail], [Provider],
    [Callers], [Drift], [Telemetry], [Untraced]).

    ** Integers, fuel and time

    A Go [byte] is a [Z] kept in range by [octets_ok]; wire fields of 16 and 32 bits are
    composed and split as the code does, and every theorem that could meet a wrap
    states its bound. A Go [int] or [time.Duration] is 64 bits wide and is written as
    a [Z]: lengths stay under the frame limit of 65535 octets and durations are only
    compared and subtracted, saturating as time.Time.Sub does where the code
    relies on it ([Pd.Sub]).

    Fuel appears where Go loops on a port: [Reader.next], [Reader.scan_next] and the
    two [Run]s. [Reader.readers_terminate] gives the fuel that suffices for a
    reader, from the length of the buffer and the number of reads until its deadline;
    [Server.server_stops] and [Panel.panel_stops] give the rounds after which a cancelled
    loop has returned, on a port whose deadlines end its reads and writes: what is proved of a run that returned comes with a theorem that it
    does.

    ** What is not modelled, and why

    - of internal/driver, dialling and accepting sockets, the in-memory pipe and the
      ioctl: calls of the system and the net package, parameters of [Driver].
    - the public package at the root, but for [Unlock] ([Access]): aliases and calls of
      one line.
    - tracers and the SDK behind telemetry: a tracer is what is done with the calls it
      gets. The spans of the event service, the extra decodes of a frame that arrives in
      pieces, and the [String] methods no span shows are left out.
    - generated schemas (protobuf/generated), except the messages protobuf/record fills in.
    - examples/panel and internal/arch: a demonstration, and tests over the import
      graph.
    - the random source, the clock and the application's handler are functions of how
      often they were called; a mutex is that its critical section is one step. *)

From Stdlib Require Export ZArith Lia.
From stdpp Require Export base tactics numbers list list_numbers option strings gmap.

#[export] Set Default Goal Selector "!".

Declare Scope osdp_scope.
Delimit Scope osdp_scope with osdp.
Global Open Scope osdp_scope.
Global Open Scope Z_scope.

(** ** Record update

    [r <| p := v |>] is the Go assignment [r.p = v] on a struct value. Each
    record supplies one [Eta] instance; the setter of a projection is found by
    rewriting the eta-expansion at that projection. *)

Class Eta (R : Type) := eta : R -> R.

Class Updater {R T : Type} (p : R -> T) := updater : (T -> T) -> R -> R.

Ltac build_updater :=
  match goal with
  | |- @Updater ?R ?T ?p =>
      let e := constr:(_ : Eta R) in
      let f := fresh "f" in let r := fresh "r" in
      intros f r;
      let b := eval cbv beta delta [eta] in (@eta R e r) in
      let b := (let h := head b in eval unfold h in b) in
      let b := eval cbv beta in b in
      match eval pattern (p r) in b with
      | ?g _ => let t := eval cbv beta in (g (f (p r))) in exact t
      end
  end
with head t :=
  match t with
  | ?g _ => head g
  | _ => t
  end.

#[export] Hint Extern 1 (Updater _) => build_updater : typeclass_instances.

Definition update {R T : Type} (p : R -> T) {u : Updater p} (f : T -> T) (r : R) : R := u f r.
Arguments update {R T} p {u} f r /.

#[warnings="-postfix-notation-not-level-1"]
Notation "r <| p := v |>" := (update p (fun _ => v) r)
  (at level 12, left associativity, p at level 99, v at level 99) : osdp_scope.

(** ** Octets and fixed-width integers

    A Go [byte], [uint16] or [uint32] is a [Z] in range; the conversions that
    truncate are written out as [u8], [u16], [u32]. *)

Abbreviation octet := Z (only parsing).
Abbreviation octets := (list Z) (only parsing).

Definition u8 (x : Z) : Z := x mod 256.
Definition u16 (x : Z) : Z := x mod 65536.
Definition u32 (x : Z) : Z := x mod 4294967296.

Definition octet_ok (b : Z) : Prop := 0 <= b < 256.
Abbreviation octets_ok := (Forall octet_ok).

#[export] Instance octet_ok_dec b : Decision (octet_ok b).
Proof. unfold octet_ok. apply _. Defined.

(** Go's [len], as the [int] it is. *)
Definition len {A} (l : list A) : Z := Z.of_nat (length l).

(** Go's [l[i]] and [l[i:j]]; every use below is guarded by the bounds test the
    source makes, so the default is never read. *)
Definition idx (l : list Z) (i : nat) : Z := nth i l 0.
Arguments idx !l !i /.
Definition slice {A} (l : list A) (i j : Z) : list A :=
  take (Z.to_nat (j - i)) (drop (Z.to_nat i) l).

(** Little-endian words: [binary.LittleEndian] and the hand-written shifts. *)
Definition le16 (lo hi : Z) : Z := Z.lor lo (Z.shiftl hi 8).
Definition le32 (a b c d : Z) : Z :=
  Z.lor a (Z.lor (Z.shiftl b 8) (Z.lor (Z.shiftl c 16) (Z.shiftl d 24))).
Definition put16 (x : Z) : list Z := [u8 x; u8 (Z.shiftr x 8)].
Definition put32 (x : Z) : list Z :=
  [u8 x; u8 (Z.shiftr x 8); u8 (Z.shiftr x 16); u8 (Z.shiftr x 24)].

Create HintDb osdp discriminated.
Create Rewrite HintDb osdp_num.
Create Rewrite HintDb osdp_len.

(** *** Decision over all octets *)

Lemma octet_check (P : Z -> bool) :
  forallb P (seqZ 0 256) = true -> forall b, octet_ok b -> P b = true.
Proof.
  intros H b Hb. rewrite forallb_forall in H. apply H.
  apply list_elem_of_In, elem_of_seqZ. unfold octet_ok in Hb. lia.
Qed.

(** [Forall] of a concrete list, by evaluation. *)
Lemma forallb_Forall {A} (f : A -> bool) (P : A -> Prop) l : (forall x, f x = true -> P x) -> forallb f l = true -> Forall P l.
Proof.
  intros Hf. induction l as [|x l IH]; simpl; [by intros; apply Forall_nil|].
  intros [H1 H2]%andb_prop. apply Forall_cons. auto.
Qed.

(** [filter] where the predicate's value is known on the list. *)
Lemma filter_agree {A} (P Q : A -> Prop) `{!forall x, Decision (P x), !forall x, Decision (Q x)} (l : list A) :
  (forall x, x ∈ l -> P x <-> Q x) -> filter P l = filter Q l.
Proof.
  induction l as [|x l IH]; intros HP; [done|]. rewrite !filter_cons, IH by (intros; apply HP; by right).
  apply decide_ext, HP. by left.
Qed.

Lemma filter_none {A} (P : A -> Prop) `{!forall x, Decision (P x)} (l : list A) : (forall x, x ∈ l -> ~ P x) -> filter P l = [].
Proof.
  induction l as [|x l IH]; intros HP; [done|]. rewrite filter_cons, decide_False by (apply HP; by left).
  apply IH. intros y Hy. apply HP. by right.
Qed.

Lemma filter_every {A} (P : A -> Prop) `{!forall x, Decision (P x)} (l : list A) : (forall x, x ∈ l -> P x) -> filter P l = l.
Proof.
  induction l as [|x l IH]; intros HP; [done|]. rewrite filter_cons, decide_True by (apply HP; by left).
  f_equal. apply IH. intros y Hy. apply HP. by right.
Qed.

Lemma octets_ok_check l : forallb (fun b => (0 <=? b) && (b <? 256)) l = true -> octets_ok l.
Proof.
  induction l as [|b l IH]; [done|]. simpl.
  intros [[Hl Hh]%andb_true_iff Ht]%andb_true_iff. constructor; [|auto]. unfold octet_ok. lia.
Qed.

Lemma u8_ok x : octet_ok (u8 x).
Proof. unfold octet_ok, u8. apply Z.mod_pos_bound. lia. Qed.

Lemma u8_id x : octet_ok x -> u8 x = x.
Proof. intros. unfold u8. by apply Z.mod_small. Qed.

Lemma u16_id x : 0 <= x < 65536 -> u16 x = x.
Proof. intros. unfold u16. by apply Z.mod_small. Qed.

Lemma octet_ok_intro x : 0 <= x < 256 -> octet_ok x.
Proof. done. Qed.

#[export] Hint Resolve u8_ok : osdp.
#[export] Hint Rewrite u8_id u16_id using (unfold octet_ok in *; lia) : osdp_num.

(** *** Words *)

Lemma land_shiftl_small a b n : 0 <= n -> 0 <= a < 2 ^ n -> Z.land a (2 ^ n * b) = 0.
Proof.
  intros Hn Ha. apply Z.bits_inj'. intros i Hi. rewrite Z.land_spec, Z.bits_0.
  destruct (Z.lt_ge_cases i n).
  - by rewrite (Z.mul_comm (2 ^ n)), Z.mul_pow2_bits_low, andb_false_r by lia.
  - rewrite <- (Z.mod_small a (2 ^ n)) by lia.
    by rewrite Z.mod_pow2_bits_high by lia.
Qed.

Lemma lor_shiftl_add a b n : 0 <= n -> 0 <= a < 2 ^ n ->
  Z.lor a (Z.shiftl b n) = a + 2 ^ n * b.
Proof.
  intros Hn Ha. rewrite Z.shiftl_mul_pow2 by lia. rewrite (Z.mul_comm b).
  rewrite <- Z.lxor_lor by by apply land_shiftl_small.
  by rewrite Z.add_nocarry_lxor by by apply land_shiftl_small.
Qed.

Lemma le16_eq lo hi : octet_ok lo -> le16 lo hi = lo + 256 * hi.
Proof. intros. unfold le16. by rewrite lor_shiftl_add. Qed.

Lemma le32_eq a b c d : octet_ok a -> octet_ok b -> octet_ok c ->
  le32 a b c d = a + 256 * b + 65536 * c + 16777216 * d.
Proof.
  unfold octet_ok, le32. intros.
  replace (Z.shiftl d 24) with (Z.shiftl (Z.shiftl d 8) 16) by by rewrite Z.shiftl_shiftl by lia.
  rewrite <- Z.shiftl_lor.
  replace (Z.shiftl (Z.lor c (Z.shiftl d 8)) 16)
    with (Z.shiftl (Z.shiftl (Z.lor c (Z.shiftl d 8)) 8) 8) by by rewrite Z.shiftl_shiftl by lia.
  rewrite <- Z.shiftl_lor, !lor_shiftl_add by lia. lia.
Qed.

(** [lia] with the division equations of [mod] and [/] by constants. *)
Ltac zdm := Z.to_euclidean_division_equations; lia.

Lemma u8_shiftr8 x : u8 (Z.shiftr x 8) = (x / 256) mod 256.
Proof. unfold u8. by rewrite Z.shiftr_div_pow2. Qed.

Lemma u8_shiftr16 x : u8 (Z.shiftr x 16) = (x / 65536) mod 256.
Proof. unfold u8. by rewrite Z.shiftr_div_pow2. Qed.

Lemma u8_shiftr24 x : u8 (Z.shiftr x 24) = (x / 16777216) mod 256.
Proof. unfold u8. by rewrite Z.shiftr_div_pow2. Qed.

#[export] Hint Rewrite u8_shiftr8 u8_shiftr16 u8_shiftr24 : osdp_num.

Ltac octet_arith := autorewrite with osdp_num; unfold u8, octet_ok in *; zdm.

Lemma le16_put x : 0 <= x < 65536 -> le16 (u8 x) (u8 (Z.shiftr x 8)) = x.
Proof. intros. rewrite le16_eq by apply u8_ok. octet_arith. Qed.

Lemma le32_put x : 0 <= x < 4294967296 ->
  le32 (u8 x) (u8 (Z.shiftr x 8)) (u8 (Z.shiftr x 16)) (u8 (Z.shiftr x 24)) = x.
Proof. intros. rewrite le32_eq by apply u8_ok. octet_arith. Qed.

Lemma u8_le16 lo hi : octet_ok lo -> u8 (le16 lo hi) = lo.
Proof. intros H. rewrite le16_eq by done. octet_arith. Qed.

Lemma u8_le16_hi lo hi : octet_ok lo -> octet_ok hi -> u8 (Z.shiftr (le16 lo hi) 8) = hi.
Proof. intros. rewrite le16_eq by done. octet_arith. Qed.

Lemma le16_bound lo hi : octet_ok lo -> octet_ok hi -> 0 <= le16 lo hi < 65536.
Proof. intros. rewrite le16_eq by done. unfold octet_ok in *. lia. Qed.

Lemma put32_le32 a b c d : octets_ok [a; b; c; d] -> put32 (le32 a b c d) = [a; b; c; d].
Proof.
  rewrite !Forall_cons. intros (?&?&?&?&_).
  unfold put32. rewrite le32_eq by done. repeat (f_equal; [octet_arith|]). f_equal. octet_arith.
Qed.

Lemma le32_bound a b c d : octets_ok [a; b; c; d] -> 0 <= le32 a b c d < 4294967296.
Proof.
  rewrite !Forall_cons. intros (?&?&?&?&_). rewrite le32_eq by done. unfold octet_ok in *. lia.
Qed.

Lemma put16_ok x : octets_ok (put16 x).
Proof. unfold put16. repeat constructor; apply u8_ok. Qed.

Lemma put32_ok x : octets_ok (put32 x).
Proof. unfold put32. repeat constructor; apply u8_ok. Qed.

#[export] Hint Resolve put16_ok put32_ok : osdp.

(** ** Exclusive or

    A function that is linear over exclusive or is determined by its values on
    the powers of two: how the table-free CRC and the AES column mix are checked
    on all inputs from a few. *)


Definition linear (f : Z -> Z) : Prop := forall x y, f (Z.lxor x y) = Z.lxor (f x) (f y).

Lemma linear_compose f g : linear f -> linear g -> linear (fun x => f (g x)).
Proof. intros Hf Hg x y. by rewrite Hg, Hf. Qed.

Lemma linear_lxor f g : linear f -> linear g -> linear (fun x => Z.lxor (f x) (g x)).
Proof.
  intros Hf Hg x y. rewrite Hf, Hg. rewrite !Z.lxor_assoc. f_equal.
  rewrite <- !Z.lxor_assoc. f_equal. apply Z.lxor_comm.
Qed.

Lemma linear_id : linear (fun x => x).
Proof. done. Qed.

Lemma linear_shiftl k : linear (fun x => Z.shiftl x k).
Proof. intros x y. apply Z.shiftl_lxor. Qed.

Lemma linear_shiftr k : linear (fun x => Z.shiftr x k).
Proof. intros x y. apply Z.shiftr_lxor. Qed.

Lemma linear_land k : linear (fun x => Z.land x k).
Proof.
  intros x y. apply Z.bits_inj'. intros i Hi. rewrite ?Z.land_spec, ?Z.lxor_spec, ?Z.land_spec.
  by destruct (Z.testbit x i), (Z.testbit y i), (Z.testbit k i).
Qed.

Lemma linear_u16 : linear u16.
Proof.
  intros x y. unfold u16. change 65536 with (2 ^ 16).
  rewrite <- !Z.land_ones by lia. apply linear_land.
Qed.

Lemma linear_testbit i k : linear (fun x => if Z.testbit x i then k else 0).
Proof.
  intros x y. rewrite Z.lxor_spec.
  destruct (Z.testbit x i), (Z.testbit y i); simpl;
    by rewrite ?Z.lxor_nilpotent, ?Z.lxor_0_r, ?Z.lxor_0_l.
Qed.

Lemma linear_iter n f : linear f -> linear (Nat.iter n f).
Proof. intros Hf. induction n as [|n IH]; intros x y; simpl; [done|]. by rewrite IH, Hf. Qed.

Lemma linear_zero f : linear f -> f 0 = 0.
Proof.
  intros Hf. specialize (Hf 0 0). by rewrite !Z.lxor_nilpotent in Hf.
Qed.

Lemma linear_basis f g n : linear f -> linear g ->
  forallb (fun i => f (2 ^ i) =? g (2 ^ i)) (seqZ 0 (Z.of_nat n)) = true ->
  forall x, 0 <= x < 2 ^ Z.of_nat n -> f x = g x.
Proof.
  intros Hf Hg Hb'. assert (forall i, 0 <= i < Z.of_nat n -> f (2 ^ i) = g (2 ^ i)) as Hb.
  { intros i Hi. rewrite forallb_forall in Hb'. apply Z.eqb_eq, Hb'.
    apply list_elem_of_In, elem_of_seqZ. lia. }
  clear Hb'.
  induction n as [|n IH]; intros x Hx.
  - replace x with 0 by lia. by rewrite !linear_zero.
  - rewrite Nat2Z.inj_succ, Z.pow_succ_r in Hx by lia.
    assert (0 < 2 ^ Z.of_nat n) by (apply Z.pow_pos_nonneg; lia).
    destruct (Z.lt_ge_cases x (2 ^ Z.of_nat n)) as [|Hge]; [apply IH; [|lia]; intros; apply Hb; lia|].
    assert (x = Z.lxor (x - 2 ^ Z.of_nat n) (2 ^ Z.of_nat n)) as ->.
    { rewrite <- (Z.mul_1_r (2 ^ Z.of_nat n)) at 2.
      rewrite <- Z.add_nocarry_lxor; [lia|]. apply land_shiftl_small; lia. }
    rewrite Hf, Hg, IH, Hb by (lia || (intros; apply Hb; lia)). done.
Qed.

#[export] Hint Resolve linear_id linear_shiftl linear_shiftr linear_land linear_u16
  linear_testbit linear_iter : osdp.

Ltac prove_linear :=
  first
    [ solve [auto with osdp]
    | apply (linear_lxor (fun x => _) (fun x => _)); prove_linear
    | apply (linear_compose u16 (fun x => _)); [auto with osdp | prove_linear]
    | apply (linear_compose (fun x => Z.shiftl x _) (fun x => _)); [auto with osdp | prove_linear]
    | apply (linear_compose (fun x => Z.shiftr x _) (fun x => _)); [auto with osdp | prove_linear]
    | apply (linear_compose (fun x => Z.land x _) (fun x => _)); [auto with osdp | prove_linear] ].

(** Equations between exclusive ors, bit by bit. *)
Ltac lxor_bits :=
  apply Z.bits_inj'; intros; rewrite ?Z.lxor_spec;
  repeat match goal with |- context [Z.testbit ?a ?i] => destruct (Z.testbit a i) end.

Lemma u16_bound x : 0 <= u16 x < 65536.
Proof. apply Z.mod_pos_bound. lia. Qed.

Lemma lxor_bound n x y : 0 <= n -> 0 <= x < 2 ^ n -> 0 <= y < 2 ^ n -> 0 <= Z.lxor x y < 2 ^ n.
Proof.
  intros Hn Hx Hy.
  rewrite <- (Z.mod_small x (2 ^ n)), <- (Z.mod_small y (2 ^ n)), <- !Z.land_ones by lia.
  rewrite <- linear_land, Z.land_ones by lia. apply Z.mod_pos_bound. lia.
Qed.

Lemma lxor_cancel_l a b c : Z.lxor a b = Z.lxor a c -> b = c.
Proof.
  intros H. apply (f_equal (Z.lxor a)) in H.
  by rewrite <- !Z.lxor_assoc, Z.lxor_nilpotent, !Z.lxor_0_l in H.
Qed.

Lemma linear_u8 : linear u8.
Proof.
  intros x y. unfold u8. change 256 with (2 ^ 8).
  rewrite <- !Z.land_ones by lia. apply linear_land.
Qed.

Lemma lxor_octet x y : octet_ok x -> octet_ok y -> octet_ok (Z.lxor x y).
Proof. apply (lxor_bound 8). lia. Qed.

(** ** Lists *)

Lemma len_nil {A} : len (@nil A) = 0.
Proof. done. Qed.

Lemma len_cons {A} (x : A) l : len (x :: l) = 1 + len l.
Proof. unfold len. rewrite length_cons. lia. Qed.

Lemma len_app {A} (l k : list A) : len (l ++ k) = len l + len k.
Proof. unfold len. rewrite length_app. lia. Qed.

Lemma len_nonneg {A} (l : list A) : 0 <= len l.
Proof. unfold len. lia. Qed.

Lemma len_replicate {A} n (x : A) : len (replicate n x) = Z.of_nat n.
Proof. unfold len. by rewrite length_replicate. Qed.

Lemma len_map {A B} (f : A -> B) l : len (f <$> l) = len l.
Proof. unfold len. by rewrite length_fmap. Qed.

Lemma len_take {A} n (l : list A) : len (take n l) = Z.min (Z.of_nat n) (len l).
Proof. unfold len. rewrite length_take. lia. Qed.

Lemma len_drop {A} n (l : list A) : len (drop n l) = Z.max 0 (len l - Z.of_nat n).
Proof. unfold len. rewrite length_drop. lia. Qed.

Lemma len_insert {A} i x (l : list A) : len (<[i := x]> l) = len l.
Proof. unfold len. by rewrite length_insert. Qed.

#[export] Hint Rewrite @len_nil @len_cons @len_app @len_replicate @len_map @len_take
  @len_drop @len_insert : osdp_len.

Lemma slice_full {A} (l : list A) : slice l 0 (len l) = l.
Proof. unfold slice, len. rewrite Z.sub_0_r, drop_0, Nat2Z.id. apply firstn_all. Qed.

Lemma len_slice {A} (l : list A) i j :
  0 <= i <= j -> j <= len l -> len (slice l i j) = j - i.
Proof. intros. unfold slice. autorewrite with osdp_len. lia. Qed.

Lemma Forall_slice {A} (P : A -> Prop) l i j : Forall P l -> Forall P (slice l i j).
Proof. intros. unfold slice. by apply Forall_take, Forall_drop. Qed.

Lemma take_len_app {A} (l k : list A) n : n = length l -> take n (l ++ k) = l.
Proof. intros ->. apply take_app_length. Qed.

Lemma drop_len_app {A} (l k : list A) n : n = length l -> drop n (l ++ k) = k.
Proof. intros ->. apply drop_app_length. Qed.

Lemma slice_mid {A} (a b c : list A) i j :
  i = len a -> j = len a + len b -> slice (a ++ b ++ c) i j = b.
Proof.
  intros -> ->. unfold slice, len.
  rewrite drop_len_app by lia. apply take_len_app. lia.
Qed.

Lemma slice_end {A} (a b : list A) i j :
  i = len a -> j = len (a ++ b) -> slice (a ++ b) i j = b.
Proof.
  intros Hi Hj. rewrite <- (app_nil_r b) at 1. apply slice_mid; [done|].
  rewrite Hj, len_app. done.
Qed.

Lemma slice_begin {A} (a b : list A) j : j = len a -> slice (a ++ b) 0 j = a.
Proof. intros. by apply (slice_mid [] a b). Qed.

(** A slice splits the list. *)
Lemma slice_split {A} (l : list A) i : 0 <= i <= len l ->
  l = slice l 0 i ++ slice l i (len l).
Proof.
  intros. unfold slice, len in *. rewrite Z.sub_0_r, drop_0.
  rewrite (firstn_all2 (n := Z.to_nat (_ - i))).
  - by rewrite take_drop.
  - rewrite length_drop. lia.
Qed.

Lemma slice_slice {A} (l : list A) i j : 0 <= i <= j -> j <= len l ->
  slice l 0 j = slice l 0 i ++ slice l i j.
Proof.
  intros. unfold slice. rewrite !Z.sub_0_r, drop_0.
  rewrite <- (take_drop (Z.to_nat i) (take (Z.to_nat j) l)).
  rewrite take_take, Nat.min_l by lia. f_equal.
  rewrite <- (take_drop (Z.to_nat i) l) at 1.
  rewrite skipn_firstn_comm, take_drop. do 2 f_equal. lia.
Qed.

(** [len l = 0] and the empty list, for the guards of the source. *)
Lemma len_zero_nil {A} (l : list A) : len l = 0 -> l = [].
Proof. unfold len. destruct l; [done|]. simpl. lia. Qed.

#[export] Hint Resolve len_nonneg : osdp.

(** A Go loop that appends to its result. *)
Lemma fold_left_append {A B} (f : A -> list B) l dst :
  fold_left (fun dst x => dst ++ f x) l dst = dst ++ concat (map f l).
Proof.
  revert dst. induction l as [|x l IH]; intros dst; simpl; [by rewrite app_nil_r|].
  by rewrite IH, <- app_assoc.
Qed.

(** *** Prefixes *)

Lemma slice_app_l {A} (l k : list A) i j : 0 <= i -> j <= len l -> slice (l ++ k) i j = slice l i j.
Proof.
  intros. unfold slice, len in *. destruct (Z.le_gt_cases i (Z.of_nat (length l))).
  - rewrite drop_app_le by lia. apply take_app_le. rewrite length_drop. lia.
  - replace (Z.to_nat (j - i)) with 0%nat by lia. done.
Qed.

Lemma idx_app_l (l k : list Z) i : Z.of_nat i < len l -> idx (l ++ k) i = idx l i.
Proof. intros. unfold idx, len in *. apply app_nth1. lia. Qed.

(** ** Tactics *)

Ltac octets_dec := apply octets_ok_check; vm_compute; reflexivity.

(** Lengths to [lia]. *)
Ltac len_facts :=
  repeat match goal with
         | |- context [len ?l] =>
             lazymatch goal with _ : 0 <= len l |- _ => fail | _ => pose proof (len_nonneg l) end
         | _ : context [len ?l] |- _ =>
             lazymatch goal with _ : 0 <= len l |- _ => fail | _ => pose proof (len_nonneg l) end
         end.
Ltac len_solve := autorewrite with osdp_len in *; len_facts; lia.

(** Splits every [decide] and [match] of the goal, in the source's order. *)
Ltac split_guards := repeat first [case_decide | case_match]; simplify_eq/=.
