(* ===== verification/Errors.v ===== *)
(** * Errors

    The sentinel errors of every package, matched by constructor where the Go
    code uses [errors.Is], and the [result] type of a call that returns either a
    value or an error. *)

From S2P Require Import Prelude.

(** internal/frame/errors.go *)
Inductive frame_error :=
  | ErrShortBuffer
  | ErrNoStartOfMessage
  | ErrLengthMismatch
  | ErrBadCheck
  | ErrBadSecurityBlock
  | ErrInvalidAddress
  | ErrSecurityBlockTooLong
  | ErrFrameTooLong.

(** internal/cmd/errors.go *)
Inductive cmd_error :=
  | ErrShortPayload
  | ErrUnknownCode.

(** internal/secure/errors.go *)
Inductive secure_error :=
  | ErrNotBlockAligned
  | ErrBadPadding
  | ErrMACMismatch
  | ErrCryptogramMismatch
  | ErrSuiteUnavailable
  | ErrWrongRole
  | ErrMalformedHandshake
  | ErrNotEstablished
  | ErrSuiteReserved.

(** internal/transport/port.go *)
Inductive transport_error :=
  | ErrTimeout
  | ErrClosed
  | ErrShortWrite.

(** internal/bus: reply.go, size.go, comset.go, keyset.go, secure.go. [ErrMessageTooLarge]
    carries the two numbers of [oversizedError]. *)
Inductive bus_error :=
  | ErrWrongAddress
  | ErrNotAReply
  | ErrMessageTooLarge (need accepted : Z)
  | ErrAddressInUse
  | Bus_ErrInvalidAddress
  | ErrNotSecure
  | errNoSession.

(** internal/panel: panel.go, send.go *)
Inductive panel_error :=
  | ErrNoDevices
  | ErrAlreadyRun
  | ErrUnknownDevice
  | ErrNotRunning.

(** internal/pd/errors.go and server.go; the first three are the [ErrNoReply]
    class. *)
Inductive pd_error :=
  | ErrNotAddressed
  | ErrNotCommand
  | ErrCorrupt
  | ErrQueueFull
  | ErrShortCredential
  | ErrNoSuchContact
  | ErrTooManyContacts
  | ErrInvalidQueue
  | Pd_ErrAlreadyRun.

(** The [error] interface: one of the sentinels, the error of a cancelled
    context, or an error the code did not make, as a port returns. [EPanic] is not
    a Go error: it is the result of a call that would dereference nil or index out
    of range, kept apart so that its absence can be proved. *)
Inductive error :=
  | EFrame (e : frame_error)
  | ECmd (e : cmd_error)
  | ESecure (e : secure_error)
  | ETransport (e : transport_error)
  | EBus (e : bus_error)
  | EPanel (e : panel_error)
  | EPd (e : pd_error)
  | ECtx
  | EPanic
  | EOther (n : Z).

Coercion EFrame : frame_error >-> error.
Coercion ECmd : cmd_error >-> error.
Coercion ESecure : secure_error >-> error.
Coercion ETransport : transport_error >-> error.
Coercion EBus : bus_error >-> error.
Coercion EPanel : panel_error >-> error.
Coercion EPd : pd_error >-> error.

#[export] Instance frame_error_eq : EqDecision frame_error.
Proof. solve_decision. Defined.
#[export] Instance cmd_error_eq : EqDecision cmd_error.
Proof. solve_decision. Defined.
#[export] Instance secure_error_eq : EqDecision secure_error.
Proof. solve_decision. Defined.
#[export] Instance transport_error_eq : EqDecision transport_error.
Proof. solve_decision. Defined.
#[export] Instance bus_error_eq : EqDecision bus_error.
Proof. solve_decision. Defined.
#[export] Instance panel_error_eq : EqDecision panel_error.
Proof. solve_decision. Defined.
#[export] Instance pd_error_eq : EqDecision pd_error.
Proof. solve_decision. Defined.
#[export] Instance error_eq : EqDecision error.
Proof. solve_decision. Defined.

(** [errors.Is(err, ErrNoReply)]. *)
Definition ErrNoReply (e : error) : bool :=
  match e with
  | EPd ErrNotAddressed | EPd ErrNotCommand | EPd ErrCorrupt => true
  | _ => false
  end.

(** A call that returns a value or an error, never both. *)
Inductive result (A : Type) :=
  | Ok (a : A)
  | Err (e : error).
Arguments Ok {A} a.
Arguments Err {A} e.

#[export] Instance result_ret : MRet result := fun _ a => Ok a.
#[export] Instance result_bind : MBind result := fun _ _ k m =>
  match m with
  | Ok a => k a
  | Err e => Err e
  end.

#[export] Instance result_eq {A} `{EqDecision A} : EqDecision (result A).
Proof. solve_decision. Defined.

Lemma bind_Ok {A B} (m : result A) (k : A -> result B) b :
  (m ≫= k) = Ok b <-> exists a, m = Ok a /\ k a = Ok b.
Proof. destruct m; simpl; naive_solver. Qed.
