(* ===== verification/Frame.v ===== *)
(** * The wire frame: internal/frame

    [Scheme], [Control], [SecurityBlock] and [Frame] are the types of check.go,
    control.go and frame.go; [CRC16] and [Checksum] the two error checks of
    check.go; [Append], [AppendBody], [ComputeCheck], [Seal] and [CheckOK] are
    encode.go and [Decode] is decode.go. The theorems: the two round trips, the
    stability of a decode under further octets, the equivalence of the
    table-free CRC with the bit-at-a-time definition of CRC-16/AUG-CCITT, and
    what the two checks detect. *)

From S2P Require Import Prelude Errors.

(** ** check.go *)

Inductive Scheme := SchemeChecksum | SchemeCRC16.

#[global] Instance Scheme_eq : EqDecision Scheme.
Proof. solve_decision. Defined.

Definition Scheme_Size (s : Scheme) : Z :=
  if decide (s = SchemeCRC16) then 2 else 1.

Definition crcInit : Z := 0x1D0F.

(** One octet of the CRC loop; [crc] is a [uint16], so a left shift wraps. *)
Definition crc_step (crc c : Z) : Z :=
  let crc := Z.lor (Z.shiftr crc 8) (u16 (Z.shiftl crc 8)) in
  let crc := Z.lxor crc c in
  let crc := Z.lxor crc (Z.shiftr (Z.land crc 0xff) 4) in
  let crc := Z.lxor crc (u16 (Z.shiftl crc 12)) in
  Z.lxor crc (u16 (Z.shiftl (Z.land crc 0xff) 5)).

Definition CRC16 (b : octets) : Z := fold_left crc_step b crcInit.

(** [^sum + 1] on [uint8]. *)
Definition Checksum (b : octets) : Z :=
  let sum := fold_left (fun sum c => u8 (sum + c)) b 0 in
  u8 (Z.lxor sum 0xff + 1).

(** ** control.go *)

Definition SOM : Z := 0x53.
Definition Mark : Z := 0xFF.
Definition HeaderSize : Z := 5.
Definition BroadcastAddress : Z := 0x7F.
Definition replyFlag : Z := 0x80.
Definition MaxSecurityBlockSize : Z := 0xFF.
Definition MaxFrameSize : Z := 0xFFFF.
Definition ctrlSequenceMask : Z := 0x03.
Definition ctrlCRCFlag : Z := 0x04.
Definition ctrlSecurityFlag : Z := 0x08.

Definition Address_Valid (a : Z) : bool := bool_decide (a <= BroadcastAddress).

Definition Control_Sequence (c : Z) : Z := Z.land c ctrlSequenceMask.

Definition Control_Scheme (c : Z) : Scheme :=
  if decide (Z.land c ctrlCRCFlag <> 0) then SchemeCRC16 else SchemeChecksum.

Definition Control_HasSecurityBlock (c : Z) : bool :=
  bool_decide (Z.land c ctrlSecurityFlag <> 0).

Definition NewControl (seq : Z) (scheme : Scheme) (security : bool) : Z :=
  let c := Z.land seq ctrlSequenceMask in
  let c := if decide (scheme = SchemeCRC16) then Z.lor c ctrlCRCFlag else c in
  if security then Z.lor c ctrlSecurityFlag else c.

Record SecurityBlock := mk_SecurityBlock {
  sb_Type : octet;
  sb_Data : octets
}.

Definition wireLen (s : option SecurityBlock) : Z :=
  match s with
  | None => 0
  | Some s => 2 + len (sb_Data s)
  end.

(** ** frame.go *)

Record Frame := mk_Frame {
  f_HasMark : bool;
  f_IsReply : bool;
  f_Address : octet;
  f_Control : octet;
  f_Security : option SecurityBlock;
  f_Code : octet;
  f_Data : octets;
  f_Check : Z
}.

#[global] Instance SecurityBlock_eq : EqDecision SecurityBlock.
Proof. solve_decision. Defined.
#[global] Instance Frame_eq : EqDecision Frame.
Proof. solve_decision. Defined.
#[global] Instance Frame_eta : Eta Frame := fun f =>
  mk_Frame (f_HasMark f) (f_IsReply f) (f_Address f) (f_Control f) (f_Security f)
    (f_Code f) (f_Data f) (f_Check f).

(** Go's zero value [Frame{}]. *)
Definition Frame_zero : Frame := mk_Frame false false 0 0 None 0 [] 0.

Definition Len (f : Frame) : Z :=
  HeaderSize + wireLen (f_Security f) + 1 + len (f_Data f) + Scheme_Size (Control_Scheme (f_Control f)).

Definition WireLen (f : Frame) : Z := if f_HasMark f then Len f + 1 else Len f.

(** ** encode.go *)

Definition AppendBody (f : Frame) (dst : octets) : octets :=
  let total := Len f in
  let dst := dst ++ [SOM] in
  let addr := f_Address f in
  let addr := if f_IsReply f then Z.lor addr replyFlag else addr in
  let dst := dst ++ [addr; u8 total; u8 (Z.shiftr total 8); f_Control f] in
  let dst := match f_Security f with
             | Some s => (dst ++ [u8 (wireLen (f_Security f)); sb_Type s]) ++ sb_Data s
             | None => dst
             end in
  (dst ++ [f_Code f]) ++ f_Data f.

Definition ComputeCheck (f : Frame) : Z :=
  let body := AppendBody f [] in
  match Control_Scheme (f_Control f) with
  | SchemeCRC16 => CRC16 body
  | SchemeChecksum => Checksum body
  end.

Definition Seal (f : Frame) : Frame := f <| f_Check := ComputeCheck f |>.

Definition CheckOK (f : Frame) : bool := bool_decide (f_Check f = ComputeCheck f).

Definition representable (f : Frame) : option frame_error :=
  if negb (Address_Valid (f_Address f)) then Some ErrInvalidAddress
  else if decide (wireLen (f_Security f) > MaxSecurityBlockSize) then Some ErrSecurityBlockTooLong
  else if decide (Len f > MaxFrameSize) then Some ErrFrameTooLong
  else None.

(** On an error the destination comes back unchanged and no caller reads it. *)
Definition Append (f : Frame) (dst : octets) : result octets :=
  match representable f with
  | Some e => Err e
  | None =>
      let dst := if f_HasMark f then dst ++ [Mark] else dst in
      let dst := AppendBody f dst in
      match Control_Scheme (f_Control f) with
      | SchemeCRC16 => Ok (dst ++ [u8 (f_Check f); u8 (Z.shiftr (f_Check f) 8)])
      | SchemeChecksum => Ok (dst ++ [u8 (f_Check f)])
      end
  end.

(** ** decode.go *)

Definition decodeSecurityBlock (rest : octets) : result (SecurityBlock * octets) :=
  if decide (len rest < 2) then Err ErrBadSecurityBlock
  else
    let n := idx rest 0 in
    if decide (n < 2 \/ n > len rest) then Err ErrBadSecurityBlock
    else Ok (mk_SecurityBlock (idx rest 1) (slice rest 2 n), slice rest n (len rest)).

(** [decode] once the optional mark octet has been taken off: the code, the
    payload and the error check that remain after the security block ... *)
Definition decodeTail (f : Frame) (scheme : Scheme) (rest : octets) : Frame * option error :=
  if decide (len rest < 1 + Scheme_Size scheme) then (Frame_zero, Some (EFrame ErrLengthMismatch))
  else
    let f := f <| f_Code := idx rest 0 |> in
    let dataEnd := len rest - Scheme_Size scheme in
    let f := f <| f_Data := slice rest 1 dataEnd |> in
    let check := slice rest dataEnd (len rest) in
    let f := match scheme with
             | SchemeCRC16 => f <| f_Check := le16 (idx check 0) (idx check 1) |>
             | SchemeChecksum => f <| f_Check := idx check 0 |>
             end in
    if CheckOK f then (f, None) else (f, Some (EFrame ErrBadCheck)).

(** ... and the header before it. *)
Definition decodeBody (f : Frame) (body : octets) : Frame * option error :=
  if decide (len body = 0) then (Frame_zero, Some (EFrame ErrShortBuffer))
  else if decide (idx body 0 <> SOM) then (Frame_zero, Some (EFrame ErrNoStartOfMessage))
  else if decide (len body < HeaderSize) then (Frame_zero, Some (EFrame ErrShortBuffer))
  else
    let addr := idx body 1 in
    let f := f <| f_IsReply := bool_decide (Z.land addr replyFlag <> 0) |>
               <| f_Address := Z.ldiff addr replyFlag |>
               <| f_Control := idx body 4 |> in
    let total := le16 (idx body 2) (idx body 3) in
    let scheme := Control_Scheme (f_Control f) in
    if decide (total < HeaderSize + 1 + Scheme_Size scheme)
    then (Frame_zero, Some (EFrame ErrLengthMismatch))
    else if decide (len body < total) then (Frame_zero, Some (EFrame ErrShortBuffer))
    else
      let rest := slice body HeaderSize total in
      if Control_HasSecurityBlock (f_Control f) then
        match decodeSecurityBlock rest with
        | Err e => (Frame_zero, Some e)
        | Ok (sb, remainder) => decodeTail (f <| f_Security := Some sb |>) scheme remainder
        end
      else decodeTail f scheme rest.

(** [Decode] returns a frame and an error: both, when the error is
    [ErrBadCheck]. *)
Definition Decode (buf : octets) : Frame * option error :=
  let f := Frame_zero in
  if decide (len buf > 0 /\ idx buf 0 = Mark)
  then decodeBody (f <| f_HasMark := true |>) (slice buf 1 (len buf))
  else decodeBody f buf.

(** ** Well-formed frames

    The values a [Frame] can hold on the wire: octets in range, and a security
    block exactly when the control octet declares one. *)
Record frame_ok (f : Frame) : Prop := mk_frame_ok {
  fok_addr : 0 <= f_Address f < 128;
  fok_ctrl : octet_ok (f_Control f);
  fok_sec : Control_HasSecurityBlock (f_Control f) = bool_decide (is_Some (f_Security f));
  fok_sb : forall s, f_Security f = Some s -> octet_ok (sb_Type s) /\ octets_ok (sb_Data s);
  fok_code : octet_ok (f_Code f);
  fok_data : octets_ok (f_Data f);
  fok_check : 0 <= f_Check f < 256 ^ Scheme_Size (Control_Scheme (f_Control f))
}.

(** ** The octets a frame occupies *)

Definition sec_octets (s : option SecurityBlock) : octets :=
  match s with
  | Some s => u8 (2 + len (sb_Data s)) :: sb_Type s :: sb_Data s
  | None => []
  end.

Definition addr_octet (f : Frame) : Z :=
  if f_IsReply f then Z.lor (f_Address f) replyFlag else f_Address f.

Definition header (f : Frame) : octets :=
  [SOM; addr_octet f; u8 (Len f); u8 (Z.shiftr (Len f) 8); f_Control f].

Definition check_octets (f : Frame) : octets :=
  match Control_Scheme (f_Control f) with
  | SchemeCRC16 => put16 (f_Check f)
  | SchemeChecksum => [u8 (f_Check f)]
  end.

Definition mark_octets (f : Frame) : octets := if f_HasMark f then [Mark] else [].

Lemma AppendBody_eq f dst :
  AppendBody f dst = dst ++ header f ++ sec_octets (f_Security f) ++ [f_Code f] ++ f_Data f.
Proof.
  unfold AppendBody, header, addr_octet, sec_octets.
  destruct (f_Security f); simpl; by rewrite <- !app_assoc.
Qed.

Lemma Append_eq f dst : representable f = None ->
  Append f dst = Ok (dst ++ mark_octets f ++ header f ++ sec_octets (f_Security f)
                       ++ [f_Code f] ++ f_Data f ++ check_octets f).
Proof.
  intros H. unfold Append, mark_octets, check_octets, put16. rewrite H, AppendBody_eq.
  destruct (f_HasMark f), (Control_Scheme _); by rewrite <- ?app_assoc.
Qed.

Lemma len_sec_octets s : len (sec_octets s) = wireLen s.
Proof. destruct s as [s|]; simpl; [autorewrite with osdp_len; lia|done]. Qed.

Lemma len_header f : len (header f) = 5.
Proof. done. Qed.

Lemma len_check_octets f : len (check_octets f) = Scheme_Size (Control_Scheme (f_Control f)).
Proof. unfold check_octets. by destruct (Control_Scheme _). Qed.

Lemma Scheme_Size_pos s : 1 <= Scheme_Size s <= 2.
Proof. by destruct s. Qed.

Lemma wireLen_nonneg s : 0 <= wireLen s.
Proof. destruct s; simpl; len_solve. Qed.

#[global] Hint Rewrite len_sec_octets len_header len_check_octets : osdp_len.

(** The body is as long as [Len] says, less the error check. *)
Lemma len_AppendBody f :
  len (AppendBody f []) = Len f - Scheme_Size (Control_Scheme (f_Control f)).
Proof. rewrite AppendBody_eq. unfold Len, HeaderSize. autorewrite with osdp_len. lia. Qed.

Lemma representable_None f : representable f = None <->
  f_Address f <= 127 /\ wireLen (f_Security f) <= 255 /\ Len f <= 65535.
Proof.
  unfold representable, Address_Valid, BroadcastAddress, MaxSecurityBlockSize, MaxFrameSize.
  case_bool_decide; simpl; repeat case_decide; intuition (try discriminate; lia).
Qed.

(** *** The address octet *)

Lemma addr_octet_decode a : octet_ok a ->
  (if bool_decide (Z.land a replyFlag <> 0) then Z.lor (Z.ldiff a replyFlag) replyFlag
   else Z.ldiff a replyFlag) = a /\ 0 <= Z.ldiff a replyFlag < 128.
Proof.
  intros Ha. cut (bool_decide
    ((if bool_decide (Z.land a replyFlag <> 0) then Z.lor (Z.ldiff a replyFlag) replyFlag
      else Z.ldiff a replyFlag) = a /\ 0 <= Z.ldiff a replyFlag < 128) = true).
  { by intros ?%bool_decide_eq_true. }
  revert a Ha. apply octet_check. by vm_compute.
Qed.

Lemma addr_octet_encode a : 0 <= a < 128 ->
  Z.ldiff a replyFlag = a /\ Z.land a replyFlag = 0 /\
  Z.ldiff (Z.lor a replyFlag) replyFlag = a /\ Z.land (Z.lor a replyFlag) replyFlag <> 0 /\
  octet_ok (Z.lor a replyFlag).
Proof.
  intros Ha. cut (bool_decide (a < 128 -> Z.ldiff a replyFlag = a /\ Z.land a replyFlag = 0 /\
    Z.ldiff (Z.lor a replyFlag) replyFlag = a /\ Z.land (Z.lor a replyFlag) replyFlag <> 0 /\
    octet_ok (Z.lor a replyFlag)) = true).
  { intros H%bool_decide_eq_true. apply H. lia. }
  assert (octet_ok a) as Hb by (unfold octet_ok; lia).
  clear Ha. revert a Hb. apply octet_check. by vm_compute.
Qed.

(** ** Decoding what [Append] wrote *)

Lemma decodeTail_eq f code data chk :
  len chk = Scheme_Size (Control_Scheme (f_Control f)) ->
  decodeTail f (Control_Scheme (f_Control f)) ([code] ++ data ++ chk) =
    let f := f <| f_Code := code |> <| f_Data := data |>
               <| f_Check := match Control_Scheme (f_Control f) with
                             | SchemeCRC16 => le16 (idx chk 0) (idx chk 1)
                             | SchemeChecksum => idx chk 0
                             end |> in
    if CheckOK f then (f, None) else (f, Some (EFrame ErrBadCheck)).
Proof.
  intros Hchk. unfold decodeTail.
  pose proof (Scheme_Size_pos (Control_Scheme (f_Control f))).
  rewrite decide_False by len_solve.
  rewrite (slice_mid [code] data chk 1) by len_solve.
  rewrite (app_assoc [code] data chk), (slice_end ([code] ++ data) chk) by len_solve.
  simpl. by destruct (Control_Scheme (f_Control f)).
Qed.

Lemma decodeSecurityBlock_eq s rest : wireLen (Some s) <= 255 ->
  decodeSecurityBlock (sec_octets (Some s) ++ rest) = Ok (s, rest).
Proof.
  intros H. unfold decodeSecurityBlock. simpl in *.
  assert (u8 (2 + len (sb_Data s)) = 2 + len (sb_Data s)) as Hn
    by (apply u8_id; unfold octet_ok; len_solve).
  simpl. rewrite Hn. rewrite decide_False by len_solve. rewrite decide_False by len_solve.
  do 3 f_equal.
  - destruct s as [t d]; simpl in *. f_equal.
    apply (slice_mid [_; t] d rest); len_solve.
  - apply (slice_end (_ :: _ :: sb_Data s) rest); len_solve.
Qed.

Lemma idx_app (l k : list Z) i : (i < length l)%nat -> idx (l ++ k) i = idx l i.
Proof. intros. unfold idx. by apply app_nth1. Qed.

Lemma check_octets_decode f :
  0 <= f_Check f < 256 ^ Scheme_Size (Control_Scheme (f_Control f)) ->
  match Control_Scheme (f_Control f) with
  | SchemeCRC16 => le16 (idx (check_octets f) 0) (idx (check_octets f) 1)
  | SchemeChecksum => idx (check_octets f) 0
  end = f_Check f.
Proof.
  unfold check_octets. destruct (Control_Scheme _); simpl; intros H; cbv [idx nth].
  - by apply u8_id.
  - by apply le16_put.
Qed.

(** What is left of a frame once its header is read. *)
Definition tail_octets (f : Frame) : octets := [f_Code f] ++ f_Data f ++ check_octets f.

Lemma decodeTail_tail f g : frame_ok f -> f_Control g = f_Control f ->
  decodeTail g (Control_Scheme (f_Control f)) (tail_octets f) =
    let r := g <| f_Code := f_Code f |> <| f_Data := f_Data f |> <| f_Check := f_Check f |> in
    (r, if CheckOK r then None else Some (EFrame ErrBadCheck)).
Proof.
  intros Hf Hg. rewrite <- Hg. unfold tail_octets. rewrite decodeTail_eq.
  - rewrite Hg, check_octets_decode by apply Hf. cbv zeta. by case_match.
  - by rewrite len_check_octets, Hg.
Qed.

Lemma decodeBody_eq f (m : bool) rest : frame_ok f -> representable f = None ->
  f_HasMark f = m ->
  decodeBody (Frame_zero <| f_HasMark := m |>)
    (header f ++ sec_octets (f_Security f) ++ tail_octets f ++ rest) =
  (f, if CheckOK f then None else Some (EFrame ErrBadCheck)).
Proof.
  intros Hf (Ha & Hs & Hl)%representable_None Hm.
  destruct (addr_octet_encode (f_Address f)) as (A1 & A2 & A3 & A4 & _); [apply Hf|].
  set (b := header f ++ _).
  assert (Hb : b = header f ++ (sec_octets (f_Security f) ++ tail_octets f) ++ rest)
    by (unfold b; by rewrite <- app_assoc).
  pose proof (Scheme_Size_pos (Control_Scheme (f_Control f))) as Hsz.
  assert (Htl : len (tail_octets f) = 1 + len (f_Data f) + Scheme_Size (Control_Scheme (f_Control f)))
    by (unfold tail_octets; autorewrite with osdp_len; lia).
  pose proof (wireLen_nonneg (f_Security f)) as Hw.
  assert (Hlb : len b = Len f + len rest)
    by (rewrite Hb; autorewrite with osdp_len; unfold Len, HeaderSize; lia).
  assert (Htot : le16 (u8 (Len f)) (u8 (Z.shiftr (Len f) 8)) = Len f)
    by (apply le16_put; unfold Len, HeaderSize in *; len_facts; lia).
  unfold decodeBody.
  rewrite decide_False by (unfold Len, HeaderSize in *; len_facts; lia).
  rewrite decide_False by (rewrite Hb, idx_app; [|simpl; lia]; simpl; intros X; by apply X).
  rewrite decide_False by (unfold Len, HeaderSize in *; len_facts; lia).
  assert (Hidx : forall i, (i < 5)%nat -> idx b i = idx (header f) i)
    by (intros; rewrite Hb; by apply idx_app).
  rewrite !Hidx by lia. cbv [header idx nth].
  rewrite Htot. simpl f_Control.
  rewrite decide_False by (unfold Len, HeaderSize; len_facts; lia).
  rewrite decide_False by (len_facts; lia).
  rewrite Hb, slice_mid by (rewrite ?len_header, ?len_app, ?len_sec_octets, ?Htl;
    unfold Len, HeaderSize; lia).
  assert (Haddr : bool_decide (Z.land (addr_octet f) replyFlag <> 0) = f_IsReply f /\
                  Z.ldiff (addr_octet f) replyFlag = f_Address f).
  { unfold addr_octet. destruct (f_IsReply f); split; try done.
    - by apply bool_decide_eq_true.
    - apply bool_decide_eq_false. by intros []. }
  destruct Haddr as [-> ->]. rewrite (fok_sec f Hf).
  destruct (f_Security f) as [s|] eqn:Es.
  - rewrite bool_decide_true by eauto. rewrite (decodeSecurityBlock_eq s) by done.
    rewrite decodeTail_tail by done. simpl. destruct f; simpl in *; by subst.
  - rewrite bool_decide_false by (by intros []). simpl app.
    rewrite decodeTail_tail by done. simpl. destruct f; simpl in *; by subst.
Qed.

(** Everything [Append] writes for a frame. *)
Definition wire_octets (f : Frame) : octets :=
  mark_octets f ++ header f ++ sec_octets (f_Security f) ++ tail_octets f.

Lemma Append_wire f : representable f = None -> Append f [] = Ok (wire_octets f).
Proof. intros. by rewrite Append_eq. Qed.

Lemma Append_inv f wire : Append f [] = Ok wire -> representable f = None /\ wire = wire_octets f.
Proof.
  intros Hw. destruct (representable f) as [e|] eqn:Hr.
  - unfold Append in Hw. by rewrite Hr in Hw.
  - rewrite Append_wire in Hw by done. split; congruence.
Qed.

Lemma len_wire_octets f : len (wire_octets f) = WireLen f.
Proof.
  unfold wire_octets, WireLen, Len, mark_octets, tail_octets, HeaderSize.
  destruct (f_HasMark f); autorewrite with osdp_len; lia.
Qed.

Lemma Decode_wire f rest : frame_ok f -> representable f = None ->
  Decode (wire_octets f ++ rest) = (f, if CheckOK f then None else Some (EFrame ErrBadCheck)).
Proof.
  intros Hf Hr. pose proof (decodeBody_eq f (f_HasMark f) rest Hf Hr eq_refl) as Hd.
  unfold Decode, wire_octets, mark_octets. rewrite <- !app_assoc.
  destruct (f_HasMark f) eqn:Em.
  - rewrite decide_True by (split; [unfold len; simpl; lia|done]).
    rewrite <- Hd. f_equal. by apply (slice_end [Mark]).
  - rewrite decide_False by (simpl; intros [_ H]; by vm_compute in H). done.
Qed.

(** C34. Encode then decode. Whatever frame [Append] accepts, [Decode] recovers
    exactly it from the octets written, whatever octets follow on the line; and
    it reports [ErrBadCheck] when, and only when, the check the frame carries is
    not the one its octets call for. *)
Theorem decode_append f wire rest :
  frame_ok f -> Append f [] = Ok wire ->
  Decode (wire ++ rest) = (f, if CheckOK f then None else Some (EFrame ErrBadCheck)).
Proof. intros Hf [Hr ->]%Append_inv. by apply Decode_wire. Qed.

(** ** Appending what [Decode] read *)

Definition decoded (e : option error) : Prop := e = None \/ e = Some (EFrame ErrBadCheck).

Lemma list_idx0 (l : list Z) : 1 <= len l -> l = idx l 0 :: slice l 1 (len l).
Proof.
  destruct l as [|x l]; [by rewrite len_nil|]. intros _. simpl. f_equal.
  symmetry. by apply (slice_end [x] l).
Qed.

Lemma slice_idx0 (l : list Z) j : 1 <= j <= len l -> slice l 0 j = idx l 0 :: slice l 1 j.
Proof.
  intros Hj. rewrite (slice_slice l 1 j) by lia.
  destruct l as [|x l]; [rewrite len_nil in Hj; lia|].
  reflexivity.
Qed.

Lemma octets_idx l i : octets_ok l -> octet_ok (idx l i).
Proof.
  intros H. unfold idx. destruct (nth_in_or_default i l 0) as [Hin| ->]; [|done].
  rewrite List.Forall_forall in H. by apply H.
Qed.

Lemma check_slice (l : list Z) s : len l = Scheme_Size s -> octets_ok l ->
  exists c, match s with
            | SchemeCRC16 => le16 (idx l 0) (idx l 1)
            | SchemeChecksum => idx l 0
            end = c /\ 0 <= c < 256 ^ Scheme_Size s /\
  l = match s with SchemeCRC16 => put16 c | SchemeChecksum => [u8 c] end.
Proof.
  intros Hl Ho. eexists; split; [done|].
  destruct s; simpl in Hl; (destruct l as [|a l]; [done|]); rewrite len_cons in Hl;
    rewrite Forall_cons in Ho; destruct Ho as [Ha Ho].
  - rewrite (len_zero_nil l) by (unfold Scheme_Size in Hl; simpl in Hl; lia). simpl.
    split; [exact Ha|]. by rewrite u8_id.
  - destruct l as [|b l]; [done|]. rewrite len_cons in Hl.
    rewrite Forall_cons in Ho; destruct Ho as [Hb Ho].
    rewrite (len_zero_nil l) by (unfold Scheme_Size in Hl; simpl in Hl; lia). simpl.
    split; [by apply le16_bound|]. unfold put16. by rewrite u8_le16, u8_le16_hi.
Qed.

Lemma decodeTail_inv g rest f e :
  octets_ok rest -> decodeTail g (Control_Scheme (f_Control g)) rest = (f, e) -> decoded e ->
  rest = tail_octets f /\ octet_ok (f_Code f) /\ octets_ok (f_Data f) /\
  0 <= f_Check f < 256 ^ Scheme_Size (Control_Scheme (f_Control f)) /\
  f = g <| f_Code := f_Code f |> <| f_Data := f_Data f |> <| f_Check := f_Check f |>.
Proof.
  intros Ho Hd He. unfold decodeTail in Hd. case_decide as Hlen.
  { destruct He as [-> | ->]; simplify_eq. }
  set (s := Control_Scheme (f_Control g)) in *. pose proof (Scheme_Size_pos s) as Hs.
  set (n := len rest - Scheme_Size s) in *.
  destruct (check_slice (slice rest n (len rest)) s) as (c & Hc & Hb & Hl).
  { rewrite len_slice; unfold n; lia. }
  { by apply Forall_slice. }
  assert (f = g <| f_Code := idx rest 0 |> <| f_Data := slice rest 1 n |> <| f_Check := c |>)
    as ->.
  { destruct s eqn:Es; simpl in Hd; simpl in Hc; subst c; case_match; simplify_eq; done. }
  simpl. unfold tail_octets, check_octets. simpl. fold s. split_and!; try done.
  - rewrite (slice_split rest n) at 1 by lia.
    rewrite (slice_idx0 rest n), Hl by lia. done.
  - by apply octets_idx.
  - by apply Forall_slice.
  - apply Hb.
  - apply Hb.
Qed.

Lemma decodeSecurityBlock_inv rest s r :
  octets_ok rest -> decodeSecurityBlock rest = Ok (s, r) ->
  rest = sec_octets (Some s) ++ r /\ wireLen (Some s) <= 255 /\
  octet_ok (sb_Type s) /\ octets_ok (sb_Data s).
Proof.
  intros Ho Hd. unfold decodeSecurityBlock in Hd. do 2 (case_decide; [done|]).
  injection Hd as <- <-.
  pose proof (octets_idx rest 0 Ho) as Hn. pose proof (octets_idx rest 1 Ho) as Ht.
  set (n := idx rest 0) in *.
  assert (Hd : len (slice rest 2 n) = n - 2) by (apply len_slice; lia).
  simpl. rewrite Hd. unfold octet_ok in Hn. split_and!; [|lia|apply Ht|by apply Forall_slice].
  replace (u8 (2 + (n - 2))) with n by (rewrite u8_id; unfold octet_ok; lia).
  rewrite (slice_split rest n) at 1 by lia.
  rewrite (slice_slice rest 2 n) by lia. rewrite slice_idx0 by lia.
  assert (slice rest 1 2 = [idx rest 1]) as ->.
  { destruct rest as [|a [|b r]]; [done..|]. apply (slice_mid [a] [b] r); done. }
  done.
Qed.

Lemma header_inv body : 5 <= len body -> idx body 0 = SOM ->
  slice body 0 5 = [SOM; idx body 1; idx body 2; idx body 3; idx body 4].
Proof.
  intros Hl H0. destruct body as [|a [|b [|c [|d [|e body]]]]]; try done.
  by rewrite <- H0.
Qed.

Lemma decodeBody_inv (m : bool) body f e :
  octets_ok body -> decodeBody (Frame_zero <| f_HasMark := m |>) body = (f, e) -> decoded e ->
  frame_ok f /\ representable f = None /\ f_HasMark f = m /\
  exists rest, body = header f ++ sec_octets (f_Security f) ++ tail_octets f ++ rest.
Proof.
  intros Ho Hd He. unfold decodeBody in Hd.
  do 5 (case_decide; [destruct He as [-> | ->]; simplify_eq|]).
  match goal with H : idx body 0 = SOM |- _ => rename H into Hsom end.
  set (total := le16 (idx body 2) (idx body 3)) in *.
  set (g := Frame_zero <| f_HasMark := m |> <| f_IsReply := _ |> <| f_Address := _ |>
              <| f_Control := _ |>) in *.
  pose proof (Scheme_Size_pos (Control_Scheme (f_Control g))) as Hsz.
  destruct (addr_octet_decode (idx body 1)) as [Haddr Harange]; [by apply octets_idx|].
  pose proof (octets_idx body 2 Ho) as Hb2. pose proof (octets_idx body 3 Ho) as Hb3.
  pose proof (le16_bound _ _ Hb2 Hb3) as Htot. fold total in Htot.
  unfold HeaderSize in *.
  (* the tail of the body, as the security block and the rest *)
  assert (exists so r, slice body 5 total = sec_octets so ++ r /\ wireLen so <= 255 /\
            (forall s, so = Some s -> octet_ok (sb_Type s) /\ octets_ok (sb_Data s)) /\
            Control_HasSecurityBlock (f_Control g) = bool_decide (is_Some so) /\
            decodeTail (g <| f_Security := so |>) (Control_Scheme (f_Control g)) r = (f, e))
    as (so & r & Hso & Hwl & Hsok & Hhas & Ht).
  { destruct (Control_HasSecurityBlock _) eqn:Ehas.
    - destruct (decodeSecurityBlock _) as [[s r]|er] eqn:Es.
      + apply decodeSecurityBlock_inv in Es as (? & ? & ? & ?); [|by apply Forall_slice].
        exists (Some s), r. split_and!; try done. by intros ? [= <-].
      + assert (er = EFrame ErrBadSecurityBlock) as ->
          by (unfold decodeSecurityBlock in Es; repeat case_decide; congruence).
        destruct He as [-> | ->]; simplify_eq.
    - exists None, (slice body 5 total). split_and!; done. }
  assert (Hr : octets_ok r).
  { assert (octets_ok (slice body 5 total)) as Hx by by apply Forall_slice.
    rewrite Hso in Hx. by apply Forall_app in Hx as [_ ?]. }
  destruct (decodeTail_inv (g <| f_Security := so |>) r f e Hr Ht He)
    as (-> & Hcode & Hdata & Hchk & Hf).
  assert (Hlen : len (slice body 5 total) = total - 5) by (apply len_slice; lia).
  rewrite Hso in Hlen. unfold tail_octets in Hlen. autorewrite with osdp_len in Hlen.
  assert (f_HasMark f = m /\ f_IsReply f = bool_decide (Z.land (idx body 1) replyFlag <> 0) /\
          f_Address f = Z.ldiff (idx body 1) replyFlag /\ f_Control f = idx body 4 /\
          f_Security f = so) as (Em & Er & Ea & Ec & Es) by (rewrite Hf; done).
  clear Hf. change (f_Control g) with (idx body 4) in *. rewrite Ec in *.
  assert (HL : Len f = total) by (unfold Len, HeaderSize; rewrite Es, Ec; lia).
  assert (Hhdr : header f = slice body 0 5).
  { rewrite header_inv by lia. unfold header, addr_octet. rewrite HL. unfold total.
    rewrite u8_le16, u8_le16_hi, Er, Ea, Ec, Haddr by done. done. }
  split; [|split; [|split; [done|]]].
  - split; rewrite ?Ea, ?Ec, ?Es; try done. by apply octets_idx.
  - apply representable_None. rewrite HL, Es, Ea. lia.
  - exists (slice body total (len body)). rewrite Hhdr, Es.
    rewrite (slice_split body total) at 1 by lia. rewrite (slice_slice body 5 total) by lia.
    rewrite Hso, <- !app_assoc. done.
Qed.

Lemma Decode_inv buf f e :
  octets_ok buf -> Decode buf = (f, e) -> decoded e ->
  frame_ok f /\ representable f = None /\ exists rest, buf = wire_octets f ++ rest.
Proof.
  intros Ho Hd He. unfold Decode in Hd. unfold wire_octets, mark_octets. case_decide as Hm.
  - destruct buf as [|b body]; [by destruct Hm|]. destruct Hm as [_ Hm]. simpl in Hm. subst b.
    rewrite (slice_end [Mark] body) in Hd by done. apply Forall_cons in Ho as [_ Ho].
    apply (decodeBody_inv true) in Hd as (Hf & Hr & Em & rest & ->); [|done..].
    split_and!; try done. exists rest. rewrite Em. by rewrite <- !app_assoc.
  - apply (decodeBody_inv false) in Hd as (Hf & Hr & Em & rest & ->); [|done..].
    split_and!; try done. exists rest. rewrite Em. by rewrite <- !app_assoc.
Qed.

(** Decode then encode. A buffer that decodes to a frame, error check right
    or wrong, is reproduced octet for octet by [Append]: what [Decode] consumed
    is exactly [WireLen] octets, reserved control bits, mark octet and a wrong
    check included. *)
Theorem append_decode buf f e :
  octets_ok buf -> Decode buf = (f, e) -> decoded e ->
  frame_ok f /\ WireLen f <= len buf /\ Append f [] = Ok (slice buf 0 (WireLen f)).
Proof.
  intros Ho Hd He. destruct (Decode_inv buf f e) as (Hf & Hr & rest & ->); [done..|].
  rewrite Append_wire, len_app, len_wire_octets, slice_begin by (done || by rewrite len_wire_octets).
  split_and!; [done| |done]. len_facts; lia.
Qed.

(** The errors of [Decode]. *)
Inductive decode_error : error -> Prop :=
  | de_short : decode_error (EFrame ErrShortBuffer)
  | de_start : decode_error (EFrame ErrNoStartOfMessage)
  | de_length : decode_error (EFrame ErrLengthMismatch)
  | de_block : decode_error (EFrame ErrBadSecurityBlock)
  | de_check : decode_error (EFrame ErrBadCheck).

#[local] Hint Constructors decode_error : core.

Lemma decodeTail_errors f s rest e : (decodeTail f s rest).2 = Some e -> decode_error e.
Proof. unfold decodeTail. repeat case_match; intros [= <-]; eauto. Qed.

Lemma decodeBody_errors f body e : (decodeBody f body).2 = Some e -> decode_error e.
Proof.
  unfold decodeBody, decodeSecurityBlock. intros E.
  repeat case_match; simplify_eq/=; try (by eauto); by eapply decodeTail_errors.
Qed.

Lemma Decode_errors buf e : (Decode buf).2 = Some e -> decode_error e.
Proof. unfold Decode. case_decide; apply decodeBody_errors. Qed.

(** ** Incremental decoding *)

Lemma decodeBody_app f body more :
  (decodeBody f body).2 <> Some (EFrame ErrShortBuffer) ->
  decodeBody f (body ++ more) = decodeBody f body.
Proof.
  intros Hd. unfold decodeBody in *. pose proof (len_nonneg more). pose proof (len_nonneg body).
  destruct (decide (len body = 0)); [done|].
  rewrite (decide_False (P := len (body ++ more) = 0)) by len_solve.
  rewrite (idx_app_l body more 0) by lia.
  destruct (decide (idx body 0 <> SOM)); [done|].
  destruct (decide (len body < HeaderSize)); [done|]. unfold HeaderSize in *.
  rewrite (decide_False (P := len (body ++ more) < 5)) by len_solve.
  rewrite !idx_app_l by lia.
  destruct (decide (le16 _ _ < _)); [done|].
  destruct (decide (len body < _)) as [|Hlen]; [done|].
  rewrite decide_False by len_solve. by rewrite slice_app_l by lia.
Qed.

Lemma Decode_mark l : Decode (Mark :: l) = decodeBody (Frame_zero <| f_HasMark := true |>) l.
Proof.
  unfold Decode. rewrite decide_True by (split; [rewrite len_cons; len_facts; lia|done]).
  by rewrite (slice_end [Mark] l).
Qed.

Lemma Decode_no_mark b l : b <> Mark -> Decode (b :: l) = decodeBody Frame_zero (b :: l).
Proof. intros. unfold Decode. by rewrite decide_False by (simpl; tauto). Qed.

(** A decode that did not ask for more octets is final: the frame, or the
    error, is the same whatever follows it in the buffer. *)
Theorem decode_stable buf more :
  (Decode buf).2 <> Some (EFrame ErrShortBuffer) -> Decode (buf ++ more) = Decode buf.
Proof.
  destruct buf as [|b buf]; [done|]. simpl app. destruct (decide (b = Mark)) as [->|].
  - rewrite !Decode_mark. apply decodeBody_app.
  - rewrite !Decode_no_mark by done. apply (decodeBody_app _ (b :: buf)).
Qed.

Lemma idx_take (l : list Z) n i : (i < n)%nat -> idx (take n l) i = idx l i.
Proof.
  intros. unfold idx. revert l i H. induction n; intros [|a l] [|i] ?; simpl; try lia; try done.
  apply IHn. lia.
Qed.

Lemma decodeBody_short g f n rest : frame_ok f -> representable f = None ->
  let body := header f ++ sec_octets (f_Security f) ++ tail_octets f ++ rest in
  (Z.of_nat n < Len f) -> 
  decodeBody g (take n body) = (Frame_zero, Some (EFrame ErrShortBuffer)).
Proof.
  intros Hf (Ha & Hs & Hl)%representable_None body Hn.
  pose proof (Scheme_Size_pos (Control_Scheme (f_Control f))) as Hsz.
  pose proof (wireLen_nonneg (f_Security f)) as Hw. pose proof (len_nonneg (f_Data f)).
  assert (Hlen : len body = Len f + len rest).
  { unfold body, tail_octets. autorewrite with osdp_len. unfold Len, HeaderSize. lia. }
  assert (Htot : le16 (u8 (Len f)) (u8 (Z.shiftr (Len f) 8)) = Len f)
    by (apply le16_put; unfold Len, HeaderSize in *; lia).
  assert (Hlt : len (take n body) = Z.of_nat n) by (rewrite len_take; len_facts; lia).
  assert (Hidx : forall i, (i < n)%nat -> (i < 5)%nat -> idx (take n body) i = idx (header f) i).
  { intros. rewrite idx_take by done. apply idx_app_l. rewrite len_header. lia. }
  unfold decodeBody. rewrite Hlt. unfold HeaderSize.
  destruct n as [|n]; [done|]. rewrite decide_False by lia.
  rewrite (Hidx 0%nat) by lia. rewrite decide_False by (simpl; by intros X).
  case_decide; [done|]. rewrite !Hidx by lia. cbv [header idx nth]. rewrite Htot. simpl f_Control.
  rewrite decide_False by (unfold Len, HeaderSize; lia). by rewrite decide_True by lia.
Qed.

Lemma decode_prefix_wire f n : frame_ok f -> representable f = None -> (n < length (wire_octets f))%nat ->
  Decode (take n (wire_octets f)) = (Frame_zero, Some (EFrame ErrShortBuffer)).
Proof.
  intros Hf Hr Hn.
  pose proof (len_wire_octets f) as Hl. unfold len, WireLen in Hl.
  pose proof (decodeBody_short (Frame_zero <| f_HasMark := f_HasMark f |>) f) as Hs.
  unfold wire_octets, mark_octets in *. destruct n as [|n]; [done|].
  specialize (fun n => Hs n [] Hf Hr). rewrite app_nil_r in Hs.
  destruct (f_HasMark f) eqn:Hm; simpl app; rewrite ?firstn_cons.
  - rewrite Decode_mark. apply Hs. simpl length in *. lia.
  - rewrite Decode_no_mark by done. apply (Hs (S n)). simpl length in *. lia.
Qed.

(** A line that stops short of a whole frame decodes to [ErrShortBuffer],
    and to nothing else: a reader that waits for more octets on that error never
    discards the head of a good frame. *)
Theorem decode_prefix f wire n :
  frame_ok f -> Append f [] = Ok wire -> (n < length wire)%nat ->
  Decode (take n wire) = (Frame_zero, Some (EFrame ErrShortBuffer)).
Proof. intros Hf [Hr ->]%Append_inv Hn. by apply decode_prefix_wire. Qed.

(** ** The error checks

    One octet of [CRC16] is linear over exclusive or, so two such functions
    agree on every 16-bit state as soon as they agree on the sixteen powers of
    two. *)
(** The definition of CRC-16/AUG-CCITT: polynomial 0x1021, most significant bit
    first, the octet entering at the top of the register. *)
Definition crc_bit (r : Z) : Z :=
  if Z.testbit r 15 then Z.lxor (u16 (Z.shiftl r 1)) 0x1021 else u16 (Z.shiftl r 1).

Definition crc_octet (crc c : Z) : Z := Nat.iter 8 crc_bit (Z.lxor crc (Z.shiftl c 8)).

Definition crc_reference (b : octets) : Z := fold_left crc_octet b 0x1D0F.

(** The register run backwards. *)
Definition crc_unbit (r : Z) : Z :=
  if Z.testbit r 0 then Z.lxor (Z.shiftr (Z.lxor r 0x1021) 1) 0x8000 else Z.shiftr r 1.

(** [crc_step] with its [lor] of disjoint halves as an exclusive or. *)
Definition crc_swap (x : Z) : Z := Z.lxor (Z.shiftr x 8) (u16 (Z.shiftl x 8)).
Definition crc_lin (x : Z) : Z :=
  let x := crc_swap x in
  let x := Z.lxor x (Z.shiftr (Z.land x 0xff) 4) in
  let x := Z.lxor x (u16 (Z.shiftl x 12)) in
  Z.lxor x (u16 (Z.shiftl (Z.land x 0xff) 5)).

Lemma linear_swap : linear crc_swap.
Proof. unfold crc_swap. prove_linear. Qed.

Lemma linear_crc_lin : linear crc_lin.
Proof.
  unfold crc_lin. cbv zeta.
  pose (f1 x := Z.lxor x (Z.shiftr (Z.land x 0xff) 4)).
  pose (f2 x := Z.lxor x (u16 (Z.shiftl x 12))).
  pose (f3 x := Z.lxor x (u16 (Z.shiftl (Z.land x 0xff) 5))).
  assert (linear f1) as H1 by (unfold f1; prove_linear).
  assert (linear f2) as H2 by (unfold f2; prove_linear).
  assert (linear f3) as H3 by (unfold f3; prove_linear).
  change (linear (fun x => f3 (f2 (f1 (crc_swap x))))).
  exact (linear_compose _ _ H3 (linear_compose _ _ H2 (linear_compose _ _ H1 linear_swap))).
Qed.

Lemma linear_crc_bit : linear crc_bit.
Proof.
  intros x y. unfold crc_bit. rewrite Z.lxor_spec, Z.shiftl_lxor, linear_u16.
  destruct (Z.testbit x 15), (Z.testbit y 15); simpl; by lxor_bits.
Qed.

Lemma linear_crc_unbit : linear crc_unbit.
Proof.
  intros x y. unfold crc_unbit. rewrite Z.lxor_spec, !Z.shiftr_lxor.
  destruct (Z.testbit x 0), (Z.testbit y 0); simpl; by lxor_bits.
Qed.

Lemma crc_lin_iter x : 0 <= x < 65536 -> crc_lin x = Nat.iter 8 crc_bit x.
Proof.
  apply (linear_basis crc_lin (Nat.iter 8 crc_bit) 16).
  - apply linear_crc_lin.
  - apply linear_iter, linear_crc_bit.
  - by vm_compute.
Qed.

Lemma crc_unbit_bit x : 0 <= x < 65536 -> Nat.iter 8 crc_unbit (crc_lin x) = x.
Proof.
  apply (linear_basis (fun x => Nat.iter 8 crc_unbit (crc_lin x)) (fun x => x) 16).
  - apply linear_compose; [apply linear_iter, linear_crc_unbit|apply linear_crc_lin].
  - apply linear_id.
  - by vm_compute.
Qed.

Lemma crc_arg_bound crc c : 0 <= crc < 65536 -> octet_ok c ->
  0 <= Z.lxor crc (Z.shiftl c 8) < 65536.
Proof.
  intros. apply (lxor_bound 16); [done..|]. rewrite Z.shiftl_mul_pow2 by lia.
  unfold octet_ok in *. lia.
Qed.

Lemma crc_lin_bound x : 0 <= x < 65536 -> 0 <= crc_lin x < 65536.
Proof.
  intros Hx. rewrite crc_lin_iter by done.
  assert (forall n, 0 <= Nat.iter n crc_bit x < 65536) as H; [|apply (H 8%nat)].
  induction n as [|n IH]; [done|]. change (Nat.iter (S n) crc_bit x) with (crc_bit (Nat.iter n crc_bit x)).
  unfold crc_bit at 1 3. case_match; [|apply u16_bound].
  apply (lxor_bound 16); [done|apply u16_bound|done].
Qed.

(** The octet may as well enter at the top of the register. *)
Lemma crc_step_lin crc c : 0 <= crc < 65536 -> octet_ok c ->
  crc_step crc c = crc_lin (Z.lxor crc (Z.shiftl c 8)).
Proof.
  intros Hcrc Hc. unfold octet_ok in *. unfold crc_step, crc_lin. rewrite linear_swap.
  assert (crc_swap (Z.shiftl c 8) = c) as ->.
  { unfold crc_swap, u16. rewrite Z.shiftr_shiftl_l, Z.shiftl_shiftl by lia.
    rewrite (Z.shiftl_mul_pow2 c (8 + 8)) by lia.
    change (2 ^ (8 + 8)) with 65536. rewrite Z.mod_mul by lia.
    by rewrite Z.lxor_0_r, Z.shiftl_0_r. }
  assert (Z.lor (Z.shiftr crc 8) (u16 (Z.shiftl crc 8)) = crc_swap crc) as ->; [|done].
  unfold crc_swap, u16. rewrite Z.shiftr_div_pow2 by lia.
  rewrite Z.shiftl_mul_pow2 by lia. replace ((crc * 2 ^ 8) mod 65536) with (2 ^ 8 * (crc mod 256)) by zdm.
  rewrite Z.lxor_lor; [done|]. apply land_shiftl_small; zdm.
Qed.

Lemma crc_fold_bound b s : octets_ok b -> 0 <= s < 65536 -> 0 <= fold_left crc_step b s < 65536.
Proof.
  intros Hb. revert s. induction Hb as [|c b Hc Hb IH]; intros s Hs; simpl; [done|].
  apply IH. rewrite crc_step_lin by done. by apply crc_lin_bound, crc_arg_bound.
Qed.

(** C35. The optimised CRC is the standard one: the table-free update of [CRC16]
    computes CRC-16/AUG-CCITT as its polynomial defines it, on every octet
    sequence. *)
Theorem CRC16_reference b : octets_ok b -> CRC16 b = crc_reference b.
Proof.
  intros Hb. unfold CRC16, crc_reference, crcInit.
  assert (H : 0 <= 0x1D0F < 65536) by done. revert H. generalize 0x1D0F as s.
  induction Hb as [|c b Hc Hb IH]; intros s Hs; simpl; [done|].
  rewrite crc_step_lin by done. unfold crc_octet.
  rewrite <- crc_lin_iter by by apply crc_arg_bound.
  by apply IH, crc_lin_bound, crc_arg_bound.
Qed.

Lemma crc_lin_inj x y : 0 <= x < 65536 -> 0 <= y < 65536 -> crc_lin x = crc_lin y -> x = y.
Proof. intros Hx Hy E. by rewrite <- (crc_unbit_bit x), <- (crc_unbit_bit y), E by done. Qed.

Lemma crc_step_inj s s' c : 0 <= s < 65536 -> 0 <= s' < 65536 -> octet_ok c ->
  crc_step s c = crc_step s' c -> s = s'.
Proof.
  intros Hs Hs' Hc. rewrite !crc_step_lin by done. intros H%crc_lin_inj; [|by apply crc_arg_bound..].
  rewrite !(Z.lxor_comm _ (Z.shiftl c 8)) in H. by apply lxor_cancel_l in H.
Qed.

Lemma crc_fold_inj b s s' : octets_ok b -> 0 <= s < 65536 -> 0 <= s' < 65536 ->
  fold_left crc_step b s = fold_left crc_step b s' -> s = s'.
Proof.
  intros Hb. revert s s'. induction Hb as [|c b Hc Hb IH]; intros s s' Hs Hs'; simpl; [done|].
  intros H%IH; [by apply crc_step_inj in H| |];
    rewrite crc_step_lin by done; by apply crc_lin_bound, crc_arg_bound.
Qed.

(** The low octet of the register tells which octet entered. *)
Lemma crc_lin_top_low d : octet_ok d -> Z.land (crc_lin (Z.shiftl d 8)) 0xff = 0 -> d = 0.
Proof.
  intros Hd H.
  assert (implb (Z.land (crc_lin (Z.shiftl d 8)) 0xff =? 0) (d =? 0) = true) as Hi
    by (clear H; revert d Hd; apply octet_check; by vm_compute).
  rewrite H in Hi. by apply Z.eqb_eq in Hi.
Qed.

Lemma crc_burst s x y x' y' : 0 <= s < 65536 -> octets_ok [x; y; x'; y'] ->
  fold_left crc_step [x; y] s = fold_left crc_step [x'; y'] s -> [x; y] = [x'; y'].
Proof.
  rewrite !Forall_cons. intros Hs (Hx & Hy & Hx' & Hy' & _). simpl.
  assert (Hb : forall c, octet_ok c -> 0 <= crc_step s c < 65536).
  { intros c Hc. rewrite crc_step_lin by done. by apply crc_lin_bound, crc_arg_bound. }
  rewrite !(crc_step_lin (crc_step s _)) by auto. intros E%crc_lin_inj; [|apply crc_arg_bound; auto..].
  assert (Hd : Z.lxor (crc_step s x) (crc_step s x') = Z.shiftl (Z.lxor y y') 8).
  { rewrite Z.shiftl_lxor. apply (lxor_cancel_l (crc_step s x')).
    apply (lxor_cancel_l (Z.shiftl y 8)). revert E. generalize (crc_step s x), (crc_step s x').
    intros a b E. transitivity (Z.lxor a (Z.shiftl y 8)); [by lxor_bits|]. rewrite E. by lxor_bits. }
  assert (Z.lxor x x' = 0) as Hxx.
  { apply crc_lin_top_low; [by apply (lxor_bound 8)|].
    replace (crc_lin _) with (Z.shiftl (Z.lxor y y') 8).
    - rewrite Z.shiftl_mul_pow2 by lia. change 255 with (Z.ones 8).
      rewrite Z.land_ones by lia. by apply Z.mod_mul.
    - rewrite <- Hd, !crc_step_lin by done. rewrite <- linear_crc_lin, Z.shiftl_lxor.
      f_equal. by lxor_bits. }
  apply Z.lxor_eq in Hxx as ->. rewrite Z.lxor_nilpotent in Hd.
  symmetry in Hd. apply Z.shiftl_eq_0_iff in Hd; [|done]. by apply Z.lxor_eq in Hd as ->.
Qed.

Lemma AppendBody_octets f : 0 <= f_Address f < 128 -> octet_ok (f_Control f) ->
  (forall s, f_Security f = Some s -> octet_ok (sb_Type s) /\ octets_ok (sb_Data s)) ->
  octet_ok (f_Code f) -> octets_ok (f_Data f) -> octets_ok (AppendBody f []).
Proof.
  intros Ha Hc Hs Hcode Hd. rewrite AppendBody_eq. simpl app.
  destruct (addr_octet_encode (f_Address f)) as (_ & _ & A & B & C); [done|].
  repeat (apply Forall_cons; split); try done; try apply u8_ok.
  - unfold addr_octet. destruct (f_IsReply f); [done|]. unfold octet_ok. lia.
  - apply Forall_app; split; [|by apply Forall_cons].
    destruct (f_Security f) as [sb|] eqn:Es; [|done]. destruct (Hs sb eq_refl).
    repeat (apply Forall_cons; split); try done. apply u8_ok.
Qed.

Lemma AppendBody_ok f : frame_ok f -> octets_ok (AppendBody f []).
Proof. intros []. by apply AppendBody_octets. Qed.

(** *** Sealed frames *)

Lemma NewControl_spec seq scheme sec : 0 <= seq <= 3 ->
  let c := NewControl seq scheme sec in
  octet_ok c /\ Control_Sequence c = seq /\ Control_Scheme c = scheme /\
  Control_HasSecurityBlock c = sec.
Proof.
  intros Hs. assert (seq = 0 \/ seq = 1 \/ seq = 2 \/ seq = 3) as H by lia.
  destruct H as [-> | [-> | [-> | ->]]], scheme, sec; by vm_compute.
Qed.

Lemma Address_Valid_lt a : a < 128 -> negb (Address_Valid a) = false.
Proof. intros. unfold Address_Valid, BroadcastAddress. by rewrite bool_decide_true by lia. Qed.

Lemma Checksum_ok b : octet_ok (Checksum b).
Proof. apply u8_ok. Qed.

Lemma ComputeCheck_bound f : octets_ok (AppendBody f []) ->
  0 <= ComputeCheck f < 256 ^ Scheme_Size (Control_Scheme (f_Control f)).
Proof.
  intros Hb. unfold ComputeCheck. destruct (Control_Scheme _); simpl.
  - apply Checksum_ok.
  - by apply crc_fold_bound.
Qed.

Lemma CheckOK_Seal f : CheckOK (Seal f) = true.
Proof. by apply bool_decide_eq_true. Qed.

(** Sealing completes a well-formed frame. *)
Lemma Seal_ok f : 0 <= f_Address f < 128 -> octet_ok (f_Control f) ->
  Control_HasSecurityBlock (f_Control f) = bool_decide (is_Some (f_Security f)) ->
  (forall s, f_Security f = Some s -> octet_ok (sb_Type s) /\ octets_ok (sb_Data s)) ->
  octet_ok (f_Code f) -> octets_ok (f_Data f) -> frame_ok (Seal f).
Proof. intros. split; try done. simpl. by apply ComputeCheck_bound, AppendBody_octets. Qed.

(** The octets of a body but its last [n]: what a message authentication code at
    the end of the payload covers. They do not depend on the code itself. *)
Definition body_before (f : Frame) (n : Z) : octets :=
  slice (AppendBody f []) 0 (len (AppendBody f []) - n).

Lemma body_before_eq f p t : f_Data f = p ++ t ->
  body_before f (len t) = header f ++ sec_octets (f_Security f) ++ [f_Code f] ++ p.
Proof.
  intros Hd. unfold body_before. rewrite AppendBody_eq, Hd.
  change ([] ++ ?l) with l. set (h := header f).
  assert (E : h ++ sec_octets (f_Security f) ++ [f_Code f] ++ p ++ t =
              (h ++ sec_octets (f_Security f) ++ [f_Code f] ++ p) ++ t) by by rewrite <- !app_assoc.
  rewrite E. apply slice_begin. rewrite len_app. lia.
Qed.

Lemma body_before_tag f p t t' : len t = len t' ->
  body_before (f <| f_Data := p ++ t |>) (len t) = body_before (f <| f_Data := p ++ t' |>) (len t).
Proof.
  intros Hl. rewrite (body_before_eq _ p t) by done. rewrite Hl at 1.
  rewrite (body_before_eq _ p t') by done.
  assert (Len (f <| f_Data := p ++ t |>) = Len (f <| f_Data := p ++ t' |>)) as HL
    by (unfold Len; simpl; autorewrite with osdp_len; lia).
  unfold header. rewrite HL. done.
Qed.

Lemma body_before_ok f n : octets_ok (AppendBody f []) -> octets_ok (body_before f n).
Proof. apply Forall_slice. Qed.

(** C36. What the CRC is there for: of two frames that both pass [CheckOK] with
    the same check, the octets either agree or differ somewhere outside any two
    adjacent octets. No corruption confined to two adjacent octets passes. *)
Theorem CheckOK_burst f g p s x y x' y' :
  frame_ok f -> frame_ok g ->
  Control_Scheme (f_Control f) = SchemeCRC16 -> Control_Scheme (f_Control g) = SchemeCRC16 ->
  AppendBody f [] = p ++ [x; y] ++ s -> AppendBody g [] = p ++ [x'; y'] ++ s ->
  f_Check g = f_Check f -> CheckOK f = true -> CheckOK g = true ->
  AppendBody g [] = AppendBody f [].
Proof.
  intros Hf Hg Sf Sg Bf Bg Hc. unfold CheckOK, ComputeCheck. rewrite Sf, Sg.
  intros Cf%bool_decide_eq_true Cg%bool_decide_eq_true.
  pose proof (AppendBody_ok f Hf) as Of. pose proof (AppendBody_ok g Hg) as Og.
  rewrite Hc, Cf in Cg. rewrite Bf, Bg in *.
  apply Forall_app in Of as [Hp [Hxy Hs]%Forall_app]. apply Forall_app in Og as [_ [Hxy' _]%Forall_app].
  unfold CRC16 in Cg. rewrite !fold_left_app in Cg.
  assert (0 <= fold_left crc_step p crcInit < 65536) as Hb by (apply crc_fold_bound; done).
  apply crc_fold_inj in Cg; [|done|apply crc_fold_bound; done..].
  apply crc_burst in Cg; [by rewrite Cg|done|].
  rewrite !Forall_cons in *. naive_solver.
Qed.

Arguments NewControl : simpl never.
Arguments Seal : simpl never.
Arguments CheckOK : simpl never.
Arguments AppendBody : simpl never.
Arguments Len : simpl never.
Arguments ComputeCheck : simpl never.
Arguments Address_Valid : simpl never.

(** ** Witnesses *)

(** [frame_ok] of a concrete frame, by evaluation. *)
Definition octetb (x : Z) : bool := (0 <=? x) && (x <? 256).
Definition frame_check (f : Frame) : bool :=
  (0 <=? f_Address f) && (f_Address f <? 128) && octetb (f_Control f) &&
  eqb (Control_HasSecurityBlock (f_Control f)) (bool_decide (is_Some (f_Security f))) &&
  match f_Security f with
  | Some s => octetb (sb_Type s) && forallb octetb (sb_Data s)
  | None => true
  end && octetb (f_Code f) && forallb octetb (f_Data f) &&
  (0 <=? f_Check f) &&
  (f_Check f <? 256 ^ Scheme_Size (Control_Scheme (f_Control f))).

Lemma octetb_ok x : octetb x = true -> octet_ok x.
Proof. unfold octetb, octet_ok. lia. Qed.

Lemma frame_check_ok f : frame_check f = true -> frame_ok f.
Proof.
  unfold frame_check. intros H. repeat (apply andb_true_iff in H as [H ?]).
  split; try (by apply octetb_ok); try lia.
  - by apply eqb_prop.
  - intros s E. rewrite E in *. repeat match goal with X : _ && _ = true |- _ => apply andb_true_iff in X as [? ?] end.
    split; [by apply octetb_ok|by apply octets_ok_check].
  - by apply octets_ok_check.
Qed.

(** A sealed osdp_POLL to the device at 0x12, sequence 1. *)
Definition poll_frame : Frame :=
  Seal (mk_Frame false false 0x12 (NewControl 1 SchemeCRC16 false) None 0x60 [] 0).
Definition poll_wire : octets := wire_octets poll_frame.

Lemma poll_frame_ok : frame_ok poll_frame.
Proof.
  assert (Hc : 0 <= f_Check poll_frame < 65536) by by vm_compute.
  split; [by vm_compute..|done|by vm_compute|by apply Forall_nil|exact Hc].
Qed.

Lemma poll_wire_eq : Append poll_frame [] = Ok poll_wire.
Proof. by vm_compute. Qed.

Example decode_append_witness : Decode (poll_wire ++ [1; 2; 3]) = (poll_frame, None).
Proof. exact (decode_append poll_frame poll_wire [1; 2; 3] poll_frame_ok poll_wire_eq). Defined.

Example append_decode_witness :
  frame_ok poll_frame /\ WireLen poll_frame <= len poll_wire /\
  Append poll_frame [] = Ok (slice poll_wire 0 (WireLen poll_frame)).
Proof.
  apply (append_decode poll_wire poll_frame None).
  - octets_dec.
  - by vm_compute.
  - by left.
Defined.

Example decode_stable_witness : Decode (poll_wire ++ [0x53]) = Decode poll_wire.
Proof. apply (decode_stable poll_wire [0x53]). by vm_compute. Defined.

Example decode_prefix_witness :
  Decode (take 5 poll_wire) = (Frame_zero, Some (EFrame ErrShortBuffer)).
Proof. apply (decode_prefix poll_frame poll_wire 5 poll_frame_ok poll_wire_eq). simpl; lia. Defined.

(** The standard check value of CRC-16/AUG-CCITT over the digits 1 to 9. *)
Example CRC16_reference_witness : CRC16 (seqZ 0x31 9) = 0xE5CC.
Proof. rewrite (CRC16_reference (seqZ 0x31 9)); [by vm_compute|octets_dec]. Defined.

Example CheckOK_burst_witness : AppendBody poll_frame [] = AppendBody poll_frame [].
Proof.
  apply (CheckOK_burst poll_frame poll_frame [SOM; 0x12] [0x05; 0x60] 8 0 8 0
    poll_frame_ok poll_frame_ok); by vm_compute.
Defined.
