(* ===== verification/Cmd.v ===== *)
(** * Commands and replies: internal/cmd

    The code constants of codes.go, the [Message] of message.go with [Decode],
    [Encode] and [EncodeSecure], and every payload parser and builder:
    payloads.go, capabilities.go, comset.go, keyset.go, led.go, output.go,
    status.go and text.go. Enumerations that are a Go [byte] are the octet they
    are on the wire, since an unknown value is a value; a [time.Duration] is its
    number of nanoseconds. The theorems: what each parser accepts and recovers
    from what the builder writes, and that no numeric field wraps. *)

From S2P Require Import Prelude Errors.
From S2P Require Frame.

(** ** codes.go *)

Definition Poll : Z := 0x60.
Definition ID : Z := 0x61.
Definition Cap : Z := 0x62.
Definition LStat : Z := 0x64.
Definition IStat : Z := 0x65.
Definition OStat : Z := 0x66.
Definition RStat : Z := 0x67.
Definition Out : Z := 0x68.
Definition LED : Z := 0x69.
Definition Buz : Z := 0x6A.
Definition Text : Z := 0x6B.
Definition ComSet : Z := 0x6E.
Definition BioRead : Z := 0x73.
Definition BioMatch : Z := 0x74.
Definition KeySet : Z := 0x75.
Definition Chlng : Z := 0x76.
Definition SCrypt : Z := 0x77.
Definition ACURxSize : Z := 0x7B.
Definition FileTransfer : Z := 0x7C.
Definition MFG : Z := 0x80.
Definition AbortCode : Z := 0xA2.
Definition PIVData : Z := 0xA3.
Definition GenAuth : Z := 0xA4.
Definition CRAuth : Z := 0xA5.
Definition KeepActive : Z := 0xA7.

Definition ACK : Z := 0x40.
Definition NAK : Z := 0x41.
Definition PDID : Z := 0x45.
Definition PDCap : Z := 0x46.
Definition LStatR : Z := 0x48.
Definition IStatR : Z := 0x49.
Definition OStatR : Z := 0x4A.
Definition RStatR : Z := 0x4B.
Definition Raw : Z := 0x50.
Definition Keypad : Z := 0x53.
Definition Com : Z := 0x54.
Definition BioReadR : Z := 0x57.
Definition CCrypt : Z := 0x76.
Definition RMACI : Z := 0x78.
Definition MFGReply : Z := 0x90.
Definition Busy : Z := 0x79.

Definition IsCommand (c : Z) : bool := bool_decide (0x60 <= c).

(** ** message.go *)

Record Message := mk_Message {
  m_Code : Z;
  m_IsReply : bool;
  m_Data : octets
}.

#[global] Instance Message_eq : EqDecision Message.
Proof. solve_decision. Defined.
#[global] Instance Message_eta : Eta Message := fun m =>
  mk_Message (m_Code m) (m_IsReply m) (m_Data m).

(** A message a frame can carry. *)
Record msg_ok (m : Message) : Prop := mk_msg_ok {
  mok_code : octet_ok (m_Code m);
  mok_data : octets_ok (m_Data m)
}.

Definition Decode (f : Frame.Frame) : Message :=
  mk_Message (Frame.f_Code f) (Frame.f_IsReply f) (Frame.f_Data f).

Definition Encode (m : Message) (addr seq : Z) (scheme : Frame.Scheme) : result Frame.Frame :=
  if negb (Frame.Address_Valid addr) then Err ErrInvalidAddress
  else
    let f := Frame.mk_Frame false (m_IsReply m) addr (Frame.NewControl seq scheme false) None
               (m_Code m) (m_Data m) 0 in
    Ok (Frame.Seal f).

Definition EncodeSecure (m : Message) (addr seq : Z) (scheme : Frame.Scheme)
    (block : Frame.SecurityBlock) : result Frame.Frame :=
  if negb (Frame.Address_Valid addr) then Err ErrInvalidAddress
  else Ok (Frame.mk_Frame false (m_IsReply m) addr (Frame.NewControl seq scheme true) (Some block)
             (m_Code m) (m_Data m) 0).

(** ** errors.go *)

Definition NAKCheckFailed : Z := 0x01.
Definition NAKCommandLength : Z := 0x02.
Definition NAKUnknownCommand : Z := 0x03.
Definition NAKSequenceError : Z := 0x04.
Definition NAKSecureRequired : Z := 0x05.
Definition NAKEncryptionUnsup : Z := 0x06.
Definition NAKUnsupportedInput : Z := 0x09.

Definition ParseNAK (data : octets) : result Z :=
  if decide (len data < 1) then Err ErrShortPayload else Ok (idx data 0).

(** ** payloads.go *)

Record DeviceID := mk_DeviceID {
  di_VendorCode : octets;
  di_Model : octet;
  di_Version : octet;
  di_Serial : Z;
  di_Firmware : octets
}.

#[global] Instance DeviceID_eq : EqDecision DeviceID.
Proof. solve_decision. Defined.

Definition DeviceIDSize : Z := 12.

Definition ParseDeviceID (data : octets) : result DeviceID :=
  if decide (len data < DeviceIDSize) then Err ErrShortPayload
  else Ok (mk_DeviceID (slice data 0 3) (idx data 3) (idx data 4)
             (le32 (idx data 5) (idx data 6) (idx data 7) (idx data 8)) (slice data 9 12)).

Definition be24 (a b c : Z) : Z := Z.lor (Z.shiftl a 16) (Z.lor (Z.shiftl b 8) c).

Definition OUI (d : DeviceID) : Z :=
  be24 (idx (di_VendorCode d) 0) (idx (di_VendorCode d) 1) (idx (di_VendorCode d) 2).

Record CardRead := mk_CardRead {
  cr_Reader : octet;
  cr_Format : octet;
  cr_BitCount : Z;
  cr_Data : octets
}.

#[global] Instance CardRead_eq : EqDecision CardRead.
Proof. solve_decision. Defined.

Definition ParseCardRead (data : octets) : result CardRead :=
  if decide (len data < 4) then Err ErrShortPayload
  else
    let c := mk_CardRead (idx data 0) (idx data 1) (le16 (idx data 2) (idx data 3))
               (slice data 4 (len data)) in
    let need := (cr_BitCount c + 7) / 8 in
    if decide (len (cr_Data c) < need) then Err ErrShortPayload else Ok c.

Record KeypadEntry := mk_KeypadEntry {
  ke_Reader : octet;
  ke_Keys : octets
}.

#[global] Instance KeypadEntry_eq : EqDecision KeypadEntry.
Proof. solve_decision. Defined.

Definition ParseKeypadEntry (data : octets) : result KeypadEntry :=
  if decide (len data < 2) then Err ErrShortPayload
  else
    let count := idx data 1 in
    if decide (len (slice data 2 (len data)) < count) then Err ErrShortPayload
    else Ok (mk_KeypadEntry (idx data 0) (slice data 2 (2 + count))).

Record ManufacturerMessage := mk_ManufacturerMessage {
  mm_OUI : Z;
  mm_Body : octets
}.

#[global] Instance ManufacturerMessage_eq : EqDecision ManufacturerMessage.
Proof. solve_decision. Defined.

Definition ParseManufacturerMessage (data : octets) : result ManufacturerMessage :=
  if decide (len data < 3) then Err ErrShortPayload
  else Ok (mk_ManufacturerMessage (be24 (idx data 0) (idx data 1) (idx data 2))
             (slice data 3 (len data))).

Definition ManufacturerMessage_Append (m : ManufacturerMessage) (dst : octets) : octets :=
  (dst ++ [u8 (Z.shiftr (mm_OUI m) 16); u8 (Z.shiftr (mm_OUI m) 8); u8 (mm_OUI m)]) ++ mm_Body m.

(** ** capabilities.go *)

Definition FuncContactStatus : Z := 0x01.
Definition FuncOutputControl : Z := 0x02.
Definition FuncCardDataFormat : Z := 0x03.
Definition FuncReaderLED : Z := 0x04.
Definition FuncReaderAudible : Z := 0x05.
Definition FuncReaderText : Z := 0x06.
Definition FuncCheckCharacter : Z := 0x08.
Definition FuncCommSecurity : Z := 0x09.
Definition FuncReceiveBuffer : Z := 0x0A.
Definition FuncReaders : Z := 0x0D.
Definition FuncOSDPVersion : Z := 0x10.
Definition SecurityAES128 : Z := 0x01.
Definition SecurityDefaultKey : Z := 0x01.
Definition CapabilitySize : Z := 3.

Record Capability := mk_Capability {
  c_Function : octet;
  c_Compliance : octet;
  c_Items : octet
}.

#[global] Instance Capability_eq : EqDecision Capability.
Proof. solve_decision. Defined.

Definition CapabilityReport := list Capability.

(** The loop [for i := 0; i+3 <= len(data); i += 3]. *)
Fixpoint capability_loop (data : octets) : CapabilityReport :=
  match data with
  | a :: b :: c :: rest => mk_Capability a b c :: capability_loop rest
  | _ => []
  end.

Definition ParseCapabilities (data : octets) : result CapabilityReport :=
  if decide (len data mod CapabilitySize <> 0) then Err ErrShortPayload
  else if decide (len data = 0) then Ok []
  else Ok (capability_loop data).

Definition CapabilityReport_Append (r : CapabilityReport) (dst : octets) : octets :=
  fold_left (fun dst c => dst ++ [c_Function c; c_Compliance c; c_Items c]) r dst.

Fixpoint Get (r : CapabilityReport) (fn : Z) : option Capability :=
  match r with
  | [] => None
  | c :: r => if decide (c_Function c = fn) then Some c else Get r fn
  end.

Definition Supports (r : CapabilityReport) (fn : Z) : bool :=
  match Get r fn with
  | Some c => bool_decide (c_Compliance c <> 0)
  | None => false
  end.

Definition ItemsOf (r : CapabilityReport) (fn : Z) : Z :=
  match Get r fn with
  | None => 0
  | Some c => c_Items c
  end.

Definition SecureChannel (r : CapabilityReport) : bool * bool :=
  match Get r FuncCommSecurity with
  | None => (false, false)
  | Some c => (bool_decide (Z.land (c_Compliance c) SecurityAES128 <> 0),
               bool_decide (Z.land (c_Items c) SecurityDefaultKey <> 0))
  end.

Definition ReceiveBufferSize (r : CapabilityReport) : Z :=
  match Get r FuncReceiveBuffer with
  | None => 0
  | Some c => Z.lor (Z.shiftl (c_Items c) 8) (c_Compliance c)
  end.

(** ** comset.go *)

Record Communication := mk_Communication {
  co_Address : octet;
  co_Baud : Z
}.

#[global] Instance Communication_eq : EqDecision Communication.
Proof. solve_decision. Defined.

Definition CommunicationSize : Z := 5.

Definition CommunicationCommand (c : Communication) : Message :=
  mk_Message ComSet false (co_Address c :: put32 (co_Baud c)).

Definition ParseCommunication (data : octets) : result Communication :=
  if decide (len data < CommunicationSize) then Err ErrShortPayload
  else Ok (mk_Communication (idx data 0)
             (le32 (idx data 1) (idx data 2) (idx data 3) (idx data 4))).

Definition StandardBaudRates : list Z := [9600; 19200; 38400; 57600; 115200; 230400].

Definition IsStandardBaud (b : Z) : bool :=
  existsb (fun r => bool_decide (r = b)) StandardBaudRates.

(** ** keyset.go *)

Definition KeySCBK : Z := 0x01.
Definition KeySetHeaderSize : Z := 2.

Definition KeySetCommand (key : octets) : Message :=
  mk_Message KeySet false ([KeySCBK; u8 (len key)] ++ key).

Record KeySetPayload := mk_KeySetPayload {
  ks_Type : octet;
  ks_Key : octets
}.

#[global] Instance KeySetPayload_eq : EqDecision KeySetPayload.
Proof. solve_decision. Defined.

Definition ParseKeySet (data : octets) : result KeySetPayload :=
  if decide (len data < KeySetHeaderSize) then Err ErrShortPayload
  else
    let length := idx data 1 in
    if decide (len (slice data KeySetHeaderSize (len data)) < length) then Err ErrShortPayload
    else Ok (mk_KeySetPayload (idx data 0) (slice data KeySetHeaderSize (KeySetHeaderSize + length))).

(** ** output.go *)

(** [100 * time.Millisecond], in nanoseconds. *)
Definition tick : Z := 100000000.
Definition Second : Z := 1000000000.

Definition ticks (d limit : Z) : Z :=
  if decide (d <= 0) then 0
  else
    let n := Z.quot d tick in
    if decide (n > limit) then limit else n.

Definition OutputNOP : Z := 0x00.
Definition OutputOffAbort : Z := 0x01.
Definition OutputOnAbort : Z := 0x02.
Definition OutputOffAfterTimer : Z := 0x03.
Definition OutputOnAfterTimer : Z := 0x04.
Definition OutputTimedOn : Z := 0x05.
Definition OutputTimedOff : Z := 0x06.

Record Output := mk_Output {
  o_Number : octet;
  o_Control : octet;
  o_Timer : Z
}.

Definition maxOutputTimer : Z := 0xFFFF.

Definition OutputCommand (outputs : list Output) : Message :=
  let data := fold_left (fun data o =>
    let t := ticks (o_Timer o) maxOutputTimer in
    data ++ [o_Number o; o_Control o; u8 t; u8 (Z.shiftr t 8)]) outputs [] in
  mk_Message Out false data.

Definition maxToneTime : Z := 0xFF.

Definition BuzzerCommand (reader tone on off count : Z) : Message :=
  mk_Message Buz false
    [reader; tone; u8 (ticks on maxToneTime); u8 (ticks off maxToneTime); count].

(** ** led.go *)

Definition ColourBlack : octet := 0.
Definition ColourRed : octet := 1.
Definition ColourGreen : octet := 2.
Definition ColourAmber : octet := 3.
Definition ColourBlue : octet := 4.
Definition ColourMagenta : octet := 5.
Definition ColourCyan : octet := 6.
Definition ColourWhite : octet := 7.

Definition LEDNOP : octet := 0x00.
Definition LEDCancel : octet := 0x01.
Definition LEDSet : octet := 0x02.
Definition LEDSetPermanent : octet := 0x01.

Record LEDState := mk_LEDState {
  ls_Control : octet;
  ls_On : Z;
  ls_Off : Z;
  ls_OnColour : octet;
  ls_OffColour : octet
}.

Definition maxLEDTime : Z := 0xFF.
Definition maxLEDTimer : Z := 0xFFFF.
Definition LEDBlockSize : Z := 14.

Definition LEDCommand (reader led : Z) (temporary : LEDState) (hold : Z) (permanent : LEDState) : Message :=
  let t := ticks hold maxLEDTimer in
  mk_Message LED false
    [ reader; led;
      ls_Control temporary;
      u8 (ticks (ls_On temporary) maxLEDTime);
      u8 (ticks (ls_Off temporary) maxLEDTime);
      ls_OnColour temporary;
      ls_OffColour temporary;
      u8 t; u8 (Z.shiftr t 8);
      ls_Control permanent;
      u8 (ticks (ls_On permanent) maxLEDTime);
      u8 (ticks (ls_Off permanent) maxLEDTime);
      ls_OnColour permanent;
      ls_OffColour permanent ].

(** ** status.go *)

Inductive StatusKind :=
  | StatusUnspecified | StatusInput | StatusOutput | StatusTamper | StatusPower | StatusLocal.

#[global] Instance StatusKind_eq : EqDecision StatusKind.
Proof. solve_decision. Defined.

Record StatusChange := mk_StatusChange {
  sc_Kind : StatusKind;
  sc_Index : Z;
  sc_Active : bool
}.

#[global] Instance StatusChange_eq : EqDecision StatusChange.
Proof. solve_decision. Defined.

Definition parseContacts (kind : StatusKind) (data : octets) : result (list StatusChange) :=
  Ok (imap (fun i v => mk_StatusChange kind (Z.of_nat i) (bool_decide (v <> 0))) data).

Definition ParseInputStatus (data : octets) := parseContacts StatusInput data.
Definition ParseOutputStatus (data : octets) := parseContacts StatusOutput data.
Definition ParseReaderStatus (data : octets) := parseContacts StatusLocal data.

Definition LocalStatusSize : Z := 2.

Definition ParseLocalStatus (data : octets) : result (list StatusChange) :=
  if decide (len data < LocalStatusSize) then Err ErrShortPayload
  else Ok [ mk_StatusChange StatusTamper 0 (bool_decide (idx data 0 <> 0));
            mk_StatusChange StatusPower 0 (bool_decide (idx data 1 <> 0)) ].

Definition LocalStatusCommand : Message := mk_Message LStat false [].
Definition InputStatusCommand : Message := mk_Message IStat false [].
Definition OutputStatusCommand : Message := mk_Message OStat false [].
Definition ReaderStatusCommand : Message := mk_Message RStat false [].

(** ** text.go *)

Definition TextPermanent : Z := 0x01.
Definition TextPermanentWrap : Z := 0x02.
Definition TextTemporary : Z := 0x03.
Definition TextTemporaryWrap : Z := 0x04.

Definition TextControl_Temporary (c : Z) : bool :=
  bool_decide (c = TextTemporary \/ c = TextTemporaryWrap).

Definition MaxTextLength : Z := 0xFF.
Definition MaxTextHold : Z := 0xFF.

(** The [Content] string is its octets. *)
Record TextDisplay := mk_TextDisplay {
  td_Reader : octet;
  td_Control : octet;
  td_Hold : Z;
  td_Row : octet;
  td_Column : octet;
  td_Content : octets
}.

Definition originOf (n : Z) : Z := if decide (n = 0) then 1 else n.

Definition seconds (d limit : Z) : Z :=
  if decide (d <= 0) then 0
  else
    let n := Z.quot d Second in
    if decide (n > limit) then limit else n.

Definition TextCommand (d : TextDisplay) : Message :=
  let content := td_Content d in
  let content := if decide (len content > MaxTextLength) then slice content 0 MaxTextLength
                 else content in
  let control := td_Control d in
  let control := if decide (control = 0) then TextPermanent else control in
  let data := [ td_Reader d; control; u8 (seconds (td_Hold d) MaxTextHold);
                originOf (td_Row d); originOf (td_Column d); u8 (len content) ] in
  mk_Message Text false (data ++ content).

(** ** Round trips *)

Lemma CapabilityReport_Append_eq r dst :
  CapabilityReport_Append r dst =
    dst ++ concat (map (fun c => [c_Function c; c_Compliance c; c_Items c]) r).
Proof. apply (fold_left_append (fun c => [c_Function c; c_Compliance c; c_Items c])). Qed.

Lemma len_CapabilityReport_Append r : len (CapabilityReport_Append r []) = 3 * len r.
Proof.
  rewrite CapabilityReport_Append_eq. simpl. induction r as [|c r IH]; [done|].
  simpl. rewrite !len_cons, IH. lia.
Qed.

Lemma capability_loop_append r : capability_loop (CapabilityReport_Append r []) = r.
Proof.
  rewrite CapabilityReport_Append_eq. simpl.
  induction r as [|c r IH]; simpl; [done|]. rewrite IH. by destruct c.
Qed.

Lemma capability_loop_inv n data : len data = 3 * Z.of_nat n ->
  CapabilityReport_Append (capability_loop data) [] = data.
Proof.
  rewrite CapabilityReport_Append_eq. simpl. revert data. induction n as [|n IH]; intros data Hl.
  - by rewrite (len_zero_nil data) by lia.
  - destruct data as [|a [|b [|c data]]]; rewrite ?len_cons, ?len_nil in Hl; try lia.
    simpl. rewrite IH by lia. done.
Qed.

(** A capability report parses exactly when its payload is a sequence of
    three-octet entries, and then it is the one report whose re-encoding is the
    payload: [ParseCapabilities] and [Append] are inverse to each other. *)
Theorem ParseCapabilities_spec data r :
  ParseCapabilities data = Ok r <-> data = CapabilityReport_Append r [].
Proof.
  unfold ParseCapabilities, CapabilitySize. split.
  - case_decide as Hm; [done|]. case_decide as H0; intros [= <-].
    + by rewrite (len_zero_nil data).
    + symmetry. apply (capability_loop_inv (Z.to_nat (len data / 3))).
      pose proof (len_nonneg data). zdm.
  - intros ->. pose proof (len_CapabilityReport_Append r) as Hl.
    rewrite decide_False by (rewrite Hl; len_facts; zdm).
    case_decide as H0; [|by rewrite capability_loop_append].
    rewrite (len_zero_nil r) by lia. done.
Qed.

Lemma be24_eq a b c : octets_ok [a; b; c] -> be24 a b c = 65536 * a + 256 * b + c.
Proof.
  rewrite !Forall_cons. intros (Ha & Hb & Hc & _). unfold octet_ok, be24 in *.
  rewrite (Z.lor_comm (Z.shiftl b 8)), (lor_shiftl_add c b 8), Z.lor_comm by lia.
  rewrite lor_shiftl_add by lia. lia.
Qed.

Lemma be24_put x : 0 <= x < 16777216 ->
  be24 (u8 (Z.shiftr x 16)) (u8 (Z.shiftr x 8)) (u8 x) = x.
Proof.
  intros. rewrite be24_eq by (repeat constructor; apply u8_ok). octet_arith.
Qed.

Lemma ParseCommunication_command c rest : 0 <= co_Baud c < 4294967296 ->
  ParseCommunication (m_Data (CommunicationCommand c) ++ rest) = Ok c.
Proof.
  intros Hb. unfold ParseCommunication, CommunicationSize. simpl.
  rewrite decide_False by len_solve. rewrite le32_put by done. by destruct c.
Qed.

Lemma ParseKeySet_command key rest : len key <= 255 ->
  ParseKeySet (m_Data (KeySetCommand key) ++ rest) = Ok (mk_KeySetPayload KeySCBK key).
Proof.
  intros Hk. unfold ParseKeySet, KeySetHeaderSize. simpl.
  rewrite u8_id by (unfold octet_ok; len_facts; lia).
  change (KeySCBK :: len key :: key ++ rest) with ([KeySCBK; len key] ++ (key ++ rest)).
  rewrite decide_False by len_solve. rewrite slice_end by done.
  rewrite decide_False by len_solve.
  by rewrite (slice_mid [KeySCBK; len key] key rest).
Qed.

Lemma ParseManufacturerMessage_Append m : 0 <= mm_OUI m < 16777216 ->
  ParseManufacturerMessage (ManufacturerMessage_Append m []) = Ok m.
Proof.
  intros Hm. unfold ParseManufacturerMessage, ManufacturerMessage_Append. simpl.
  rewrite decide_False by len_solve.
  rewrite be24_put by done. destruct m as [o b]; simpl. do 2 f_equal.
  by apply (slice_end [_; _; _] b).
Qed.

(** C37. Round trips between the two ends: the device parses from a panel's
    osdp_COMSET the address and speed it was built from, from osdp_KEYSET the
    key, and a vendor message re-encodes and parses to itself; octets that
    follow a fixed payload do not disturb it. *)
Theorem payload_roundtrips c key m rest :
  0 <= co_Baud c < 2 ^ 32 -> len key <= 255 -> 0 <= mm_OUI m < 2 ^ 24 ->
  ParseCommunication (m_Data (CommunicationCommand c) ++ rest) = Ok c /\
  ParseKeySet (m_Data (KeySetCommand key) ++ rest) = Ok (mk_KeySetPayload KeySCBK key) /\
  ParseManufacturerMessage (ManufacturerMessage_Append m []) = Ok m.
Proof.
  intros. split_and!.
  - by apply ParseCommunication_command.
  - by apply ParseKeySet_command.
  - by apply ParseManufacturerMessage_Append.
Qed.

(** ** Numeric fields *)

Lemma ticks_eq d limit : 0 <= limit -> ticks d limit = Z.min limit (Z.max 0 d / tick).
Proof.
  intros Hl. unfold ticks, tick. case_decide.
  - rewrite Z.max_l by lia. rewrite Z.div_0_l by lia. lia.
  - rewrite Z.quot_div_nonneg, Z.max_r by lia. case_decide; lia.
Qed.

Lemma seconds_eq d limit : 0 <= limit -> seconds d limit = Z.min limit (Z.max 0 d / Second).
Proof.
  intros Hl. unfold seconds, Second. case_decide.
  - rewrite Z.max_l by lia. rewrite Z.div_0_l by lia. lia.
  - rewrite Z.quot_div_nonneg, Z.max_r by lia. case_decide; lia.
Qed.

Lemma ticks_bound d limit : 0 <= limit -> 0 <= ticks d limit <= limit.
Proof. intros. rewrite ticks_eq by done. unfold tick. zdm. Qed.

Lemma seconds_bound d limit : 0 <= limit -> 0 <= seconds d limit <= limit.
Proof. intros. rewrite seconds_eq by done. unfold Second. zdm. Qed.

Lemma OutputCommand_eq outputs :
  m_Data (OutputCommand outputs) = concat (map (fun o =>
    [o_Number o; o_Control o] ++ put16 (ticks (o_Timer o) maxOutputTimer)) outputs).
Proof.
  apply (fold_left_append (fun o =>
    [o_Number o; o_Control o] ++ put16 (ticks (o_Timer o) maxOutputTimer)) outputs []).
Qed.

(** Saturation, never wrap-around: the timer a device reads from an
    osdp_OUT, osdp_LED or osdp_BUZ is the requested duration rounded down to
    100 ms, or the largest the field holds when that is longer. *)
Theorem timers_saturate o reader led temp perm hold on off count tone :
  let out := m_Data (OutputCommand [o]) in
  let l := m_Data (LEDCommand reader led temp hold perm) in
  let b := m_Data (BuzzerCommand reader tone on off count) in
  le16 (idx out 2) (idx out 3) = Z.min 0xFFFF (Z.max 0 (o_Timer o) / tick) /\
  le16 (idx l 7) (idx l 8) = Z.min 0xFFFF (Z.max 0 hold / tick) /\
  idx l 3 = Z.min 0xFF (Z.max 0 (ls_On temp) / tick) /\
  idx l 4 = Z.min 0xFF (Z.max 0 (ls_Off temp) / tick) /\
  idx l 10 = Z.min 0xFF (Z.max 0 (ls_On perm) / tick) /\
  idx l 11 = Z.min 0xFF (Z.max 0 (ls_Off perm) / tick) /\
  idx b 2 = Z.min 0xFF (Z.max 0 on / tick) /\
  idx b 3 = Z.min 0xFF (Z.max 0 off / tick) /\
  len l = LEDBlockSize.
Proof.
  assert (H8 : forall d, u8 (ticks d 0xFF) = Z.min 0xFF (Z.max 0 d / tick)).
  { intros d. rewrite <- ticks_eq by lia. apply u8_id. pose proof (ticks_bound d 0xFF).
    unfold octet_ok. lia. }
  assert (H16 : forall d, le16 (u8 (ticks d 0xFFFF)) (u8 (Z.shiftr (ticks d 0xFFFF) 8)) =
                          Z.min 0xFFFF (Z.max 0 d / tick)).
  { intros d. rewrite <- ticks_eq by lia. apply le16_put. pose proof (ticks_bound d 0xFFFF). lia. }
  cbv zeta. split_and!; first [apply H16 | apply H8 | done].
Qed.

(** osdp_TEXT never desynchronises the display: whatever is asked for, the
    length octet counts exactly the content that follows it, that content is
    the message cut at 255 octets, the hold time is in whole seconds and
    saturates, and neither position octet is zero. *)
Theorem TextCommand_fits d :
  octet_ok (td_Row d) -> octet_ok (td_Column d) ->
  let data := m_Data (TextCommand d) in
  exists content,
    data = slice data 0 6 ++ content /\ idx data 5 = len content /\
    content = slice (td_Content d) 0 (Z.min 255 (len (td_Content d))) /\
    idx data 2 = Z.min 255 (Z.max 0 (td_Hold d) / Second) /\
    1 <= idx data 3 < 256 /\ 1 <= idx data 4 < 256.
Proof.
  intros Hr Hc data.
  exists (slice (td_Content d) 0 (Z.min 255 (len (td_Content d)))).
  assert (Ho : forall n, octet_ok n -> 1 <= originOf n < 256)
    by (unfold originOf, octet_ok; intros; case_decide; lia).
  assert (Hs : u8 (seconds (td_Hold d) MaxTextHold) = Z.min 255 (Z.max 0 (td_Hold d) / Second)).
  { unfold MaxTextHold. rewrite <- seconds_eq by lia. apply u8_id.
    pose proof (seconds_bound (td_Hold d) 255). unfold octet_ok. lia. }
  assert (Hcon : (if decide (len (td_Content d) > MaxTextLength)
                  then slice (td_Content d) 0 MaxTextLength else td_Content d) =
                 slice (td_Content d) 0 (Z.min 255 (len (td_Content d)))).
  { unfold MaxTextLength. case_decide; [by rewrite Z.min_l by lia|].
    by rewrite Z.min_r, slice_full by lia. }
  subst data. unfold TextCommand. cbv zeta. rewrite Hcon. simpl m_Data.
  assert (Hl : 0 <= len (slice (td_Content d) 0 (Z.min 255 (len (td_Content d)))) < 256)
    by (rewrite len_slice by (len_facts; lia); len_facts; lia).
  rewrite Hs. simpl idx. split_and!; try apply Ho; try done. by apply u8_id.
Qed.

(** ** Witnesses *)

Example payload_roundtrips_witness :
  ParseCommunication (m_Data (CommunicationCommand (mk_Communication 5 115200)) ++ [9]) =
    Ok (mk_Communication 5 115200) /\
  ParseKeySet (m_Data (KeySetCommand [1; 2; 3]) ++ [9]) = Ok (mk_KeySetPayload KeySCBK [1; 2; 3]) /\
  ParseManufacturerMessage (ManufacturerMessage_Append (mk_ManufacturerMessage 0x5cd6 [7]) []) =
    Ok (mk_ManufacturerMessage 0x5cd6 [7]).
Proof.
  apply (payload_roundtrips (mk_Communication 5 115200) [1; 2; 3]
    (mk_ManufacturerMessage 0x5cd6 [7]) [9]); by vm_compute.
Defined.

Example TextCommand_fits_witness :
  let d := mk_TextDisplay 0 0 1500000000 0 0 (replicate 300 0x41) in
  let data := m_Data (TextCommand d) in
  exists content,
    data = slice data 0 6 ++ content /\ idx data 5 = len content /\
    content = slice (td_Content d) 0 (Z.min 255 (len (td_Content d))) /\
    idx data 2 = Z.min 255 (Z.max 0 (td_Hold d) / Second) /\
    1 <= idx data 3 < 256 /\ 1 <= idx data 4 < 256.
Proof. apply (TextCommand_fits (mk_TextDisplay 0 0 1500000000 0 0 (replicate 300 0x41))); done. Defined.
