(* ===== verification/Aes.v ===== *)
(** * AES-128 and CBC: the standard library's crypto/aes and crypto/cipher

    What internal/secure uses of the language's library: [aes.NewCipher] with a
    sixteen-octet key, [Block.Encrypt], [NewCBCEncrypter] and [NewCBCDecrypter].
    The cipher is FIPS-197 in full, so that the suite evaluates to the
    known-answer vectors of internal/secure/testdata; its one theorem for the
    other files is that decryption inverts encryption, block by block and in CBC
    mode. *)

From S2P Require Import Prelude Errors.

Definition BlockSize : Z := 16.

Abbreviation block := (list Z) (only parsing).

Record block_ok (b : block) : Prop := mk_block_ok {
  bok_len : length b = 16%nat;
  bok_oct : octets_ok b
}.

(** ** FIPS-197 *)

Definition sbox : list Z := [
  0x63; 0x7c; 0x77; 0x7b; 0xf2; 0x6b; 0x6f; 0xc5; 0x30; 0x01; 0x67; 0x2b; 0xfe; 0xd7; 0xab; 0x76;
  0xca; 0x82; 0xc9; 0x7d; 0xfa; 0x59; 0x47; 0xf0; 0xad; 0xd4; 0xa2; 0xaf; 0x9c; 0xa4; 0x72; 0xc0;
  0xb7; 0xfd; 0x93; 0x26; 0x36; 0x3f; 0xf7; 0xcc; 0x34; 0xa5; 0xe5; 0xf1; 0x71; 0xd8; 0x31; 0x15;
  0x04; 0xc7; 0x23; 0xc3; 0x18; 0x96; 0x05; 0x9a; 0x07; 0x12; 0x80; 0xe2; 0xeb; 0x27; 0xb2; 0x75;
  0x09; 0x83; 0x2c; 0x1a; 0x1b; 0x6e; 0x5a; 0xa0; 0x52; 0x3b; 0xd6; 0xb3; 0x29; 0xe3; 0x2f; 0x84;
  0x53; 0xd1; 0x00; 0xed; 0x20; 0xfc; 0xb1; 0x5b; 0x6a; 0xcb; 0xbe; 0x39; 0x4a; 0x4c; 0x58; 0xcf;
  0xd0; 0xef; 0xaa; 0xfb; 0x43; 0x4d; 0x33; 0x85; 0x45; 0xf9; 0x02; 0x7f; 0x50; 0x3c; 0x9f; 0xa8;
  0x51; 0xa3; 0x40; 0x8f; 0x92; 0x9d; 0x38; 0xf5; 0xbc; 0xb6; 0xda; 0x21; 0x10; 0xff; 0xf3; 0xd2;
  0xcd; 0x0c; 0x13; 0xec; 0x5f; 0x97; 0x44; 0x17; 0xc4; 0xa7; 0x7e; 0x3d; 0x64; 0x5d; 0x19; 0x73;
  0x60; 0x81; 0x4f; 0xdc; 0x22; 0x2a; 0x90; 0x88; 0x46; 0xee; 0xb8; 0x14; 0xde; 0x5e; 0x0b; 0xdb;
  0xe0; 0x32; 0x3a; 0x0a; 0x49; 0x06; 0x24; 0x5c; 0xc2; 0xd3; 0xac; 0x62; 0x91; 0x95; 0xe4; 0x79;
  0xe7; 0xc8; 0x37; 0x6d; 0x8d; 0xd5; 0x4e; 0xa9; 0x6c; 0x56; 0xf4; 0xea; 0x65; 0x7a; 0xae; 0x08;
  0xba; 0x78; 0x25; 0x2e; 0x1c; 0xa6; 0xb4; 0xc6; 0xe8; 0xdd; 0x74; 0x1f; 0x4b; 0xbd; 0x8b; 0x8a;
  0x70; 0x3e; 0xb5; 0x66; 0x48; 0x03; 0xf6; 0x0e; 0x61; 0x35; 0x57; 0xb9; 0x86; 0xc1; 0x1d; 0x9e;
  0xe1; 0xf8; 0x98; 0x11; 0x69; 0xd9; 0x8e; 0x94; 0x9b; 0x1e; 0x87; 0xe9; 0xce; 0x55; 0x28; 0xdf;
  0x8c; 0xa1; 0x89; 0x0d; 0xbf; 0xe6; 0x42; 0x68; 0x41; 0x99; 0x2d; 0x0f; 0xb0; 0x54; 0xbb; 0x16].

Definition inv_sbox : list Z := [
  0x52; 0x09; 0x6a; 0xd5; 0x30; 0x36; 0xa5; 0x38; 0xbf; 0x40; 0xa3; 0x9e; 0x81; 0xf3; 0xd7; 0xfb;
  0x7c; 0xe3; 0x39; 0x82; 0x9b; 0x2f; 0xff; 0x87; 0x34; 0x8e; 0x43; 0x44; 0xc4; 0xde; 0xe9; 0xcb;
  0x54; 0x7b; 0x94; 0x32; 0xa6; 0xc2; 0x23; 0x3d; 0xee; 0x4c; 0x95; 0x0b; 0x42; 0xfa; 0xc3; 0x4e;
  0x08; 0x2e; 0xa1; 0x66; 0x28; 0xd9; 0x24; 0xb2; 0x76; 0x5b; 0xa2; 0x49; 0x6d; 0x8b; 0xd1; 0x25;
  0x72; 0xf8; 0xf6; 0x64; 0x86; 0x68; 0x98; 0x16; 0xd4; 0xa4; 0x5c; 0xcc; 0x5d; 0x65; 0xb6; 0x92;
  0x6c; 0x70; 0x48; 0x50; 0xfd; 0xed; 0xb9; 0xda; 0x5e; 0x15; 0x46; 0x57; 0xa7; 0x8d; 0x9d; 0x84;
  0x90; 0xd8; 0xab; 0x00; 0x8c; 0xbc; 0xd3; 0x0a; 0xf7; 0xe4; 0x58; 0x05; 0xb8; 0xb3; 0x45; 0x06;
  0xd0; 0x2c; 0x1e; 0x8f; 0xca; 0x3f; 0x0f; 0x02; 0xc1; 0xaf; 0xbd; 0x03; 0x01; 0x13; 0x8a; 0x6b;
  0x3a; 0x91; 0x11; 0x41; 0x4f; 0x67; 0xdc; 0xea; 0x97; 0xf2; 0xcf; 0xce; 0xf0; 0xb4; 0xe6; 0x73;
  0x96; 0xac; 0x74; 0x22; 0xe7; 0xad; 0x35; 0x85; 0xe2; 0xf9; 0x37; 0xe8; 0x1c; 0x75; 0xdf; 0x6e;
  0x47; 0xf1; 0x1a; 0x71; 0x1d; 0x29; 0xc5; 0x89; 0x6f; 0xb7; 0x62; 0x0e; 0xaa; 0x18; 0xbe; 0x1b;
  0xfc; 0x56; 0x3e; 0x4b; 0xc6; 0xd2; 0x79; 0x20; 0x9a; 0xdb; 0xc0; 0xfe; 0x78; 0xcd; 0x5a; 0xf4;
  0x1f; 0xdd; 0xa8; 0x33; 0x88; 0x07; 0xc7; 0x31; 0xb1; 0x12; 0x10; 0x59; 0x27; 0x80; 0xec; 0x5f;
  0x60; 0x51; 0x7f; 0xa9; 0x19; 0xb5; 0x4a; 0x0d; 0x2d; 0xe5; 0x7a; 0x9f; 0x93; 0xc9; 0x9c; 0xef;
  0xa0; 0xe0; 0x3b; 0x4d; 0xae; 0x2a; 0xf5; 0xb0; 0xc8; 0xeb; 0xbb; 0x3c; 0x83; 0x53; 0x99; 0x61;
  0x17; 0x2b; 0x04; 0x7e; 0xba; 0x77; 0xd6; 0x26; 0xe1; 0x69; 0x14; 0x63; 0x55; 0x21; 0x0c; 0x7d].

Definition sub_octet (x : Z) : Z := idx sbox (Z.to_nat x).
Definition inv_sub_octet (x : Z) : Z := idx inv_sbox (Z.to_nat x).

Definition sub_bytes (s : block) : block := map sub_octet s.
Definition inv_sub_bytes (s : block) : block := map inv_sub_octet s.

Definition permute (p : list nat) (s : block) : block := map (fun i => idx s i) p.

Definition shift_rows : block -> block :=
  permute [0; 5; 10; 15; 4; 9; 14; 3; 8; 13; 2; 7; 12; 1; 6; 11]%nat.
Definition inv_shift_rows : block -> block :=
  permute [0; 13; 10; 7; 4; 1; 14; 11; 8; 5; 2; 15; 12; 9; 6; 3]%nat.

(** Multiplication by x in GF(2^8), and by the constants of the two matrices. *)
Definition xtime (x : Z) : Z := Z.lxor (u8 (Z.shiftl x 1)) (if Z.testbit x 7 then 0x1b else 0).
Definition mul2 := xtime.
Definition mul3 x := Z.lxor (xtime x) x.
Definition mul4 x := xtime (xtime x).
Definition mul8 x := xtime (mul4 x).
Definition mul9 x := Z.lxor (mul8 x) x.
Definition mul11 x := Z.lxor (mul8 x) (mul3 x).
Definition mul13 x := Z.lxor (Z.lxor (mul8 x) (mul4 x)) x.
Definition mul14 x := Z.lxor (Z.lxor (mul8 x) (mul4 x)) (xtime x).

Definition xor4 (a b c d : Z) : Z := Z.lxor (Z.lxor a b) (Z.lxor c d).

Fixpoint mix_columns (s : block) : block :=
  match s with
  | a :: b :: c :: d :: rest =>
      xor4 (mul2 a) (mul3 b) c d :: xor4 a (mul2 b) (mul3 c) d ::
      xor4 a b (mul2 c) (mul3 d) :: xor4 (mul3 a) b c (mul2 d) :: mix_columns rest
  | _ => []
  end.

Fixpoint inv_mix_columns (s : block) : block :=
  match s with
  | a :: b :: c :: d :: rest =>
      xor4 (mul14 a) (mul11 b) (mul13 c) (mul9 d) :: xor4 (mul9 a) (mul14 b) (mul11 c) (mul13 d) ::
      xor4 (mul13 a) (mul9 b) (mul14 c) (mul11 d) :: xor4 (mul11 a) (mul13 b) (mul9 c) (mul14 d) ::
      inv_mix_columns rest
  | _ => []
  end.

Definition xor_block (a b : block) : block := zip_with Z.lxor a b.

(** The next round key from the last one. *)
Definition next_key (rcon : Z) (k : block) : block :=
  let w i := slice k (4 * i) (4 * i + 4) in
  let t := map sub_octet (slice (w 3) 1 4 ++ slice (w 3) 0 1) in
  let n0 := xor_block (xor_block (w 0) t) [rcon; 0; 0; 0] in
  let n1 := xor_block (w 1) n0 in
  let n2 := xor_block (w 2) n1 in
  let n3 := xor_block (w 3) n2 in
  n0 ++ n1 ++ n2 ++ n3.

Fixpoint round_keys (rcons : list Z) (k : block) : list block :=
  match rcons with
  | [] => []
  | rcon :: rcons => let k := next_key rcon k in k :: round_keys rcons k
  end.

Definition mid_rcons : list Z := [0x01; 0x02; 0x04; 0x08; 0x10; 0x20; 0x40; 0x80; 0x1b].

Definition enc_round (s k : block) : block := xor_block (mix_columns (shift_rows (sub_bytes s))) k.
Definition dec_round (k s : block) : block :=
  inv_sub_bytes (inv_shift_rows (inv_mix_columns (xor_block s k))).

Definition mid_keys (key : block) : list block := round_keys mid_rcons key.
Definition last_key (key : block) : block := next_key 0x36 (List.last (mid_keys key) []).

(** [Block.Encrypt] under [key]. *)
Definition Encrypt (key b : block) : block :=
  let s := fold_left enc_round (mid_keys key) (xor_block b key) in
  xor_block (shift_rows (sub_bytes s)) (last_key key).

(** [Block.Decrypt] under [key]. *)
Definition Decrypt (key b : block) : block :=
  let s := inv_sub_bytes (inv_shift_rows (xor_block b (last_key key))) in
  xor_block (fold_right dec_round s (mid_keys key)) key.

(** [aes.NewCipher]. Every key of this library is a Go [[16]byte], so the other
    two lengths AES admits do not arise; the error is [KeySizeError]. *)
Definition NewCipher (key : octets) : result block :=
  if decide (len key = BlockSize) then Ok key else Err (EOther 1).

(** FIPS-197, appendix C.1. *)
Example fips197_c1 :
  Encrypt (seqZ 0 16) (map (fun i => 0x11 * i) (seqZ 0 16)) =
    [0x69; 0xc4; 0xe0; 0xd8; 0x6a; 0x7b; 0x04; 0x30; 0xd8; 0xcd; 0xb7; 0x80; 0x70; 0xb4; 0xc5; 0x5a].
Proof. vm_compute. reflexivity. Qed.

Arguments next_key : simpl never.
Arguments Encrypt : simpl never.
Arguments Decrypt : simpl never.
#[global] Strategy 1000 [Encrypt Decrypt next_key].

(** ** Each step inverts *)

Lemma sub_octet_spec x : octet_ok x -> octet_ok (sub_octet x) /\ inv_sub_octet (sub_octet x) = x.
Proof.
  intros Hx.
  assert ((0 <=? sub_octet x) && (sub_octet x <? 256) && (inv_sub_octet (sub_octet x) =? x) = true)
    as H by (revert x Hx; apply octet_check; by vm_compute).
  apply andb_true_iff in H as [[H1 H2]%andb_true_iff H3]. unfold octet_ok. lia.
Qed.

Lemma length_sub_bytes s : length (sub_bytes s) = length s.
Proof. apply length_map. Qed.

Lemma sub_bytes_ok s : octets_ok s -> octets_ok (sub_bytes s).
Proof. intros Hs. apply Forall_fmap. eapply Forall_impl; [done|]. intros. by apply sub_octet_spec. Qed.

Lemma inv_sub_bytes_sub s : octets_ok s -> inv_sub_bytes (sub_bytes s) = s.
Proof.
  intros Hs. unfold inv_sub_bytes, sub_bytes. rewrite map_map.
  induction Hs as [|x s Hx Hs IH]; simpl; [done|]. rewrite IH. f_equal. by apply sub_octet_spec.
Qed.

(** A list of sixteen, as its sixteen octets. *)
Lemma length_16 {A} (P : list A -> Prop) :
  (forall a b c d e f g h i j k l m n o p, P [a; b; c; d; e; f; g; h; i; j; k; l; m; n; o; p]) ->
  forall s, length s = 16%nat -> P s.
Proof. intros H s. do 16 (destruct s as [|? s]; [done|]). by destruct s. Qed.

Lemma inv_shift_rows_shift s : length s = 16%nat -> inv_shift_rows (shift_rows s) = s.
Proof. revert s. by apply length_16. Qed.

Lemma shift_rows_ok s : octets_ok s -> octets_ok (shift_rows s).
Proof.
  intros Hs. apply Forall_fmap, Forall_forall. intros i _. simpl. unfold idx.
  destruct (nth_in_or_default i s 0) as [Hin| ->]; [|done].
  rewrite List.Forall_forall in Hs. by apply Hs.
Qed.

Lemma linear_xtime : linear xtime.
Proof.
  apply (linear_lxor (fun x => u8 (Z.shiftl x 1)) (fun x => if Z.testbit x 7 then 0x1b else 0)).
  - apply (linear_compose u8 (fun x => Z.shiftl x 1)); [apply linear_u8|apply linear_shiftl].
  - apply linear_testbit.
Qed.

Lemma linear_mul3 : linear mul3.
Proof. apply (linear_lxor xtime (fun x => x)); [apply linear_xtime|apply linear_id]. Qed.

Lemma linear_mul4 : linear mul4.
Proof. apply (linear_compose xtime xtime); apply linear_xtime. Qed.

Lemma linear_mul8 : linear mul8.
Proof. apply (linear_compose xtime mul4); [apply linear_xtime|apply linear_mul4]. Qed.

Lemma linear_mul9 : linear mul9.
Proof. apply (linear_lxor mul8 (fun x => x)); [apply linear_mul8|apply linear_id]. Qed.

Lemma linear_mul11 : linear mul11.
Proof. apply (linear_lxor mul8 mul3); [apply linear_mul8|apply linear_mul3]. Qed.

Lemma linear_mul84 : linear (fun x => Z.lxor (mul8 x) (mul4 x)).
Proof. apply (linear_lxor mul8 mul4); [apply linear_mul8|apply linear_mul4]. Qed.

Lemma linear_mul13 : linear mul13.
Proof.
  apply (linear_lxor (fun x => Z.lxor (mul8 x) (mul4 x)) (fun x => x));
    [apply linear_mul84|apply linear_id].
Qed.

Lemma linear_mul14 : linear mul14.
Proof.
  apply (linear_lxor (fun x => Z.lxor (mul8 x) (mul4 x)) xtime);
    [apply linear_mul84|apply linear_xtime].
Qed.

Lemma linear_xor4 f a b c d : linear f -> f (xor4 a b c d) = xor4 (f a) (f b) (f c) (f d).
Proof. intros Hf. unfold xor4. by rewrite !Hf. Qed.

(** Row of the inverse matrix times column of the matrix: the entry of the
    identity, on every octet. *)
Definition entry (f g h k : Z -> Z) (x : Z) : Z := xor4 (f (mul2 x)) (g x) (h x) (k (mul3 x)).

Lemma entries x : octet_ok x ->
  entry mul14 mul11 mul13 mul9 x = x /\ entry mul9 mul14 mul11 mul13 x = 0 /\
  entry mul13 mul9 mul14 mul11 x = 0 /\ entry mul11 mul13 mul9 mul14 x = 0.
Proof.
  intros Hx.
  assert ((entry mul14 mul11 mul13 mul9 x =? x) && (entry mul9 mul14 mul11 mul13 x =? 0) &&
          (entry mul13 mul9 mul14 mul11 x =? 0) && (entry mul11 mul13 mul9 mul14 x =? 0) = true) as H
    by (revert x Hx; apply octet_check; by vm_compute).
  rewrite !andb_true_iff in H. lia.
Qed.

Lemma xor4_transpose a1 a2 a3 a4 b1 b2 b3 b4 c1 c2 c3 c4 d1 d2 d3 d4 :
  xor4 (xor4 a1 b1 c1 d1) (xor4 a2 b2 c2 d2) (xor4 a3 b3 c3 d3) (xor4 a4 b4 c4 d4) =
  xor4 (xor4 a1 a2 a3 a4) (xor4 b1 b2 b3 b4) (xor4 c1 c2 c3 c4) (xor4 d1 d2 d3 d4).
Proof.
  assert (Hs : forall p q r t, Z.lxor (Z.lxor p q) (Z.lxor r t) = Z.lxor (Z.lxor p r) (Z.lxor q t)).
  { intros. rewrite !Z.lxor_assoc. f_equal. rewrite <- !Z.lxor_assoc. f_equal. apply Z.lxor_comm. }
  unfold xor4. rewrite (Hs (Z.lxor a1 b1)), (Hs (Z.lxor a3 b3)), (Hs a1), (Hs c1), (Hs a3), (Hs c3).
  rewrite (Hs (Z.lxor (Z.lxor a1 a2) (Z.lxor b1 b2))), (Hs (Z.lxor a1 a2)), (Hs (Z.lxor c1 c2)).
  done.
Qed.

Lemma xor4_rot a b c d : xor4 a b c d = xor4 b c d a.
Proof. unfold xor4. by lxor_bits. Qed.

Lemma xor4_0 x : xor4 x 0 0 0 = x /\ xor4 0 x 0 0 = x /\ xor4 0 0 x 0 = x /\ xor4 0 0 0 x = x.
Proof. unfold xor4. by rewrite ?Z.lxor_0_r, ?Z.lxor_0_l. Qed.

(** One output octet of the inverse mix, as the four products of its row. *)
Lemma inv_mix_row f g h k a b c d : linear f -> linear g -> linear h -> linear k ->
  xor4 (f (xor4 (mul2 a) (mul3 b) c d)) (g (xor4 a (mul2 b) (mul3 c) d))
       (h (xor4 a b (mul2 c) (mul3 d))) (k (xor4 (mul3 a) b c (mul2 d))) =
  xor4 (entry f g h k a) (entry g h k f b) (entry h k f g c) (entry k f g h d).
Proof.
  intros Hf Hg Hh Hk. rewrite (linear_xor4 f), (linear_xor4 g), (linear_xor4 h), (linear_xor4 k) by done.
  rewrite xor4_transpose. unfold entry. f_equal.
  - by rewrite xor4_rot.
  - by rewrite xor4_rot, xor4_rot.
  - by rewrite xor4_rot, xor4_rot, xor4_rot.
Qed.

Lemma inv_mix_columns_mix n s : length s = (4 * n)%nat -> octets_ok s ->
  inv_mix_columns (mix_columns s) = s.
Proof.
  revert s. induction n as [|n IH]; intros s Hl Ho; [by destruct s|].
  destruct s as [|a [|b [|c [|d s]]]]; simpl in Hl; try lia.
  rewrite !Forall_cons in Ho. destruct Ho as (Ha & Hb & Hc & Hd & Ho).
  simpl. rewrite IH by (done || lia).
  rewrite !inv_mix_row by auto using linear_mul9, linear_mul11, linear_mul13, linear_mul14.
  destruct (entries a Ha) as (-> & -> & -> & ->), (entries b Hb) as (-> & -> & -> & ->),
    (entries c Hc) as (-> & -> & -> & ->), (entries d Hd) as (-> & -> & -> & ->).
  destruct (xor4_0 a) as (-> & _), (xor4_0 b) as (_ & -> & _), (xor4_0 c) as (_ & _ & -> & _),
    (xor4_0 d) as (_ & _ & _ & ->). done.
Qed.

(** ** Blocks *)

Lemma xtime_octet x : octet_ok x -> octet_ok (xtime x).
Proof. intros _. apply lxor_octet; [apply u8_ok|by case_match]. Qed.

Lemma xor4_octet a b c d : octets_ok [a; b; c; d] -> octet_ok (xor4 a b c d).
Proof.
  rewrite !Forall_cons. intros (?&?&?&?&_). apply lxor_octet; by apply lxor_octet.
Qed.

Lemma mix_columns_ok n s : length s = (4 * n)%nat -> octets_ok s ->
  length (mix_columns s) = length s /\ octets_ok (mix_columns s).
Proof.
  revert s. induction n as [|n IH]; intros s Hl Ho; [by destruct s|].
  destruct s as [|a [|b [|c [|d s]]]]; simpl in Hl; try lia.
  rewrite !Forall_cons in Ho. destruct Ho as (Ha & Hb & Hc & Hd & Ho).
  destruct (IH s) as [Hl' Ho']; [lia|done|]. split; [simpl; by rewrite Hl'|].
  simpl. rewrite !Forall_cons.
  split_and!; try done; apply xor4_octet; repeat (apply Forall_cons; split); try done;
    first [by apply xtime_octet | apply lxor_octet; [by apply xtime_octet|done]].
Qed.

Lemma length_xor_block a b : length (xor_block a b) = Nat.min (length a) (length b).
Proof. apply length_zip_with. Qed.

Lemma xor_block_ok a b : octets_ok a -> octets_ok b -> octets_ok (xor_block a b).
Proof.
  intros Ha. revert b. induction Ha as [|x a Hx Ha IH]; intros b Hb; [apply Forall_nil_2|].
  destruct Hb as [|y b Hy Hb]; [apply Forall_nil_2|]. apply Forall_cons. split; [by apply lxor_octet|].
  by apply IH.
Qed.

Lemma xor_block_twice a k : length a = length k -> xor_block (xor_block a k) k = a.
Proof.
  revert k. induction a as [|x a IH]; intros [|y k] Hl; simpl in *; try done.
  rewrite IH by lia. by rewrite Z.lxor_assoc, Z.lxor_nilpotent, Z.lxor_0_r.
Qed.

Lemma xor_block_block a b : block_ok a -> block_ok b -> block_ok (xor_block a b).
Proof.
  intros [La Oa] [Lb Ob]. split; [rewrite length_xor_block; lia|by apply xor_block_ok].
Qed.

Lemma shift_sub_block s : block_ok s -> block_ok (shift_rows (sub_bytes s)).
Proof. intros [Hl Ho]. split; [done|]. by apply shift_rows_ok, sub_bytes_ok. Qed.

Lemma enc_round_block s k : block_ok s -> block_ok k -> block_ok (enc_round s k).
Proof.
  intros Hs Hk. apply xor_block_block; [|done]. destruct (shift_sub_block s Hs) as [Hl Ho].
  destruct (mix_columns_ok 4 _ Hl Ho) as [Hl' Ho']. split; [congruence|done].
Qed.

Lemma unshift_unsub s : block_ok s -> inv_sub_bytes (inv_shift_rows (shift_rows (sub_bytes s))) = s.
Proof.
  intros [Hl Ho]. rewrite inv_shift_rows_shift by by rewrite length_sub_bytes.
  by apply inv_sub_bytes_sub.
Qed.

Lemma dec_enc_round s k : block_ok s -> block_ok k -> dec_round k (enc_round s k) = s.
Proof.
  intros Hs Hk. destruct (shift_sub_block s Hs) as [Hl Ho].
  destruct (mix_columns_ok 4 _ Hl Ho) as [Hl' _]. destruct Hk as [Lk _].
  unfold dec_round, enc_round. rewrite xor_block_twice by congruence.
  rewrite (inv_mix_columns_mix 4) by done. by apply unshift_unsub.
Qed.

Lemma next_key_block rcon k : octet_ok rcon -> block_ok k -> block_ok (next_key rcon k).
Proof.
  intros Hr [Hl Ho]. split.
  - clear Ho. revert k Hl. by apply length_16.
  - assert (Hw : forall i j, octets_ok (slice k i j)) by (intros; by apply Forall_slice).
    assert (Hc : octets_ok [rcon; 0; 0; 0]) by by repeat (apply Forall_cons; split).
    assert (Ht : forall l, octets_ok l -> octets_ok (map sub_octet l)) by apply sub_bytes_ok.
    unfold next_key. cbv zeta.
    auto 12 using xor_block_ok, Forall_slice, Forall_app_2.
Qed.

Lemma round_keys_ok rcons k : octets_ok rcons -> block_ok k -> Forall block_ok (round_keys rcons k).
Proof.
  intros Hr. revert k. induction Hr as [|r rcons Hr Hrs IH]; intros k Hk; simpl; [done|].
  constructor; [by apply next_key_block|]. by apply IH, next_key_block.
Qed.

Lemma mid_keys_ok key : block_ok key -> Forall block_ok (mid_keys key).
Proof. apply round_keys_ok. octets_dec. Qed.

Lemma last_key_ok key : block_ok key -> block_ok (last_key key).
Proof.
  intros Hk. apply next_key_block; [done|]. pose proof (mid_keys_ok key Hk) as Hm.
  unfold mid_keys in *. simpl in *. repeat (apply Forall_cons in Hm as [? Hm]). done.
Qed.

Lemma enc_rounds_block s ks : block_ok s -> Forall block_ok ks -> block_ok (fold_left enc_round ks s).
Proof.
  intros Hs Hk. revert s Hs. induction Hk as [|k ks Hk Hks IH]; intros s Hs; simpl; [done|].
  by apply IH, enc_round_block.
Qed.

Lemma dec_enc_rounds s ks : block_ok s -> Forall block_ok ks ->
  fold_right dec_round (fold_left enc_round ks s) ks = s.
Proof.
  intros Hs Hk. revert s Hs. induction Hk as [|k ks Hk Hks IH]; intros s Hs; simpl; [done|].
  rewrite IH by by apply enc_round_block. by apply dec_enc_round.
Qed.

Lemma Encrypt_block key b : block_ok key -> block_ok b -> block_ok (Encrypt key b).
Proof.
  intros Hk Hb. apply xor_block_block; [|by apply last_key_ok].
  apply shift_sub_block, enc_rounds_block; [by apply xor_block_block|by apply mid_keys_ok].
Qed.

Lemma Decrypt_Encrypt key b : block_ok key -> block_ok b -> Decrypt key (Encrypt key b) = b.
Proof.
  intros Hk Hb. unfold Decrypt, Encrypt. cbv zeta.
  assert (Hs : block_ok (fold_left enc_round (mid_keys key) (xor_block b key)))
    by (apply enc_rounds_block; [by apply xor_block_block|by apply mid_keys_ok]).
  destruct (last_key_ok key Hk) as [Ll _]. destruct (shift_sub_block _ Hs) as [Lx _].
  rewrite xor_block_twice by congruence. rewrite unshift_unsub by done.
  rewrite dec_enc_rounds by first [by apply xor_block_block|by apply mid_keys_ok].
  apply xor_block_twice. destruct Hk, Hb. congruence.
Qed.

(** ** CBC *)

(** [NewCBCEncrypter(block, iv).CryptBlocks] over [n] blocks. *)
Fixpoint cbc_encrypt (n : nat) (key iv : block) (p : octets) : octets :=
  match n with
  | O => []
  | S n =>
      let c := Encrypt key (xor_block (take 16 p) iv) in
      c ++ cbc_encrypt n key c (drop 16 p)
  end.

(** [NewCBCDecrypter(block, iv).CryptBlocks]. *)
Fixpoint cbc_decrypt (n : nat) (key iv : block) (c : octets) : octets :=
  match n with
  | O => []
  | S n => xor_block (Decrypt key (take 16 c)) iv ++ cbc_decrypt n key (take 16 c) (drop 16 c)
  end.

Lemma take16_ok n p : length p = (16 * S n)%nat -> octets_ok p ->
  block_ok (take 16 p) /\ length (drop 16 p) = (16 * n)%nat /\ octets_ok (drop 16 p).
Proof.
  intros Hl Ho. split_and!.
  - split; [rewrite length_take; lia|by apply Forall_take].
  - rewrite length_drop. lia.
  - by apply Forall_drop.
Qed.

Lemma cbc_encrypt_ok n key iv p : block_ok key -> block_ok iv ->
  length p = (16 * n)%nat -> octets_ok p ->
  length (cbc_encrypt n key iv p) = length p /\ octets_ok (cbc_encrypt n key iv p).
Proof.
  intros Hk. revert iv p. induction n as [|n IH]; intros iv p Hiv Hl Ho; [by destruct p|].
  destruct (take16_ok n p Hl Ho) as (Ht & Hld & Hod). cbn [cbc_encrypt].
  assert (Hc : block_ok (Encrypt key (xor_block (take 16 p) iv)))
    by by apply Encrypt_block, xor_block_block.
  destruct (IH _ _ Hc Hld Hod) as [Hl' Ho']. destruct Hc as [Lc Oc].
  rewrite length_app, Hl', Hld, Lc. split; [lia|]. by apply Forall_app.
Qed.

Lemma cbc_decrypt_encrypt n key iv p : block_ok key -> block_ok iv ->
  length p = (16 * n)%nat -> octets_ok p ->
  cbc_decrypt n key iv (cbc_encrypt n key iv p) = p.
Proof.
  intros Hk. revert iv p. induction n as [|n IH]; intros iv p Hiv Hl Ho; [by destruct p|].
  destruct (take16_ok n p Hl Ho) as (Ht & Hld & Hod).
  assert (Hx : block_ok (xor_block (take 16 p) iv)) by by apply xor_block_block.
  pose proof (Encrypt_block key _ Hk Hx) as Hc. cbn [cbc_encrypt cbc_decrypt].
  rewrite take_len_app, drop_len_app by by destruct Hc.
  rewrite IH, Decrypt_Encrypt, xor_block_twice by (done || (destruct Ht, Hiv; congruence)).
  apply take_drop.
Qed.

Lemma NewCipher_ok key : block_ok key -> NewCipher key = Ok key.
Proof. intros [Hl _]. unfold NewCipher, len. by rewrite Hl. Qed.

(** *** Decryption yields octets, whatever it is given *)

Lemma inv_sub_bytes_ok s : octets_ok (inv_sub_bytes s).
Proof.
  apply Forall_fmap, Forall_forall. intros x _. simpl. unfold inv_sub_octet, idx.
  assert (Ho : octets_ok inv_sbox) by octets_dec.
  destruct (nth_in_or_default (Z.to_nat x) inv_sbox 0) as [Hin| ->]; [|done].
  rewrite List.Forall_forall in Ho. by apply Ho.
Qed.

Lemma Decrypt_ok key b : octets_ok key -> octets_ok (Decrypt key b).
Proof.
  intros Hk. unfold Decrypt. cbv zeta. apply xor_block_ok; [|done].
  generalize (mid_keys key). intros [|k ks]; apply inv_sub_bytes_ok.
Qed.

Lemma cbc_decrypt_ok n key iv c : octets_ok key -> octets_ok iv -> octets_ok c ->
  octets_ok (cbc_decrypt n key iv c).
Proof.
  intros Hk. revert iv c. induction n as [|n IH]; intros iv c Hi Hc; cbn [cbc_decrypt];
    [by apply Forall_nil|].
  apply Forall_app. split; [by apply xor_block_ok, Hi; apply Decrypt_ok|].
  apply IH; [by apply Forall_take|by apply Forall_drop].
Qed.
