(* ===== verification/Secure.v ===== *)
(** * The secure channel: internal/secure

    [CipherSuite] (suite.go) is a record of operations, [AES128] (aes128.go,
    crypt.go, mac.go) the instance the specification mandates, built on the
    executable AES of Aes.v. [Session] is session.go, with the handshake steps of
    handshake.go and the chained seal, open, authenticate and verify of
    message.go; a method that changes the session returns the new one, also when
    it fails. [SuiteLaws] is what a session needs of a suite: the theorems about
    sessions are proved from it, and [AES128] is shown to satisfy it. *)

From S2P Require Import Prelude Errors Aes.

(** ** keys.go *)

Definition DefaultBaseKey : block :=
  [0x30; 0x31; 0x32; 0x33; 0x34; 0x35; 0x36; 0x37;
   0x38; 0x39; 0x3A; 0x3B; 0x3C; 0x3D; 0x3E; 0x3F].

Definition IsDefault (k : block) : bool := bool_decide (k = DefaultBaseKey).

Record SessionKeys := mk_SessionKeys {
  k_Enc : block;
  k_MAC1 : block;
  k_MAC2 : block
}.

#[global] Instance SessionKeys_eq : EqDecision SessionKeys.
Proof. solve_decision. Defined.

Definition zero_block : block := replicate 16 0.

(** The zero value [SessionKeys{}], which [Zero] also leaves behind. *)
Definition SessionKeys_Zero : SessionKeys := mk_SessionKeys zero_block zero_block zero_block.

(** ** suite.go *)

Record CipherSuite := mk_CipherSuite {
  Name : string;
  DeriveSessionKeys : block -> octets -> result SessionKeys;
  ClientCryptogram : SessionKeys -> octets -> octets -> result block;
  ServerCryptogram : SessionKeys -> octets -> octets -> result block;
  InitialRMAC : SessionKeys -> block -> result block;
  suite_Seal : SessionKeys -> block -> octets -> result octets;
  suite_Open : SessionKeys -> block -> octets -> result octets;
  suite_MAC : SessionKeys -> block -> octets -> result block
}.

Definition StandardSuiteName : string := "aes-128".

(** ** aes128.go *)

Module AES128.

Definition tagENC : Z := 0x82.
Definition tagMAC1 : Z := 0x01.
Definition tagMAC2 : Z := 0x02.

Definition derive (key : block) (rndA : octets) (tag : Z) : block :=
  Encrypt key ([0x01; tag] ++ slice rndA 0 6 ++ replicate 8 0).

Definition DeriveSessionKeys (base : block) (rndA : octets) : result SessionKeys :=
  b ← NewCipher base;
  Ok (mk_SessionKeys (derive b rndA tagENC) (derive b rndA tagMAC1) (derive b rndA tagMAC2)).

(** Enciphers exactly one block. *)
Definition ecb (key b : block) : result block :=
  k ← NewCipher key;
  Ok (Encrypt k b).

Definition join (a b : octets) : block := a ++ b.

Definition ClientCryptogram (k : SessionKeys) (rndA rndB : octets) : result block :=
  ecb (k_Enc k) (join rndA rndB).

Definition ServerCryptogram (k : SessionKeys) (rndA rndB : octets) : result block :=
  ecb (k_Enc k) (join rndB rndA).

Definition InitialRMAC (k : SessionKeys) (sc : block) : result block :=
  first ← ecb (k_MAC1 k) sc;
  ecb (k_MAC2 k) first.

(** [^b] on a [byte]. *)
Definition chainIV (chain : block) : block := map (fun b => Z.lxor b 0xff) chain.

Definition cbc (key iv : block) : result (block * block) :=
  k ← NewCipher key;
  Ok (k, iv).

(** *** crypt.go *)

Definition eom : Z := 0x80.

Definition paddedLen (n : Z) : Z := Z.ldiff (n + 1 + BlockSize - 1) (BlockSize - 1).

Definition pad (plaintext : octets) : octets :=
  plaintext ++ eom :: replicate (Z.to_nat (paddedLen (len plaintext) - len plaintext - 1)) 0.

Definition Seal (k : SessionKeys) (chain : block) (plaintext : octets) : result octets :=
  let padded := pad plaintext in
  '(b, iv) ← cbc (k_Enc k) (chainIV chain);
  Ok (cbc_encrypt (Z.to_nat (len padded / BlockSize)) b iv padded).

(** [for i > 0 && b[i] == 0x00 { i-- }]. *)
Fixpoint unpad_scan (b : octets) (i : nat) : nat :=
  match i with
  | O => O
  | S j => if decide (idx b i = 0x00) then unpad_scan b j else i
  end.

Definition unpad (b : octets) : result Z :=
  let i := unpad_scan b (Z.to_nat (len b - 1)) in
  if decide (idx b i <> eom) then Err ErrBadPadding else Ok (Z.of_nat i).

Definition Open (k : SessionKeys) (chain : block) (ciphertext : octets) : result octets :=
  if decide (len ciphertext = 0 \/ len ciphertext mod BlockSize <> 0) then Err ErrNotBlockAligned
  else
    '(b, iv) ← cbc (k_Enc k) (chainIV chain);
    let out := cbc_decrypt (Z.to_nat (len ciphertext / BlockSize)) b iv ciphertext in
    n ← unpad out;
    Ok (slice out 0 n).

(** *** mac.go *)

Definition xorInto (dst src : block) : block := xor_block dst src.

(** B[1] .. B[N-1] under S-MAC1: the loop's [iv] and [rest] after [n] turns. *)
Fixpoint mac_loop (n : nat) (mac1 iv : block) (rest : octets) : block * octets :=
  match n with
  | O => (iv, rest)
  | S n =>
      let b := xorInto (slice rest 0 BlockSize) iv in
      let b := Encrypt mac1 b in
      mac_loop n mac1 b (slice rest BlockSize (len rest))
  end.

Definition MAC (k : SessionKeys) (chain : block) (data : octets) : result block :=
  mac1 ← NewCipher (k_MAC1 k);
  mac2 ← NewCipher (k_MAC2 k);
  let full := len data / BlockSize in
  let rem := len data mod BlockSize in
  let blocks := if decide (rem <> 0) then full + 1 else full in
  let blocks := if decide (blocks = 0) then 1 else blocks in
  let '(iv, rest) := mac_loop (Z.to_nat (blocks - 1)) mac1 chain data in
  let b := if decide (rem = 0 /\ full > 0) then slice rest 0 BlockSize
           else slice rest 0 rem ++ eom :: replicate (Z.to_nat (BlockSize - rem - 1)) 0 in
  let b := xorInto b iv in
  Ok (Encrypt mac2 b).

Definition suite : CipherSuite :=
  mk_CipherSuite StandardSuiteName DeriveSessionKeys ClientCryptogram ServerCryptogram
    InitialRMAC Seal Open MAC.

End AES128.

(** *** The registry of suite.go *)

Record Registry := mk_Registry {
  standard : CipherSuite;
  extra : gmap string CipherSuite
}.

Definition register (r : Registry) (s : CipherSuite) : result Registry :=
  if decide (Name s = StandardSuiteName) then Err ErrSuiteReserved
  else Ok (mk_Registry (standard r) (<[Name s := s]> (extra r))).

Fixpoint register_all (r : Registry) (l : list CipherSuite) : result Registry :=
  match l with
  | [] => Ok r
  | s :: l => r ← register r s; register_all r l
  end.

Definition NewRegistry (l : list CipherSuite) : result Registry :=
  register_all (mk_Registry AES128.suite ∅) l.

Definition Standard (r : Registry) : CipherSuite := standard r.

Definition Lookup (r : Registry) (name : string) : result CipherSuite :=
  if decide (name = StandardSuiteName) then Ok (standard r)
  else match extra r !! name with
       | Some s => Ok s
       | None => Err ErrSuiteUnavailable
       end.

(** ** scs.go *)

Definition SCS11 : Z := 0x11.
Definition SCS12 : Z := 0x12.
Definition SCS13 : Z := 0x13.
Definition SCS14 : Z := 0x14.
Definition SCS15 : Z := 0x15.
Definition SCS16 : Z := 0x16.
Definition SCS17 : Z := 0x17.
Definition SCS18 : Z := 0x18.

Definition BlockType_Handshake (b : Z) : bool := bool_decide (SCS11 <= b <= SCS14).
Definition BlockType_Established (b : Z) : bool := bool_decide (SCS15 <= b <= SCS18).
Definition BlockType_Encrypted (b : Z) : bool := bool_decide (b = SCS17 \/ b = SCS18).
Definition BlockType_FromPD (b : Z) : bool :=
  bool_decide (b = SCS12 \/ b = SCS14 \/ b = SCS16 \/ b = SCS18).

(** ** session.go *)

Inductive Role := RoleCP | RolePD.

Inductive State := StateIdle | StateChallenged | StateCryptogram | StateEstablished | StateFailed.

#[global] Instance Role_eq : EqDecision Role.
Proof. solve_decision. Defined.
#[global] Instance State_eq : EqDecision State.
Proof. solve_decision. Defined.

Definition challengeSize : Z := 8.
Definition uidSize : Z := 8.
Definition ccryptSize : Z := uidSize + 8 + BlockSize.

Record Session := mk_Session {
  s_suite : CipherSuite;
  s_role : Role;
  s_base : block;
  s_state : State;
  s_keys : SessionKeys;
  s_rndA : octets;
  s_rndB : octets;
  s_uid : octets;
  s_cmac : block;
  s_rmac : block;
  s_clientCryptogram : block;
  s_serverCryptogram : block
}.

#[global] Instance Session_eta : Eta Session := fun s =>
  mk_Session (s_suite s) (s_role s) (s_base s) (s_state s) (s_keys s) (s_rndA s) (s_rndB s)
    (s_uid s) (s_cmac s) (s_rmac s) (s_clientCryptogram s) (s_serverCryptogram s).

Definition zero8 : octets := replicate 8 0.

Definition NewSession (suite : CipherSuite) (role : Role) (base : block) : Session :=
  mk_Session suite role base StateIdle SessionKeys_Zero zero8 zero8 zero8
    zero_block zero_block zero_block zero_block.

Definition Established (s : Session) : bool := bool_decide (s_state s = StateEstablished).
Definition UsingDefaultKey (s : Session) : bool := IsDefault (s_base s).

Definition Teardown (s : Session) : Session :=
  s <| s_keys := SessionKeys_Zero |> <| s_cmac := zero_block |> <| s_rmac := zero_block |>
    <| s_rndA := zero8 |> <| s_rndB := zero8 |> <| s_state := StateIdle |>.

(** [fail]: its error is [ErrCryptogramMismatch]. *)
Definition fail (s : Session) : Session := Teardown s <| s_state := StateFailed |>.

Definition equalCT (a b : octets) : bool := bool_decide (a = b).

(** ** handshake.go *)

Definition BeginChallenge (s : Session) (rndA : octets) : Session * result octets :=
  if decide (s_role s <> RoleCP) then (s, Err ErrWrongRole)
  else (s <| s_rndA := rndA |> <| s_state := StateChallenged |>, Ok rndA).

Definition AnswerChallenge (s : Session) (chlng rndB uid : octets) : Session * result octets :=
  if decide (s_role s <> RolePD) then (s, Err ErrWrongRole)
  else if decide (len chlng <> challengeSize) then (s, Err ErrMalformedHandshake)
  else
    let s := s <| s_rndA := chlng |> <| s_rndB := rndB |> <| s_uid := uid |> in
    match DeriveSessionKeys (s_suite s) (s_base s) (s_rndA s) with
    | Err e => (s, Err e)
    | Ok keys =>
        let s := s <| s_keys := keys |> in
        match ClientCryptogram (s_suite s) keys (s_rndA s) (s_rndB s) with
        | Err e => (s, Err e)
        | Ok client =>
            let s := s <| s_clientCryptogram := client |> <| s_state := StateCryptogram |> in
            (s, Ok (uid ++ rndB ++ client))
        end
    end.

Definition AnswerCryptogram (s : Session) (ccrypt : octets) : Session * result octets :=
  if decide (s_role s <> RoleCP) then (s, Err ErrWrongRole)
  else if decide (s_state s <> StateChallenged \/ len ccrypt <> ccryptSize)
  then (s, Err ErrMalformedHandshake)
  else
    let s := s <| s_uid := slice ccrypt 0 uidSize |>
               <| s_rndB := slice ccrypt uidSize (uidSize + 8) |> in
    let claimed := slice ccrypt (uidSize + 8) (len ccrypt) in
    match DeriveSessionKeys (s_suite s) (s_base s) (s_rndA s) with
    | Err e => (s, Err e)
    | Ok keys =>
        let s := s <| s_keys := keys |> in
        match ClientCryptogram (s_suite s) keys (s_rndA s) (s_rndB s) with
        | Err e => (s, Err e)
        | Ok expected =>
            if negb (equalCT claimed expected) then (fail s, Err ErrCryptogramMismatch)
            else
              let s := s <| s_clientCryptogram := expected |> in
              match ServerCryptogram (s_suite s) keys (s_rndA s) (s_rndB s) with
              | Err e => (s, Err e)
              | Ok server =>
                  (s <| s_serverCryptogram := server |> <| s_state := StateCryptogram |>, Ok server)
              end
        end
    end.

Definition AnswerServerCryptogram (s : Session) (scrypt : octets) : Session * result octets :=
  if decide (s_role s <> RolePD) then (s, Err ErrWrongRole)
  else if decide (s_state s <> StateCryptogram \/ len scrypt <> BlockSize)
  then (s, Err ErrMalformedHandshake)
  else
    match ServerCryptogram (s_suite s) (s_keys s) (s_rndA s) (s_rndB s) with
    | Err e => (s, Err e)
    | Ok expected =>
        if negb (equalCT scrypt expected) then (fail s, Err ErrCryptogramMismatch)
        else
          let s := s <| s_serverCryptogram := expected |> in
          match InitialRMAC (s_suite s) (s_keys s) expected with
          | Err e => (s, Err e)
          | Ok rmac => (s <| s_rmac := rmac |> <| s_state := StateEstablished |>, Ok rmac)
          end
    end.

Definition CompleteHandshake (s : Session) (rmacI : octets) : Session * option error :=
  if decide (s_role s <> RoleCP) then (s, Some (ESecure ErrWrongRole))
  else if decide (s_state s <> StateCryptogram \/ len rmacI <> BlockSize)
  then (s, Some (ESecure ErrMalformedHandshake))
  else
    match InitialRMAC (s_suite s) (s_keys s) (s_serverCryptogram s) with
    | Err e => (s, Some e)
    | Ok expected =>
        if negb (equalCT rmacI expected) then (fail s, Some (ESecure ErrCryptogramMismatch))
        else (s <| s_rmac := expected |> <| s_state := StateEstablished |>, None)
    end.

(** ** message.go *)

Definition MACTagSize : Z := 4.

Definition chainFor (s : Session) (isCommand : bool) : block :=
  if isCommand then s_rmac s else s_cmac s.

Definition commit (s : Session) (isCommand : bool) (mac : block) : Session :=
  if isCommand then s <| s_cmac := mac |> else s <| s_rmac := mac |>.

Definition Seal (s : Session) (plaintext : octets) (isCommand : bool) : result octets :=
  if negb (Established s) then Err ErrNotEstablished
  else suite_Seal (s_suite s) (s_keys s) (chainFor s isCommand) plaintext.

Definition Open (s : Session) (ciphertext : octets) (isCommand : bool) : result octets :=
  if negb (Established s) then Err ErrNotEstablished
  else suite_Open (s_suite s) (s_keys s) (chainFor s isCommand) ciphertext.

Definition Authenticate (s : Session) (frame : octets) (isCommand : bool) : Session * result octets :=
  if negb (Established s) then (s, Err ErrNotEstablished)
  else
    match suite_MAC (s_suite s) (s_keys s) (chainFor s isCommand) frame with
    | Err e => (s, Err e)
    | Ok mac => (commit s isCommand mac, Ok (slice mac 0 MACTagSize))
    end.

Definition Verify (s : Session) (frame tag : octets) (isCommand : bool) : Session * option error :=
  if negb (Established s) then (s, Some (ESecure ErrNotEstablished))
  else if decide (len tag <> MACTagSize) then (s, Some (ESecure ErrMACMismatch))
  else
    match suite_MAC (s_suite s) (s_keys s) (chainFor s isCommand) frame with
    | Err e => (s, Some e)
    | Ok mac =>
        if negb (equalCT tag (slice mac 0 MACTagSize)) then (s, Some (ESecure ErrMACMismatch))
        else (commit s isCommand mac, None)
    end.

(** ** The interface a session is proved against *)

Record keys_ok (k : SessionKeys) : Prop := mk_keys_ok {
  kok_enc : block_ok (k_Enc k);
  kok_mac1 : block_ok (k_MAC1 k);
  kok_mac2 : block_ok (k_MAC2 k)
}.

Record rnd_ok (r : octets) : Prop := mk_rnd_ok {
  rok_len : length r = 8%nat;
  rok_oct : octets_ok r
}.

(** Every operation succeeds on arguments of the types' sizes, and opening
    inverts sealing. *)
Class SuiteLaws (S : CipherSuite) : Prop := {
  law_derive base rndA : block_ok base -> rnd_ok rndA ->
    exists k, DeriveSessionKeys S base rndA = Ok k /\ keys_ok k;
  law_client k rndA rndB : keys_ok k -> rnd_ok rndA -> rnd_ok rndB ->
    exists c, ClientCryptogram S k rndA rndB = Ok c /\ block_ok c;
  law_server k rndA rndB : keys_ok k -> rnd_ok rndA -> rnd_ok rndB ->
    exists c, ServerCryptogram S k rndA rndB = Ok c /\ block_ok c;
  law_rmac k sc : keys_ok k -> block_ok sc -> exists m, InitialRMAC S k sc = Ok m /\ block_ok m;
  law_seal k chain p : keys_ok k -> block_ok chain -> octets_ok p ->
    exists c, suite_Seal S k chain p = Ok c /\ suite_Open S k chain c = Ok p /\
      octets_ok c /\ len c = AES128.paddedLen (len p);
  law_open k chain c p : keys_ok k -> block_ok chain -> octets_ok c ->
    suite_Open S k chain c = Ok p -> octets_ok p;
  law_mac k chain d : keys_ok k -> block_ok chain -> octets_ok d ->
    exists m, suite_MAC S k chain d = Ok m /\ block_ok m
}.

(** ** AES128 satisfies it *)

Module AES128_facts.
Import AES128.

Lemma paddedLen_eq n : 0 <= n -> paddedLen n = 16 * (n / 16 + 1).
Proof.
  intros. unfold paddedLen, BlockSize. change (16 - 1) with (Z.ones 4).
  rewrite Z.ldiff_ones_r by lia. rewrite Z.shiftl_mul_pow2, Z.shiftr_div_pow2 by lia. zdm.
Qed.

Lemma len_pad p : len (pad p) = paddedLen (len p).
Proof.
  pose proof (len_nonneg p). unfold pad. autorewrite with osdp_len. rewrite paddedLen_eq by lia. zdm.
Qed.

Lemma pad_ok p : octets_ok p -> octets_ok (pad p).
Proof.
  intros. apply Forall_app; split; [done|]. apply Forall_cons; split; [done|].
  by apply Forall_replicate.
Qed.

Lemma idx_app_r (l k : list Z) i : (length l <= i)%nat -> idx (l ++ k) i = idx k (i - length l).
Proof. intros. unfold idx. by apply app_nth2. Qed.

Lemma idx_replicate0 n i : idx (replicate n 0) i = 0.
Proof. unfold idx. revert i. induction n; intros [|i]; simpl; auto. Qed.

Lemma unpad_scan_pad p z n : (n <= z)%nat ->
  unpad_scan (p ++ eom :: replicate z 0) (length p + n) = length p.
Proof.
  induction n as [|n IH]; intros Hn.
  - rewrite Nat.add_0_r. destruct (length p) as [|m] eqn:E; [done|]. simpl unpad_scan.
    rewrite idx_app_r, E, Nat.sub_diag by lia. done.
  - rewrite Nat.add_succ_r. simpl unpad_scan.
    rewrite idx_app_r by lia. replace (S (length p + n) - length p)%nat with (S n) by lia.
    change (idx (eom :: replicate z 0) (S n)) with (idx (replicate z 0) n).
    rewrite idx_replicate0, decide_True by done. apply IH. lia.
Qed.

Lemma unpad_pad p : unpad (pad p) = Ok (len p).
Proof.
  unfold unpad, pad. set (z := Z.to_nat _).
  assert (Z.to_nat (len (p ++ eom :: replicate z 0) - 1) = (length p + z)%nat) as ->
    by (autorewrite with osdp_len; unfold len; lia).
  rewrite unpad_scan_pad by lia. rewrite idx_app_r, Nat.sub_diag by lia.
  by rewrite decide_False by (intros H; by apply H).
Qed.

Lemma chainIV_ok c : block_ok c -> block_ok (chainIV c).
Proof.
  intros [Hl Ho]. split; [by unfold chainIV; rewrite length_map|].
  apply Forall_fmap. eapply Forall_impl; [done|]. intros x Hx. by apply (lxor_octet x 255).
Qed.

Lemma opens_sealed k chain p : keys_ok k -> block_ok chain -> octets_ok p ->
  exists c, Seal k chain p = Ok c /\ Open k chain c = Ok p /\ octets_ok c /\
    len c = paddedLen (len p) /\ len p < len c <= len p + 16 /\ len c mod 16 = 0.
Proof.
  intros [Hk _ _] Hc Hp. pose proof (len_nonneg p).
  pose proof (paddedLen_eq (len p)) as Hpl. pose proof (len_pad p) as Hlp.
  set (n := Z.to_nat (len (pad p) / BlockSize)).
  assert (Hn : length (pad p) = (16 * n)%nat).
  { unfold n, BlockSize. unfold len in *. zdm. }
  destruct (cbc_encrypt_ok n (k_Enc k) (chainIV chain) (pad p)) as [Hl Ho];
    [done|by apply chainIV_ok|done|by apply pad_ok|].
  set (c := cbc_encrypt n (k_Enc k) (chainIV chain) (pad p)) in *.
  assert (Hlc : len c = len (pad p)) by (unfold len; by rewrite Hl).
  exists c. unfold Seal, Open, cbc. rewrite NewCipher_ok by done. simpl.
  split_and!; try done; rewrite ?Hlc, ?Hlp; try (rewrite Hpl by lia; zdm).
  rewrite decide_False by (unfold BlockSize; rewrite Hpl by lia; zdm).
  rewrite <- Hlp. fold n. unfold c.
  rewrite cbc_decrypt_encrypt by (done || by apply chainIV_ok || by apply pad_ok).
  rewrite unpad_pad. simpl. unfold pad. by rewrite slice_begin.
Qed.

(** C40. Confidentiality is lossless: whatever the payload, its length
    included, sealing succeeds, produces whole blocks strictly longer than the
    payload, and opening under the same chain gives back exactly the payload. *)
Theorem Open_Seal k chain p : keys_ok k -> block_ok chain -> octets_ok p ->
  exists c, Seal k chain p = Ok c /\ Open k chain c = Ok p /\ octets_ok c /\
    len c = paddedLen (len p) /\ len p < len c <= len p + 16 /\ len c mod 16 = 0.
Proof. exact (opens_sealed k chain p). Qed.

Lemma Open_octets k chain c p : keys_ok k -> block_ok chain -> octets_ok c ->
  Open k chain c = Ok p -> octets_ok p.
Proof.
  intros [[Hl Hk] _ _] Hc Ho. unfold Open, cbc. case_decide; [done|].
  rewrite NewCipher_ok by done. simpl.
  destruct (unpad _); simpl; [|done]. intros [= <-].
  apply Forall_slice, cbc_decrypt_ok; [done|by apply chainIV_ok|done].
Qed.

Lemma ecb_ok k b : block_ok k -> block_ok b -> ecb k b = Ok (Encrypt k b) /\ block_ok (Encrypt k b).
Proof. intros. unfold ecb. rewrite NewCipher_ok by done. split; [done|by apply Encrypt_block]. Qed.

Lemma join_ok a b : rnd_ok a -> rnd_ok b -> block_ok (join a b).
Proof.
  intros [La Oa] [Lb Ob]. split; [unfold join; rewrite length_app; lia|by apply Forall_app].
Qed.

Lemma derive_ok base rndA tag : block_ok base -> rnd_ok rndA -> octet_ok tag ->
  block_ok (derive base rndA tag).
Proof.
  intros Hb [Hl Ho] Ht. apply Encrypt_block; [done|]. split.
  - do 8 (destruct rndA as [|? rndA]; [done|]). by destruct rndA.
  - repeat (apply Forall_cons; split); try done. apply Forall_app; split; [by apply Forall_slice|].
    by apply Forall_replicate.
Qed.

(** *** The reference MAC

    Whole blocks, the last one padded only if it is short; every block but the
    last chained under S-MAC1, the last under S-MAC2. *)

Fixpoint blocks_of (n : nat) (l : octets) : list block :=
  match n with
  | O => []
  | S n => take 16 l :: blocks_of n (drop 16 l)
  end.

Definition mac_pad (data : octets) : octets :=
  if decide (data <> [] /\ len data mod 16 = 0) then data else pad data.

Definition mac_reference (k : SessionKeys) (chain : block) (data : octets) : block :=
  let n := Z.to_nat (len (mac_pad data) / 16) in
  let bs := blocks_of n (mac_pad data) in
  let iv := fold_left (fun iv b => Encrypt (k_MAC1 k) (xor_block b iv)) (removelast bs) chain in
  Encrypt (k_MAC2 k) (xor_block (List.last bs []) iv).

Lemma slice_take (l : octets) : slice l 0 BlockSize = take 16 l.
Proof. done. Qed.

Lemma slice_drop (l : octets) : slice l BlockSize (len l) = drop 16 l.
Proof.
  unfold slice, BlockSize. change (Z.to_nat 16) with 16%nat. apply take_ge.
  rewrite length_drop. unfold len. lia.
Qed.

Lemma mac_loop_S n m1 iv l :
  mac_loop (S n) m1 iv l = mac_loop n m1 (Encrypt m1 (xor_block (take 16 l) iv)) (drop 16 l).
Proof. rewrite <- (slice_take l), <- (slice_drop l). reflexivity. Qed.

Lemma blocks_of_S n l : blocks_of (S n) l = take 16 l :: blocks_of n (drop 16 l).
Proof. reflexivity. Qed.

Lemma fold_left_cons {A B} (f : A -> B -> A) x l a : fold_left f (x :: l) a = fold_left f l (f a x).
Proof. reflexivity. Qed.

Lemma mac_loop_blocks n m1 iv l :
  mac_loop n m1 iv l =
    (fold_left (fun iv b => Encrypt m1 (xor_block b iv)) (blocks_of n l) iv, drop (16 * n) l).
Proof.
  revert iv l. induction n as [|n IH]; intros iv l; [reflexivity|].
  rewrite mac_loop_S, IH, drop_drop. replace (16 * S n)%nat with (16 + 16 * n)%nat by lia.
  rewrite blocks_of_S, fold_left_cons. reflexivity.
Qed.

Lemma blocks_of_app n m l : blocks_of (n + m) l = blocks_of n l ++ blocks_of m (drop (16 * n) l).
Proof.
  revert l. induction n as [|n IH]; intros l; [reflexivity|]. simpl blocks_of at 1.
  rewrite IH, drop_drop. replace (16 * S n)%nat with (16 + 16 * n)%nat by lia.
  cbn [blocks_of app]. reflexivity.
Qed.

Lemma blocks_of_prefix n pre l : length pre = (16 * n)%nat -> blocks_of n (pre ++ l) = blocks_of n pre.
Proof.
  revert pre. induction n as [|n IH]; intros pre Hn; [done|]. rewrite !blocks_of_S.
  rewrite take_app_le, drop_app_le by lia. f_equal. apply IH. rewrite length_drop. lia.
Qed.

Lemma MAC_reference_aux k chain data pre lst n :
  mac_pad data = pre ++ lst -> length pre = (16 * n)%nat -> length lst = 16%nat ->
  mac_reference k chain data =
  Encrypt (k_MAC2 k) (xor_block lst
    (fold_left (fun iv b => Encrypt (k_MAC1 k) (xor_block b iv)) (blocks_of n pre) chain)).
Proof.
  intros Hp Hn Hl. unfold mac_reference. cbv zeta. rewrite Hp.
  assert (Z.to_nat (len (pre ++ lst) / 16) = (n + 1)%nat) as ->.
  { unfold len. rewrite length_app, Hn, Hl. zdm. }
  rewrite blocks_of_app, drop_len_app, blocks_of_prefix by lia.
  rewrite blocks_of_S, (firstn_all2 (n := 16) lst) by lia.
  change (blocks_of 0 (drop 16 lst)) with (@nil block).
  by rewrite removelast_last, last_last.
Qed.

Lemma MAC_blocks k chain data : keys_ok k -> MAC k chain data = Ok (mac_reference k chain data).
Proof.
  intros [_ H1 H2]. unfold MAC. rewrite !NewCipher_ok by done. simpl mbind.
  pose proof (len_nonneg data) as Hd. unfold BlockSize.
  set (full := len data / 16). set (rem := len data mod 16).
  assert (Hlen : len data = 16 * full + rem /\ 0 <= full /\ 0 <= rem < 16)
    by (unfold full, rem; zdm).
  set (n := Z.to_nat (if decide (rem = 0 /\ full > 0) then full - 1 else full)).
  assert ((if decide ((if decide (rem <> 0) then full + 1 else full) = 0) then 1
           else if decide (rem <> 0) then full + 1 else full) - 1 = Z.of_nat n) as ->
    by (unfold n; repeat case_decide; lia).
  rewrite Nat2Z.id, mac_loop_blocks, slice_take. cbv zeta. f_equal.
  assert (Htl : length (take (16 * n) data) = (16 * n)%nat)
    by (rewrite length_take; unfold len in *; unfold n; case_decide; lia).
  assert (blocks_of n data = blocks_of n (take (16 * n) data)) as ->
    by (rewrite <- (take_drop (16 * n) data) at 1; by apply blocks_of_prefix).
  assert (Hdl : length (drop (16 * n) data) = Z.to_nat (len data - 16 * Z.of_nat n))
    by (rewrite length_drop; unfold len in *; lia).
  assert (Hne : rem = 0 /\ full > 0 <-> data <> [] /\ rem = 0).
  { split; intros [A B]; split; try done.
    - intros ->. rewrite len_nil in Hlen. lia.
    - destruct (decide (full = 0)); [|lia]. destruct A. apply len_zero_nil. lia. }
  symmetry. apply MAC_reference_aux; [|done|]; unfold mac_pad; fold rem;
    revert Hdl; unfold n; destruct (decide (rem = 0 /\ full > 0)) as [Hc|Hc]; intros Hdl.
  - rewrite decide_True by tauto. rewrite (firstn_all2 (n := 16)) by lia. by rewrite take_drop.
  - rewrite decide_False by tauto. unfold pad.
    rewrite <- (take_drop (16 * Z.to_nat full) data) at 1. rewrite <- app_assoc. f_equal.
    unfold slice. rewrite Z.sub_0_r, drop_0, (firstn_all2 (n := Z.to_nat rem)) by lia.
    do 3 f_equal. rewrite paddedLen_eq by done. fold full. lia.
  - rewrite length_take. lia.
  - unfold slice. rewrite Z.sub_0_r, drop_0, length_app, length_take, length_cons, length_replicate. lia.
Qed.

(** The authentication code is the two-key CBC-MAC of the specification,
    on every message: the block counting, the chaining under S-MAC1 and the
    padding of a short or empty last block agree with the reference. *)
Theorem MAC_reference k chain data : keys_ok k -> MAC k chain data = Ok (mac_reference k chain data).
Proof. exact (MAC_blocks k chain data). Qed.

Lemma mac_reference_block k chain data : keys_ok k -> block_ok chain -> octets_ok data ->
  block_ok (mac_reference k chain data).
Proof.
  intros [_ H1 H2] Hc Hd.
  assert (Ho : octets_ok (mac_pad data)) by (unfold mac_pad; case_decide; [done|by apply pad_ok]).
  assert (Hn : exists n, length (mac_pad data) = (16 * S n)%nat).
  { pose proof (len_nonneg data). unfold mac_pad. case_decide as Hp.
    - destruct Hp as [Hp1 Hp2]. exists (Z.to_nat (len data / 16 - 1)).
      assert (len data <> 0) by (intros ?; apply Hp1; by apply len_zero_nil).
      unfold len in *. zdm.
    - exists (Z.to_nat (len data / 16)). pose proof (len_pad data) as Hl.
      rewrite paddedLen_eq in Hl by done. unfold len in *. zdm. }
  destruct Hn as [n Hn]. unfold mac_reference. cbv zeta.
  assert (Z.to_nat (len (mac_pad data) / 16) = (n + 1)%nat) as -> by (unfold len; rewrite Hn; zdm).
  rewrite blocks_of_app, blocks_of_S. change (blocks_of 0 _) with (@nil block).
  rewrite removelast_last, last_last.
  assert (block_ok (take 16 (drop (16 * n) (mac_pad data)))).
  { split; [rewrite length_take, length_drop; lia|by apply Forall_take, Forall_drop]. }
  apply Encrypt_block, xor_block_block; [done..|]. clear H. revert chain Hc Ho Hn.
  generalize (mac_pad data). induction n as [|n IH]; intros l chain Hc Ho Hn; [done|].
  rewrite blocks_of_S, fold_left_cons. destruct (take16_ok (S n) l Hn Ho) as (Ht & Hl & Hod).
  apply IH; [by apply Encrypt_block, xor_block_block|done..].
Qed.

End AES128_facts.

(** The mandated suite is lawful. *)
#[global] Instance AES128_laws : SuiteLaws AES128.suite.
Proof.
  split; simpl.
  - intros base rndA Hb Hr. unfold AES128.DeriveSessionKeys. rewrite NewCipher_ok by done.
    eexists; split; [done|]. by split; apply AES128_facts.derive_ok.
  - intros k rndA rndB [Hk _ _] Ha Hb. eexists. by apply AES128_facts.ecb_ok, AES128_facts.join_ok.
  - intros k rndA rndB [Hk _ _] Ha Hb. eexists. by apply AES128_facts.ecb_ok, AES128_facts.join_ok.
  - intros k sc [_ H1 H2] Hsc. unfold AES128.InitialRMAC.
    destruct (AES128_facts.ecb_ok (k_MAC1 k) sc) as [-> Hf]; [done..|]. simpl.
    eexists. by apply AES128_facts.ecb_ok.
  - intros k chain p Hk Hc Hp.
    destruct (AES128_facts.opens_sealed k chain p) as (c & H1 & H2 & H3 & H4 & _); [done..|]. eauto.
  - apply AES128_facts.Open_octets.
  - intros k chain d Hk Hc Hd. rewrite AES128_facts.MAC_blocks by done.
    eexists; split; [done|]. by apply AES128_facts.mac_reference_block.
Qed.

(** ** Sessions *)

Lemma zero_block_ok : block_ok zero_block.
Proof. split; [done|]. by apply Forall_replicate. Qed.

Lemma keys_ok_zero : keys_ok SessionKeys_Zero.
Proof. split; apply zero_block_ok. Qed.

Lemma rnd_ok_zero8 : rnd_ok zero8.
Proof. split; [done|]. by apply Forall_replicate. Qed.

#[global] Hint Resolve zero_block_ok keys_ok_zero rnd_ok_zero8 : osdp.

(** What the session can hold, and what its state says about it. *)
Record session_ok (s : Session) : Prop := mk_session_ok {
  so_base : block_ok (s_base s);
  so_rndA : rnd_ok (s_rndA s);
  so_rndB : rnd_ok (s_rndB s);
  so_keys : keys_ok (s_keys s);
  so_cmac : block_ok (s_cmac s);
  so_rmac : block_ok (s_rmac s);
  so_server : block_ok (s_serverCryptogram s);
  so_derived : s_state s = StateCryptogram \/ s_state s = StateEstablished ->
    DeriveSessionKeys (s_suite s) (s_base s) (s_rndA s) = Ok (s_keys s) /\
    ClientCryptogram (s_suite s) (s_keys s) (s_rndA s) (s_rndB s) = Ok (s_clientCryptogram s);
  so_proved : s_state s = StateEstablished \/ s_state s = StateCryptogram /\ s_role s = RoleCP ->
    ServerCryptogram (s_suite s) (s_keys s) (s_rndA s) (s_rndB s) = Ok (s_serverCryptogram s);
  so_wiped : s_state s = StateIdle \/ s_state s = StateFailed ->
    s_keys s = SessionKeys_Zero /\ s_cmac s = zero_block /\ s_rmac s = zero_block
}.

(** Every call a caller can make of a session. *)
Inductive call :=
  | CallBeginChallenge (rndA : octets)
  | CallAnswerChallenge (chlng rndB uid : octets)
  | CallAnswerCryptogram (ccrypt : octets)
  | CallAnswerServerCryptogram (scrypt : octets)
  | CallCompleteHandshake (rmacI : octets)
  | CallAuthenticate (frame : octets) (isCommand : bool)
  | CallVerify (frame tag : octets) (isCommand : bool)
  | CallTeardown.

Definition apply_call (s : Session) (c : call) : Session :=
  match c with
  | CallBeginChallenge rndA => (BeginChallenge s rndA).1
  | CallAnswerChallenge chlng rndB uid => (AnswerChallenge s chlng rndB uid).1
  | CallAnswerCryptogram ccrypt => (AnswerCryptogram s ccrypt).1
  | CallAnswerServerCryptogram scrypt => (AnswerServerCryptogram s scrypt).1
  | CallCompleteHandshake rmacI => (CompleteHandshake s rmacI).1
  | CallAuthenticate frame d => (Authenticate s frame d).1
  | CallVerify frame tag d => (Verify s frame tag d).1
  | CallTeardown => Teardown s
  end.

(** The randoms are of their Go type; what comes off the line is only octets. *)
Definition call_ok (c : call) : Prop :=
  match c with
  | CallBeginChallenge rndA => rnd_ok rndA
  | CallAnswerChallenge chlng rndB _ => octets_ok chlng /\ rnd_ok rndB
  | CallAnswerCryptogram p | CallAnswerServerCryptogram p | CallCompleteHandshake p => octets_ok p
  | CallAuthenticate frame _ => octets_ok frame
  | CallVerify frame tag _ => octets_ok frame /\ octets_ok tag
  | CallTeardown => True
  end.

Lemma session_ok_new S role base : block_ok base -> session_ok (NewSession S role base).
Proof. intros. split; simpl; auto with osdp; naive_solver. Qed.

Lemma session_ok_teardown s : session_ok s -> session_ok (Teardown s).
Proof. intros []. split; simpl; auto with osdp; naive_solver. Qed.

Lemma session_ok_fail s : session_ok s -> session_ok (fail s).
Proof. intros []. split; simpl; auto with osdp; naive_solver. Qed.

Lemma rnd_ok_slice l i j : octets_ok l -> 0 <= i -> j = i + 8 -> j <= len l -> rnd_ok (slice l i j).
Proof.
  intros Ho Hi -> Hj. split; [|by apply Forall_slice].
  pose proof (len_slice l i (i + 8)). unfold len in *. lia.
Qed.

Lemma session_ok_commit s d m : session_ok s -> block_ok m -> s_state s = StateEstablished ->
  session_ok (commit s d m).
Proof.
  intros [] Hm He. destruct d; split; simpl; auto; rewrite He; naive_solver.
Qed.

Section with_suite.
Context {S : CipherSuite} `{!SuiteLaws S}.

(** [s'] is [s] after a call: sound, and still of the same suite, role and key. *)
Definition kept (s s' : Session) : Prop :=
  session_ok s' /\ s_suite s' = S /\ s_role s' = s_role s /\ s_base s' = s_base s.

Lemma kept_BeginChallenge s rndA : s_suite s = S -> session_ok s -> rnd_ok rndA ->
  kept s (BeginChallenge s rndA).1.
Proof.
  intros HS Hs Hr. unfold BeginChallenge. case_decide; simpl; [done|]. unfold kept.
  split_and!; try done. destruct Hs. split; simpl; auto; intuition congruence.
Qed.

Lemma kept_AnswerChallenge s chlng rndB uid : s_suite s = S -> session_ok s ->
  octets_ok chlng -> rnd_ok rndB -> kept s (AnswerChallenge s chlng rndB uid).1.
Proof.
  intros HS Hs Hch HrB. unfold AnswerChallenge. do 2 (case_decide; simpl; [done|]).
  assert (rnd_ok chlng) by (split; [unfold challengeSize, len in *; lia|done]).
  destruct Hs. rewrite ?HS. destruct (law_derive (s_base s) chlng) as (k & Ek & Hk'); [done..|].
  rewrite Ek. simpl. rewrite ?HS.
  destruct (law_client k chlng rndB) as (cl & Ecl & _); [done..|]. rewrite Ecl. simpl.
  unfold kept. split_and!; try done. split; simpl; rewrite ?HS; auto; intuition congruence.
Qed.

Lemma kept_AnswerCryptogram s p : s_suite s = S -> session_ok s -> octets_ok p ->
  kept s (AnswerCryptogram s p).1.
Proof.
  intros HS Hs Hp. unfold AnswerCryptogram. case_decide; simpl; [done|].
  case_decide as Hst; simpl; [done|]. unfold ccryptSize, uidSize, BlockSize in *.
  assert (s_state s = StateChallenged /\ len p = 32) as [Est Hl]
    by (split; [destruct (decide (s_state s = StateChallenged))|]; intuition lia).
  destruct Hs. rewrite ?HS.
  destruct (law_derive (s_base s) (s_rndA s)) as (k & Ek & Hk'); [done..|].
  rewrite Ek. simpl. rewrite ?HS.
  assert (HrB : rnd_ok (slice p 8 (8 + 8))) by (apply rnd_ok_slice; done || lia).
  destruct (law_client k (s_rndA s) (slice p 8 (8 + 8))) as (cl & Ecl & _); [done..|].
  rewrite Ecl. unfold kept. case_match; simpl.
  - split_and!; try done. split; simpl; auto with osdp; intuition congruence.
  - rewrite ?HS. destruct (law_server k (s_rndA s) (slice p 8 (8 + 8))) as (sv & Esv & Hsv');
      [done..|]. rewrite Esv. simpl. split_and!; try done.
    split; simpl; rewrite ?HS; auto; intuition congruence.
Qed.

Lemma kept_AnswerServerCryptogram s p : s_suite s = S -> session_ok s ->
  kept s (AnswerServerCryptogram s p).1.
Proof.
  intros HS Hs. unfold AnswerServerCryptogram. case_decide; simpl; [done|].
  case_decide as Hst; simpl; [done|].
  assert (s_state s = StateCryptogram) as Est
    by (destruct (decide (s_state s = StateCryptogram)); intuition).
  pose proof Hs as []. rewrite ?HS.
  destruct (law_server (s_keys s) (s_rndA s) (s_rndB s)) as (sv & Esv & Hsv'); [done..|].
  rewrite Esv. unfold kept. case_match; simpl.
  - split_and!; try done. by apply session_ok_fail.
  - rewrite ?HS. destruct (law_rmac (s_keys s) sv) as (m & Em & Hm); [done..|]. rewrite Em.
    simpl. split_and!; try done. destruct so_derived0 as [Hd1 Hd2]; [by left|].
    split; simpl; rewrite ?HS in *; auto; intuition congruence.
Qed.

Lemma kept_CompleteHandshake s p : s_suite s = S -> session_ok s ->
  kept s (CompleteHandshake s p).1.
Proof.
  intros HS Hs. unfold CompleteHandshake. case_decide as Hr; simpl; [done|].
  case_decide as Hst; simpl; [done|].
  assert (s_state s = StateCryptogram) as Est
    by (destruct (decide (s_state s = StateCryptogram)); intuition).
  pose proof Hs as []. rewrite ?HS.
  destruct (law_rmac (s_keys s) (s_serverCryptogram s)) as (m & Em & Hm); [done..|].
  rewrite Em. unfold kept. case_match; simpl; split_and!; try done; [by apply session_ok_fail|].
  destruct so_derived0 as [Hd1 Hd2]; [by left|].
  assert (s_role s = RoleCP) by (destruct (decide (s_role s = RoleCP)); intuition).
  split; simpl; auto; intuition congruence.
Qed.

Lemma Established_state s : negb (Established s) = false -> s_state s = StateEstablished.
Proof. by intros He%negb_false_iff%bool_decide_eq_true. Qed.

Lemma session_mac s d f : s_suite s = S -> session_ok s -> octets_ok f ->
  exists m, suite_MAC (s_suite s) (s_keys s) (chainFor s d) f = Ok m /\ block_ok m.
Proof. intros -> [] Hf. apply law_mac; [done| |done]. by destruct d. Qed.

Lemma kept_Authenticate s f d : s_suite s = S -> session_ok s -> octets_ok f ->
  kept s (Authenticate s f d).1.
Proof.
  intros HS Hs Hf. unfold Authenticate. case_match eqn:He; simpl; [done|].
  destruct (session_mac s d f) as (m & -> & Hm); [done..|]. simpl.
  apply Established_state in He. split; [by apply session_ok_commit|]. by destruct d.
Qed.

Lemma kept_Verify s f t d : s_suite s = S -> session_ok s -> octets_ok f ->
  kept s (Verify s f t d).1.
Proof.
  intros HS Hs Hf. unfold Verify. case_match eqn:He; simpl; [done|]. case_decide; simpl; [done|].
  destruct (session_mac s d f) as (m & -> & Hm); [done..|]. case_match; simpl; [done|].
  apply Established_state in He. split; [by apply session_ok_commit|]. by destruct d.
Qed.

Lemma Established_Verify s f t d : Established (Verify s f t d).1 = Established s.
Proof.
  unfold Verify. destruct (negb (Established s)); [done|]. case_decide; [done|].
  destruct (suite_MAC _ _ _ _); [|done]. case_match; [done|]. by destruct d.
Qed.

(** What the device's two handshake answers are made of. *)
Lemma AnswerChallenge_ok s chlng rndB uid s' r : s_suite s = S -> session_ok s ->
  octets_ok chlng -> rnd_ok rndB -> AnswerChallenge s chlng rndB uid = (s', Ok r) ->
  exists cl, r = uid ++ rndB ++ cl /\ block_ok cl /\ s_state s' = StateCryptogram.
Proof.
  intros HS Hs Hch HrB. unfold AnswerChallenge. case_decide; [done|]. case_decide as Hl; [done|].
  assert (rnd_ok chlng) by (split; [unfold challengeSize, len in *; lia|done]).
  destruct Hs. simpl. rewrite ?HS. destruct (law_derive (s_base s) chlng) as (k & Ek & Hk'); [done..|].
  rewrite Ek. simpl. rewrite ?HS.
  destruct (law_client k chlng rndB) as (cl & Ecl & Hcl); [done..|]. rewrite Ecl.
  intros [= <- <-]. by exists cl.
Qed.

Lemma AnswerServerCryptogram_ok s p s' r : s_suite s = S -> session_ok s ->
  AnswerServerCryptogram s p = (s', Ok r) ->
  block_ok r /\ s_state s = StateCryptogram /\ s_state s' = StateEstablished.
Proof.
  intros HS Hs. unfold AnswerServerCryptogram. case_decide; [done|]. case_decide as Hst; [done|].
  assert (s_state s = StateCryptogram) as Est
    by (destruct (decide (s_state s = StateCryptogram)); intuition).
  pose proof Hs as []. rewrite ?HS.
  destruct (law_server (s_keys s) (s_rndA s) (s_rndB s)) as (sv & Esv & Hsv'); [done..|].
  rewrite Esv. case_match; [done|]. simpl. rewrite ?HS.
  destruct (law_rmac (s_keys s) sv) as (m & Em & Hm); [done..|]. rewrite Em. by intros [= <- <-].
Qed.

Lemma kept_call s c : s_suite s = S -> session_ok s -> call_ok c -> kept s (apply_call s c).
Proof.
  intros HS Hs Hc. destruct c; simpl in Hc |- *.
  - by apply kept_BeginChallenge.
  - destruct Hc. by apply kept_AnswerChallenge.
  - by apply kept_AnswerCryptogram.
  - by apply kept_AnswerServerCryptogram.
  - by apply kept_CompleteHandshake.
  - by apply kept_Authenticate.
  - destruct Hc. by apply kept_Verify.
  - unfold kept. split_and!; try done. by apply session_ok_teardown.
Qed.

Lemma session_reachable role base calls : block_ok base -> Forall call_ok calls ->
  kept (NewSession S role base) (fold_left apply_call calls (NewSession S role base)).
Proof.
  intros Hb Hc.
  assert (forall s, kept (NewSession S role base) s ->
    kept (NewSession S role base) (fold_left apply_call calls s)) as H.
  { induction Hc as [|c calls Hc _ IH]; intros s Hs; simpl; [done|].
    apply IH. destruct Hs as (H1 & H2 & H3 & H4).
    destruct (kept_call s c) as (K1 & K2 & K3 & K4); [done..|]. unfold kept. by rewrite K3, K4. }
  apply H. unfold kept. split_and!; try done. by apply session_ok_new.
Qed.

(** C39. Whatever is called on a session, in whatever order and with whatever
    octets off the line: an established session holds the keys derived from its
    own base key, and both cryptograms computed under them; a failed or torn
    down session holds no key material and empty chains. *)
Theorem session_invariant role base calls : block_ok base -> Forall call_ok calls ->
  let s := fold_left apply_call calls (NewSession S role base) in
  session_ok s /\ s_role s = role /\ s_base s = base.
Proof.
  intros Hb Hc. by destruct (session_reachable role base calls Hb Hc) as (H1 & _ & H3 & H4).
Qed.

(** *** The handshake *)

(** A call's new session and payload, or its error. *)
Definition run {A} (p : Session * result A) : result (Session * A) :=
  match p.2 with
  | Ok a => Ok (p.1, a)
  | Err e => Err e
  end.

(** The four messages carried from one end to the other. *)
Definition handshake (cp pd : Session) (rndA rndB uid : octets) : result (Session * Session) :=
  '(cp, chlng) ← run (BeginChallenge cp rndA);
  '(pd, ccrypt) ← run (AnswerChallenge pd chlng rndB uid);
  '(cp, scrypt) ← run (AnswerCryptogram cp ccrypt);
  '(pd, rmacI) ← run (AnswerServerCryptogram pd scrypt);
  match CompleteHandshake cp rmacI with
  | (cp, None) => Ok (cp, pd)
  | (_, Some e) => Err e
  end.

(** Two ends of one channel: established, and equal in everything that
    authenticates and enciphers. *)
Record synced (a b : Session) : Prop := mk_synced {
  sy_suite : s_suite a = S /\ s_suite b = S;
  sy_state : s_state a = StateEstablished /\ s_state b = StateEstablished;
  sy_keys : s_keys a = s_keys b /\ keys_ok (s_keys a);
  sy_cmac : s_cmac a = s_cmac b /\ block_ok (s_cmac a);
  sy_rmac : s_rmac a = s_rmac b /\ block_ok (s_rmac a)
}.

Lemma ccrypt_parts uid rndB client : length uid = 8%nat -> rnd_ok rndB -> block_ok client ->
  let p := uid ++ rndB ++ client in
  len p = ccryptSize /\ slice p 0 uidSize = uid /\ slice p uidSize (uidSize + 8) = rndB /\
  slice p (uidSize + 8) (len p) = client.
Proof.
  intros Hu [Hr _] [Hc _] p. unfold p, ccryptSize, uidSize, BlockSize.
  assert (Hl : len (uid ++ rndB ++ client) = 32)
    by (unfold len; rewrite !length_app, Hu, Hr, Hc; done).
  split_and!; [done| | |].
  - apply slice_begin. unfold len. by rewrite Hu.
  - apply slice_mid; unfold len; by rewrite Hu, ?Hr.
  - rewrite app_assoc in Hl |- *. apply slice_end; [|done].
    unfold len. by rewrite length_app, Hu, Hr.
Qed.

Lemma handshake_synced base rndA rndB uid :
  block_ok base -> rnd_ok rndA -> rnd_ok rndB -> length uid = 8%nat ->
  exists cp pd,
    handshake (NewSession S RoleCP base) (NewSession S RolePD base) rndA rndB uid = Ok (cp, pd) /\
    synced cp pd /\ s_uid cp = uid /\ s_uid pd = uid /\ s_cmac cp = zero_block.
Proof.
  intros Hb HA HB Hu.
  destruct (law_derive base rndA) as (k & Ek & Hk); [done..|].
  destruct (law_client k rndA rndB) as (cl & Ecl & Hcl); [done..|].
  destruct (law_server k rndA rndB) as (sv & Esv & Hsv); [done..|].
  destruct (law_rmac k sv) as (m & Em & Hm); [done..|].
  destruct (ccrypt_parts uid rndB cl) as (Hl & P1 & P2 & P3); [done..|].
  unfold handshake, run, BeginChallenge. simpl.
  unfold AnswerChallenge. simpl.
  rewrite decide_False by (unfold challengeSize, len; destruct HA; lia).
  rewrite Ek. simpl. rewrite Ecl. simpl. unfold AnswerCryptogram. simpl.
  rewrite decide_False by (rewrite Hl; intuition).
  rewrite P1, P2, P3, Ek. simpl. rewrite Ecl. unfold equalCT.
  rewrite bool_decide_true by done. simpl. rewrite Esv. simpl.
  unfold AnswerServerCryptogram. simpl.
  rewrite decide_False by (unfold BlockSize, len; destruct Hsv; intuition lia).
  rewrite Esv. unfold equalCT. rewrite bool_decide_true by done. simpl. rewrite Em. simpl.
  unfold CompleteHandshake. simpl.
  rewrite decide_False by (unfold BlockSize, len; destruct Hm; intuition lia).
  rewrite Em. unfold equalCT. rewrite bool_decide_true by done. simpl.
  do 2 eexists. split; [done|]. split_and!; try done. split; simpl; auto with osdp.
Qed.

(** Two ends holding the same base key always agree: the handshake
    completes, both sessions are established on the same session keys and the
    same reply chain, with the command chains both empty, and the panel has
    learnt the device's identifier. *)
Theorem handshake_agreement base rndA rndB uid :
  block_ok base -> rnd_ok rndA -> rnd_ok rndB -> length uid = 8%nat ->
  exists cp pd,
    handshake (NewSession S RoleCP base) (NewSession S RolePD base) rndA rndB uid = Ok (cp, pd) /\
    synced cp pd /\ s_uid cp = uid /\ s_uid pd = uid /\ s_cmac cp = zero_block.
Proof. exact (handshake_synced base rndA rndB uid). Qed.

(** The last call of a role's handshake: what it is given, and what it should be given,
    computed under the session's own keys. *)
Definition last_step (s : Session) (c : call) : option (octets * result octets) :=
  match c, s_role s with
  | CallCompleteHandshake p, RoleCP => Some (p, InitialRMAC (s_suite s) (s_keys s) (s_serverCryptogram s))
  | CallAnswerServerCryptogram p, RolePD => Some (p, ServerCryptogram (s_suite s) (s_keys s) (s_rndA s) (s_rndB s))
  | _, _ => None
  end.

Lemma last_step_outcome s c p r : s_suite s = S -> session_ok s -> last_step s c = Some (p, r) ->
  s_state s = StateCryptogram -> len p = BlockSize ->
  exists v, r = Ok v /\ (p = v -> s_state (apply_call s c) = StateEstablished) /\ (p <> v -> apply_call s c = fail s).
Proof.
  intros HS Hs Hl Est Hp. pose proof Hs as []. rewrite HS in *. unfold last_step in Hl. rewrite HS in Hl.
  assert (Hg : ~ (s_state s <> StateCryptogram \/ len p <> BlockSize)) by intuition.
  destruct c; try done; destruct (s_role s) eqn:Hr; try done; injection Hl as -> <-; simpl.
  - destruct (law_server (s_keys s) (s_rndA s) (s_rndB s)) as (v & Ev & Hv); [done..|]. exists v. split; [done|].
    unfold AnswerServerCryptogram. rewrite Hr, decide_False by (intros X; by apply X). rewrite decide_False by done.
    rewrite HS, Ev. unfold equalCT. split; intros E.
    + subst v. rewrite bool_decide_eq_true_2 by done. simpl. rewrite HS.
      by destruct (law_rmac (s_keys s) p) as (m & -> & _).
    + by rewrite bool_decide_eq_false_2.
  - destruct (law_rmac (s_keys s) (s_serverCryptogram s)) as (v & Ev & Hv); [done..|]. exists v. split; [done|].
    unfold CompleteHandshake. rewrite Hr, decide_False by (intros X; by apply X). rewrite decide_False by done.
    rewrite HS, Ev. unfold equalCT. split; intros E.
    + subst v. by rewrite bool_decide_eq_true_2.
    + by rewrite bool_decide_eq_false_2.
Qed.

(** No other call establishes anything. *)
Lemma only_last_step s c : s_state s <> StateEstablished -> s_state (apply_call s c) = StateEstablished ->
  s_state s = StateCryptogram /\ exists p r, last_step s c = Some (p, r) /\ len p = BlockSize.
Proof.
  intros Hn He. unfold last_step. destruct c as [rndA|chlng rndB uid|p|p|p|f d|f t d|]; simpl in He.
  - unfold BeginChallenge in He. case_decide; simpl in He; congruence.
  - unfold AnswerChallenge in He. repeat case_match; simpl in He; congruence.
  - unfold AnswerCryptogram in He. repeat case_match; simpl in He; congruence.
  - unfold AnswerServerCryptogram in He. case_decide as Hr; [simpl in He; congruence|]. case_decide as Hg; [simpl in He; congruence|].
    rewrite Hr. split; [apply dec_stable|do 2 eexists; split; [done|apply dec_stable]]; tauto.
  - unfold CompleteHandshake in He. case_decide as Hr; [simpl in He; congruence|]. case_decide as Hg; [simpl in He; congruence|].
    rewrite Hr. split; [apply dec_stable|do 2 eexists; split; [done|apply dec_stable]]; tauto.
  - unfold Authenticate in He. repeat case_match; simpl in He; try congruence. destruct d; simpl in He; congruence.
  - unfold Verify in He. repeat case_match; simpl in He; try congruence. destruct d; simpl in He; congruence.
  - done.
Qed.

(** C38. No session without proof of the key: a call establishes a session that is
    not established exactly when it is the last one of its role's handshake, made
    where the handshake has come to it, and its payload is the value computed under
    the session's own keys. The same call with any other payload of the right size
    leaves the session failed and wiped: no keys, empty chains, no randoms. *)
Theorem establish_needs_proof s c : s_suite s = S -> session_ok s -> s_state s <> StateEstablished ->
  (s_state (apply_call s c) = StateEstablished <->
   s_state s = StateCryptogram /\ exists p, last_step s c = Some (p, Ok p) /\ len p = BlockSize) /\
  (forall p r, last_step s c = Some (p, r) -> s_state s = StateCryptogram -> len p = BlockSize -> r <> Ok p ->
   let s' := apply_call s c in
   s_state s' = StateFailed /\ s_keys s' = SessionKeys_Zero /\ s_cmac s' = zero_block /\ s_rmac s' = zero_block /\
   s_rndA s' = zero8 /\ s_rndB s' = zero8).
Proof.
  intros HS Hs Hn. split; [split|].
  - intros He. destruct (only_last_step s c Hn He) as (Est & p & r & Hl & Hp). split; [done|].
    destruct (last_step_outcome s c p r HS Hs Hl Est Hp) as (v & -> & _ & Hf).
    destruct (decide (p = v)) as [->|Hne]; [by exists v|]. rewrite Hf in He by done. discriminate He.
  - intros (Est & p & Hl & Hp). destruct (last_step_outcome s c p (Ok p) HS Hs Hl Est Hp) as (v & [= <-] & H1 & _). by apply H1.
  - intros p r Hl Est Hp Hr. destruct (last_step_outcome s c p r HS Hs Hl Est Hp) as (v & -> & _ & Hf).
    cbv zeta. rewrite Hf by congruence. by split_and!.
Qed.

(** *** Messages of an established session *)

Lemma synced_chain a b d : synced a b -> chainFor a d = chainFor b d /\ block_ok (chainFor a d).
Proof. intros []. destruct d; simpl; tauto. Qed.

Lemma synced_Established a b : synced a b -> Established a = true /\ Established b = true.
Proof. intros [_ [Ha Hb] _ _ _]. unfold Established. rewrite Ha, Hb. done. Qed.

Lemma synced_commit a b d m : synced a b -> block_ok m -> synced (commit a d m) (commit b d m).
Proof. intros [] Hm. destruct d; split; simpl; tauto. Qed.

(** The chain survives every message: from two synchronised ends, in either
    direction, whatever payload one end seals and whatever octets it
    authenticates, the other end accepts the tag, opens the payload, and the two
    are synchronised again. *)
Theorem secure_exchange a b d p (frame : octets -> octets) : synced a b -> octets_ok p ->
  (forall c, octets_ok c -> octets_ok (frame c)) ->
  exists c tag a' b',
    Seal a p d = Ok c /\ Authenticate a (frame c) d = (a', Ok tag) /\ len tag = MACTagSize /\
    Verify b (frame c) tag d = (b', None) /\ Open b' c d = Ok p /\ synced a' b'.
Proof.
  intros Hs Hp Hframe. destruct (synced_Established a b Hs) as [Ea Eb].
  destruct (synced_chain a b d Hs) as [Ec Hc]. pose proof Hs as [[Sa Sb] _ [Ek Hk] _ _].
  destruct (law_seal (s_keys a) (chainFor a d) p) as (c & Hseal & Hopen & Ho & _); [done..|].
  destruct (law_mac (s_keys a) (chainFor a d) (frame c)) as (m & Hm & Hmb); [done|done|auto|].
  assert (Hlt : len (slice m 0 MACTagSize) = MACTagSize)
    by (unfold MACTagSize; rewrite len_slice; unfold len; destruct Hmb; lia).
  exists c, (slice m 0 MACTagSize), (commit a d m), (commit b d m).
  assert (Hchain : chainFor (commit b d m) d = chainFor a d) by (rewrite Ec; by destruct d).
  assert (Hest : Established (commit b d m) = true) by (by destruct d).
  assert (Hsuite : s_suite (commit b d m) = S /\ s_keys (commit b d m) = s_keys a)
    by (rewrite Ek; by destruct d). destruct Hsuite as [Hsu Hke].
  unfold Seal, Authenticate, Verify, Open. rewrite Ea, Eb, Hest, Sa, Sb, Hsu, Hke, Hchain. simpl.
  rewrite Hm, <- Ek, <- Ec, Hm, Hlt, decide_False by (intros H; by apply H).
  unfold equalCT. rewrite bool_decide_true by done. simpl.
  split_and!; try done. by apply synced_commit.
Qed.

(** [Verify] accepts exactly one tag per chain position, the first four
    octets of the code over the received octets, and then advances one chain
    by that code; on anything else it reports an error and the session is
    untouched. *)
Theorem Verify_exact s frame tag d s' e : s_suite s = S -> session_ok s -> octets_ok frame ->
  Verify s frame tag d = (s', e) ->
  (e = None <-> s_state s = StateEstablished /\
     exists m, suite_MAC S (s_keys s) (chainFor s d) frame = Ok m /\ tag = slice m 0 MACTagSize /\
       s' = commit s d m) /\
  (e <> None -> s' = s).
Proof.
  intros HS Hs Hf. unfold Verify. case_match eqn:He.
  { intros [= <- <-]. apply negb_true_iff, bool_decide_eq_false in He. split; [|done].
    split; [done|]. by intros [? _]. }
  apply Established_state in He. destruct (session_mac s d frame) as (m & Hm & Hmb); [done..|].
  assert (Hlt : len (slice m 0 MACTagSize) = MACTagSize)
    by (unfold MACTagSize; rewrite len_slice; unfold len; destruct Hmb; lia).
  rewrite HS in *. case_decide as Hl.
  { intros [= <- <-]. split; [|done]. split; [done|].
    intros (_ & m' & Hm' & Ht & _). rewrite Hm in Hm'. injection Hm' as <-. by rewrite Ht in Hl. }
  rewrite Hm. case_match eqn:Hq; intros [= <- <-].
  - apply negb_true_iff, bool_decide_eq_false in Hq. split; [|done]. split; [done|].
    by intros (_ & m' & [= <-] & Ht & _).
  - apply negb_false_iff, bool_decide_eq_true in Hq. split; [|done]. split; [|done].
    intros _. split; [done|]. exists m. by subst.
Qed.

End with_suite.

(** ** The registry *)

Lemma register_all_spec l r r' : register_all r l = Ok r' ->
  standard r' = standard r /\ Forall (fun s => Name s <> StandardSuiteName) l.
Proof.
  revert r. induction l as [|s l IH]; intros r; simpl; [by intros [= <-]|].
  unfold register. case_decide; simpl; [done|]. intros (E & H')%IH. split; [done|]. by constructor.
Qed.

Lemma register_all_total l r : Forall (fun s => Name s <> StandardSuiteName) l ->
  exists r', register_all r l = Ok r'.
Proof.
  intros Hl. revert r. induction Hl as [|s l Hs Hl IH]; intros r; simpl; [eauto|].
  unfold register. rewrite decide_False by done. apply IH.
Qed.

(** The mandated suite cannot be displaced: a registry is refused exactly
    when some extra suite claims the standard name, and in every registry that
    exists the standard name looks up AES-128. *)
Theorem registry_keeps_standard l :
  ((exists r, NewRegistry l = Ok r) <-> Forall (fun s => Name s <> StandardSuiteName) l) /\
  (forall r, NewRegistry l = Ok r ->
     Standard r = AES128.suite /\ Lookup r StandardSuiteName = Ok AES128.suite).
Proof.
  unfold NewRegistry. split; [split|].
  - intros [r Hr]. by apply register_all_spec in Hr as [_ ?].
  - apply register_all_total.
  - intros r [Hr _]%register_all_spec. unfold Standard, Lookup. simpl in Hr.
    by rewrite decide_True, Hr by done.
Qed.

(** ** Known answers and witnesses

    The vectors of testdata/secure.kat: SCBK-D, RND.A = 01..08, RND.B = 11..18. *)

Definition kat_rndA : octets := [0x01; 0x02; 0x03; 0x04; 0x05; 0x06; 0x07; 0x08].
Definition kat_rndB : octets := [0x11; 0x12; 0x13; 0x14; 0x15; 0x16; 0x17; 0x18].
Definition kat_keys : SessionKeys := mk_SessionKeys
  [0x90; 0x88; 0x00; 0x62; 0x79; 0xd4; 0x1b; 0x61; 0x8a; 0xca; 0xf4; 0x76; 0x0e; 0x9d; 0xee; 0xc6]
  [0x33; 0x6a; 0x2f; 0xd8; 0x40; 0xa1; 0x0e; 0xfb; 0xb5; 0xc3; 0x22; 0x39; 0x7b; 0x97; 0x59; 0xef]
  [0xfb; 0x27; 0x1d; 0x4a; 0x53; 0xcd; 0x63; 0x4a; 0x17; 0xcd; 0xac; 0x9c; 0x9a; 0xdc; 0x86; 0xbd].
Definition kat_server : block :=
  [0xcb; 0x25; 0x5a; 0x58; 0xdb; 0x26; 0x06; 0x49; 0x2a; 0x1f; 0xe0; 0x34; 0x61; 0xf4; 0x98; 0xe8].
Definition kat_rmac : block :=
  [0x86; 0x95; 0x45; 0x7f; 0x1f; 0xba; 0x99; 0xc0; 0xff; 0x42; 0x06; 0x6c; 0xd7; 0x13; 0x30; 0x27].

Example known_answers :
  AES128.DeriveSessionKeys DefaultBaseKey kat_rndA = Ok kat_keys /\
  AES128.ServerCryptogram kat_keys kat_rndA kat_rndB = Ok kat_server /\
  AES128.InitialRMAC kat_keys kat_server = Ok kat_rmac /\
  AES128.Seal kat_keys kat_rmac [0x60] = Ok [0x95; 0x2f; 0xe3; 0x70; 0xbe; 0x02; 0x41; 0x15;
    0x3d; 0xa9; 0x10; 0x92; 0x7b; 0x69; 0x2d; 0x75] /\
  AES128.MAC kat_keys kat_rmac (seqZ 0 20) = Ok [0x79; 0xa3; 0xa8; 0x49; 0xda; 0x0e; 0x8b; 0xcb;
    0x4f; 0xbe; 0xef; 0x1b; 0x85; 0x13; 0xe2; 0x14].
Proof. split_and!; vm_compute; reflexivity. Qed.

Ltac block_dec := split; [reflexivity|octets_dec].

Lemma kat_keys_ok : keys_ok kat_keys.
Proof. split; block_dec. Qed.
Lemma kat_rmac_ok : block_ok kat_rmac.
Proof. block_dec. Qed.
Lemma DefaultBaseKey_ok : block_ok DefaultBaseKey.
Proof. block_dec. Qed.
Lemma kat_rndA_ok : rnd_ok kat_rndA.
Proof. block_dec. Qed.
Lemma kat_rndB_ok : rnd_ok kat_rndB.
Proof. block_dec. Qed.

Example Open_Seal_witness : exists c,
  AES128.Seal kat_keys kat_rmac [0x60] = Ok c /\ AES128.Open kat_keys kat_rmac c = Ok [0x60] /\
  octets_ok c /\ len c = AES128.paddedLen (len [0x60]) /\ len [0x60] < len c <= len [0x60] + 16 /\
  len c mod 16 = 0.
Proof. apply (AES128_facts.Open_Seal kat_keys kat_rmac [0x60] kat_keys_ok kat_rmac_ok). octets_dec. Defined.

Example MAC_reference_witness :
  AES128.MAC kat_keys kat_rmac [0x60] = Ok (AES128_facts.mac_reference kat_keys kat_rmac [0x60]).
Proof. exact (AES128_facts.MAC_reference kat_keys kat_rmac [0x60] kat_keys_ok). Defined.

(** The calls of a device's half of the handshake. *)
Definition pd_calls : list call := [CallAnswerChallenge kat_rndA kat_rndB zero8].
Definition pd_cryptogram : Session :=
  fold_left apply_call pd_calls (NewSession AES128.suite RolePD DefaultBaseKey).

Lemma pd_calls_ok : Forall call_ok pd_calls.
Proof. apply Forall_cons; split; [|done]. split; [octets_dec|apply kat_rndB_ok]. Qed.

Lemma pd_cryptogram_kept : kept (S := AES128.suite) (NewSession AES128.suite RolePD DefaultBaseKey) pd_cryptogram.
Proof. apply session_reachable; [apply DefaultBaseKey_ok|apply pd_calls_ok]. Qed.

Example session_invariant_witness : session_ok pd_cryptogram /\
  s_role pd_cryptogram = RolePD /\ s_base pd_cryptogram = DefaultBaseKey.
Proof. exact (session_invariant RolePD DefaultBaseKey pd_calls DefaultBaseKey_ok pd_calls_ok). Defined.

Example handshake_agreement_witness : exists cp pd,
  handshake (NewSession AES128.suite RoleCP DefaultBaseKey) (NewSession AES128.suite RolePD DefaultBaseKey)
    kat_rndA kat_rndB zero8 = Ok (cp, pd) /\
  synced (S := AES128.suite) cp pd /\ s_uid cp = zero8 /\ s_uid pd = zero8 /\ s_cmac cp = zero_block.
Proof.
  exact (handshake_agreement DefaultBaseKey kat_rndA kat_rndB zero8
    DefaultBaseKey_ok kat_rndA_ok kat_rndB_ok eq_refl).
Defined.

Example establish_needs_proof_witness :
  s_state (apply_call pd_cryptogram (CallAnswerServerCryptogram kat_server)) = StateEstablished /\
  (s_state pd_cryptogram = StateCryptogram /\ exists p,
     last_step pd_cryptogram (CallAnswerServerCryptogram kat_server) = Some (p, Ok p) /\ len p = BlockSize) /\
  s_keys (apply_call pd_cryptogram (CallAnswerServerCryptogram kat_rmac)) = SessionKeys_Zero.
Proof.
  destruct pd_cryptogram_kept as (Hok & HS & _).
  assert (Hn : s_state pd_cryptogram <> StateEstablished) by (vm_compute; discriminate).
  assert (He : s_state (apply_call pd_cryptogram (CallAnswerServerCryptogram kat_server)) = StateEstablished)
    by (vm_compute; reflexivity).
  split; [exact He|]. split.
  - apply (establish_needs_proof (S := AES128.suite) pd_cryptogram (CallAnswerServerCryptogram kat_server) HS Hok Hn). exact He.
  - apply (establish_needs_proof (S := AES128.suite) pd_cryptogram (CallAnswerServerCryptogram kat_rmac) HS Hok Hn)
      with (p := kat_rmac) (r := ServerCryptogram AES128.suite (s_keys pd_cryptogram) (s_rndA pd_cryptogram) (s_rndB pd_cryptogram));
      vm_compute; [reflexivity|reflexivity|reflexivity|discriminate].
Defined.

(** An established session on the vectors' keys, either end. *)
Definition kat_session (role : Role) : Session :=
  NewSession AES128.suite role DefaultBaseKey <| s_state := StateEstablished |>
    <| s_keys := kat_keys |> <| s_rmac := kat_rmac |>.

Lemma kat_synced : synced (S := AES128.suite) (kat_session RoleCP) (kat_session RolePD).
Proof. split; simpl; auto using kat_keys_ok, kat_rmac_ok with osdp. Qed.

Example secure_exchange_witness : exists c tag a' b',
  Seal (kat_session RoleCP) [0x60] true = Ok c /\
  Authenticate (kat_session RoleCP) (0x53 :: c) true = (a', Ok tag) /\ len tag = MACTagSize /\
  Verify (kat_session RolePD) (0x53 :: c) tag true = (b', None) /\
  Open b' c true = Ok [0x60] /\ synced (S := AES128.suite) a' b'.
Proof.
  apply (secure_exchange (kat_session RoleCP) (kat_session RolePD) true [0x60] (fun c => 0x53 :: c)).
  - apply kat_synced.
  - octets_dec.
  - intros c Hc. by apply Forall_cons.
Defined.

Definition pd_established : Session := apply_call pd_cryptogram (CallAnswerServerCryptogram kat_server).

Lemma pd_established_kept : kept (S := AES128.suite) pd_cryptogram pd_established.
Proof.
  destruct pd_cryptogram_kept as (Hok & HS & _). apply kept_call; [done|done|]. simpl. octets_dec.
Qed.

Example Verify_exact_witness :
  let '(s', e) := Verify pd_established [0x53] [0; 0; 0; 0] true in
  (e = None <-> s_state pd_established = StateEstablished /\
     exists m, suite_MAC AES128.suite (s_keys pd_established) (chainFor pd_established true) [0x53] = Ok m /\
       [0; 0; 0; 0] = slice m 0 MACTagSize /\ s' = commit pd_established true m) /\
  (e <> None -> s' = pd_established).
Proof.
  destruct (Verify pd_established [0x53] [0; 0; 0; 0] true) as [s' e] eqn:E.
  destruct pd_established_kept as (Hok & HS & _).
  apply (Verify_exact pd_established [0x53] [0; 0; 0; 0] true s' e HS Hok); [octets_dec|exact E].
Defined.
