(* ===== verification/Channel.v ===== *)
(** * Frames on an established session

    What the two ends of a channel share: enciphering a payload, authenticating
    a finished frame (the tag covers the header, the block, the code and the
    payload, with the length already final), and checking one. seal.go of
    internal/bus and sealed.go of internal/pd are each half of this; BusFacts.v,
    PdFacts.v and System.v use it from both. *)

From S2P Require Import Prelude Errors.
From S2P Require Frame Cmd Aes Secure.

Section with_suite.
Context {S : Secure.CipherSuite} `{!Secure.SuiteLaws S}.

(** What the payload becomes on an established session. *)
Definition enciphered (s : Secure.Session) (d : bool) (p c : octets) : Prop :=
  if decide (len p > 0)
  then Secure.suite_Seal S (Secure.s_keys s) (Secure.chainFor s d) p = Ok c
  else c = p.

Lemma enciphered_total s d p : Secure.session_ok s -> octets_ok p ->
  exists c, enciphered s d p c /\ octets_ok c /\
    len c = if decide (len p > 0) then Secure.AES128.paddedLen (len p) else 0.
Proof.
  intros [] Hp. unfold enciphered. case_decide.
  - destruct (Secure.law_seal (Secure.s_keys s) (Secure.chainFor s d) p)
      as (c & Hc & _ & Ho & Hl); [done|by destruct d|done|]. eauto.
  - exists p. split_and!; try done. pose proof (len_nonneg p). lia.
Qed.

Lemma enciphered_len s d p c : Secure.session_ok s -> octets_ok p -> enciphered s d p c ->
  len c = if decide (len p > 0) then Secure.AES128.paddedLen (len p) else 0.
Proof.
  intros Hs Hp Hc. destruct (enciphered_total s d p Hs Hp) as (c' & Hc' & _ & <-). f_equal.
  revert Hc Hc'. unfold enciphered. case_decide; congruence.
Qed.

(** The tag at the end of a frame's payload. *)
Record tagged (s : Secure.Session) (d : bool) (f : Frame.Frame) (c : octets) (m : list Z) : Prop := mk_tagged {
  tg_data : Frame.f_Data f = c ++ slice m 0 4;
  tg_block : Aes.block_ok m;
  tg_mac : Secure.suite_MAC S (Secure.s_keys s) (Secure.chainFor s d) (Frame.body_before f 4) = Ok m
}.

Lemma len_tag m : Aes.block_ok m -> len (slice m 0 4) = 4.
Proof. intros []. rewrite len_slice; unfold len; lia. Qed.

(** Authenticating the frame with room for the tag gives the tag of the frame
    that carries it, and one step of the chain. *)
Lemma Authenticate_tag s d f c : Secure.session_ok s -> Secure.s_suite s = S ->
  Secure.Established s = true ->
  octets_ok (Frame.AppendBody (f <| Frame.f_Data := c ++ replicate 4 0 |>) []) ->
  exists m, tagged s d (f <| Frame.f_Data := c ++ slice m 0 4 |>) c m /\
    Secure.Authenticate s (Frame.body_before (f <| Frame.f_Data := c ++ replicate 4 0 |>) 4) d =
      (Secure.commit s d m, Ok (slice m 0 4)).
Proof.
  intros Hs HS He Ho.
  destruct (Secure.session_mac s d (Frame.body_before (f <| Frame.f_Data := c ++ replicate 4 0 |>) 4))
    as (m & Hm & Hmb); [done|done|by apply Frame.body_before_ok|].
  exists m. split.
  - split; [done|done|]. rewrite <- HS.
    pose proof (Frame.body_before_tag f c (slice m 0 4) (replicate 4 0)) as Hb.
    rewrite len_tag in Hb by done. rewrite Hb by done. exact Hm.
  - unfold Secure.Authenticate. rewrite He. simpl negb. cbv iota. by rewrite Hm.
Qed.

(** Where a receiver finds the parts. *)
Lemma tagged_parts s d f c m : tagged s d f c m ->
  let data := Frame.f_Data f in
  4 <= len data /\ slice data 0 (len data - 4) = c /\ slice data (len data - 4) (len data) = slice m 0 4.
Proof.
  intros [Hd Hm _]. cbv zeta. pose proof (len_tag m Hm) as Hl. pose proof (len_nonneg c).
  rewrite Hd, len_app, Hl. split; [lia|]. split.
  - apply slice_begin. lia.
  - apply slice_end; [lia|]. rewrite len_app, Hl. lia.
Qed.

(** The other end accepts the tag, and steps the same chain. *)
Lemma Verify_tag a b d f c m : Secure.synced (S := S) a b -> tagged a d f c m ->
  Secure.Verify b (Frame.body_before f 4) (slice m 0 4) d = (Secure.commit b d m, None) /\
  Secure.synced (S := S) (Secure.commit a d m) (Secure.commit b d m).
Proof.
  intros Hs [_ Hmb Hm]. destruct (Secure.synced_Established a b Hs) as [Ea Eb].
  destruct (Secure.synced_chain a b d Hs) as [Ec Hc]. pose proof Hs as [[Sa Sb] _ [Ek Hk] _ _].
  split; [|by apply Secure.synced_commit]. unfold Secure.Verify. rewrite Eb. simpl negb. cbv iota.
  rewrite len_tag, decide_False by (done || (intros X; by apply X)).
  rewrite Sb, <- Ek, <- Ec, Hm. unfold Secure.equalCT. by rewrite bool_decide_true.
Qed.

(** And opens the payload, with the chain as it was before the step. *)
Lemma Open_enciphered a b d p c m : Secure.synced (S := S) a b -> octets_ok p -> len p > 0 ->
  enciphered a d p c -> Secure.Open (Secure.commit b d m) c d = Ok p.
Proof.
  intros Hs Hp Hl Hc. destruct (Secure.synced_chain a b d Hs) as [Ec Hch].
  destruct (Secure.synced_Established a b Hs) as [_ Eb].
  pose proof Hs as [[_ Sb] _ [Ek Hk] _ _]. unfold enciphered in Hc. rewrite decide_True in Hc by done.
  destruct (Secure.law_seal (Secure.s_keys a) (Secure.chainFor a d) p) as (c' & E & Ho & _); [done..|].
  assert (c' = c) as -> by congruence. unfold Secure.Open.
  assert (Secure.Established (Secure.commit b d m) = true) as -> by (by destruct d). simpl negb. cbv iota.
  assert (Secure.s_suite (Secure.commit b d m) = S /\ Secure.s_keys (Secure.commit b d m) = Secure.s_keys a /\
          Secure.chainFor (Secure.commit b d m) d = Secure.chainFor a d) as (-> & -> & ->)
    by (rewrite Ec, Ek; by destruct d). done.
Qed.

(** What an accepted tag proves. *)
Lemma Verify_authentic s d f s' : Secure.session_ok s -> Secure.s_suite s = S ->
  octets_ok (Frame.AppendBody f []) -> 4 <= len (Frame.f_Data f) ->
  let data := Frame.f_Data f in
  Secure.Verify s (Frame.body_before f 4) (slice data (len data - 4) (len data)) d = (s', None) ->
  exists c m, tagged s d f c m /\ s' = Secure.commit s d m /\ c = slice data 0 (len data - 4).
Proof.
  intros Hs HS Ho Hl. cbv zeta. unfold Secure.Verify. case_match; [done|]. case_decide; [done|].
  destruct (Secure.session_mac s d (Frame.body_before f 4)) as (m & Hm & Hmb);
    [done|done|by apply Frame.body_before_ok|].
  rewrite Hm. case_match eqn:Hq; [done|]. intros [= <-].
  apply negb_false_iff, bool_decide_eq_true in Hq.
  exists (slice (Frame.f_Data f) 0 (len (Frame.f_Data f) - 4)), m. split; [|done]. split; [|done|by rewrite <- HS].
  change (slice m 0 4) with (slice m 0 Secure.MACTagSize). rewrite <- Hq. apply slice_split. lia.
Qed.

(** A message on the channel: under the block of its direction, which says whether there
    is a payload; the payload enciphered under the session's keys and chain; and behind
    it the tag over the whole frame. *)
Record crosses (s : Secure.Session) (isCommand : bool) (f : Frame.Frame) (m : Cmd.Message) : Prop := mk_crosses {
  cr_code : Frame.f_Code f = Cmd.m_Code m;
  cr_block : Frame.f_Security f = Some (Frame.mk_SecurityBlock
    (if decide (len (Cmd.m_Data m) > 0) then if isCommand then Secure.SCS17 else Secure.SCS18
     else if isCommand then Secure.SCS15 else Secure.SCS16) []);
  cr_sealed : exists c tag, Frame.f_Data f = c ++ slice tag 0 4 /\
    (if decide (len (Cmd.m_Data m) > 0)
     then Secure.suite_Seal S (Secure.s_keys s) (Secure.chainFor s isCommand) (Cmd.m_Data m) = Ok c
     else c = []) /\
    Secure.suite_MAC S (Secure.s_keys s) (Secure.chainFor s isCommand) (Frame.body_before f 4) = Ok tag
}.

Lemma crosses_intro s (d : bool) f m c tag : Frame.f_Code f = Cmd.m_Code m ->
  Frame.f_Security f = Some (Frame.mk_SecurityBlock
    (if decide (len (Cmd.m_Data m) > 0) then if d then Secure.SCS17 else Secure.SCS18
     else if d then Secure.SCS15 else Secure.SCS16) []) ->
  enciphered s d (Cmd.m_Data m) c -> tagged s d f c tag -> crosses s d f m.
Proof.
  intros H1 H2 H3 [H4 _ H5]. split; [done|done|]. exists c, tag. split; [done|]. split; [|done].
  revert H3. unfold enciphered. case_decide as Hl; [done|]. intros ->.
  apply length_zero_iff_nil. unfold len in Hl. lia.
Qed.

End with_suite.
