(* ===== verification/Device.v ===== *)
(** * One device, as the bus sees it: internal/bus

    [Device] of device.go with what device.go's methods do to it alone:
    sequence.go (the rotation and [resync]), outbox.go (the queue, the command in
    flight, retransmission), busy.go's flag, session.go (dropping the channel),
    keyset.go (the key in flight) and status.go (transitions). A device is a
    value here; Bus.v holds the devices of a line and composes these steps. *)

From S2P Require Import Prelude Errors.
From S2P Require Frame Cmd Aes Secure.

(** ** device.go *)

Inductive State := Offline | Identifying | Online | SecureHandshake | Secure.

#[global] Instance State_eq : EqDecision State.
Proof. solve_decision. Defined.

(** secure.go: a handshake command and the block that carries it. *)
Record secureStep := mk_secureStep {
  ss_msg : Cmd.Message;
  ss_block : Frame.SecurityBlock
}.

(** status.go *)
Record contacts := mk_contacts {
  ct_known : bool;
  ct_state : list bool
}.

Definition StatusKind_num (k : Cmd.StatusKind) : nat :=
  match k with
  | Cmd.StatusUnspecified => 0 | Cmd.StatusInput => 1 | Cmd.StatusOutput => 2
  | Cmd.StatusTamper => 3 | Cmd.StatusPower => 4 | Cmd.StatusLocal => 5
  end%nat.

Definition StatusKind_of (n : nat) : Cmd.StatusKind :=
  match n with
  | 1 => Cmd.StatusInput | 2 => Cmd.StatusOutput | 3 => Cmd.StatusTamper
  | 4 => Cmd.StatusPower | 5 => Cmd.StatusLocal | _ => Cmd.StatusUnspecified
  end%nat.

#[global] Instance StatusKind_countable : Countable Cmd.StatusKind.
Proof. refine (inj_countable' StatusKind_num StatusKind_of _). by intros []. Defined.

Record Device := mk_Device {
  d_Address : octet;
  d_State : State;
  d_ID : Cmd.DeviceID;
  d_Caps : Cmd.CapabilityReport;
  d_session : option Secure.Session;
  d_pending : option secureStep;
  d_deferCommands : bool;
  d_released : option Cmd.Message;
  d_acknowledged : Z;
  d_pendingKey : option (list Z);
  d_installedKey : option (list Z);
  d_status : gmap Cmd.StatusKind contacts;
  d_inflight : option Cmd.Message;
  d_repeatSequence : bool;
  d_outbox : list Cmd.Message;
  d_secureDeclined : bool;
  d_LastSeen : Z;
  d_seq : Z;
  d_misses : Z
}.

#[global] Instance Device_eta : Eta Device := fun d =>
  mk_Device (d_Address d) (d_State d) (d_ID d) (d_Caps d) (d_session d) (d_pending d)
    (d_deferCommands d) (d_released d) (d_acknowledged d) (d_pendingKey d) (d_installedKey d)
    (d_status d) (d_inflight d) (d_repeatSequence d) (d_outbox d) (d_secureDeclined d)
    (d_LastSeen d) (d_seq d) (d_misses d).

Definition DeviceID_zero : Cmd.DeviceID := Cmd.mk_DeviceID [0; 0; 0] 0 0 0 [0; 0; 0].

(** [&Device{Address: a, State: Offline}]. *)
Definition NewDevice (a : Z) : Device :=
  mk_Device a Offline DeviceID_zero [] None None false None 0 None None ∅ None false [] false 0 0 0.

(** ** outbox.go *)

Definition Queued (d : Device) : Z := len (d_outbox d).

Definition enqueue (d : Device) (m : Cmd.Message) : Device := d <| d_outbox := d_outbox d ++ [m] |>.

Definition dequeue (d : Device) : Device * option Cmd.Message :=
  match d_outbox d with
  | [] => (d, None)
  | m :: rest => (d <| d_outbox := rest |>, Some m)
  end.

(** busy.go *)
Definition pollMessage : Cmd.Message := Cmd.mk_Message Cmd.Poll false [].

Definition outbound (d : Device) : Device * Cmd.Message :=
  match dequeue d with
  | (d, Some m) => (d <| d_inflight := Some m |>, m)
  | (d, None) => (d, pollMessage)
  end.

(** keyset.go *)
Definition secureEstablished (d : Device) : bool :=
  match d_session d with
  | Some s => Secure.Established s
  | None => false
  end.

Definition withholdsKeySet (d : Device) : bool :=
  match d_outbox d with
  | m :: _ => bool_decide (Cmd.m_Code m = Cmd.KeySet) && negb (secureEstablished d)
  | [] => false
  end.

Definition delivered (d : Device) : Device :=
  let d := d <| d_acknowledged := Cmd.Poll |> <| d_released := None |> in
  match d_inflight d with
  | Some m =>
      d <| d_acknowledged := Cmd.m_Code m |> <| d_released := Some m |> <| d_inflight := None |>
  | None => d
  end.

Definition requeue (d : Device) : Device :=
  match d_inflight d with
  | None => d
  | Some m => d <| d_outbox := m :: d_outbox d |> <| d_inflight := None |>
  end.

Definition reclaim (d : Device) : Device :=
  match d_released d with
  | None => d
  | Some m => requeue (d <| d_inflight := Some m |> <| d_released := None |>)
  end.

Definition retransmit (d : Device) : Device :=
  match d_inflight d with
  | None => d
  | Some _ => requeue d <| d_repeatSequence := true |>
  end.

(** ** busy.go: [deferring] consumes the flag it reports. *)
Definition deferring (d : Device) : Device * bool :=
  if negb (d_deferCommands d) then (d, false) else (d <| d_deferCommands := false |>, true).

(** ** session.go *)

Definition SecureSession (d : Device) : Secure.State * bool :=
  match d_session d with
  | None => (Secure.StateIdle, false)
  | Some s => (Secure.s_state s, true)
  end.

Definition UsesDefaultKey (d : Device) : bool :=
  match d_session d with
  | None => false
  | Some s => Secure.UsingDefaultKey s
  end.

Definition dropSession (d : Device) : Device := d <| d_session := None |> <| d_pending := None |>.

Definition abandonSecure (d : Device) : Device := dropSession d <| d_secureDeclined := true |>.

(** ** sequence.go *)

Definition sequenceRotation : Z := 3.

Definition nextSequence (d : Device) : Device * Z :=
  if d_repeatSequence d then (d <| d_repeatSequence := false |>, d_seq d)
  else
    let d := if decide (d_seq d >= sequenceRotation) then d <| d_seq := 1 |>
             else d <| d_seq := u8 (d_seq d + 1) |> in
    (d, d_seq d).

Definition resync (d : Device) : Device :=
  let d := requeue d in
  let d := d <| d_seq := 0 |> <| d_repeatSequence := false |> <| d_State := Offline |> in
  dropSession d.

Definition State_num (s : State) : Z :=
  match s with
  | Offline => 0 | Identifying => 1 | Online => 2 | SecureHandshake => 3 | Secure => 4
  end.

Definition Device_Online (d : Device) : bool := bool_decide (State_num (d_State d) >= State_num Online).

(** ** keyset.go *)

Definition clearPendingKey (d : Device) : Device := d <| d_pendingKey := None |>.

Definition adoptPendingKey (d : Device) : Device :=
  match d_pendingKey d with
  | None => d
  | Some k => clearPendingKey (d <| d_installedKey := Some k |>)
  end.

Definition baseKey (d : Device) (lookup : option (Z -> option (list Z))) : option (list Z) :=
  match d_installedKey d with
  | Some k => Some k
  | None =>
      match lookup with
      | None => None
      | Some f => f (d_Address d)
      end
  end.

Definition keySetRefused (d : Device) : Device := clearPendingKey d.

Definition awaitingKeySet (d : Device) : bool :=
  bool_decide (is_Some (d_pendingKey d)) && bool_decide (d_acknowledged d = Cmd.KeySet).

(** ** status.go *)

(** [for len(c.state) <= r.Index { append(c.state, false) }]. *)
Definition grow (l : list bool) (i : Z) : list bool :=
  l ++ replicate (Z.to_nat (i + 1) - length l) false.

(** One report of the loop. *)
Definition status_step (st : gmap Cmd.StatusKind contacts * list Cmd.StatusChange)
    (r : Cmd.StatusChange) : gmap Cmd.StatusKind contacts * list Cmd.StatusChange :=
  let '(m, changed) := st in
  let c := match m !! Cmd.sc_Kind r with
           | Some c => c
           | None => mk_contacts false []
           end in
  let state := grow (ct_state c) (Cmd.sc_Index r) in
  let i := Z.to_nat (Cmd.sc_Index r) in
  let changed := if negb (ct_known c) || bool_decide (nth i state false <> Cmd.sc_Active r)
                 then changed ++ [r] else changed in
  let c := mk_contacts (ct_known c) (<[i := Cmd.sc_Active r]> state) in
  (<[Cmd.sc_Kind r := c]> m, changed).

Definition mark_known (m : gmap Cmd.StatusKind contacts) (r : Cmd.StatusChange) :
    gmap Cmd.StatusKind contacts :=
  match m !! Cmd.sc_Kind r with
  | Some c => <[Cmd.sc_Kind r := mk_contacts true (ct_state c)]> m
  | None => m
  end.

Definition statusChanges (d : Device) (reported : list Cmd.StatusChange) :
    Device * list Cmd.StatusChange :=
  let '(m, changed) := fold_left status_step reported (d_status d, []) in
  let m := fold_left mark_known reported m in
  (d <| d_status := m |>, changed).

Definition Status (d : Device) (kind : Cmd.StatusKind) : option (list bool) :=
  match d_status d !! kind with
  | Some c => if ct_known c then Some (ct_state c) else None
  | None => None
  end.
