(* ===== verification/Bus.v ===== *)
(** * The bus: internal/bus

    One line's devices and the two halves of an exchange with each: [Next]
    (bus.go, compose.go, seal.go) chooses, enciphers, authenticates and seals the
    command; [Reply] (reply.go, secure.go, busy.go, comset.go, status.go,
    keyset.go) verifies and dispatches the answer; [Timeout] (timeout.go) records a
    silence. [Send], [SetCommunication] and [InstallKey] are what the application
    may ask. A [*Device] is its position on the line; the nonce source is a
    stream, read one value per handshake attempt. Facts about it are in
    BusFacts.v. *)

From S2P Require Import Prelude Errors Device.
From S2P Require Frame Cmd Aes Secure.

(** ** event.go *)

Inductive Kind :=
  | KindNone | KindOnline | KindOffline | KindIdentified | KindCardRead | KindKeypad | KindNAK
  | KindResync | KindManufacturer | KindCapabilities | KindSecure | KindStatusChange | KindBusy
  | KindCommunication | KindKeyInstalled | KindSecureFailed.

#[global] Instance Kind_eq : EqDecision Kind.
Proof. solve_decision. Defined.

Record Event := mk_Event {
  e_Kind : Kind;
  e_Device : nat;
  e_ID : Cmd.DeviceID;
  e_Card : Cmd.CardRead;
  e_Keypad : Cmd.KeypadEntry;
  e_NAK : Z;
  e_Manufacturer : Cmd.ManufacturerMessage;
  e_Caps : Cmd.CapabilityReport;
  e_Status : list Cmd.StatusChange;
  e_Communication : Cmd.Communication;
  e_PreviousAddr : Z;
  e_DefaultKey : bool
}.

#[global] Instance Event_eta : Eta Event := fun e =>
  mk_Event (e_Kind e) (e_Device e) (e_ID e) (e_Card e) (e_Keypad e) (e_NAK e) (e_Manufacturer e)
    (e_Caps e) (e_Status e) (e_Communication e) (e_PreviousAddr e) (e_DefaultKey e).

(** [Event{Kind: k, Device: d}]. *)
Definition event (k : Kind) (i : nat) : Event :=
  mk_Event k i DeviceID_zero (Cmd.mk_CardRead 0 0 0 []) (Cmd.mk_KeypadEntry 0 []) 0
    (Cmd.mk_ManufacturerMessage 0 []) [] [] (Cmd.mk_Communication 0 0) 0 false.

(** ** bus.go and options.go *)

Definition OfflineThreshold : Z := 3.

(** transport/port.go: what the bus is told of its line. *)
Record Line := mk_Line {
  l_Turnaround : Z;
  l_ReplyTimeout : Z
}.

Definition KeyFor := Z -> option (list Z).

Record Bus := mk_Bus {
  b_line : Line;
  b_devices : list Device;
  b_current : nat;
  b_scheme : Frame.Scheme;
  b_suite : option Secure.CipherSuite;
  b_keys : option KeyFor;
  b_nonce : option (nat -> octets);
  b_nonces : nat
}.

#[global] Instance Bus_eta : Eta Bus := fun b =>
  mk_Bus (b_line b) (b_devices b) (b_current b) (b_scheme b) (b_suite b) (b_keys b) (b_nonce b)
    (b_nonces b).

Definition New (line : Line) (addrs : list Z) (scheme : Frame.Scheme) : Bus :=
  mk_Bus line (map NewDevice addrs) 0 scheme None None None 0.

Definition WithSecureChannel (suite : Secure.CipherSuite) (keys : KeyFor) (nonce : nat -> octets)
    (b : Bus) : Bus :=
  b <| b_suite := Some suite |> <| b_keys := Some keys |> <| b_nonce := Some nonce |>.

Definition secureEnabled (b : Bus) : bool :=
  bool_decide (is_Some (b_suite b)) && bool_decide (is_Some (b_keys b)) &&
  bool_decide (is_Some (b_nonce b)).

(** What a device's pointer reaches, and a write through it. *)
Definition device (b : Bus) (i : nat) : option Device := b_devices b !! i.
Definition set_device (b : Bus) (i : nat) (d : Device) : Bus :=
  b <| b_devices := <[i := d]> (b_devices b) |>.

(** ** seal.go *)

Definition SB (t : Z) : Frame.SecurityBlock := Frame.mk_SecurityBlock t [].

Definition blockForCommand (dataLen : Z) : Frame.SecurityBlock :=
  if decide (dataLen > 0) then SB Secure.SCS17 else SB Secure.SCS15.

(** The tag is computed over a frame whose data already has room for it, and
    copied into that room. *)
Definition authenticate (s : Secure.Session) (f : Frame.Frame) (isCommand : bool) :
    Secure.Session * result Frame.Frame :=
  let payload := Frame.f_Data f in
  let f := f <| Frame.f_Data := payload ++ replicate (Z.to_nat Secure.MACTagSize) 0 |> in
  let body := Frame.AppendBody f [] in
  match Secure.Authenticate s (slice body 0 (len body - Secure.MACTagSize)) isCommand with
  | (s, Err e) => (s, Err e)
  | (s, Ok tag) => (s, Ok (f <| Frame.f_Data := payload ++ tag |>))
  end.

Definition openReply (s : Secure.Session) (f : Frame.Frame) : Secure.Session * result octets :=
  let data := Frame.f_Data f in
  match Frame.f_Security f with
  | None => (s, Err ErrMACMismatch)
  | Some sb =>
      if decide (len data < Secure.MACTagSize) then (s, Err ErrMACMismatch)
      else
        let body := Frame.AppendBody f [] in
        let split := len data - Secure.MACTagSize in
        match Secure.Verify s (slice body 0 (len body - Secure.MACTagSize))
                (slice data split (len data)) false with
        | (s, Some e) => (s, Err e)
        | (s, None) =>
            let payload := slice data 0 split in
            if negb (Secure.BlockType_Encrypted (Frame.sb_Type sb)) then (s, Ok payload)
            else (s, Secure.Open s payload false)
        end
  end.

(** ** secure.go *)

Definition afterCapabilities (b : Bus) (d : Device) : Device :=
  let d := d <| d_State := Online |> in
  if negb (secureEnabled b) || d_secureDeclined d then d
  else
    let '(capable, _) := Cmd.SecureChannel (d_Caps d) in
    if negb capable then d <| d_secureDeclined := true |>
    else
      match baseKey d (b_keys b), b_suite b with
      | Some key, Some suite =>
          d <| d_session := Some (Secure.NewSession suite Secure.RoleCP key) |>
            <| d_State := SecureHandshake |>
      | _, _ => d <| d_secureDeclined := true |>
      end.

(** The command, its block, and the nonces used; [EPanic] where the session or
    the nonce source would be nil. *)
Definition handshakeCommand (b : Bus) (d : Device) :
    Device * nat * result (Cmd.Message * option Frame.SecurityBlock) :=
  match d_pending d with
  | Some step => (d <| d_pending := None |>, b_nonces b, Ok (ss_msg step, Some (ss_block step)))
  | None =>
      match d_session d, b_nonce b with
      | Some s, Some nonce =>
          let n := b_nonces b in
          match Secure.BeginChallenge s (nonce n) with
          | (s, Err _) =>
              let d := abandonSecure (d <| d_session := Some s |>) <| d_State := Online |> in
              (d, S n, Ok (pollMessage, None))
          | (s, Ok chlng) =>
              (d <| d_session := Some s |>, S n,
               Ok (Cmd.mk_Message Cmd.Chlng false chlng, Some (SB Secure.SCS11)))
          end
      | _, _ => (d, b_nonces b, Err EPanic)
      end
  end.

Definition secureFailure (d : Device) (i : nat) : Device * Event :=
  (abandonSecure d <| d_State := Online |>, event KindSecureFailed i).

Definition onCryptogram (d : Device) (i : nat) (data : octets) : Device * result Event :=
  match d_session d with
  | None => let '(d, e) := secureFailure d i in (d, Ok e)
  | Some s =>
      match Secure.AnswerCryptogram s data with
      | (s, Err _) => let '(d, e) := secureFailure (d <| d_session := Some s |>) i in (d, Ok e)
      | (s, Ok scrypt) =>
          let step := mk_secureStep (Cmd.mk_Message Cmd.SCrypt false scrypt) (SB Secure.SCS13) in
          (d <| d_session := Some s |> <| d_pending := Some step |>, Ok (event KindNone i))
      end
  end.

Definition onInitialRMAC (d : Device) (i : nat) (data : octets) : Device * result Event :=
  match d_session d with
  | None => let '(d, e) := secureFailure d i in (d, Ok e)
  | Some s =>
      match Secure.CompleteHandshake s data with
      | (s, Some _) => let '(d, e) := secureFailure (d <| d_session := Some s |>) i in (d, Ok e)
      | (s, None) =>
          (d <| d_session := Some s |> <| d_State := Secure |>,
           Ok (event KindSecure i <| e_DefaultKey := Secure.UsingDefaultKey s |>))
      end
  end.

(** ** compose.go *)

Definition commandFor (b : Bus) (d : Device) :
    Device * nat * result (Cmd.Message * option Frame.SecurityBlock) :=
  let n := b_nonces b in
  match d_State d with
  | Offline => (d, n, Ok (Cmd.mk_Message Cmd.ID false [0x00], None))
  | Identifying => (d, n, Ok (Cmd.mk_Message Cmd.Cap false [0x00], None))
  | SecureHandshake => handshakeCommand b d
  | Secure =>
      let '(d, deferred) := deferring d in
      if deferred then (d, n, Ok (pollMessage, Some (blockForCommand 0)))
      else if withholdsKeySet d then (d, n, Ok (pollMessage, Some (blockForCommand 0)))
      else
        let '(d, m) := outbound d in
        (d, n, Ok (m, Some (blockForCommand (len (Cmd.m_Data m)))))
  | Online =>
      let '(d, deferred) := deferring d in
      if deferred || withholdsKeySet d then (d, n, Ok (pollMessage, None))
      else
        let '(d, m) := outbound d in
        (d, n, Ok (m, None))
  end.

Definition compose (b : Bus) (d : Device) (msg : Cmd.Message) (block : option Frame.SecurityBlock) :
    Device * result Frame.Frame :=
  match block with
  | None =>
      let '(d, seq) := nextSequence d in
      (d, Cmd.Encode msg (d_Address d) seq (b_scheme b))
  | Some block =>
      let kind := Frame.sb_Type block in
      let sealed :=
        if Secure.BlockType_Encrypted kind then
          match d_session d with
          | None => Err EPanic
          | Some s =>
              ciphertext ← Secure.Seal s (Cmd.m_Data msg) true;
              Ok (msg <| Cmd.m_Data := ciphertext |>)
          end
        else Ok msg in
      match sealed with
      | Err e => (d, Err e)
      | Ok msg =>
          let '(d, seq) := nextSequence d in
          match Cmd.EncodeSecure msg (d_Address d) seq (b_scheme b) block with
          | Err e => (d, Err e)
          | Ok f =>
              if Secure.BlockType_Established kind then
                match d_session d with
                | None => (d, Err EPanic)
                | Some s =>
                    match authenticate s f true with
                    | (s, Err e) => (d <| d_session := Some s |>, Err e)
                    | (s, Ok f) => (d <| d_session := Some s |>, Ok (Frame.Seal f))
                    end
                end
              else (d, Ok (Frame.Seal f))
          end
      end
  end.

(** ** bus.go: Next *)

Record Step := mk_Step {
  st_Device : nat;
  st_Frame : Frame.Frame;
  st_Timeout : Z
}.

Definition Next (b : Bus) : Bus * option Step :=
  if decide (length (b_devices b) = 0%nat) then (b, None)
  else
    let i := b_current b in
    let b := b <| b_current := (S i mod length (b_devices b))%nat |> in
    match device b i with
    | None => (b, None)
    | Some d =>
        let '(d, n, c) := commandFor b d in
        let b := b <| b_nonces := n |> in
        match c with
        | Err _ => (set_device b i d, None)
        | Ok (msg, block) =>
            let '(d, f) := compose b d msg block in
            let b := set_device b i d in
            match f with
            | Err _ => (b, None)
            | Ok f => (b, Some (mk_Step i f (l_ReplyTimeout (b_line b))))
            end
        end
    end.

(** ** The handlers of reply.go, busy.go, comset.go, status.go and keyset.go *)

Definition onBusy (d : Device) (i : nat) : Device * result Event :=
  (reclaim d <| d_deferCommands := true |>, Ok (event KindBusy i)).

Definition onCommunication (d : Device) (i : nat) (data : octets) : Device * result Event :=
  match Cmd.ParseCommunication data with
  | Err e => (d, Err e)
  | Ok adopted =>
      let previous := d_Address d in
      let d := d <| d_Address := Cmd.co_Address adopted |> in
      (resync d, Ok (event KindCommunication i <| e_Communication := adopted |>
                       <| e_PreviousAddr := previous |>))
  end.

Definition onStatus (d : Device) (i : nat)
    (parse : octets -> result (list Cmd.StatusChange)) (data : octets) : Device * result Event :=
  match parse data with
  | Err e => (d, Err e)
  | Ok reported =>
      let '(d, changed) := statusChanges d reported in
      if decide (len changed = 0) then (d, Ok (event KindNone i))
      else (d, Ok (event KindStatusChange i <| e_Status := changed |>))
  end.

Definition onKeyInstalled (d : Device) (i : nat) : Device * result Event :=
  match d_pendingKey d with
  | None => (d, Err EPanic)
  | Some installed =>
      let d := dropSession (adoptPendingKey d) <| d_State := Identifying |> in
      (d, Ok (event KindKeyInstalled i <| e_DefaultKey := Secure.IsDefault installed |>))
  end.

(** What every answer does for a device that was offline. *)
Definition answered (d : Device) (i : nat) (wasOffline : bool) : Device * result Event :=
  if wasOffline then (d <| d_State := Identifying |>, Ok (event KindOnline i))
  else (d, Ok (event KindNone i)).

(** A payload parsed, or the error [dispatch] returns without touching the
    device. *)
Definition on {A} (d : Device) (r : result A) (k : A -> Device * result Event) :
    Device * result Event :=
  match r with
  | Ok a => k a
  | Err e => (d, Err e)
  end.

Definition dispatch (b : Bus) (d : Device) (i : nat) (msg : Cmd.Message) : Device * result Event :=
  let wasOffline := bool_decide (d_State d = Offline) in
  let code := Cmd.m_Code msg in
  let data := Cmd.m_Data msg in
  if decide (code = Cmd.PDID) then
    on d (Cmd.ParseDeviceID data) (fun id =>
      (d <| d_ID := id |> <| d_State := Identifying |>, Ok (event KindIdentified i <| e_ID := id |>)))
  else if decide (code = Cmd.PDCap) then
    on d (Cmd.ParseCapabilities data) (fun report =>
      let d := afterCapabilities b (d <| d_Caps := report |>) in
      let k := if decide (d_State d = SecureHandshake) then KindCapabilities else KindOnline in
      (d, Ok (event k i <| e_Caps := report |>)))
  else if decide (code = Cmd.IStatR) then onStatus d i Cmd.ParseInputStatus data
  else if decide (code = Cmd.OStatR) then onStatus d i Cmd.ParseOutputStatus data
  else if decide (code = Cmd.LStatR) then onStatus d i Cmd.ParseLocalStatus data
  else if decide (code = Cmd.RStatR) then onStatus d i Cmd.ParseReaderStatus data
  else if decide (code = Cmd.CCrypt) then onCryptogram d i data
  else if decide (code = Cmd.RMACI) then onInitialRMAC d i data
  else if decide (code = Cmd.Raw) then
    on d (Cmd.ParseCardRead data) (fun card => (d, Ok (event KindCardRead i <| e_Card := card |>)))
  else if decide (code = Cmd.Keypad) then
    on d (Cmd.ParseKeypadEntry data) (fun k => (d, Ok (event KindKeypad i <| e_Keypad := k |>)))
  else if decide (code = Cmd.NAK) then
    on d (Cmd.ParseNAK data) (fun reason =>
      (keySetRefused d, Ok (event KindNAK i <| e_NAK := reason |>)))
  else if decide (code = Cmd.MFGReply) then
    on d (Cmd.ParseManufacturerMessage data) (fun mfg =>
      (d, Ok (event KindManufacturer i <| e_Manufacturer := mfg |>)))
  else if decide (code = Cmd.Com) then onCommunication d i data
  else if decide (code = Cmd.Busy) then onBusy d i
  else if decide (code = Cmd.ACK) then
    if awaitingKeySet d then onKeyInstalled d i else answered d i wasOffline
  else answered d i wasOffline.

(** ** reply.go: Reply *)

Definition reply (b : Bus) (d : Device) (i : nat) (f : Frame.Frame) (now : Z) :
    Device * result Event :=
  if negb (Frame.f_IsReply f) then (d, Err ErrNotAReply)
  else if decide (Frame.f_Address f <> d_Address d) then (d, Err ErrWrongAddress)
  else
    let d := d <| d_LastSeen := now |> <| d_misses := 0 |> in
    if decide (Frame.Control_Sequence (Frame.f_Control f) = 0) then
      (resync d, Ok (event KindResync i))
    else
      match d_session d with
      | Some s =>
          if Secure.Established s then
            match openReply s f with
            | (s, Err _) => (resync (d <| d_session := Some s |>), Ok (event KindSecureFailed i))
            | (s, Ok payload) =>
                let d := delivered (d <| d_session := Some s |>) in
                dispatch b d i (Cmd.Decode (f <| Frame.f_Data := payload |>))
            end
          else dispatch b (delivered d) i (Cmd.Decode f)
      | None => dispatch b (delivered d) i (Cmd.Decode f)
      end.

(** ** timeout.go: Timeout *)

Definition timeout (d : Device) (i : nat) : Device * Event :=
  let d := d <| d_misses := d_misses d + 1 |> in
  let d := retransmit d in
  if decide (d_misses d < OfflineThreshold \/ d_State d = Offline) then (d, event KindNone i)
  else (resync d, event KindOffline i).

(** Both, through the pointer. *)
Definition Reply (b : Bus) (i : nat) (f : Frame.Frame) (now : Z) : Bus * result Event :=
  match device b i with
  | None => (b, Err EPanic)
  | Some d => let '(d, r) := reply b d i f now in (set_device b i d, r)
  end.

Definition Timeout (b : Bus) (i : nat) : Bus * option Event :=
  match device b i with
  | None => (b, None)
  | Some d => let '(d, e) := timeout d i in (set_device b i d, Some e)
  end.

(** ** size.go *)

Definition securityBlockOverhead : Z := 2.

Definition paddedLength (n : Z) : Z := Z.ldiff (n + 1 + Aes.BlockSize - 1) (Aes.BlockSize - 1).

Definition wireLength (b : Bus) (d : Device) (m : Cmd.Message) : Z :=
  let payload := len (Cmd.m_Data m) in
  let '(security, payload) :=
    if secureEstablished d then
      let payload := if decide (payload > 0) then paddedLength payload else payload in
      (securityBlockOverhead, payload + Secure.MACTagSize)
    else (0, payload) in
  Frame.HeaderSize + security + 1 + payload + Frame.Scheme_Size (b_scheme b).

Definition checkSize (b : Bus) (d : Device) (m : Cmd.Message) : option error :=
  let accepted := Cmd.ReceiveBufferSize (d_Caps d) in
  if decide (accepted = 0) then None
  else
    let need := wireLength b d m in
    if decide (need > accepted) then Some (EBus (ErrMessageTooLarge need accepted)) else None.

(** ** bus.go: Send; comset.go: SetCommunication; keyset.go: InstallKey *)

Definition Send (b : Bus) (i : nat) (m : Cmd.Message) : Bus * option error :=
  match device b i with
  | None => (b, Some EPanic)
  | Some d =>
      match checkSize b d m with
      | Some e => (b, Some e)
      | None => (set_device b i (enqueue d m), None)
      end
  end.

Definition SetCommunication (b : Bus) (i : nat) (to : Cmd.Communication) : Bus * option error :=
  if decide (Cmd.co_Address to >= Frame.BroadcastAddress) then (b, Some (EBus Bus_ErrInvalidAddress))
  else if existsb (fun '(j, other) => negb (Nat.eqb j i) &&
                     bool_decide (d_Address other = Cmd.co_Address to))
            (imap pair (b_devices b))
  then (b, Some (EBus ErrAddressInUse))
  else Send b i (Cmd.CommunicationCommand to).

Definition InstallKey (b : Bus) (i : nat) (key : list Z) : Bus * option error :=
  match device b i with
  | None => (b, Some EPanic)
  | Some d =>
      if negb (secureEstablished d) then (b, Some (EBus ErrNotSecure))
      else (set_device b i (enqueue (d <| d_pendingKey := Some key |>) (Cmd.KeySetCommand key)), None)
  end.
