(* ===== verification/BusFacts.v ===== *)
(** * What the bus guarantees

    Theorems about Device.v and Bus.v. The invariant of a line and that every
    operation, in any order, keeps it; that [Next] always has a frame to send;
    the sequence numbers it uses; what becomes of a queued command; when an
    installation key may travel; the arithmetic of [checkSize]; what counts as
    a change of a contact; and when a device is given up. *)

From S2P Require Import Prelude Errors Channel Device Bus.
From S2P Require Frame Cmd Aes Secure.

(** ** Messages and inputs *)

Abbreviation msg_ok := Cmd.msg_ok (only parsing).

Lemma pollMessage_ok : msg_ok pollMessage.
Proof. split; [done|]. by apply Forall_nil. Qed.

#[global] Hint Resolve pollMessage_ok : osdp.

Section with_suite.
Context {S : Secure.CipherSuite} `{!Secure.SuiteLaws S}.

(** ** The invariant *)

Record device_ok (b : Bus) (d : Device) : Prop := mk_device_ok {
  do_addr : octet_ok (d_Address d);
  do_seq : 0 <= d_seq d <= 3;
  do_misses : 0 <= d_misses d;
  do_repeat : d_repeatSequence d = true -> 1 <= d_seq d;
  do_inflight : is_Some (d_inflight d) -> 1 <= d_seq d;
  do_session : forall s, d_session d = Some s ->
    Secure.session_ok s /\ Secure.s_suite s = S /\ Secure.s_role s = Secure.RoleCP /\
    is_Some (b_nonce b);
  do_handshake : d_State d = SecureHandshake ->
    exists s, d_session d = Some s /\ Secure.Established s = false;
  do_secure : d_State d = Secure -> secureEstablished d = true;
  do_pending : forall step, d_pending d = Some step ->
    ss_block step = SB Secure.SCS13 /\ msg_ok (ss_msg step) /\ Cmd.m_Code (ss_msg step) = Cmd.SCrypt;
  do_outbox : Forall msg_ok (d_outbox d);
  do_inflight_msg : forall m, d_inflight d = Some m -> msg_ok m;
  do_released : forall m, d_released d = Some m -> msg_ok m;
  do_pendingKey : forall k, d_pendingKey d = Some k -> Aes.block_ok k;
  do_installedKey : forall k, d_installedKey d = Some k -> Aes.block_ok k
}.

Record bus_ok (b : Bus) : Prop := mk_bus_ok {
  bo_devices : Forall (device_ok b) (b_devices b);
  bo_current : b_devices b <> [] -> (b_current b < length (b_devices b))%nat;
  bo_suite : forall s, b_suite b = Some s -> s = S;
  bo_keys : forall f a k, b_keys b = Some f -> f a = Some k -> Aes.block_ok k;
  bo_nonce : forall f n, b_nonce b = Some f -> Secure.rnd_ok (f n)
}.

(** The part of the bus a device's soundness depends on never changes. *)
Definition same_config (b b' : Bus) : Prop :=
  b_suite b' = b_suite b /\ b_keys b' = b_keys b /\ b_nonce b' = b_nonce b /\
  b_scheme b' = b_scheme b /\ b_line b' = b_line b.

Lemma device_ok_config b b' d : b_nonce b' = b_nonce b -> device_ok b d -> device_ok b' d.
Proof. intros E []. split; auto. intros s Hs. rewrite E. auto. Qed.

(** A device-level step keeps [device_ok] by inspection of the fields it
    writes. *)
Ltac device_solve :=
  repeat match goal with H : device_ok _ _ |- _ => destruct H end;
  split; simpl in *; eauto; try done;
  try (intros; simplify_eq; eauto; done);
  try lia; try (by intros []).

Lemma requeue_ok b d : device_ok b d -> device_ok b (requeue d).
Proof.
  intros Hd. unfold requeue. destruct (d_inflight d) as [m|] eqn:E; [|done].
  assert (msg_ok m) by by apply (do_inflight_msg b d Hd).
  assert (1 <= d_seq d) by (apply (do_inflight b d Hd); by rewrite E).
  device_solve.
Qed.

Lemma requeue_inflight d : d_inflight (requeue d) = None.
Proof. unfold requeue. by destruct (d_inflight d) eqn:E. Qed.

Lemma dropSession_ok b d : device_ok b d -> d_State d <> SecureHandshake -> d_State d <> Secure ->
  device_ok b (dropSession d).
Proof. intros Hd H1 H2. unfold dropSession. device_solve. Qed.

Lemma resync_ok b d : device_ok b d -> device_ok b (resync d).
Proof.
  intros Hd%requeue_ok. unfold resync. apply dropSession_ok; [|done..].
  pose proof (requeue_inflight d) as E. device_solve; rewrite E; by intros [].
Qed.

Lemma retransmit_ok b d : device_ok b d -> device_ok b (retransmit d).
Proof.
  intros Hd. unfold retransmit. destruct (d_inflight d) as [m|] eqn:E; [|done].
  assert (1 <= d_seq d) by (apply (do_inflight b d Hd); by rewrite E).
  assert (d_seq (requeue d) = d_seq d) by (unfold requeue; by rewrite E).
  apply requeue_ok in Hd. device_solve.
Qed.

Lemma delivered_ok b d : device_ok b d -> device_ok b (delivered d).
Proof.
  intros Hd. unfold delivered. simpl. destruct (d_inflight d) as [m|] eqn:E.
  - assert (msg_ok m) by by apply (do_inflight_msg b d Hd). device_solve.
  - device_solve.
Qed.

Lemma enqueue_ok b d m : device_ok b d -> msg_ok m -> device_ok b (enqueue d m).
Proof.
  intros Hd Hm. unfold enqueue. device_solve. apply Forall_app. split; [done|].
  by apply Forall_cons.
Qed.

Lemma reclaim_ok b d : device_ok b d -> device_ok b (reclaim d).
Proof.
  intros Hd. unfold reclaim. destruct (d_released d) as [m|] eqn:E; [|done].
  assert (msg_ok m) by by apply (do_released b d Hd).
  unfold requeue. device_solve.
Qed.

Lemma dequeue_ok b d : device_ok b d ->
  device_ok b (dequeue d).1 /\ forall m, (dequeue d).2 = Some m -> msg_ok m.
Proof.
  intros Hd. unfold dequeue. pose proof (do_outbox b d Hd) as Ho.
  destruct (d_outbox d) as [|m rest] eqn:E; [done|]. apply Forall_cons in Ho as [Hm Hr].
  split; [device_solve|]. by intros ? [= <-].
Qed.

(** Choosing a command puts it in flight; the sequence number it is sent with
    is drawn next. [armed] is the invariant between the two. *)
Definition armed (b : Bus) (d : Device) : Prop := device_ok b (d <| d_inflight := None |>) /\
  forall m, d_inflight d = Some m -> msg_ok m.

Lemma device_ok_armed b d : device_ok b d -> armed b d.
Proof.
  intros Hd. split; [|by apply (do_inflight_msg b d Hd)]. device_solve.
Qed.

Lemma outbound_armed b d : device_ok b d ->
  armed b (outbound d).1 /\ msg_ok (outbound d).2.
Proof.
  intros Hd. destruct (dequeue_ok b d Hd) as [H1 H2]. unfold outbound.
  destruct (dequeue d) as [d' [m|]]; simpl in *.
  - split; [|by apply H2]. split; [device_solve|]. intros ? [= <-]. by apply H2.
  - split; [by apply device_ok_armed|apply pollMessage_ok].
Qed.

Lemma nextSequence_spec d : 0 <= d_seq d <= 3 -> (d_repeatSequence d = true -> 1 <= d_seq d) ->
  exists q, nextSequence d = (d <| d_seq := q |> <| d_repeatSequence := false |>, q) /\
    1 <= q <= 3 /\
    q = if d_repeatSequence d then d_seq d else d_seq d mod 3 + 1.
Proof.
  intros Hs Hr. unfold nextSequence, sequenceRotation. destruct (d_repeatSequence d) eqn:E.
  - exists (d_seq d). split; [|specialize (Hr eq_refl); lia]. by destruct d.
  - destruct (decide (d_seq d >= 3)) as [H3|H3].
    + exists 1. replace (d_seq d) with 3 by lia. split; [|done].
      destruct d; simpl in *. by subst.
    + exists (d_seq d + 1). unfold u8. rewrite Z.mod_small by lia.
      split; [|rewrite Z.mod_small by lia; lia]. destruct d; simpl in *. by subst.
Qed.

Lemma nextSequence_ok b d : armed b d -> device_ok b (nextSequence d).1.
Proof.
  intros [Hd Hm].
  destruct (nextSequence_spec d) as (q & -> & Hq & _); [apply (do_seq b _ Hd)|apply (do_repeat b _ Hd)|].
  simpl. device_solve.
Qed.

(** ** Composing a frame *)

(** What the application and the core may put on the line. *)
Record frame_for (b : Bus) (d : Device) (msg : Cmd.Message) (q : Z) (f : Frame.Frame) : Prop :=
  mk_frame_for {
  ff_ok : Frame.frame_ok f;
  ff_check : Frame.CheckOK f = true;
  ff_mark : Frame.f_HasMark f = false;
  ff_addr : Frame.f_Address f = d_Address d;
  ff_reply : Frame.f_IsReply f = Cmd.m_IsReply msg;
  ff_seq : Frame.Control_Sequence (Frame.f_Control f) = q;
  ff_scheme : Frame.Control_Scheme (Frame.f_Control f) = b_scheme b;
  ff_code : Frame.f_Code f = Cmd.m_Code msg
}.

Lemma frame_for_seal b d msg q sec data : 0 <= d_Address d < 128 -> 0 <= q <= 3 -> msg_ok msg ->
  (forall sb, sec = Some sb -> octet_ok (Frame.sb_Type sb) /\ octets_ok (Frame.sb_Data sb)) ->
  octets_ok data ->
  frame_for b d msg q (Frame.Seal (Frame.mk_Frame false (Cmd.m_IsReply msg) (d_Address d)
    (Frame.NewControl q (b_scheme b) (bool_decide (is_Some sec))) sec (Cmd.m_Code msg) data 0)).
Proof.
  intros Ha Hq [Hc _] Hsec Hdata.
  destruct (Frame.NewControl_spec q (b_scheme b) (bool_decide (is_Some sec)) Hq) as (H1 & H2 & H3 & H4).
  split; try done; [|apply Frame.CheckOK_Seal]. by apply Frame.Seal_ok.
Qed.

(** The result of composing [msg] for [d]: the frame, and the device with only
    its sequence number and its session moved on. *)
Definition composed (b : Bus) (d : Device) (msg : Cmd.Message) (s' : option Secure.Session)
    (r : Device * result Frame.Frame) (f : Frame.Frame) : Prop :=
  exists q, nextSequence d = (d <| d_seq := q |> <| d_repeatSequence := false |>, q) /\
    r = (d <| d_seq := q |> <| d_repeatSequence := false |> <| d_session := s' |>, Ok f) /\
    frame_for b d msg q f.

Lemma armed_sequence b d : armed b d ->
  exists q, nextSequence d = (d <| d_seq := q |> <| d_repeatSequence := false |>, q) /\ 1 <= q <= 3.
Proof.
  intros [Hd _]. destruct (nextSequence_spec d) as (q & E & Hq & _);
    [apply (do_seq b _ Hd)|apply (do_repeat b _ Hd)|eauto].
Qed.

Lemma armed_addr b d : armed b d -> 0 <= d_Address d.
Proof. intros [Hd _]. pose proof (do_addr b _ Hd) as Ha. simpl in Ha. unfold octet_ok in Ha. lia. Qed.

(** In the clear, and in a handshake block, the payload travels as it is. *)
Lemma compose_clear b d msg : armed b d -> msg_ok msg -> d_Address d < 128 ->
  exists f, composed b d msg (d_session d) (compose b d msg None) f /\
    Frame.f_Security f = None /\ Frame.f_Data f = Cmd.m_Data msg.
Proof.
  intros Ha Hm Hlt. destruct (armed_sequence b d Ha) as (q & E & Hq).
  pose proof (armed_addr b d Ha) as H0.
  exists (Frame.Seal (Frame.mk_Frame false (Cmd.m_IsReply msg) (d_Address d)
    (Frame.NewControl q (b_scheme b) false) None (Cmd.m_Code msg) (Cmd.m_Data msg) 0)).
  split; [exists q; split; [done|]; split|].
  - unfold compose. rewrite E. unfold Cmd.Encode. simpl. by rewrite Frame.Address_Valid_lt.
  - apply (frame_for_seal b d msg q None (Cmd.m_Data msg)); first [lia | apply Hm | done].
  - done.
Qed.

Lemma compose_handshake b d msg t : armed b d -> msg_ok msg -> d_Address d < 128 ->
  octet_ok t -> Secure.BlockType_Encrypted t = false -> Secure.BlockType_Established t = false ->
  exists f, composed b d msg (d_session d) (compose b d msg (Some (SB t))) f /\
    Frame.f_Security f = Some (SB t) /\ Frame.f_Data f = Cmd.m_Data msg.
Proof.
  intros Ha Hm Hlt Ht Henc Hest. destruct (armed_sequence b d Ha) as (q & E & Hq).
  pose proof (armed_addr b d Ha) as H0.
  exists (Frame.Seal (Frame.mk_Frame false (Cmd.m_IsReply msg) (d_Address d)
    (Frame.NewControl q (b_scheme b) true) (Some (SB t)) (Cmd.m_Code msg) (Cmd.m_Data msg) 0)).
  split; [exists q; split; [done|]; split|].
  - unfold compose. simpl. rewrite Henc, E. unfold Cmd.EncodeSecure. simpl.
    by rewrite Frame.Address_Valid_lt, Hest.
  - apply (frame_for_seal b d msg q (Some (SB t)) (Cmd.m_Data msg)); first [lia | apply Hm | idtac].
    intros sb [= <-]. split; [done|]. by apply Forall_nil.
  - done.
Qed.

(** The tag is the code over everything before it, and takes four octets. *)
Lemma authenticate_spec s f d : Secure.session_ok s -> Secure.s_suite s = S ->
  Secure.Established s = true ->
  octets_ok (Frame.AppendBody (f <| Frame.f_Data := Frame.f_Data f ++ replicate 4 0 |>) []) ->
  exists m, let g := f <| Frame.f_Data := Frame.f_Data f ++ slice m 0 4 |> in
    tagged (S := S) s d g (Frame.f_Data f) m /\ authenticate s f d = (Secure.commit s d m, Ok g).
Proof.
  intros Hs HS He Ho.
  destruct (Authenticate_tag s d f (Frame.f_Data f)) as (m & Ht & E); [done..|].
  exists m. split; [done|]. unfold authenticate, Secure.MACTagSize. unfold Frame.body_before in E.
  change (Z.to_nat 4) with 4%nat. rewrite E. by destruct f.
Qed.

Lemma blockForCommand_kind n : 0 <= n ->
  Frame.sb_Data (blockForCommand n) = [] /\ octet_ok (Frame.sb_Type (blockForCommand n)) /\
  Secure.BlockType_Established (Frame.sb_Type (blockForCommand n)) = true /\
  Secure.BlockType_Encrypted (Frame.sb_Type (blockForCommand n)) = bool_decide (n > 0).
Proof. intros. unfold blockForCommand. by case_decide; [rewrite bool_decide_true|rewrite bool_decide_false]. Qed.

Lemma compose_secure b d msg s : armed b d -> msg_ok msg -> d_Address d < 128 ->
  d_session d = Some s -> Secure.session_ok s -> Secure.s_suite s = S ->
  Secure.Established s = true ->
  exists f c m,
    composed b d msg (Some (Secure.commit s true m))
      (compose b d msg (Some (blockForCommand (len (Cmd.m_Data msg))))) f /\
    Frame.f_Security f = Some (blockForCommand (len (Cmd.m_Data msg))) /\
    Frame.f_Data f = c ++ slice m 0 4 /\ enciphered (S := S) s true (Cmd.m_Data msg) c /\ Aes.block_ok m /\
    Secure.suite_MAC S (Secure.s_keys s) (Secure.s_rmac s) (Frame.body_before f 4) = Ok m /\
    len c = if decide (len (Cmd.m_Data msg) > 0) then paddedLength (len (Cmd.m_Data msg)) else 0.
Proof.
  intros Ha Hm Hlt Hsess Hs HS He. destruct (armed_sequence b d Ha) as (q & E & Hq).
  pose proof (armed_addr b d Ha) as H0. set (data := Cmd.m_Data msg).
  destruct (blockForCommand_kind (len data)) as (B1 & B2 & B3 & B4); [apply len_nonneg|].
  destruct (enciphered_total s true data) as (c & Hc & Hco & Hcl); [done|apply Hm|].
  set (t := blockForCommand (len data)) in *.
  assert (Hsealed : (if Secure.BlockType_Encrypted (Frame.sb_Type t) then
      match d_session d with
      | None => Err EPanic
      | Some s => ciphertext ← Secure.Seal s data true; Ok (msg <| Cmd.m_Data := ciphertext |>)
      end else Ok msg) = Ok (msg <| Cmd.m_Data := c |>)).
  { rewrite B4, Hsess. unfold enciphered in Hc. unfold Secure.Seal. rewrite He, HS. simpl negb.
    destruct (decide (len data > 0)); [rewrite bool_decide_true by done; by rewrite Hc|].
    rewrite bool_decide_false by done. subst c. by destruct msg. }
  set (g := Frame.mk_Frame false (Cmd.m_IsReply msg) (d_Address d)
    (Frame.NewControl q (b_scheme b) true) (Some t) (Cmd.m_Code msg) c 0).
  destruct (Frame.NewControl_spec q (b_scheme b) true) as (C1 & _); [lia|].
  destruct (authenticate_spec s g true) as (m & [Hgd Hmb Hmac] & Hauth); [done..| |].
  { apply Frame.AppendBody_octets; simpl; try done; [|apply Hm|].
    - intros ? [= <-]. rewrite B1. split; [done|]. by apply Forall_nil.
    - apply Forall_app. split; [done|]. by apply (Forall_replicate octet_ok 4 0). }
  assert (Hml : octets_ok (slice m 0 4)) by (apply Forall_slice, Hmb).
  exists (Frame.Seal (g <| Frame.f_Data := c ++ slice m 0 4 |>)), c, m. split.
  - exists q. split; [done|]. split.
    + unfold compose. fold data t. cbv zeta. rewrite Hsealed, E. unfold Cmd.EncodeSecure.
      simpl. rewrite Frame.Address_Valid_lt, B3, Hsess by done. fold g. by rewrite Hauth.
    + apply (frame_for_seal b d msg q (Some t) (c ++ slice m 0 4)); [lia|lia|done|..].
      * intros ? [= <-]. rewrite B1. split; [done|]. by apply Forall_nil.
      * by apply Forall_app.
  - split_and!; try done.
Qed.

(** ** [Next] *)

Definition config_ok (b : Bus) : Prop :=
  (forall s, b_suite b = Some s -> s = S) /\
  (forall f a k, b_keys b = Some f -> f a = Some k -> Aes.block_ok k) /\
  (forall f n, b_nonce b = Some f -> Secure.rnd_ok (f n)).

(** What a device is asked next, and under which block. *)
Definition asked (d : Device) (msg : Cmd.Message) (block : option Frame.SecurityBlock) : Prop :=
  match block with
  | None => d_State d = Offline \/ d_State d = Identifying \/ d_State d = Online
  | Some t =>
      d_State d = SecureHandshake /\ (t = SB Secure.SCS11 \/ t = SB Secure.SCS13) \/
      d_State d = Secure /\ t = blockForCommand (len (Cmd.m_Data msg))
  end.

Lemma deferring_ok b d : device_ok b d -> device_ok b (deferring d).1.
Proof. intros Hd. unfold deferring. case_match; [done|]. device_solve. Qed.


(** What the bus still owes a device: the command on the line, then the queue. *)
Definition owed (d : Device) : list Cmd.Message := option_list (d_inflight d) ++ d_outbox d.

Lemma outbound_owed d : d_inflight d = None -> owed (outbound d).1 = owed d.
Proof.
  intros Hi. unfold owed, outbound, dequeue. destruct (d_outbox d) as [|m rest] eqn:E; simpl.
  - by rewrite Hi, E.
  - by rewrite Hi.
Qed.

(** The block [t] is the one a device in this state speaks under. *)
Definition speaks (d : Device) (msg : Cmd.Message) (t : option Frame.SecurityBlock) : Prop :=
  d_State d = Secure /\ t = Some (blockForCommand (len (Cmd.m_Data msg))) \/
  d_State d = Online /\ t = None.

(** The choice of a command: what it is, the block it goes under, and what is
    left of the device for [compose]. *)
Record chosen (b : Bus) (d d1 : Device) (msg : Cmd.Message) (block : option Frame.SecurityBlock) : Prop :=
  mk_chosen {
  ch_armed : armed b d1;
  ch_msg : msg_ok msg;
  ch_asked : asked d1 msg block;
  ch_same : d_Address d1 = d_Address d /\ d_State d1 = d_State d /\ d_seq d1 = d_seq d /\
    d_repeatSequence d1 = d_repeatSequence d /\ d_misses d1 = d_misses d /\
    d_pendingKey d1 = d_pendingKey d;
  ch_established : secureEstablished d1 = secureEstablished d;
  ch_owed : d_inflight d = None -> owed d1 = owed d;
  ch_command : msg = pollMessage \/ Cmd.m_Code msg = Cmd.ID \/ Cmd.m_Code msg = Cmd.Cap \/
    Cmd.m_Code msg = Cmd.SCrypt \/ Cmd.m_Code msg = Cmd.Chlng \/
    (d_inflight d1 = Some msg /\ d_session d1 = d_session d) /\ d_outbox d = msg :: d_outbox d1 /\
      withholdsKeySet d = false /\ speaks d msg block
}.

Lemma deferring_fields d : exists v, (deferring d).1 = d <| d_deferCommands := v |>.
Proof.
  unfold deferring. destruct (d_deferCommands d) eqn:E; [by exists false|].
  exists false. destruct d; simpl in *. by subst.
Qed.

Lemma speaks_asked d d1 msg t : speaks d msg t -> d_State d1 = d_State d -> asked d1 msg t.
Proof. intros [[Hs ->]|[Hs ->]] E; simpl; rewrite E; auto. Qed.

Ltac chosen_solve :=
  split; simpl; try (by auto using device_ok_armed with osdp); try (by split_and!).

Lemma chosen_poll b d t : device_ok b d -> speaks d pollMessage t ->
  chosen b d (deferring d).1 pollMessage t.
Proof.
  intros Hd Ht. pose proof (deferring_ok b d Hd) as Hd0.
  destruct (deferring_fields d) as [v E]. rewrite E in *.
  chosen_solve. by eapply speaks_asked.
Qed.

Lemma outbound_fields d : exists i o, (outbound d).1 = d <| d_inflight := i |> <| d_outbox := o |> /\
  ((outbound d).2 = pollMessage /\ d_outbox d = [] \/
   i = Some (outbound d).2 /\ d_outbox d = (outbound d).2 :: o).
Proof.
  unfold outbound, dequeue. destruct (d_outbox d) as [|m o] eqn:E; simpl.
  - exists (d_inflight d), []. split; [destruct d; simpl in *; by subst|auto].
  - exists (Some m), o. auto.
Qed.

Lemma chosen_outbound b d t : device_ok b d ->
  let d0 := (deferring d).1 in
  withholdsKeySet d0 = false -> speaks d (outbound d0).2 t ->
  chosen b d (outbound d0).1 (outbound d0).2 t.
Proof.
  intros Hd d0 Hw Ht. pose proof (deferring_ok b d Hd) as Hd0. fold d0 in Hd0.
  destruct (outbound_armed b d0 Hd0) as [H1 H2].
  destruct (deferring_fields d) as [v E]. fold d0 in E.
  pose proof (outbound_owed d0) as Ho. destruct (outbound_fields d0) as (i & o & Eo & Hc).
  assert (Hw' : withholdsKeySet d = false) by (by rewrite <- Hw, E).
  rewrite Eo in *. rewrite E in *. simpl in *. chosen_solve.
  - by eapply speaks_asked.
  - destruct Hc as [[-> _]|[-> Hc]]; [by left|]. do 5 right. by rewrite Hc.
Qed.

Lemma chosen_handshake b d : device_ok b d -> config_ok b -> d_State d = SecureHandshake ->
  exists d1 n msg block, handshakeCommand b d = (d1, n, Ok (msg, block)) /\ chosen b d d1 msg block.
Proof.
  intros Hd (_ & _ & Hn) Est. unfold handshakeCommand.
  destruct (d_pending d) as [[pm pb]|] eqn:Ep.
  - destruct (do_pending b d Hd _ Ep) as (Eb & Hm & Hpc). simpl in Eb, Hm, Hpc. subst pb.
    do 4 eexists. split; [done|]. chosen_solve.
    apply device_ok_armed. device_solve.
  - destruct (do_handshake b d Hd Est) as (s & Es & Hne).
    destruct (do_session b d Hd s Es) as (Hs & HS & Hr & [f Hf]).
    rewrite Es, Hf. unfold Secure.BeginChallenge. rewrite decide_False by (intros X; by apply X).
    pose proof (Secure.kept_BeginChallenge s (f (b_nonces b)) HS Hs (Hn f _ Hf)) as Hk.
    unfold Secure.BeginChallenge in Hk. rewrite decide_False in Hk by (intros X; by apply X).
    destruct Hk as (K1 & K2 & K3 & _). simpl in K1, K2, K3.
    do 4 eexists. split; [done|]. chosen_solve.
    + apply device_ok_armed. device_solve; intros; simplify_eq/=; eauto; try congruence.
    + split; [done|]. apply (Hn f (b_nonces b) Hf).
    + unfold secureEstablished. simpl. by rewrite Es, Hne.
    + by do 4 right; left.
Qed.

Lemma commandFor_spec b d : device_ok b d -> config_ok b ->
  exists d1 n msg block, commandFor b d = (d1, n, Ok (msg, block)) /\ chosen b d d1 msg block.
Proof.
  intros Hd Hcfg. unfold commandFor. destruct (d_State d) eqn:Est.
  - do 4 eexists. split; [done|]. chosen_solve; try tauto.
    split; [done|]. by apply Forall_cons.
  - do 4 eexists. split; [done|]. chosen_solve; try tauto.
    split; [done|]. by apply Forall_cons.
  - pose proof (fun t => chosen_poll b d t Hd) as Hp. pose proof (chosen_outbound b d) as Ho.
    destruct (deferring d) as [d0 df]. simpl in *.
    destruct (df || withholdsKeySet d0) eqn:Ew.
    + do 4 eexists. split; [done|]. apply Hp. right. by split.
    + apply orb_false_iff in Ew as [_ Ew]. specialize (fun t => Ho t Hd Ew).
      destruct (outbound d0) as [d1 m]. do 4 eexists. split; [done|]. apply Ho. right. by split.
  - by apply chosen_handshake.
  - pose proof (fun t => chosen_poll b d t Hd) as Hp. pose proof (chosen_outbound b d) as Ho.
    destruct (deferring d) as [d0 df]. simpl in *.
    destruct df; [do 4 eexists; split; [done|]; apply Hp; left; by split|].
    destruct (withholdsKeySet d0) eqn:Ew;
      [do 4 eexists; split; [done|]; apply Hp; left; by split|].
    specialize (fun t => Ho t Hd eq_refl).
    destruct (outbound d0) as [d1 m]. do 4 eexists. split; [done|]. apply Ho. left. by split.
Qed.

(** The session a frame leaves behind: untouched, or one command further. *)
Definition advanced (d : Device) (s' : option Secure.Session) : Prop :=
  s' = d_session d \/
  exists s m, d_session d = Some s /\ Secure.Established s = true /\ Aes.block_ok m /\
    s' = Some (Secure.commit s true m).

Lemma composed_ok b d msg s' r f : armed b d -> composed b d msg s' r f -> advanced d s' ->
  device_ok b r.1.
Proof.
  intros Ha (q & E & -> & _) Hs'. pose proof (nextSequence_ok b d Ha) as Hok. rewrite E in Hok.
  destruct Hs' as [->|(s & m & Es & He & Hm & ->)]; simpl in *; [by destruct d|].
  destruct (do_session b _ Hok s Es) as (Hs & HS & Hr & Hn).
  assert (Hst : Secure.s_state s = Secure.StateEstablished)
    by by apply Secure.Established_state, negb_false_iff.
  pose proof (Secure.session_ok_commit s true m Hs Hm Hst) as Hs'.
  destruct Hok; split; simpl in *; eauto.
  - by intros ? [= <-].
  - intros X. destruct (do_handshake0 X) as (s1 & E1 & E2). congruence.
Qed.

Lemma exchange_spec b d : device_ok b d -> config_ok b -> d_Address d < 128 ->
  exists d1 n msg block f s',
    commandFor b d = (d1, n, Ok (msg, block)) /\ chosen b d d1 msg block /\
    composed b d1 msg s' (compose b d1 msg block) f /\ advanced d1 s' /\
    Frame.f_Security f = block /\ (block = None -> Frame.f_Data f = Cmd.m_Data msg).
Proof.
  intros Hd Hcfg Hlt. destruct (commandFor_spec b d Hd Hcfg) as (d1 & n & msg & block & E & Hc).
  pose proof Hc as [Ha Hm Hask (Hsame & Hst & _) Hest _ _]. rewrite <- Hsame in Hlt.
  destruct block as [t|]; simpl in Hask.
  - destruct Hask as [[_ Ht]|[Hs ->]].
    + destruct (compose_handshake b d1 msg (Frame.sb_Type t)) as (f & H1 & H2 & H3);
        [done..|by destruct Ht as [->| ->]|by destruct Ht as [->| ->]|by destruct Ht as [->| ->]|].
      assert (SB (Frame.sb_Type t) = t) as Hsb by (by destruct Ht as [->| ->]). rewrite Hsb in *.
      exists d1, n, msg, (Some t), f, (d_session d1). split_and!; try done. by left.
    + rewrite Hst in Hs. pose proof (do_secure b d Hd Hs) as He. rewrite <- Hest in He.
      unfold secureEstablished in He. destruct (d_session d1) as [s|] eqn:Es; [|done].
      destruct Ha as [Hok Ha2]. destruct (do_session b _ Hok s Es) as (Hs1 & HS1 & _).
      destruct (compose_secure b d1 msg s) as (f & c & m & H1 & H2 & _ & _ & H5 & _); try done.
      exists d1, n, msg, (Some (blockForCommand (len (Cmd.m_Data msg)))), f, (Some (Secure.commit s true m)).
      split_and!; try done. right. eauto 10.
  - destruct (compose_clear b d1 msg) as (f & H1 & H2 & H3); [done..|].
    exists d1, n, msg, None, f, (d_session d1). split_and!; try done. by left.
Qed.

Lemma bus_ok_config b : bus_ok b -> config_ok b.
Proof. intros []. done. Qed.

Lemma bus_ok_device b i d : bus_ok b -> device b i = Some d -> device_ok b d.
Proof. intros [Hd _ _ _ _] Hi. by eapply Forall_lookup_1. Qed.

Lemma bus_ok_set b b' i d : bus_ok b -> same_config b b' -> b_devices b' = <[i := d]> (b_devices b) ->
  (b_current b' = b_current b \/ (b_current b' < length (b_devices b))%nat) ->
  device_ok b d -> bus_ok b'.
Proof.
  intros [Hds Hc Hs Hk Hn] (E1 & E2 & E3 & _) Ed Ecur Hd. split; rewrite ?E1, ?E2, ?E3, ?Ed; auto.
  - apply Forall_insert; [|by eapply device_ok_config].
    eapply Forall_impl; [done|]. intros. by eapply device_ok_config.
  - intros Hne. rewrite length_insert. destruct Ecur as [->|]; [|done].
    apply Hc. intros E. by rewrite E in Hne.
Qed.

Lemma compose_scheme b b' d msg block : b_scheme b' = b_scheme b ->
  compose b' d msg block = compose b d msg block.
Proof. intros E. unfold compose. by rewrite E. Qed.

Lemma Next_unfold b d : device b (b_current b) = Some d ->
  let b0 := b <| b_current := ((b_current b + 1) mod length (b_devices b))%nat |> in
  forall d1 n msg block d2 f, commandFor b0 d = (d1, n, Ok (msg, block)) ->
  compose b0 d1 msg block = (d2, f) ->
  Next b = (set_device (b0 <| b_nonces := n |>) (b_current b) d2,
            match f with
            | Ok f => Some (mk_Step (b_current b) f (l_ReplyTimeout (b_line b)))
            | Err _ => None
            end).
Proof.
  intros Hdev b0 d1 n msg block d2 f E1 E2. unfold Next.
  pose proof (lookup_lt_Some _ _ _ Hdev) as Hl. rewrite decide_False by (unfold device in *; lia).
  rewrite <- Nat.add_1_r. cbv zeta. fold b0.
  change (device b0 (b_current b)) with (device b (b_current b)). rewrite Hdev, E1.
  rewrite (compose_scheme b0) by done. rewrite E2. by destruct f.
Qed.

Lemma Next_total_aux b d : bus_ok b -> device b (b_current b) = Some d -> d_Address d < 128 ->
  exists b' f,
    Next b = (b', Some (mk_Step (b_current b) f (l_ReplyTimeout (b_line b)))) /\ bus_ok b' /\
    b_current b' = ((b_current b + 1) mod length (b_devices b))%nat /\
    Frame.frame_ok f /\ Frame.CheckOK f = true /\ Frame.f_Address f = d_Address d /\
    Frame.Control_Sequence (Frame.f_Control f) =
      (if d_repeatSequence d then d_seq d else d_seq d mod 3 + 1) /\
    1 <= Frame.Control_Sequence (Frame.f_Control f) <= 3.
Proof.
  intros Hb Hdev Hlt. pose proof (bus_ok_device b _ d Hb Hdev) as Hd.
  pose proof (lookup_lt_Some _ _ _ Hdev) as Hlen.
  pose proof (Next_unfold b d Hdev) as Hnext. cbv zeta in Hnext.
  set (b0 := b <| b_current := ((b_current b + 1) mod length (b_devices b))%nat |>) in *.
  destruct (exchange_spec b0 d) as (d1 & n & msg & block & f & s' & E & Hc & Hcomp & Hadv & _);
    [by apply (device_ok_config b)|exact (bus_ok_config b Hb)|done|].
  pose proof (composed_ok _ _ _ _ _ _ (ch_armed _ _ _ _ _ Hc) Hcomp Hadv) as Hd2.
  destruct Hcomp as (q & Eq & Er & Hf).
  destruct (ch_same _ _ _ _ _ Hc) as (Sa & Ss & Sq & Sr & _).
  destruct (nextSequence_spec d1) as (q' & Eq' & Hq & Hqv);
    [rewrite Sq; apply (do_seq b d Hd)|rewrite Sq, Sr; apply (do_repeat b d Hd)|].
  rewrite Eq in Eq'. injection Eq' as _ <-.
  rewrite (Hnext _ _ _ _ _ _ E Er). rewrite Er in Hd2.
  eexists _, f. split; [done|]. destruct Hf. split_and!; try done; try congruence; try lia.
  - eapply (bus_ok_set b); [done|done|done| |by apply (device_ok_config b0)].
    right. simpl. apply Nat.mod_upper_bound. lia.
  - by rewrite ff_seq0, Hqv, Sq, Sr.
Qed.

(** The line is never stalled by the bus: in every reachable state, if the
    device whose turn it is has a valid address, [Next] produces a frame. The
    frame is well formed, passes its own check, is addressed to that device and
    carries a sequence number from 1 to 3: the last one again for a
    retransmission, the next in the rotation otherwise, and never 0. The turn
    passes to the next device. *)
Theorem Next_total b d : bus_ok b -> device b (b_current b) = Some d -> d_Address d < 128 ->
  exists b' f,
    Next b = (b', Some (mk_Step (b_current b) f (l_ReplyTimeout (b_line b)))) /\ bus_ok b' /\
    b_current b' = ((b_current b + 1) mod length (b_devices b))%nat /\
    Frame.frame_ok f /\ Frame.CheckOK f = true /\ Frame.f_Address f = d_Address d /\
    Frame.Control_Sequence (Frame.f_Control f) =
      (if d_repeatSequence d then d_seq d else d_seq d mod 3 + 1) /\
    1 <= Frame.Control_Sequence (Frame.f_Control f) <= 3.
Proof. apply Next_total_aux. Qed.

(** ** [Reply] *)

Lemma secureFailure_ok b d i : device_ok b d -> device_ok b (secureFailure d i).1.
Proof. intros Hd. unfold secureFailure, abandonSecure, dropSession. simpl. device_solve. Qed.

Lemma abandon_ok b d s i : device_ok b d -> device_ok b (secureFailure (d <| d_session := s |>) i).1.
Proof. intros Hd%(secureFailure_ok b d i). destruct d; apply Hd. Qed.

Lemma afterCapabilities_ok b d : config_ok b -> device_ok b d -> device_ok b (afterCapabilities b d).
Proof.
  intros (Hs & Hk & Hn) Hd. unfold afterCapabilities. simpl.
  assert (Hon : device_ok b (d <| d_State := Online |>)) by device_solve. simpl in Hon.
  destruct (secureEnabled b) eqn:Een; simpl; [|done].
  destruct (d_secureDeclined d); [done|].
  destruct (Cmd.SecureChannel _) as [capable dk]. destruct capable; simpl; [|device_solve].
  assert (Hnn : is_Some (b_nonce b)).
  { unfold secureEnabled in Een. apply andb_true_iff in Een as [_ Een]. by apply bool_decide_eq_true in Een. }
  destruct (baseKey _ _) as [key|] eqn:Ek; [|device_solve].
  destruct (b_suite b) as [suite|] eqn:Es; [|device_solve]. assert (suite = S) as -> by by apply Hs.
  assert (Hkey : Aes.block_ok key).
  { unfold baseKey in Ek. simpl in Ek. destruct (d_installedKey d) eqn:Ei.
    - apply (do_installedKey b d Hd). congruence.
    - destruct (b_keys b) as [f|] eqn:Eb; [|done]. by eapply Hk. }
  pose proof (Secure.session_ok_new S Secure.RoleCP key Hkey).
  clear Hon. device_solve.
Qed.

Lemma AnswerCryptogram_spec s p s' r : Secure.s_suite s = S -> Secure.session_ok s -> octets_ok p ->
  Secure.AnswerCryptogram s p = (s', Ok r) ->
  Secure.s_state s = Secure.StateChallenged /\ Secure.s_state s' = Secure.StateCryptogram /\ octets_ok r.
Proof.
  intros HS Hs Hp E. pose proof (Secure.kept_AnswerCryptogram s p HS Hs Hp) as [Hk _].
  rewrite E in Hk. simpl in Hk. revert E. unfold Secure.AnswerCryptogram.
  do 2 (case_decide; [done|]). simpl. rewrite ?HS.
  assert (Secure.s_state s = Secure.StateChallenged) as Est
    by (destruct (decide (Secure.s_state s = Secure.StateChallenged)); tauto).
  destruct (Secure.DeriveSessionKeys _ _ _); [|done]. simpl. rewrite ?HS.
  destruct (Secure.ClientCryptogram _ _ _ _); [|done]. case_match; [done|]. simpl. rewrite ?HS.
  destruct (Secure.ServerCryptogram _ _ _ _) as [sv|]; [|done]. intros [= <- <-].
  split_and!; try done. apply (Secure.so_server _ Hk).
Qed.

Lemma onCryptogram_ok b d i data : device_ok b d -> octets_ok data ->
  device_ok b (onCryptogram d i data).1.
Proof.
  intros Hd Hdata. unfold onCryptogram. destruct (d_session d) as [s|] eqn:Es;
    [|pose proof (secureFailure_ok b d i Hd); by destruct (secureFailure d i)].
  destruct (do_session b d Hd s Es) as (Hs & HS & Hr & Hn).
  pose proof (Secure.kept_AnswerCryptogram s data HS Hs Hdata) as (K1 & K2 & K3 & _).
  destruct (Secure.AnswerCryptogram s data) as [s' [scrypt|e]] eqn:E.
  - destruct (AnswerCryptogram_spec s data s' scrypt) as (A1 & A2 & A3); [done..|].
    simpl in *. pose proof (do_secure b d Hd) as Hsec. unfold secureEstablished in Hsec.
    rewrite Es in Hsec. device_solve.
    + intros ? [= <-]. split_and!; congruence || done.
    + intros X. exists s'. split; [done|]. unfold Secure.Established. by rewrite A2.
    + intros X%Hsec. unfold Secure.Established in X. by rewrite A1 in X.
  - pose proof (abandon_ok b d (Some s') i Hd). by destruct (secureFailure _ i).
Qed.

Lemma onInitialRMAC_ok b d i data : device_ok b d -> device_ok b (onInitialRMAC d i data).1.
Proof.
  intros Hd. unfold onInitialRMAC. destruct (d_session d) as [s|] eqn:Es;
    [|pose proof (secureFailure_ok b d i Hd); by destruct (secureFailure d i)].
  destruct (do_session b d Hd s Es) as (Hs & HS & Hr & Hn).
  pose proof (Secure.kept_CompleteHandshake s data HS Hs) as (K1 & K2 & K3 & _).
  destruct (Secure.CompleteHandshake s data) as [s' [e|]] eqn:E.
  - pose proof (abandon_ok b d (Some s') i Hd). by destruct (secureFailure _ i).
  - assert (Secure.s_state s' = Secure.StateEstablished) as A2.
    { revert E. unfold Secure.CompleteHandshake. repeat (case_match; try done). by intros [= <-]. }
    simpl in *. device_solve.
    + intros ? [= <-]. split_and!; congruence || done.
    + intros _. unfold secureEstablished. simpl. unfold Secure.Established. by rewrite A2.
Qed.

Lemma onStatus_ok b d i parse data : device_ok b d -> device_ok b (onStatus d i parse data).1.
Proof.
  intros Hd. unfold onStatus. destruct (parse data) as [r|]; [|done].
  unfold statusChanges. destruct (fold_left _ _ _) as [m ch].
  assert (Hm : device_ok b (d <| d_status := fold_left mark_known r m |>)) by device_solve.
  case_decide; done.
Qed.

Lemma onCommunication_ok b d i data : device_ok b d -> octets_ok data ->
  device_ok b (onCommunication d i data).1.
Proof.
  intros Hd Ho. unfold onCommunication, Cmd.ParseCommunication. case_decide; [done|]. simpl.
  apply resync_ok. pose proof (Frame.octets_idx data 0 Ho). device_solve.
Qed.

Lemma onKeyInstalled_ok b d i : device_ok b d -> device_ok b (onKeyInstalled d i).1.
Proof.
  intros Hd. unfold onKeyInstalled. destruct (d_pendingKey d) as [k|] eqn:Ek; [|done].
  pose proof (do_pendingKey b d Hd k Ek). unfold adoptPendingKey. rewrite Ek.
  unfold dropSession, clearPendingKey. device_solve; try (by intros ? [= <-]).
Qed.

Lemma answered_ok b d i w : device_ok b d -> d_State d = Offline \/ w = false ->
  device_ok b (answered d i w).1.
Proof. intros Hd Hw. unfold answered. destruct w; [|done]. destruct Hw; [|done]. device_solve. Qed.

Lemma on_ok {A} b d (r : result A) k : device_ok b d -> (forall a, r = Ok a -> device_ok b (k a).1) ->
  device_ok b (on d r k).1.
Proof. intros Hd Hk. destruct r; simpl; auto. Qed.

Lemma dispatch_ok b d i msg : config_ok b -> device_ok b d -> octets_ok (Cmd.m_Data msg) ->
  device_ok b (dispatch b d i msg).1.
Proof.
  intros Hcfg Hd Ho. unfold dispatch.
  assert (Hw : d_State d = Offline \/ bool_decide (d_State d = Offline) = false)
    by (case_bool_decide; auto).
  revert Hw. generalize (bool_decide (d_State d = Offline)) as w. intros w Hw.
  repeat case_decide;
    first [ apply onStatus_ok | apply onCryptogram_ok | apply onInitialRMAC_ok
          | apply onCommunication_ok | apply on_ok | apply answered_ok | idtac ]; try done.
  - intros id _. device_solve.
  - intros r _. apply (afterCapabilities_ok b (d <| d_Caps := r |>)); [done|device_solve].
  - intros r _. device_solve.
  - apply reclaim_ok in Hd. unfold onBusy. device_solve.
  - destruct (awaitingKeySet d); [by apply onKeyInstalled_ok|by apply answered_ok].
Qed.

Lemma openReply_spec s f s' r : Secure.s_suite s = S -> Secure.session_ok s -> Frame.frame_ok f ->
  openReply s f = (s', r) ->
  Secure.kept (S := S) s s' /\ Secure.s_state s' = Secure.s_state s /\
  forall p, r = Ok p -> octets_ok p.
Proof.
  intros HS Hs Hf. unfold openReply.
  assert (Hrefl : Secure.kept (S := S) s s) by (unfold Secure.kept; by split_and!).
  destruct (Frame.f_Security f) as [sb|]; [|by intros [= <- <-]].
  case_decide; [by intros [= <- <-]|].
  set (body := slice (Frame.AppendBody f []) _ _).
  assert (Hbody : octets_ok body) by apply Forall_slice, Frame.AppendBody_ok, Hf.
  set (tag := slice (Frame.f_Data f) _ (len (Frame.f_Data f))).
  pose proof (Secure.kept_Verify s body tag false HS Hs Hbody) as Hk.
  assert (Hst : Secure.s_state (Secure.Verify s body tag false).1 = Secure.s_state s).
  { unfold Secure.Verify. by repeat case_match. }
  destruct (Secure.Verify s body tag false) as [s1 [e|]]; simpl in Hk, Hst; [by intros [= <- <-]|].
  assert (Hp : octets_ok (slice (Frame.f_Data f) 0 (len (Frame.f_Data f) - Secure.MACTagSize)))
    by (apply Forall_slice; apply Hf).
  case_match; intros [= <- <-]; split_and!; try done.
  - by intros p [= <-].
  - intros p. unfold Secure.Open. case_match; [done|]. destruct Hk as (Hs1 & HS1 & _). rewrite HS1.
    apply Secure.law_open; [apply Hs1|apply Hs1|done].
Qed.

Lemma reply_ok b d i f now : config_ok b -> device_ok b d -> Frame.frame_ok f ->
  device_ok b (reply b d i f now).1.
Proof.
  intros Hcfg Hd Hf. unfold reply. case_match; [done|]. case_decide; [done|].
  set (d0 := d <| d_LastSeen := now |> <| d_misses := 0 |>).
  assert (Hd0 : device_ok b d0) by (unfold d0; device_solve).
  case_decide; [by apply resync_ok|].
  destruct (d_session d0) as [s|] eqn:Es; [|apply dispatch_ok; [done|by apply delivered_ok|apply Hf]].
  destruct (Secure.Established s) eqn:He; [|apply dispatch_ok; [done|by apply delivered_ok|apply Hf]].
  destruct (do_session b d0 Hd0 s Es) as (Hs & HS & Hr & Hn).
  destruct (openReply s f) as [s' r] eqn:Eo.
  destruct (openReply_spec s f s' r HS Hs Hf Eo) as ((K1 & K2 & K3 & _) & Hst & Hp).
  assert (Hd1 : device_ok b (d0 <| d_session := Some s' |>)).
  { pose proof (do_handshake b d0 Hd0) as Hh. rewrite Es in Hh.
    assert (Secure.Established s' = true) as He' by (unfold Secure.Established in *; by rewrite Hst).
    clearbody d0. device_solve.
    - intros ? [= <-]. split_and!; congruence || done.
    - intros X%Hh. destruct X as (? & [= <-] & X). congruence. }
  destruct r as [p|e]; [|by apply resync_ok].
  apply dispatch_ok; [done|by apply delivered_ok|]. simpl. by apply Hp.
Qed.

Lemma timeout_ok b d i : device_ok b d -> device_ok b (timeout d i).1.
Proof.
  intros Hd. unfold timeout.
  assert (H0 : device_ok b (retransmit (d <| d_misses := d_misses d + 1 |>)))
    by (apply retransmit_ok; device_solve).
  case_decide; [done|]. by apply resync_ok.
Qed.

(** ** Reachable buses *)

(** Everything that can happen to a line: the driver's three calls, in any
    order and with any frame of octets, and the application's three requests. *)
Inductive bus_step (b : Bus) : Bus -> Prop :=
  | step_Next b' s : Next b = (b', s) -> bus_step b b'
  | step_Reply i f now b' r : Frame.frame_ok f -> Reply b i f now = (b', r) -> bus_step b b'
  | step_Timeout i b' e : Timeout b i = (b', e) -> bus_step b b'
  | step_Send i m b' e : msg_ok m -> Send b i m = (b', e) -> bus_step b b'
  | step_SetCommunication i c b' e : 0 <= Cmd.co_Address c ->
      SetCommunication b i c = (b', e) -> bus_step b b'
  | step_InstallKey i key b' e : Aes.block_ok key -> InstallKey b i key = (b', e) -> bus_step b b'.

Inductive bus_reachable (line : Line) (addrs : list Z) (scheme : Frame.Scheme)
    (keys : KeyFor) (nonce : nat -> octets) : Bus -> Prop :=
  | reach_plain : bus_reachable line addrs scheme keys nonce (New line addrs scheme)
  | reach_secure : bus_reachable line addrs scheme keys nonce
      (WithSecureChannel S keys nonce (New line addrs scheme))
  | reach_step b b' : bus_reachable line addrs scheme keys nonce b -> bus_step b b' ->
      bus_reachable line addrs scheme keys nonce b'.

Lemma bus_ok_set_device b i d d' : bus_ok b -> device b i = Some d -> device_ok b d' ->
  bus_ok (set_device b i d').
Proof. intros Hb Hi Hd. eapply (bus_ok_set b); [done|done|done|by left|done]. Qed.

Lemma CommunicationCommand_ok c : octet_ok (Cmd.co_Address c) -> msg_ok (Cmd.CommunicationCommand c).
Proof. intros Hc. split; [done|]. simpl. apply Forall_cons. split; [done|apply put32_ok]. Qed.

Lemma KeySetCommand_ok key : octets_ok key -> msg_ok (Cmd.KeySetCommand key).
Proof.
  intros Hk. split; [done|]. simpl. apply Forall_cons; split; [done|].
  apply Forall_cons; split; [apply u8_ok|done].
Qed.

Lemma Send_ok b i m : bus_ok b -> msg_ok m -> bus_ok (Send b i m).1.
Proof.
  intros Hb Hm. unfold Send. destruct (device b i) as [d|] eqn:Ed; [|done]. case_match; [done|].
  eapply bus_ok_set_device; [done|done|]. apply enqueue_ok; [by eapply bus_ok_device|done].
Qed.

(** A device at an address the frame cannot carry gets no command. *)
Lemma compose_invalid b d msg block : armed b d -> asked d msg block -> 128 <= d_Address d ->
  (d_State d = Secure -> secureEstablished d = true) -> msg_ok msg ->
  compose b d msg block = ((nextSequence d).1, Err ErrInvalidAddress).
Proof.
  intros Ha Hask Hlt Hsec Hm. destruct (armed_sequence b d Ha) as (q & E & Hq).
  assert (Hv : negb (Frame.Address_Valid (d_Address d)) = true).
  { unfold Frame.Address_Valid, Frame.BroadcastAddress. by rewrite bool_decide_false by lia. }
  unfold compose. rewrite E. destruct block as [t|]; simpl.
  2: { unfold Cmd.Encode. simpl. by rewrite Hv. }
  destruct Hask as [[_ Ht]|[Hs ->]].
  - assert (Secure.BlockType_Encrypted (Frame.sb_Type t) = false) as ->
      by (by destruct Ht as [->| ->]).
    unfold Cmd.EncodeSecure. simpl. by rewrite Hv.
  - apply Hsec in Hs as He. unfold secureEstablished in He.
    destruct (d_session d) as [s|] eqn:Es; [|done].
    destruct (blockForCommand_kind (len (Cmd.m_Data msg))) as (_ & _ & _ & B4); [apply len_nonneg|].
    rewrite B4. destruct Ha as [Hok _].
    destruct (do_session b _ Hok s Es) as (Hs1 & HS1 & _).
    destruct (enciphered_total s true (Cmd.m_Data msg)) as (c & Hc & _); [done|apply Hm|].
    unfold enciphered in Hc. unfold Secure.Seal, Cmd.EncodeSecure. rewrite He, HS1. simpl negb.
    destruct (decide (len (Cmd.m_Data msg) > 0)).
    + rewrite bool_decide_true by done. rewrite Hc. simpl. by rewrite Hv.
    + rewrite bool_decide_false by done. simpl. by rewrite Hv.
Qed.

Lemma Next_invalid b d : bus_ok b -> device b (b_current b) = Some d -> 128 <= d_Address d ->
  (Next b).2 = None /\ bus_ok (Next b).1.
Proof.
  intros Hb Hdev Hlt. pose proof (bus_ok_device b _ d Hb Hdev) as Hd.
  pose proof (Next_unfold b d Hdev) as Hnext. cbv zeta in Hnext.
  set (b0 := b <| b_current := ((b_current b + 1) mod length (b_devices b))%nat |>) in *.
  destruct (commandFor_spec b0 d) as (d1 & n & msg & block & E & Hc);
    [by apply (device_ok_config b)|exact (bus_ok_config b Hb)|].
  destruct Hc as [Ha Hm Hask (Sa & Ss & _) Hest _ _].
  pose proof (compose_invalid b0 d1 msg block Ha Hask) as Hcomp.
  specialize (Hcomp ltac:(lia) ltac:(rewrite Ss, Hest; apply (do_secure b d Hd)) Hm).
  rewrite (Hnext _ _ _ _ _ _ E Hcomp).
  split; [done|]. eapply (bus_ok_set b); [done|done|done| |].
  - right. simpl. apply Nat.mod_upper_bound. pose proof (lookup_lt_Some _ _ _ Hdev). lia.
  - apply (device_ok_config b0); [done|]. by apply nextSequence_ok.
Qed.

Lemma Next_ok b : bus_ok b -> bus_ok (Next b).1.
Proof.
  intros Hb. destruct (device b (b_current b)) as [d|] eqn:Ed.
  - destruct (decide (d_Address d < 128)) as [Hlt|Hge].
    + destruct (Next_total_aux b d Hb Ed Hlt) as (b' & f & E & Hb' & _). by rewrite E.
    + apply (Next_invalid b d); [done|done|lia].
  - unfold Next. case_decide; [done|]. simpl.
    apply lookup_ge_None in Ed. pose proof (bo_current b Hb) as Hc.
    exfalso. destruct (b_devices b); [done|]. specialize (Hc ltac:(done)). lia.
Qed.

(** The number of devices is fixed. *)
Lemma Next_length b : length (b_devices (Next b).1) = length (b_devices b).
Proof.
  unfold Next. case_decide; [done|]. cbv zeta. destruct (device _ _) as [d|]; [|done].
  destruct (commandFor _ d) as [[d1 n] [[m bl]|e]].
  - destruct (compose _ d1 m bl) as [d2 [f|e]]; simpl; by rewrite length_insert.
  - simpl. by rewrite length_insert.
Qed.

Lemma Reply_length b i f now : length (b_devices (Reply b i f now).1) = length (b_devices b).
Proof.
  unfold Reply. destruct (device b i); [|done]. destruct (reply _ _ _ _ _). simpl. by rewrite length_insert.
Qed.

(** What [Next] hands to the line. *)
Lemma Next_frame b b' st : bus_ok b -> Next b = (b', Some st) ->
  Frame.frame_ok (st_Frame st) /\ Frame.CheckOK (st_Frame st) = true /\ bus_ok b' /\
  st_Device st = b_current b /\ is_Some (device b (st_Device st)) /\ is_Some (device b' (st_Device st)).
Proof.
  intros Hb E. pose proof (Next_length b) as Hl. rewrite E in Hl. cbn [fst] in Hl.
  destruct (device b (b_current b)) as [d|] eqn:Ed.
  2:{ apply lookup_ge_None in Ed. pose proof (bo_current b Hb) as Hc. unfold Next in E. case_decide; [done|].
      destruct (b_devices b); [done|]. specialize (Hc ltac:(done)). lia. }
  destruct (decide (d_Address d < 128)) as [Hlt|Hge].
  - destruct (Next_total_aux b d Hb Ed Hlt) as (b1 & f & E1 & Hb1 & _ & Hf & Hck & _).
    rewrite E1 in E. injection E as -> <-. cbn [st_Frame st_Device]. do 4 (split; [done|]).
    split; [by eexists|]. apply lookup_lt_is_Some_2. rewrite Hl. by apply lookup_lt_Some in Ed.
  - destruct (Next_invalid b d Hb Ed) as [E1 _]; [lia|]. by rewrite E in E1.
Qed.

Lemma bus_step_ok b b' : bus_ok b -> bus_step b b' -> bus_ok b'.
Proof.
  intros Hb Hstep. destruct Hstep as [b' s E|i f now b' r Hf E|i b' e E|i m b' e Hm E|i c b' e Hc E|i key b' e Hk E].
  - pose proof (Next_ok b Hb) as Hn. by rewrite E in Hn.
  - unfold Reply in E. destruct (device b i) as [d|] eqn:Ed; [|by injection E as <- _].
    pose proof (reply_ok b d i f now (bus_ok_config b Hb) (bus_ok_device b i d Hb Ed) Hf) as Hr.
    destruct (reply b d i f now) as [d' r']. injection E as <- _.
    by eapply bus_ok_set_device.
  - unfold Timeout in E. destruct (device b i) as [d|] eqn:Ed; [|by injection E as <- _].
    pose proof (timeout_ok b d i (bus_ok_device b i d Hb Ed)) as Hr.
    destruct (timeout d i) as [d' r']. injection E as <- _. by eapply bus_ok_set_device.
  - pose proof (Send_ok b i m Hb Hm) as Hs. by rewrite E in Hs.
  - unfold SetCommunication in E. case_decide as Ha; [by injection E as <- _|].
    case_match; [by injection E as <- _|].
    pose proof (Send_ok b i (Cmd.CommunicationCommand c) Hb) as Hs. rewrite E in Hs.
    apply Hs, CommunicationCommand_ok. unfold Frame.BroadcastAddress, octet_ok in *. lia.
  - unfold InstallKey in E. destruct (device b i) as [d|] eqn:Ed; [|by injection E as <- _].
    case_match; [by injection E as <- _|]. injection E as <- _.
    eapply bus_ok_set_device; [done|done|]. pose proof (bus_ok_device b i d Hb Ed) as Hd.
    apply enqueue_ok; [device_solve|]. apply KeySetCommand_ok, Hk.
Qed.

Lemma New_ok line addrs scheme : Forall octet_ok addrs -> bus_ok (New line addrs scheme).
Proof.
  intros Ha. split; simpl; try done.
  - apply Forall_fmap. eapply Forall_impl; [done|]. intros a Hoct. simpl.
    split; simpl; try done; try (by intros []); lia.
  - intros Hne. rewrite length_map. destruct addrs; simpl; [done|lia].
Qed.

Lemma WithSecureChannel_ok line addrs scheme keys nonce : Forall octet_ok addrs ->
  (forall a k, keys a = Some k -> Aes.block_ok k) -> (forall n, Secure.rnd_ok (nonce n)) ->
  bus_ok (WithSecureChannel S keys nonce (New line addrs scheme)).
Proof.
  intros Ha Hk Hn. destruct (New_ok line addrs scheme Ha) as [Hd Hc _ _ _]. split; simpl in *; auto.
  - eapply Forall_impl; [done|]. intros d Hd0. destruct Hd0. split; auto.
    intros s Hs. destruct (do_session0 s Hs) as (? & ? & ? & [? ?]). done.
  - by intros ? [= <-].
  - by intros ? ? ? [= <-] ?%Hk.
  - by intros ? ? [= <-].
Qed.

(** Soundness of every reachable line, for the theorems of other files. *)
Lemma reachable_ok line addrs scheme keys nonce b :
  Forall octet_ok addrs -> (forall a k, keys a = Some k -> Aes.block_ok k) ->
  (forall n, Secure.rnd_ok (nonce n)) ->
  bus_reachable line addrs scheme keys nonce b -> bus_ok b.
Proof.
  intros Ha Hk Hn Hr. induction Hr as [| |b b' Hr IH Hs].
  - by apply New_ok.
  - by apply WithSecureChannel_ok.
  - by eapply bus_step_ok.
Qed.

(** C31. The invariant of a line. Start with any devices, with or without a
    secure channel, and let the driver and the application do anything in any
    order: every device then has a sequence number from 0 to 3, a handshake in
    progress has a session that is not yet established, a device believed secure
    has an established one, every session is the panel's end and sound, and what
    is queued, in flight or pending is well formed. In particular no reachable
    state dereferences a missing session. *)
Theorem bus_invariant line addrs scheme keys nonce b :
  Forall octet_ok addrs -> (forall a k, keys a = Some k -> Aes.block_ok k) ->
  (forall n, Secure.rnd_ok (nonce n)) ->
  bus_reachable line addrs scheme keys nonce b -> bus_ok b.
Proof. apply reachable_ok. Qed.

(** ** What becomes of a command *)

Definition same_queue (d d' : Device) : Prop :=
  d_outbox d' = d_outbox d /\ d_inflight d' = d_inflight d.

Lemma same_queue_refl d : same_queue d d.
Proof. done. Qed.

#[local] Hint Resolve same_queue_refl : osdp.

Lemma owed_same d d' : same_queue d d' -> owed d' = owed d.
Proof. intros [E1 E2]. unfold owed. by rewrite E1, E2. Qed.

Lemma owed_requeue d : owed (requeue d) = owed d /\ d_inflight (requeue d) = None.
Proof.
  unfold requeue, owed. destruct (d_inflight d) as [m|] eqn:E; simpl; [done|]. by rewrite E.
Qed.

Lemma owed_resync d : owed (resync d) = owed d /\ d_inflight (resync d) = None.
Proof. apply owed_requeue. Qed.

Lemma owed_retransmit d : owed (retransmit d) = owed d /\ d_inflight (retransmit d) = None.
Proof.
  unfold retransmit. destruct (d_inflight d) as [m|] eqn:E; [apply owed_requeue|done].
Qed.

Lemma timeout_owed d i : owed (timeout d i).1 = owed d /\ d_inflight (timeout d i).1 = None.
Proof.
  unfold timeout. set (d0 := d <| d_misses := _ |>).
  destruct (owed_retransmit d0) as [E1 E2]. destruct (owed_resync (retransmit d0)) as [E3 E4].
  case_decide; simpl; [done|]. by rewrite E3.
Qed.

Lemma resync_queue d : d_inflight d = None -> same_queue d (resync d).
Proof. intros E. unfold same_queue, resync, requeue. by rewrite E. Qed.

Lemma afterCapabilities_queue b d : same_queue d (afterCapabilities b d).
Proof.
  unfold afterCapabilities. case_match; [done|]. case_match. case_match; [done|].
  by repeat case_match.
Qed.

Lemma secureFailure_queue d i : same_queue d (secureFailure d i).1.
Proof. done. Qed.

Lemma onCryptogram_queue d i data : same_queue d (onCryptogram d i data).1.
Proof. unfold onCryptogram. destruct (d_session d); [|done]. by destruct (Secure.AnswerCryptogram _ _) as [? []]. Qed.

Lemma onInitialRMAC_queue d i data : same_queue d (onInitialRMAC d i data).1.
Proof. unfold onInitialRMAC. destruct (d_session d); [|done]. by destruct (Secure.CompleteHandshake _ _) as [? []]. Qed.

Lemma onStatus_queue d i parse data : same_queue d (onStatus d i parse data).1.
Proof.
  unfold onStatus. destruct (parse data); [|done]. unfold statusChanges.
  destruct (fold_left _ _ _). by case_decide.
Qed.

Lemma onKeyInstalled_queue d i : same_queue d (onKeyInstalled d i).1.
Proof.
  unfold onKeyInstalled, adoptPendingKey. by destruct (d_pendingKey d).
Qed.

Lemma answered_queue d i w : same_queue d (answered d i w).1.
Proof. by destruct w. Qed.

Lemma on_queue {A} d (r : result A) k : (forall a, same_queue d (k a).1) -> same_queue d (on d r k).1.
Proof. intros Hk. destruct r; simpl; [apply Hk|done]. Qed.

Lemma onCommunication_queue d i data : d_inflight d = None -> same_queue d (onCommunication d i data).1.
Proof.
  intros Hi. unfold onCommunication. destruct (Cmd.ParseCommunication data) as [c|]; [|done].
  match goal with |- context [resync ?x] => set (d1 := x) end. assert (Hi1 : d_inflight d1 = None) by exact Hi.
  destruct (resync_queue d1 Hi1) as [E1 E2]. split; [exact E1|exact E2].
Qed.

(** Dispatching an answer that is not osdp_BUSY leaves the queue alone. *)
Lemma dispatch_queue b d i msg : d_inflight d = None -> Cmd.m_Code msg <> Cmd.Busy ->
  same_queue d (dispatch b d i msg).1.
Proof.
  intros Hi Hb. unfold dispatch. generalize (bool_decide (d_State d = Offline)) as w. intros w.
  repeat case_decide; try done;
    try first [ apply onStatus_queue | apply onCryptogram_queue | apply onInitialRMAC_queue
          | by apply onCommunication_queue | apply answered_queue | apply on_queue ]; try done.
  - intros r. pose proof (afterCapabilities_queue b (d <| d_Caps := r |>)) as [E1 E2].
    split; [exact E1|exact E2].
  - destruct (awaitingKeySet d); [apply onKeyInstalled_queue|apply answered_queue].
Qed.

Lemma dispatch_busy b d i msg : Cmd.m_Code msg = Cmd.Busy -> (dispatch b d i msg).1 = (onBusy d i).1.
Proof. intros E. unfold dispatch. rewrite E. done. Qed.

(** The reply the device's answer amounts to: one that is attributed to this
    exchange and accepted, whatever it says. *)
Definition accepted (d : Device) (f : Frame.Frame) : Prop :=
  Frame.f_IsReply f = true /\ Frame.f_Address f = d_Address d /\
  Frame.Control_Sequence (Frame.f_Control f) <> 0 /\
  forall s, d_session d = Some s -> Secure.Established s = true -> exists p, (openReply s f).2 = Ok p.

Lemma delivered_owed d : owed (delivered d) = d_outbox d /\ d_inflight (delivered d) = None /\
  d_released (delivered d) = d_inflight d.
Proof. unfold owed, delivered. simpl. destruct (d_inflight d) eqn:E; simpl; rewrite ?E; done. Qed.

Lemma dispatch_delivered b d i msg :
  d_inflight (dispatch b (delivered d) i msg).1 = None /\
  owed (dispatch b (delivered d) i msg).1 =
    if decide (Cmd.m_Code msg = Cmd.Busy) then owed d else d_outbox d.
Proof.
  destruct (delivered_owed d) as (D1 & D2 & D3). case_decide as Hb.
  - rewrite dispatch_busy by done. unfold onBusy, reclaim. simpl. rewrite D3.
    unfold owed, delivered in *. simpl in *. destruct (d_inflight d) eqn:E; simpl; rewrite ?E; done.
  - destruct (dispatch_queue b (delivered d) i msg D2 Hb) as [E1 E2].
    split; [congruence|]. rewrite <- D1. by apply owed_same.
Qed.

Lemma reply_owed b d i f now :
  (accepted d f /\ d_inflight (reply b d i f now).1 = None /\
   owed (reply b d i f now).1 = if decide (Frame.f_Code f = Cmd.Busy) then owed d else d_outbox d) \/
  (~ accepted d f /\ owed (reply b d i f now).1 = owed d /\
   ((reply b d i f now).1 = d \/ d_inflight (reply b d i f now).1 = None)).
Proof.
  unfold reply, accepted. destruct (Frame.f_IsReply f); simpl; [|right; split; [by intros [? _]|auto]].
  case_decide as Ha; [right; split; [by intros (_ & ? & _)|auto]|].
  set (d0 := d <| d_LastSeen := now |> <| d_misses := 0 |>).
  case_decide as Hq.
  { right. split; [by intros (_ & _ & ? & _)|]. destruct (owed_resync d0) as [E1 E2]. auto. }
  assert (Hplain : forall m, Cmd.m_Code m = Frame.f_Code f -> forall d1, same_queue d d1 ->
    d_inflight (dispatch b (delivered d1) i m).1 = None /\
    owed (dispatch b (delivered d1) i m).1 =
      (if decide (Frame.f_Code f = Cmd.Busy) then owed d else d_outbox d)).
  { intros m Em d1 Hs. destruct (dispatch_delivered b d1 i m) as [E1 E2]. split; [done|].
    rewrite E2, Em, (owed_same d d1 Hs). by rewrite (proj1 Hs). }
  change (d_session d0) with (d_session d).
  destruct (d_session d) as [s|] eqn:Es; [|left; split; [by auto|by apply Hplain]].
  destruct (Secure.Established s) eqn:He.
  - destruct (openReply s f) as [s' [p|e]] eqn:Eo; simpl.
    + left. split; [|by apply Hplain]. split_and!; try done.
      intros ? [= <-] _. rewrite Eo. by exists p.
    + right. split.
      * intros (_ & _ & _ & Hp). destruct (Hp s eq_refl He) as [p Hp']. by rewrite Eo in Hp'.
      * destruct (owed_resync (d0 <| d_session := Some s' |>)) as [E1 E2]. auto.
  - left. split; [|by apply Hplain]. split_and!; try done. intros ? [= <-]. congruence.
Qed.

(** An event means the exchange is over. *)
Lemma reply_settles b d i f now ev : (reply b d i f now).2 = Ok ev -> d_inflight (reply b d i f now).1 = None.
Proof.
  unfold reply. case_match; [done|]. case_decide; [done|]. set (d0 := d <| d_LastSeen := now |> <| d_misses := 0 |>).
  case_decide; [intros _; apply owed_resync|].
  destruct (d_session d0) as [s|]; [|intros _; apply dispatch_delivered].
  destruct (Secure.Established s); [|intros _; apply dispatch_delivered].
  destruct (openReply s f) as [s' [q|e]]; intros _; [apply dispatch_delivered|apply owed_resync].
Qed.

(** [Next] moves the head of a queue to the line, and touches one device only. *)
Lemma Next_owed b d : bus_ok b -> device b (b_current b) = Some d -> d_inflight d = None ->
  exists d', b_devices (Next b).1 = <[b_current b := d']> (b_devices b) /\ owed d' = owed d.
Proof.
  intros Hb Hd Hi. pose proof (Next_unfold b d Hd) as Hnext. cbv zeta in Hnext.
  set (b0 := b <| b_current := ((b_current b + 1) mod length (b_devices b))%nat |>) in *.
  destruct (commandFor_spec b0 d) as (d1 & n & msg & block & E & Hc);
    [apply (device_ok_config b); [done|by eapply bus_ok_device]|exact (bus_ok_config b Hb)|].
  destruct (compose b0 d1 msg block) as [d2 r] eqn:Ec. rewrite (Hnext _ _ _ _ _ _ E Ec).
  exists d2. split; [done|]. rewrite <- (ch_owed _ _ _ _ _ Hc Hi). apply owed_same.
  revert Ec. unfold compose, nextSequence, same_queue.
  intros Ec. repeat (case_match; simplify_eq/=; try done).
Qed.


End with_suite.

(** ** Witnesses *)

Definition kat_keyFor : KeyFor := fun _ => Some Secure.DefaultBaseKey.
Definition kat_nonce : nat -> octets := fun _ => Secure.kat_rndA.

Definition kat_bus : Bus :=
  WithSecureChannel Secure.AES128.suite kat_keyFor kat_nonce (New (mk_Line 5 200) [0; 1] Frame.SchemeCRC16).

(** After the first device's osdp_ID. *)
Definition kat_bus1 : Bus := (Next kat_bus).1.

Lemma kat_keyFor_ok a k : kat_keyFor a = Some k -> Aes.block_ok k.
Proof. intros [= <-]. apply Secure.DefaultBaseKey_ok. Qed.

Lemma kat_nonce_ok n : Secure.rnd_ok (kat_nonce n).
Proof. apply Secure.kat_rndA_ok. Qed.

Lemma kat_addrs_ok : Forall octet_ok [0; 1].
Proof. octets_dec. Qed.

Lemma kat_reachable :
  bus_reachable (S := Secure.AES128.suite) (mk_Line 5 200) [0; 1] Frame.SchemeCRC16 kat_keyFor kat_nonce kat_bus1.
Proof.
  eapply reach_step; [apply reach_secure|].
  eapply step_Next. apply surjective_pairing.
Qed.

Example bus_invariant_witness : bus_ok (S := Secure.AES128.suite) kat_bus1.
Proof.
  exact (bus_invariant (mk_Line 5 200) [0; 1] Frame.SchemeCRC16 kat_keyFor kat_nonce kat_bus1
    kat_addrs_ok kat_keyFor_ok kat_nonce_ok kat_reachable).
Defined.

Lemma kat_bus1_ok : bus_ok (S := Secure.AES128.suite) kat_bus1.
Proof.
  apply Next_ok, WithSecureChannel_ok; [apply kat_addrs_ok|apply kat_keyFor_ok|apply kat_nonce_ok].
Qed.

Example Next_total_witness : exists b' f,
  Next kat_bus1 = (b', Some (mk_Step 1 f 200)) /\ bus_ok (S := Secure.AES128.suite) b' /\
  b_current b' = 0%nat /\ Frame.frame_ok f /\ Frame.CheckOK f = true /\ Frame.f_Address f = 1 /\
  Frame.Control_Sequence (Frame.f_Control f) = 1 /\
  1 <= Frame.Control_Sequence (Frame.f_Control f) <= 3.
Proof. exact (Next_total kat_bus1 (NewDevice 1) kat_bus1_ok eq_refl eq_refl). Defined.

(** A command queued for the second device, and the answer to it. *)
Definition kat_command : Cmd.Message := Cmd.mk_Message Cmd.Out false [0; 2; 0; 0].
Definition kat_bus2 : Bus := (Send kat_bus1 1 kat_command).1.
Definition kat_dev2 : Device := enqueue (NewDevice 1) kat_command.
Definition kat_ack : Frame.Frame :=
  Frame.Seal (Frame.mk_Frame false true 1 (Frame.NewControl 1 Frame.SchemeCRC16 false) None Cmd.ACK [] 0).

Lemma kat_command_ok : msg_ok kat_command.
Proof. split; [done|octets_dec]. Qed.

Lemma kat_bus2_ok : bus_ok (S := Secure.AES128.suite) kat_bus2.
Proof. apply Send_ok; [apply kat_bus1_ok|apply kat_command_ok]. Qed.

