(* ===== verification/BusLaws.v ===== *)
(** * The bus's particular laws

    What [Next] can refuse, where an installation key may travel, the arithmetic
    of [checkSize], what counts as a change of a contact, when a device is given
    up, and what an answer is checked against. The last section replays whole
    sessions, secure channel included, against a peripheral built from the
    session of Secure.v, to show where the code departs from its documents. *)

From S2P Require Import Prelude Errors Channel Device Bus BusFacts.
From S2P Require Frame Cmd Aes Secure.

Section with_suite.
Context {S : Secure.CipherSuite} `{!Secure.SuiteLaws S}.

(** The frame [Next] sends is composed of the command chosen for the device
    whose turn it was. *)
Definition turned (b : Bus) : Bus := b <| b_current := ((b_current b + 1) mod length (b_devices b))%nat |>.

Lemma Next_inv b b' st : bus_ok (S := S) b -> Next b = (b', Some st) ->
  exists d d1 msg block s', device b (b_current b) = Some d /\ st_Device st = b_current b /\
    chosen (S := S) (turned b) d d1 msg block /\
    composed (turned b) d1 msg s' (compose (turned b) d1 msg block) (st_Frame st) /\
    Frame.f_Security (st_Frame st) = block /\
    (block = None -> Frame.f_Data (st_Frame st) = Cmd.m_Data msg).
Proof.
  intros Hb Hn. pose proof (bo_current b Hb) as Hcur.
  destruct (device b (b_current b)) as [d|] eqn:Ed.
  2:{ apply lookup_ge_None in Ed. unfold Next in Hn. case_decide; [done|].
      destruct (b_devices b); [done|]. specialize (Hcur ltac:(done)). lia. }
  destruct (decide (d_Address d < 128)) as [Hlt|Hge].
  2:{ destruct (Next_invalid b d Hb Ed) as [E _]; [lia|]. by rewrite Hn in E. }
  pose proof (bus_ok_device b _ d Hb Ed) as Hd.
  pose proof (Next_unfold b d Ed) as Hnext. cbv zeta in Hnext.
  destruct (exchange_spec (turned b) d) as (d1 & n & msg & block & f & s' & E & Hc & Hcomp & _ & Hsec & Hdata);
    [by apply (device_ok_config b)|exact (bus_ok_config b Hb)|done|].
  pose proof Hcomp as (q & Eq & Er & Hf). rewrite (Hnext _ _ _ _ _ _ E Er) in Hn.
  injection Hn as _ <-. exists d, d1, msg, block, s'. by split_and!.
Qed.

(** ** When there is nothing to send *)

(** [Next] comes back empty exactly when there is no device, or when the
    device whose turn it is holds an address no frame can carry. The comment on
    [Next] promises the first case only. *)
Theorem Next_silent b : bus_ok (S := S) b ->
  ((Next b).2 = None <->
   b_devices b = [] \/ exists d, device b (b_current b) = Some d /\ 128 <= d_Address d).
Proof.
  intros Hb. pose proof (bo_current b Hb) as Hc. split.
  - intros Hn. destruct (device b (b_current b)) as [d|] eqn:Ed.
    + right. exists d. split; [done|]. destruct (decide (d_Address d < 128)) as [Hlt|]; [|lia].
      destruct (Next_total_aux b d Hb Ed Hlt) as (b' & f & E & _). by rewrite E in Hn.
    + left. apply lookup_ge_None in Ed. destruct (b_devices b); [done|].
      specialize (Hc ltac:(done)). lia.
  - intros [E|(d & Ed & Hlt)].
    + unfold Next. by rewrite E.
    + by apply (Next_invalid b d Hb Ed Hlt).
Qed.

(** ** Where an installation key travels *)

(** C32. An osdp_KEYSET frame leaves the bus only when it heads the device's
    queue and the device's session is established. On a device believed secure it
    leaves as every command of the channel does: the payload enciphered under the
    session's keys and chain and SCS_17 in front of it (SCS_15 if a caller queued one
    with no data), and the tag over all of it. On a device taken for online only while
    its channel is still up, a state the documents do not allow for and a fresh line can
    reach, it leaves as it is. *)
Theorem keyset_withheld b b' st d : Next b = (b', Some st) -> bus_ok (S := S) b ->
  device b (st_Device st) = Some d -> Frame.f_Code (st_Frame st) = Cmd.KeySet ->
  secureEstablished d = true /\
  exists m rest, d_outbox d = m :: rest /\ Cmd.m_Code m = Cmd.KeySet /\
  (d_State d = Secure -> exists s, d_session d = Some s /\ crosses (S := S) s true (st_Frame st) m) /\
  (d_State d <> Secure -> d_State d = Online /\ Frame.f_Security (st_Frame st) = None /\
     Frame.f_Data (st_Frame st) = Cmd.m_Data m).
Proof.
  intros Hn Hb Hdev Hcode.
  destruct (Next_inv b b' st Hb Hn) as (d0 & d1 & msg & block & s' & Ed & Ei & Hc & Hcomp & Hsec & Hdata).
  pose proof Hcomp as (q & Eq & Er & Hf). rewrite Ei, Ed in Hdev. injection Hdev as ->.
  rewrite (ff_code _ _ _ _ _ Hf) in Hcode.
  destruct (ch_command _ _ _ _ _ Hc) as [->|[X|[X|[X|[X|([_ Hse] & Ho & Hw & Hsp)]]]]]; try (rewrite X in Hcode); try done.
  destruct (ch_same _ _ _ _ _ Hc) as (Sa & Ss & _).
  unfold withholdsKeySet in Hw. rewrite Ho, Hcode in Hw. simpl in Hw. apply negb_false_iff in Hw.
  split; [exact Hw|]. exists msg, (d_outbox d1). split; [exact Ho|]. split; [exact Hcode|].
  destruct Hsp as [[Hs Hbl]|[Hs Hbl]]; (split; intros Hs'; [|]); try congruence.
  - unfold secureEstablished in Hw. destruct (d_session d) as [s|] eqn:Es; [|done].
    destruct (do_session b d (bus_ok_device b _ d Hb Ed) s Es) as (Hs1 & HS1 & _).
    destruct (decide (d_Address d1 < 128)) as [Hlt|Hge].
    2:{ destruct (Next_invalid b d Hb Ed) as [E _]; [lia|]. by rewrite Hn in E. }
    destruct (compose_secure (turned b) d1 msg s (ch_armed _ _ _ _ _ Hc) (ch_msg _ _ _ _ _ Hc) Hlt Hse Hs1 HS1 Hw)
      as (f & c & m & (q' & _ & Er' & _) & H1 & H2 & H3 & H4 & H5 & _).
    rewrite Hbl, Er' in Er. injection Er as _ _ Ef. rewrite <- Ef. exists s. split; [done|].
    apply (crosses_intro s true f msg c m); [by rewrite Ef, (ff_code _ _ _ _ _ Hf)| |exact H3|by split].
    rewrite H1. unfold blockForCommand. by case_decide.
  - rewrite Hbl in *. by split_and!; [..|apply Hdata].
Qed.

(** ** Sizes *)

Lemma paddedLength_more n : 0 <= n -> n < paddedLength n.
Proof.
  intros Hn. change (paddedLength n) with (Secure.AES128.paddedLen n).
  rewrite Secure.AES128_facts.paddedLen_eq by done. zdm.
Qed.

(** The block a device in an online state speaks under. *)
Definition block_for (d : Device) (msg : Cmd.Message) : option Frame.SecurityBlock :=
  if decide (d_State d = Secure) then Some (blockForCommand (len (Cmd.m_Data msg))) else None.

(** C33. [checkSize]'s arithmetic is right. A command composed for a device that is
    secure or online, at an address a frame can carry, takes no more octets on the line
    than [wireLength] counts (padding, tag and security block included), and exactly as
    many unless the device is online with its channel still up, when the frame goes
    without the block that was counted; so a command [Send] accepts in a state fits the
    device's declared receive buffer when it is composed in that state. *)
Theorem wireLength_exact b d msg : device_ok (S := S) b d -> d_Address d < 128 -> msg_ok msg ->
  d_State d = Secure \/ d_State d = Online ->
  exists d' f, compose b d msg (block_for d msg) = (d', Ok f) /\
    Frame.WireLen f <= wireLength b d msg /\
    (d_State d = Secure \/ secureEstablished d = false -> Frame.WireLen f = wireLength b d msg) /\
    (checkSize b d msg = None -> Cmd.ReceiveBufferSize (d_Caps d) <> 0 ->
     Frame.WireLen f <= Cmd.ReceiveBufferSize (d_Caps d)).
Proof.
  intros Hd Hlt Hm Hst. pose proof (device_ok_armed b d Hd) as Ha.
  cut (exists d' f, compose b d msg (block_for d msg) = (d', Ok f) /\ Frame.f_HasMark f = false /\
         Frame.Len f <= wireLength b d msg /\
         (d_State d = Secure \/ secureEstablished d = false -> Frame.Len f = wireLength b d msg)).
  { intros (d' & f & E & Hmk & Hl & Hx). exists d', f. split; [done|].
    unfold Frame.WireLen. rewrite Hmk. split; [lia|]. split; [intros Hs; rewrite Hx by done; lia|].
    unfold checkSize. intros Hc Hne. rewrite decide_False in Hc by done.
    case_decide; [done|]. lia. }
  pose proof (len_nonneg (Cmd.m_Data msg)) as Hnn. unfold block_for, wireLength. case_decide as Hs.
  - pose proof (do_secure b d Hd Hs) as He. rewrite He. unfold secureEstablished in He.
    destruct (d_session d) as [s|] eqn:Es; [|done].
    destruct (do_session b d Hd s Es) as (Hs1 & HS1 & _).
    destruct (compose_secure b d msg s Ha Hm Hlt Es Hs1 HS1 He)
      as (f & c & m & (q & _ & -> & Hf) & Hsec & Hdata & _ & Hmb & _ & Hcl).
    eexists _, f. split; [done|]. split; [apply Hf|].
    match goal with |- _ <= ?w /\ _ => assert (Hx : Frame.Len f = w); [|rewrite Hx; by split] end.
    unfold Frame.Len. rewrite Hsec, Hdata, (ff_scheme _ _ _ _ _ Hf).
    destruct (blockForCommand_kind (len (Cmd.m_Data msg))) as (B1 & _); [apply len_nonneg|].
    simpl. rewrite B1. rewrite len_app, Hcl, len_slice by (unfold len; destruct Hmb; lia).
    unfold securityBlockOverhead, Secure.MACTagSize, len at 1. simpl. case_decide; lia.
  - destruct (compose_clear b d msg Ha Hm Hlt) as (f & (q & _ & -> & Hf) & Hsec & Hdata).
    eexists _, f. split; [done|]. split; [apply Hf|]. unfold Frame.Len.
    rewrite Hsec, Hdata, (ff_scheme _ _ _ _ _ Hf). simpl.
    destruct Hst as [?|_]; [done|]. destruct (secureEstablished d).
    + split; [|by intros [?|?]]. pose proof (paddedLength_more (len (Cmd.m_Data msg)) Hnn).
      unfold securityBlockOverhead, Secure.MACTagSize. case_decide; lia.
    + split; [|intros _]; lia.
Qed.

End with_suite.

(** ** Contacts *)

Abbreviation point := (Cmd.StatusKind * Z)%type (only parsing).
Definition point_of (r : Cmd.StatusChange) : point := (Cmd.sc_Kind r, Cmd.sc_Index r).

(** What the bus holds of one contact; a contact it has not seen reads as
    inactive, and a kind that was never reported is not known. *)
Definition held (m : gmap Cmd.StatusKind contacts) (p : point) : bool :=
  match m !! p.1 with
  | Some c => nth (Z.to_nat p.2) (ct_state c) false
  | None => false
  end.

Definition known (m : gmap Cmd.StatusKind contacts) (k : Cmd.StatusKind) : bool :=
  match m !! k with
  | Some c => ct_known c
  | None => false
  end.

(** A report worth an event: the first of its kind, or one that differs. *)
Definition news (m : gmap Cmd.StatusKind contacts) (r : Cmd.StatusChange) : Prop :=
  known m (Cmd.sc_Kind r) = false \/ held m (point_of r) <> Cmd.sc_Active r.

#[global] Instance news_dec m r : Decision (news m r).
Proof. unfold news. apply _. Defined.

Lemma nth_grow l i j : nth j (grow l i) false = nth j l false.
Proof.
  unfold grow. destruct (decide (j < length l)%nat).
  - by rewrite app_nth1.
  - rewrite app_nth2 by lia. rewrite (nth_overflow l) by lia. rewrite nth_lookup.
    destruct (replicate _ false !! _) eqn:E; [|done]. by apply lookup_replicate in E as [-> _].
Qed.

Lemma length_grow l i : 0 <= i -> (Z.to_nat i < length (grow l i))%nat.
Proof. intros. unfold grow. rewrite length_app, length_replicate. lia. Qed.

Lemma nth_insert (l : list bool) i j v : (i < length l)%nat ->
  nth j (<[i := v]> l) false = if decide (j = i) then v else nth j l false.
Proof.
  intros Hi. rewrite !nth_lookup. case_decide as E.
  - subst. by rewrite list_lookup_insert_eq.
  - by rewrite list_lookup_insert_ne.
Qed.

(** One report of the loop: it is kept iff it is news, it is the only contact
    written, and no kind becomes known before the loop ends. *)
Lemma status_step_spec m ch r : 0 <= Cmd.sc_Index r ->
  (status_step (m, ch) r).2 = ch ++ (if decide (news m r) then [r] else []) /\
  (forall p, 0 <= p.2 -> held (status_step (m, ch) r).1 p =
     if decide (p = point_of r) then Cmd.sc_Active r else held m p) /\
  (forall k, known (status_step (m, ch) r).1 k = known m k) /\
  is_Some ((status_step (m, ch) r).1 !! Cmd.sc_Kind r) /\
  (forall k, is_Some (m !! k) -> is_Some ((status_step (m, ch) r).1 !! k)).
Proof.
  intros Hr. set (c := default (mk_contacts false []) (m !! Cmd.sc_Kind r)).
  assert (Hstep : status_step (m, ch) r =
    (<[Cmd.sc_Kind r := mk_contacts (ct_known c)
        (<[Z.to_nat (Cmd.sc_Index r) := Cmd.sc_Active r]> (grow (ct_state c) (Cmd.sc_Index r)))]> m,
     ch ++ (if decide (news m r) then [r] else []))).
  { unfold status_step. assert (match m !! Cmd.sc_Kind r with Some c => c | None => mk_contacts false [] end = c) as ->
      by (unfold c; by destruct (m !! Cmd.sc_Kind r)).
    f_equal. assert (Hkn : known m (Cmd.sc_Kind r) = ct_known c) by (unfold known, c; by destruct (m !! _)).
    assert (Hh : held m (point_of r) = nth (Z.to_nat (Cmd.sc_Index r)) (grow (ct_state c) (Cmd.sc_Index r)) false).
    { rewrite nth_grow. unfold held, c. simpl. destruct (m !! _); simpl; [done|]. by destruct (Z.to_nat _). }
    rewrite <- Hh, <- Hkn. destruct (decide (news m r)) as [N|N]; unfold news in N;
      destruct (known m (Cmd.sc_Kind r)); simpl; try (case_bool_decide as E; simpl);
      rewrite ?app_nil_r; try done; exfalso; tauto || (destruct N; [done|tauto]). }
  rewrite Hstep. clear Hstep. simpl. split_and!.
  - done.
  - intros [k i] Hi. unfold held. simpl in *. unfold point_of.
    destruct (decide (k = Cmd.sc_Kind r)) as [->|Hk].
    + rewrite lookup_insert_eq. simpl. rewrite nth_insert by by apply length_grow.
      rewrite nth_grow. case_decide as E.
      * rewrite decide_True; [done|]. f_equal. lia.
      * rewrite decide_False by (intros [= ->]; lia). unfold c. destruct (m !! _); simpl; [done|].
        by destruct (Z.to_nat i).
    + rewrite lookup_insert_ne by done. rewrite decide_False by congruence. done.
  - intros k. unfold known. destruct (decide (k = Cmd.sc_Kind r)) as [->|Hk].
    + rewrite lookup_insert_eq. simpl. unfold c. by destruct (m !! _).
    + by rewrite lookup_insert_ne.
  - rewrite lookup_insert_eq. eauto.
  - intros k Hk. destruct (decide (k = Cmd.sc_Kind r)) as [->|Hne].
    + rewrite lookup_insert_eq. eauto.
    + by rewrite lookup_insert_ne.
Qed.

(** The loop over a whole report whose points are distinct. *)
Lemma status_loop reported m ch : Forall (fun r => 0 <= Cmd.sc_Index r) reported ->
  NoDup (map point_of reported) ->
  let '(m', ch') := fold_left status_step reported (m, ch) in
  ch' = ch ++ filter (news m) reported /\
  (forall r, r ∈ reported -> held m' (point_of r) = Cmd.sc_Active r) /\
  (forall p, 0 <= p.2 -> p ∉ map point_of reported -> held m' p = held m p) /\
  (forall k, known m' k = known m k) /\
  (forall r, r ∈ reported -> is_Some (m' !! Cmd.sc_Kind r)) /\
  (forall k, is_Some (m !! k) -> is_Some (m' !! k)).
Proof.
  revert m ch. induction reported as [|r l IH]; intros m ch Hix Hnd; cbn [fold_left].
  - rewrite app_nil_r. split_and!; try done; intros r Hr; by apply elem_of_nil in Hr.
  - apply Forall_cons in Hix as [Hr Hix]. rewrite map_cons in Hnd |- *.
    apply NoDup_cons in Hnd as [Hnin Hnd].
    destruct (status_step_spec m ch r Hr) as (S1 & S2 & S3 & S4 & S5).
    destruct (status_step (m, ch) r) as [m1 ch1]. cbn [fst snd] in *.
    specialize (IH m1 ch1 Hix Hnd). destruct (fold_left status_step l (m1, ch1)) as [m' ch'].
    destruct IH as (I1 & I2 & I3 & I4 & I5 & I6). split_and!.
    + rewrite I1, S1, filter_cons, <- app_assoc. f_equal.
      assert (filter (news m1) l = filter (news m) l) as ->.
      { clear -S2 S3 Hnin Hix. induction l as [|x l IH]; [done|].
        rewrite map_cons, not_elem_of_cons in Hnin. destruct Hnin as [Hx Hnin].
        apply Forall_cons in Hix as [Hxi Hix]. rewrite !filter_cons, IH by done.
        assert (news m1 x <-> news m x) as E.
        { unfold news. rewrite S3, S2 by done. by rewrite decide_False by done. }
        destruct (decide (news m1 x)), (decide (news m x)); tauto. }
      by destruct (decide (news m r)).
    + intros x [->|Hx]%elem_of_cons; [|by apply I2].
      rewrite I3 by done. rewrite S2 by done. by rewrite decide_True.
    + intros p Hp [Hne Hnp]%not_elem_of_cons. rewrite I3, S2 by done. by rewrite decide_False.
    + intros k. by rewrite I4.
    + intros x [->|Hx]%elem_of_cons; auto.
    + auto.
Qed.

Lemma mark_known_spec reported m :
  (forall r, r ∈ reported -> is_Some (m !! Cmd.sc_Kind r)) ->
  let m' := fold_left mark_known reported m in
  (forall p, held m' p = held m p) /\
  (forall k, known m' k = known m k || bool_decide (k ∈ map Cmd.sc_Kind reported)).
Proof.
  revert m. induction reported as [|r l IH]; intros m Hin; simpl.
  - split; [done|]. intros k. by rewrite orb_false_r.
  - destruct (Hin r) as [c Hc]; [by left|].
    assert (Hm : mark_known m r = <[Cmd.sc_Kind r := mk_contacts true (ct_state c)]> m)
      by (unfold mark_known; by rewrite Hc).
    destruct (IH (mark_known m r)) as [I1 I2].
    { intros x Hx. rewrite Hm. destruct (decide (Cmd.sc_Kind x = Cmd.sc_Kind r)) as [->|Hne].
      - rewrite lookup_insert_eq. eauto.
      - rewrite lookup_insert_ne by done. apply Hin. by right. }
    split.
    + intros p. rewrite I1, Hm. unfold held. destruct (decide (p.1 = Cmd.sc_Kind r)) as [->|Hne].
      * by rewrite lookup_insert_eq, Hc.
      * by rewrite lookup_insert_ne.
    + intros k. rewrite I2, Hm. unfold known. destruct (decide (k = Cmd.sc_Kind r)) as [->|Hne].
      * rewrite lookup_insert_eq, Hc. simpl. rewrite (bool_decide_true (_ ∈ _ :: _)) by set_solver.
        by rewrite orb_true_r.
      * rewrite lookup_insert_ne by done. f_equal. apply bool_decide_ext. set_solver.
Qed.

(** Contacts are reported when they change, and only then. Of a report on
    distinct contacts the device announces exactly those of a kind it is hearing
    for the first time and those whose state differs from what it held (a contact
    past the end of what was held counts as inactive); afterwards it holds what
    was reported, everything else is as before, the kinds reported are known, and
    hearing the same report again announces nothing. *)
Theorem statusChanges_spec d reported d' changed :
  Forall (fun r => 0 <= Cmd.sc_Index r) reported -> NoDup (map point_of reported) ->
  statusChanges d reported = (d', changed) ->
  changed = filter (news (d_status d)) reported /\
  (forall r, r ∈ reported -> held (d_status d') (point_of r) = Cmd.sc_Active r) /\
  (forall p, 0 <= p.2 -> p ∉ map point_of reported -> held (d_status d') p = held (d_status d) p) /\
  (forall k, is_Some (Status d' k) <-> is_Some (Status d k) \/ k ∈ map Cmd.sc_Kind reported) /\
  (statusChanges d' reported).2 = [].
Proof.
  intros Hix Hnd E. unfold statusChanges in E.
  pose proof (status_loop reported (d_status d) [] Hix Hnd) as Hl.
  destruct (fold_left status_step reported (d_status d, [])) as [m ch].
  destruct Hl as (L1 & L2 & L3 & L4 & L5 & _). destruct (mark_known_spec reported m L5) as [M1 M2].
  injection E as <- <-. simpl. split_and!.
  - exact L1.
  - intros r Hr. rewrite M1. by apply L2.
  - intros p Hp Hn. rewrite M1. by apply L3.
  - intros k. assert (Hst : forall e, is_Some (Status e k) <-> known (d_status e) k = true).
    { intros e. unfold Status, known. destruct (d_status e !! k) as [c|].
      - destruct (ct_known c); split; eauto; try done; by intros [].
      - split; [by intros []|done]. }
    rewrite !Hst. simpl. rewrite M2, L4, orb_true_iff, bool_decide_eq_true. done.
  - unfold statusChanges. simpl. set (m1 := fold_left mark_known reported m) in *.
    pose proof (status_loop reported m1 [] Hix Hnd) as Hl.
    destruct (fold_left status_step reported (m1, [])) as [m2 ch2]. destruct Hl as (-> & _). simpl.
    apply elem_of_nil_inv. intros r [Hn Hr]%list_elem_of_filter. revert Hn. intros [Hk|Hh].
    + rewrite M2, (bool_decide_true (_ ∈ _)), orb_true_r in Hk; [done|].
      apply list_elem_of_fmap. eauto.
    + apply Hh. rewrite M1. by apply L2.
Qed.

Example statusChanges_spec_witness :
  let reported := [Cmd.mk_StatusChange Cmd.StatusInput 0 true; Cmd.mk_StatusChange Cmd.StatusInput 1 false] in
  let d := NewDevice 1 <| d_status := {[Cmd.StatusInput := mk_contacts true [false]]} |> in
  let '(d', changed) := statusChanges d reported in
  changed = [Cmd.mk_StatusChange Cmd.StatusInput 0 true] /\
  (changed = filter (news (d_status d)) reported /\
   (forall r, r ∈ reported -> held (d_status d') (point_of r) = Cmd.sc_Active r) /\
   (forall p, 0 <= p.2 -> p ∉ map point_of reported -> held (d_status d') p = held (d_status d) p) /\
   (forall k, is_Some (Status d' k) <-> is_Some (Status d k) \/ k ∈ map Cmd.sc_Kind reported) /\
   (statusChanges d' reported).2 = []).
Proof.
  intros reported d. destruct (statusChanges d reported) as [d' changed] eqn:E. split.
  - vm_compute in E. by injection E as _ <-.
  - apply (statusChanges_spec d reported d' changed); [|apply (bool_decide_unpack _); by vm_compute|exact E].
    apply (bool_decide_unpack _). by vm_compute.
Defined.

(** ** Silence *)

(** [n] timeouts in a row; the event of the last one. *)
Fixpoint timeouts (n : nat) (d : Device) (i : nat) : Device :=
  match n with
  | O => d
  | S n => (timeout (timeouts n d i) i).1
  end.

Lemma retransmit_fields d : d_State (retransmit d) = d_State d /\ d_misses (retransmit d) = d_misses d /\
  d_session (retransmit d) = d_session d.
Proof. unfold retransmit, requeue. by destruct (d_inflight d). Qed.

Lemma resync_fields d : d_State (resync d) = Offline /\ d_misses (resync d) = d_misses d /\
  d_session (resync d) = None /\ d_seq (resync d) = 0 /\ d_pending (resync d) = None.
Proof. unfold resync, requeue. by destruct (d_inflight d). Qed.

Lemma timeout_fields d i :
  d_misses (timeout d i).1 = d_misses d + 1 /\
  if decide (d_misses d + 1 < OfflineThreshold \/ d_State d = Offline)
  then (timeout d i).2 = event KindNone i /\ d_State (timeout d i).1 = d_State d /\
       d_session (timeout d i).1 = d_session d
  else (timeout d i).2 = event KindOffline i /\ d_State (timeout d i).1 = Offline /\
       d_session (timeout d i).1 = None /\ d_seq (timeout d i).1 = 0.
Proof.
  unfold timeout. destruct (retransmit_fields (d <| d_misses := d_misses d + 1 |>)) as (R1 & R2 & R3).
  set (d1 := retransmit _) in *. simpl in R1, R2, R3. rewrite R1, R2.
  destruct (resync_fields d1) as (Q1 & Q2 & Q3 & Q4 & _).
  clearbody d1. case_decide; cbn [fst snd]; split_and!; first [done | congruence].
Qed.

(** A device is given up on the third consecutive silence, once. Counting
    from an answered exchange, the first two timeouts are not reported and leave
    the device's standing and session as they were; the third reports it offline
    and drops its session; no later one reports anything;
    and none of them loses a command. *)
Theorem offline_on_third d i n : d_misses d = 0 -> d_State d <> Offline ->
  let d' := timeouts n d i in
  owed d' = owed d /\ d_misses d' = Z.of_nat n /\
  (timeout d' i).2 = event (if decide (n = 2%nat) then KindOffline else KindNone) i /\
  ((n <= 2)%nat -> d_State d' = d_State d /\ d_session d' = d_session d) /\
  ((n > 2)%nat -> d_State d' = Offline /\ d_session d' = None).
Proof.
  intros Hm Hs. unfold OfflineThreshold in *. induction n as [|n IH].
  - simpl. pose proof (timeout_fields d i) as [_ Ht]. rewrite Hm, decide_True in Ht by (unfold OfflineThreshold; lia).
    split_and!; try done; try lia. apply Ht.
  - cbn [timeouts]. set (d1 := timeouts n d i) in *. destruct IH as (I1 & I2 & _ & I4 & I5).
    pose proof (timeout_fields d1 i) as [T1 T2]. pose proof (timeout_owed d1 i) as [T3 _].
    set (d2 := (timeout d1 i).1) in *. pose proof (timeout_fields d2 i) as [U1 U2].
    rewrite T1, I2 in *. unfold OfflineThreshold in *.
    assert (Hst : ((S n <= 2)%nat -> d_State d2 = d_State d /\ d_session d2 = d_session d) /\
                  ((S n > 2)%nat -> d_State d2 = Offline /\ d_session d2 = None)).
    { split; intros Hn.
      - destruct I4 as [E1 E2]; [lia|]. rewrite E1, E2, decide_True in T2 by lia. tauto.
      - destruct (decide (n = 2%nat)) as [->|].
        + destruct I4 as [E1 _]; [lia|].
          rewrite E1, decide_False in T2 by (intros [?|?]; [lia|done]). tauto.
        + destruct I5 as [E1 E2]; [lia|]. rewrite E1, decide_True in T2 by auto.
          destruct T2 as (_ & -> & ->). by split. }
    split_and!; try apply Hst; try congruence; try lia.
    destruct Hst as [H1 H2]. destruct (decide (S n = 2%nat)) as [E|E].
    + destruct H1 as [E1 _]; [lia|]. rewrite E1, decide_False in U2 by (intros [?|?]; [lia|done]). apply U2.
    + destruct (decide (S n <= 2)%nat) as [E2|E2].
      * rewrite decide_True in U2 by lia. apply U2.
      * destruct H2 as [E1 _]; [lia|]. rewrite E1, decide_True in U2 by auto. apply U2.
Qed.

Example offline_on_third_witness :
  let d := kat_dev2 <| d_State := Online |> in
  owed (timeouts 2 d 1) = owed d /\ d_misses (timeouts 2 d 1) = Z.of_nat 2 /\
  (timeout (timeouts 2 d 1) 1).2 = event (if decide (2 = 2)%nat then KindOffline else KindNone) 1 /\
  ((2 <= 2)%nat -> d_State (timeouts 2 d 1) = d_State d /\ d_session (timeouts 2 d 1) = d_session d) /\
  ((2 > 2)%nat -> d_State (timeouts 2 d 1) = Offline /\ d_session (timeouts 2 d 1) = None).
Proof. intros d. apply (offline_on_third d 1 2); done. Defined.

(** ** What an answer is checked against *)

(** Outside a secure channel an answer's sequence number is compared with
    nothing: two answers that differ only in a non-zero number (and so in the
    check that covers it) have the same effect. A late answer to an earlier
    command therefore releases the command now in flight. *)
Theorem sequence_not_compared b d i f g now : secureEstablished d = false ->
  Frame.f_IsReply f = Frame.f_IsReply g -> Frame.f_Address f = Frame.f_Address g ->
  Frame.f_Code f = Frame.f_Code g -> Frame.f_Data f = Frame.f_Data g ->
  Frame.Control_Sequence (Frame.f_Control f) <> 0 -> Frame.Control_Sequence (Frame.f_Control g) <> 0 ->
  reply b d i f now = reply b d i g now.
Proof.
  intros Hs E1 E2 E3 E4 Hf Hg. unfold reply. rewrite E1, E2. case_match; [done|].
  case_decide; [done|]. rewrite !decide_False by done. unfold secureEstablished in Hs. simpl.
  unfold Cmd.Decode. rewrite E1, E3, E4. by destruct (d_session d) as [s|]; [rewrite Hs|].
Qed.

Example sequence_not_compared_witness :
  let f n := Frame.mk_Frame false true 1 (Frame.NewControl n Frame.SchemeCRC16 false) None Cmd.ACK [] 0 in
  reply kat_bus2 (outbound kat_dev2).1 1 (f 1) 7 = reply kat_bus2 (outbound kat_dev2).1 1 (f 3) 7.
Proof. intros f. by apply (sequence_not_compared kat_bus2 (outbound kat_dev2).1 1 (f 1) (f 3) 7). Defined.

(** ** Replays *)

(** Looking at a computed state without unfolding it. *)
Lemma Next_view {A} (g : Step -> A) b a : option_map g (Next b).2 = Some a ->
  exists b' st, Next b = (b', Some st) /\ g st = a.
Proof. destruct (Next b) as [b' [st|]]; simpl; [|done]. intros [= <-]. eauto. Qed.

Lemma device_view {A} (g : Device -> A) b i a : option_map g (device b i) = Some a ->
  exists d, device b i = Some d /\ g d = a.
Proof. destruct (device b i) as [d|]; simpl; [|done]. intros [= <-]. eauto. Qed.

(** The control line of these sessions: one device, address 0. *)
Definition demo_line : Line := mk_Line 5 200.
Definition reachable : Bus -> Prop :=
  bus_reachable (S := Secure.AES128.suite) demo_line [0] Frame.SchemeCRC16 kat_keyFor kat_nonce.

Definition demo : Bus :=
  WithSecureChannel Secure.AES128.suite kat_keyFor kat_nonce (New demo_line [0] Frame.SchemeCRC16).

Lemma reachable_demo : reachable demo.
Proof. apply reach_secure. Qed.

Lemma reachable_Next b : reachable b -> reachable (Next b).1.
Proof. intros Hb. eapply reach_step; [exact Hb|]. eapply step_Next, surjective_pairing. Qed.

Lemma reachable_Reply b i f now : reachable b -> Frame.frame_ok f -> reachable (Reply b i f now).1.
Proof. intros Hb Hf. eapply reach_step; [exact Hb|]. eapply step_Reply; [done|apply surjective_pairing]. Qed.

Lemma reachable_Send b i m : reachable b -> msg_ok m -> reachable (Send b i m).1.
Proof. intros Hb Hm. eapply reach_step; [exact Hb|]. eapply step_Send; [done|apply surjective_pairing]. Qed.

Lemma reachable_InstallKey b i k : reachable b -> Aes.block_ok k -> reachable (InstallKey b i k).1.
Proof. intros Hb Hk. eapply reach_step; [exact Hb|]. eapply step_InstallKey; [done|apply surjective_pairing]. Qed.

(** The peripheral's end, played by hand. *)
Definition told (seq : Z) (block : option Frame.SecurityBlock) (code : Z) (data : octets) : Frame.Frame :=
  Frame.Seal (Frame.mk_Frame false true 0
    (Frame.NewControl seq Frame.SchemeCRC16 (bool_decide (is_Some block))) block code data 0).

(** It authenticates the command it is sent, and its answer. *)
Definition hears (s : Secure.Session) (st : option Step) : Secure.Session :=
  match st with
  | Some st =>
      let data := Frame.f_Data (st_Frame st) in
      (Secure.Verify s (Frame.body_before (st_Frame st) 4) (slice data (len data - 4) (len data)) true).1
  | None => s
  end.

Definition tells (s : Secure.Session) (seq : Z) (code : Z) (data : octets) : Frame.Frame :=
  match (authenticate s (told seq (Some (SB Secure.SCS16)) code data) false).2 with
  | Ok f => Frame.Seal f
  | Err _ => told seq None code data
  end.

Definition nothing : octets := replicate 12 0.

(** Enrolment: identification, capabilities, challenge, cryptogram. *)
Definition demo_challenged : Bus :=
  let b := (Next demo).1 in
  let b := (Reply b 0 (told 1 None Cmd.PDID nothing) 0).1 in
  let b := (Next b).1 in
  let b := (Reply b 0 (told 2 None Cmd.PDCap [9; 1; 1]) 0).1 in
  (Next b).1.

Definition demo_ccrypt : octets :=
  match (Secure.AnswerChallenge (Secure.NewSession Secure.AES128.suite Secure.RolePD Secure.DefaultBaseKey)
           Secure.kat_rndA Secure.kat_rndB Secure.zero8).2 with
  | Ok c => c
  | Err _ => []
  end.

Definition demo_secure : Bus :=
  let b := (Reply demo_challenged 0 (told 3 (Some (SB Secure.SCS12)) Cmd.CCrypt demo_ccrypt) 0).1 in
  let b := (Next b).1 in
  (Reply b 0 (told 1 (Some (SB Secure.SCS14)) Cmd.RMACI Secure.kat_rmac) 0).1.

(** One step back along a replay. *)
Ltac reach :=
  match goal with
  | |- reachable (Reply _ _ _ _).1 => apply reachable_Reply; [|apply Frame.frame_check_ok; vm_compute; reflexivity]
  | |- reachable (Next _).1 => apply reachable_Next
  | |- reachable (Send _ _ _).1 => apply reachable_Send; [|split; [done|octets_dec]]
  | |- reachable (InstallKey _ _ _).1 => apply reachable_InstallKey
  end.

Lemma reachable_secure : reachable demo_secure.
Proof.
  unfold demo_secure, demo_challenged. cbv zeta. repeat reach. apply reachable_demo.
Qed.

(** The handshake above did what it should. *)
Example demo_secure_state :
  option_map d_State (device demo_secure 0) = Some Secure /\
  option_map secureEstablished (device demo_secure 0) = Some true.
Proof. split; by vm_compute. Qed.

(** *** A key in the clear *)

Definition demo_key : list Z := map Z.of_nat (seq 1 16).
Definition demo_key2 : list Z := map Z.of_nat (seq 101 16).

Lemma demo_key_ok : Aes.block_ok demo_key.
Proof. by split; [|octets_dec]. Qed.

Lemma demo_key2_ok : Aes.block_ok demo_key2.
Proof. by split; [|octets_dec]. Qed.

(** The application asks for the capabilities again and queues a key; the
    peripheral, over the channel, no longer declares one. *)
Definition demo_asked : Bus :=
  (InstallKey (Send demo_secure 0 (Cmd.mk_Message Cmd.Cap false [0])).1 0 demo_key).1.
Definition demo_cap : Bus * option Step := Next demo_asked.
Definition demo_peer : Secure.Session := hears (Secure.kat_session Secure.RolePD) demo_cap.2.
Definition demo_declined : Bus := (Reply demo_cap.1 0 (tells demo_peer 1 Cmd.PDCap []) 0).1.

Lemma reachable_declined : reachable demo_declined.
Proof.
  unfold demo_declined, demo_cap, demo_asked.
  repeat reach; [exact reachable_secure|exact demo_key_ok].
Qed.

(** An osdp_KEYSET can cross the line in the clear. [afterCapabilities]
    declines the secure channel without dropping the session, and the guard on
    osdp_KEYSET asks about the session only; so a capability report that no
    longer declares the channel, followed by a queued key, sends the key with no
    security block. The state is reached from a fresh line. *)
Theorem keyset_in_clear : exists b b' st, reachable b /\ Next b = (b', Some st) /\
  Frame.f_Security (st_Frame st) = None /\ Frame.f_Code (st_Frame st) = Cmd.KeySet /\
  Frame.f_Data (st_Frame st) = Cmd.m_Data (Cmd.KeySetCommand demo_key).
Proof.
  destruct (Next_view (fun s => (Frame.f_Security (st_Frame s), Frame.f_Code (st_Frame s),
      Frame.f_Data (st_Frame s))) demo_declined
      (None, Cmd.KeySet, Cmd.m_Data (Cmd.KeySetCommand demo_key))) as (b' & st & E & Hf);
    [vm_compute; reflexivity|].
  injection Hf as H1 H2 H3. exists demo_declined, b', st. repeat (split; [assumption || idtac|]).
  - exact reachable_declined.
  - exact H3.
Qed.

(** *** Two keys *)

Definition demo_two : Bus := (InstallKey (InstallKey demo_secure 0 demo_key).1 0 demo_key2).1.
Definition demo_first : Bus * option Step := Next demo_two.
Definition demo_acked : Bus :=
  (Reply demo_first.1 0 (tells (hears (Secure.kat_session Secure.RolePD) demo_first.2) 1 Cmd.ACK []) 0).1.

Lemma reachable_two : reachable demo_two.
Proof. unfold demo_two. repeat reach; [exact reachable_secure|exact demo_key_ok|exact demo_key2_ok]. Qed.

Lemma reachable_acked : reachable demo_acked.
Proof. unfold demo_acked, demo_first. repeat reach. exact reachable_two. Qed.

(** Two keys requested one after the other leave the bus with the second
    while the device holds the first: the acknowledgement of the first
    osdp_KEYSET adopts the one key the bus remembers, which the second request
    overwrote. The second command is still queued, and the channel has to be
    re-established, with the wrong key, before it may be sent. *)
Theorem second_key_adopted : exists d d', reachable demo_two /\ device demo_two 0 = Some d /\
  d_outbox d = [Cmd.KeySetCommand demo_key; Cmd.KeySetCommand demo_key2] /\
  reachable demo_acked /\ device demo_acked 0 = Some d' /\
  owed d' = [Cmd.KeySetCommand demo_key2] /\ d_installedKey d' = Some demo_key2 /\
  secureEstablished d' = false.
Proof.
  destruct (device_view d_outbox demo_two 0
    [Cmd.KeySetCommand demo_key; Cmd.KeySetCommand demo_key2]) as (d & Ed & Ho);
    [vm_compute; reflexivity|].
  destruct (device_view (fun d => (owed d, d_installedKey d, secureEstablished d))
    demo_acked 0 ([Cmd.KeySetCommand demo_key2], Some demo_key2, false)) as (d' & Ed' & Ho');
    [vm_compute; reflexivity|].
  exists d, d'. injection Ho' as H1 H2 H3. repeat (split; [assumption || idtac|]).
  - exact reachable_two.
  - exact reachable_acked.
  - exact H3.
Qed.

(** *** An address no frame can carry *)

(** An osdp_COM in the clear can take a device off the line for good: it is
    believed whatever address it names, and once that is 0x80 or more [Next]
    comes back empty although the bus has a device. *)
Theorem comset_silences_line : exists b, reachable b /\ b_devices b <> [] /\ (Next b).2 = None.
Proof.
  exists (Reply (Next demo).1 0 (told 1 None Cmd.Com [0x80; 0; 0; 0; 0]) 0).1. split_and!.
  - repeat reach. apply reachable_demo.
  - intros E. apply (f_equal length) in E. by vm_compute in E.
  - vm_compute. reflexivity.
Qed.

(** ** Witnesses *)

Example Next_silent_witness :
  bus_ok (S := Secure.AES128.suite) kat_bus1 /\
  ((Next kat_bus1).2 = None <->
   b_devices kat_bus1 = [] \/ exists d, device kat_bus1 (b_current kat_bus1) = Some d /\ 128 <= d_Address d).
Proof. split; [apply kat_bus1_ok|]. apply (Next_silent kat_bus1 kat_bus1_ok). Defined.

(** The enrolled device with one key queued. *)
Definition demo_one : Bus := (InstallKey demo_secure 0 demo_key).1.

Lemma demo_one_ok : bus_ok (S := Secure.AES128.suite) demo_one.
Proof.
  apply (reachable_ok demo_line [0] Frame.SchemeCRC16 kat_keyFor kat_nonce);
    [octets_dec|apply kat_keyFor_ok|apply kat_nonce_ok|].
  change (reachable demo_one). unfold demo_one. repeat reach; [exact reachable_secure|exact demo_key_ok].
Qed.

Example keyset_withheld_witness : exists b' st d, Next demo_one = (b', Some st) /\
  device demo_one (st_Device st) = Some d /\ d_State d = Secure /\ secureEstablished d = true /\
  exists m s, head (d_outbox d) = Some m /\ len (Cmd.m_Data m) > 0 /\ d_session d = Some s /\
    crosses (S := Secure.AES128.suite) s true (st_Frame st) m.
Proof.
  destruct (Next_view (fun s => (st_Device s, Frame.f_Code (st_Frame s))) demo_one (0%nat, Cmd.KeySet))
    as (b' & st & E & Hv); [vm_compute; reflexivity|]. injection Hv as H1 H2.
  destruct (device_view (fun d => (d_State d, d_outbox d)) demo_one 0 (Secure, [Cmd.KeySetCommand demo_key])) as (d & Ed & Hs);
    [vm_compute; reflexivity|]. injection Hs as Hs Ho.
  exists b', st, d. assert (Hdev : device demo_one (st_Device st) = Some d) by (rewrite H1; exact Ed).
  destruct (keyset_withheld demo_one b' st d E demo_one_ok Hdev H2) as (He & m & rest & Em & _ & Hsec & _).
  destruct (Hsec Hs) as (s & Es & K).
  rewrite Ho in Em. injection Em as <- <-. rewrite Ho.
  split; [exact E|]. split; [exact Hdev|]. split; [exact Hs|]. split; [exact He|].
  exists (Cmd.KeySetCommand demo_key), s. split; [reflexivity|]. split; [reflexivity|]. exact (conj Es K).
Defined.

Example wireLength_exact_witness : exists d, device demo_one 0 = Some d /\ d_State d = Secure /\
  exists d' f, compose demo_one d kat_command (block_for d kat_command) = (d', Ok f) /\
    Frame.WireLen f <= wireLength demo_one d kat_command /\
    (d_State d = Secure \/ secureEstablished d = false -> Frame.WireLen f = wireLength demo_one d kat_command) /\
    (checkSize demo_one d kat_command = None -> Cmd.ReceiveBufferSize (d_Caps d) <> 0 ->
     Frame.WireLen f <= Cmd.ReceiveBufferSize (d_Caps d)).
Proof.
  destruct (device_view (fun d => (d_State d, d_Address d)) demo_one 0 (Secure, 0)) as (d & Ed & Hv);
    [vm_compute; reflexivity|]. injection Hv as H1 H2.
  exists d. split; [exact Ed|]. split; [exact H1|].
  apply (wireLength_exact demo_one d kat_command (bus_ok_device demo_one 0 d demo_one_ok Ed));
    [rewrite H2; reflexivity|exact kat_command_ok|left; exact H1].
Defined.
