(* ===== verification/Pd.v ===== *)
(** * The peripheral device: internal/pd

    [Device] of device.go and everything that changes it: [Handle] (handle.go)
    with the reply cache and the deferred effects of [emit] (cache.go), the
    command table (dispatch.go, control.go, status.go, report.go), the secure
    channel's device side (handshake.go, secure.go, sealed.go), and the
    application's hooks (report.go, status.go). The mutex is not modelled: every
    method holds it for its whole body, so each is one step. The clock is the
    argument [now] of [Handle], nanoseconds on a counter of its own; the nonce
    source and the application's handler are functions of how often they have
    been called, and [p_installed] is the log of the keyInstalled callback.
    Facts are in PdFacts.v. *)

From S2P Require Import Prelude Errors.
From S2P Require Frame Cmd Aes Secure.

(** ** options.go *)

Definition Handler := nat -> Cmd.Message -> option Cmd.Message.

(** [capabilities] is nil, or a report of at least one entry: copying an empty
    slice onto nil gives nil. *)
Record settings := mk_settings {
  g_identity : Cmd.DeviceID;
  g_capabilities : Cmd.CapabilityReport;
  g_inputs : Z;
  g_outputs : Z;
  g_readers : Z;
  g_queue : Z;
  g_timeout : Z;
  g_configAddr : bool;
  g_strict : bool;
  g_handler : option Handler;
  g_secure : bool;
  g_suite : option Secure.CipherSuite;
  g_key : list Z;
  g_nonce : option (nat -> octets);
  g_keyInstalled : bool
}.

#[global] Instance settings_eta : Eta settings := fun g =>
  mk_settings (g_identity g) (g_capabilities g) (g_inputs g) (g_outputs g) (g_readers g) (g_queue g)
    (g_timeout g) (g_configAddr g) (g_strict g) (g_handler g) (g_secure g) (g_suite g) (g_key g)
    (g_nonce g) (g_keyInstalled g).

Definition defaultEventQueue : Z := 8.

Definition zero_identity : Cmd.DeviceID := Cmd.mk_DeviceID [0; 0; 0] 0 0 0 [0; 0; 0].

Definition defaults : settings :=
  mk_settings zero_identity [] 0 0 1 defaultEventQueue 0 false false None false None
    (replicate 16 0) None false.

Definition maxContacts : Z := 0xFF.

Definition validate (g : settings) : option error :=
  if decide (g_inputs g < 0 \/ g_inputs g > maxContacts \/ g_outputs g < 0 \/
             g_outputs g > maxContacts \/ g_readers g < 0 \/ g_readers g > maxContacts)
  then Some (EPd ErrTooManyContacts)
  else if decide (g_queue g < 1) then Some (EPd ErrInvalidQueue)
  else None.

Definition Option := settings -> settings.

Definition WithIdentity (id : Cmd.DeviceID) : Option := fun s => s <| g_identity := id |>.
Definition WithCapabilities (r : option Cmd.CapabilityReport) : Option := fun s =>
  match r with
  | None => s
  | Some r => s <| g_capabilities := r |>
  end.
Definition WithContacts (inputs outputs readers : Z) : Option := fun s =>
  s <| g_inputs := inputs |> <| g_outputs := outputs |> <| g_readers := readers |>.
Definition WithConfigurationAddress : Option := fun s => s <| g_configAddr := true |>.
Definition WithCommunicationTimeout (d : Z) : Option := fun s =>
  if decide (d > 0) then s <| g_timeout := d |> else s.
Definition WithEventQueue (n : Z) : Option := fun s => s <| g_queue := n |>.
Definition WithStrictSequence : Option := fun s => s <| g_strict := true |>.
Definition WithHandler (h : Handler) : Option := fun s => s <| g_handler := Some h |>.
Definition WithSecureChannel (suite : Secure.CipherSuite) (key : list Z) (nonce : nat -> octets) : Option :=
  fun s => s <| g_suite := Some suite |> <| g_key := key |> <| g_nonce := Some nonce |>
             <| g_secure := true |>.
Definition WithKeyInstalled : Option := fun s => s <| g_keyInstalled := true |>.

(** ** device.go *)

Record Device := mk_pd {
  p_cfg : settings;
  p_address : octet;
  p_inputs : list bool;
  p_outputs : list bool;
  p_tamper : bool;
  p_powerFailure : bool;
  p_capabilities : Cmd.CapabilityReport;
  p_key : list Z;
  p_session : option Secure.Session;
  p_pending : list Cmd.Message;
  p_seen : bool;
  p_lastSeen : Z;
  p_cached : Frame.Frame;
  p_cachedSeq : Z;
  p_cachedValid : bool;
  p_adopting : option Z;
  p_adoptingKey : option (list Z);
  p_nonces : nat;
  p_calls : nat;
  p_installed : list (list Z)
}.

#[global] Instance Device_eta : Eta Device := fun d =>
  mk_pd (p_cfg d) (p_address d) (p_inputs d) (p_outputs d) (p_tamper d) (p_powerFailure d)
    (p_capabilities d) (p_key d) (p_session d) (p_pending d) (p_seen d) (p_lastSeen d) (p_cached d)
    (p_cachedSeq d) (p_cachedValid d) (p_adopting d) (p_adoptingKey d) (p_nonces d) (p_calls d)
    (p_installed d).

Definition zero_frame : Frame.Frame := Frame.mk_Frame false false 0 0 None 0 [] 0.

(** ** identity.go *)

Definition osdpVersion : Z := 0x02.
Definition defaultReceiveBuffer : Z := 128.

Definition appendDeviceID (dst : octets) (id : Cmd.DeviceID) : octets :=
  let dst := dst ++ [idx (Cmd.di_VendorCode id) 0; idx (Cmd.di_VendorCode id) 1; idx (Cmd.di_VendorCode id) 2] in
  let dst := dst ++ [Cmd.di_Model id; Cmd.di_Version id] in
  let dst := dst ++ put32 (Cmd.di_Serial id) in
  dst ++ [idx (Cmd.di_Firmware id) 0; idx (Cmd.di_Firmware id) 1; idx (Cmd.di_Firmware id) 2].

Definition flag (set : bool) (bit : Z) : Z := if set then bit else 0.

Definition defaultCapabilities (inputs outputs readers : Z) (aes defaultKey : bool) : Cmd.CapabilityReport :=
  [ Cmd.mk_Capability Cmd.FuncContactStatus 0x01 (u8 inputs);
    Cmd.mk_Capability Cmd.FuncOutputControl 0x01 (u8 outputs);
    Cmd.mk_Capability Cmd.FuncCardDataFormat 0x01 0x00;
    Cmd.mk_Capability Cmd.FuncCheckCharacter 0x01 0x00;
    Cmd.mk_Capability Cmd.FuncCommSecurity (flag aes Cmd.SecurityAES128) (flag defaultKey Cmd.SecurityDefaultKey);
    Cmd.mk_Capability Cmd.FuncReceiveBuffer (u8 defaultReceiveBuffer) (u8 (Z.shiftr defaultReceiveBuffer 8));
    Cmd.mk_Capability Cmd.FuncReaders 0x01 (u8 readers);
    Cmd.mk_Capability Cmd.FuncOSDPVersion osdpVersion 0x00 ].

Definition refreshCapabilities (d : Device) : Device :=
  let g := p_cfg d in
  match g_capabilities g with
  | [] => d <| p_capabilities := defaultCapabilities (g_inputs g) (g_outputs g) (g_readers g) (g_secure g)
                                   (g_secure g && Secure.IsDefault (p_key d)) |>
  | r => d <| p_capabilities := r |>
  end.

Definition New (addr : Z) (opts : list Option) : result Device :=
  if negb (Frame.Address_Valid addr) || bool_decide (addr = Frame.BroadcastAddress)
  then Err ErrInvalidAddress
  else
    let cfg := fold_left (fun s opt => opt s) opts defaults in
    match validate cfg with
    | Some e => Err e
    | None =>
        Ok (refreshCapabilities
              (mk_pd cfg addr (replicate (Z.to_nat (g_inputs cfg)) false)
                 (replicate (Z.to_nat (g_outputs cfg)) false) false false [] (g_key cfg) None [] false 0
                 zero_frame 0 false None None 0 0 []))
    end.

(** ** secure.go, status.go: small helpers *)

Definition dropSession (d : Device) : Device := d <| p_session := None |>.

Definition secureEnabled (d : Device) : bool := g_secure (p_cfg d).

Definition Device_Secure (d : Device) : bool :=
  match p_session d with
  | Some s => Secure.Established s
  | None => false
  end.

Definition deviceUID (id : Cmd.DeviceID) : octets :=
  [ idx (Cmd.di_VendorCode id) 0; idx (Cmd.di_VendorCode id) 1; idx (Cmd.di_VendorCode id) 2;
    Cmd.di_Model id; Cmd.di_Version id;
    u8 (Cmd.di_Serial id); u8 (Z.shiftr (Cmd.di_Serial id) 8); u8 (Z.shiftr (Cmd.di_Serial id) 16) ].

Definition SB (t : Z) : Frame.SecurityBlock := Frame.mk_SecurityBlock t [].

Definition replyBlock (payload : Z) : option Frame.SecurityBlock :=
  if decide (payload > 0) then Some (SB Secure.SCS18) else Some (SB Secure.SCS16).

Definition ack : Cmd.Message := Cmd.mk_Message Cmd.ACK false [].
Definition nak (reason : Z) : Cmd.Message := Cmd.mk_Message Cmd.NAK false [reason].

Definition boolOctet (active : bool) : Z := if active then 1 else 0.

Definition contactStatus (code : Z) (state : list bool) : Cmd.Message :=
  Cmd.mk_Message code false (map boolOctet state).

Definition localStatus (d : Device) : Cmd.Message :=
  Cmd.mk_Message Cmd.LStatR false [boolOctet (p_tamper d); boolOctet (p_powerFailure d)].

Definition readerStatus (d : Device) : Cmd.Message :=
  Cmd.mk_Message Cmd.RStatR false (replicate (Z.to_nat (g_readers (p_cfg d))) 0).

(** ** report.go *)

Definition Pending (d : Device) : Z := len (p_pending d).

Definition pollReply (d : Device) : Device * Cmd.Message :=
  match p_pending d with
  | [] => (d, ack)
  | m :: rest => (d <| p_pending := rest |>, m)
  end.

Definition queue (d : Device) (m : Cmd.Message) : Device * option error :=
  if decide (Pending d >= g_queue (p_cfg d)) then (d, Some (EPd ErrQueueFull))
  else (d <| p_pending := p_pending d ++ [m] |>, None).

(** The loop of [coalesce]: the queue with the first report of this code
    replaced, if there is one. *)
Fixpoint replace_report (pending : list Cmd.Message) (m : Cmd.Message) : option (list Cmd.Message) :=
  match pending with
  | [] => None
  | waiting :: rest =>
      if decide (Cmd.m_Code waiting = Cmd.m_Code m) then Some (m :: rest)
      else match replace_report rest m with
           | Some rest => Some (waiting :: rest)
           | None => None
           end
  end.

Definition coalesce (d : Device) (m : Cmd.Message) : Device * option error :=
  match replace_report (p_pending d) m with
  | Some pending => (d <| p_pending := pending |>, None)
  | None => queue d m
  end.

Definition appendCardRead (dst : octets) (c : Cmd.CardRead) : octets :=
  ((dst ++ [Cmd.cr_Reader c; Cmd.cr_Format c]) ++ put16 (Cmd.cr_BitCount c)) ++ Cmd.cr_Data c.

Definition appendKeypad (dst : octets) (k : Cmd.KeypadEntry) : octets :=
  let keys := Cmd.ke_Keys k in
  let keys := if decide (len keys > 0xFF) then slice keys 0 0xFF else keys in
  (dst ++ [Cmd.ke_Reader k; u8 (len keys)]) ++ keys.

Definition ReportCardRead (d : Device) (c : Cmd.CardRead) : Device * option error :=
  let need := (Cmd.cr_BitCount c + 7) / 8 in
  if decide (len (Cmd.cr_Data c) < need) then (d, Some (EPd ErrShortCredential))
  else queue d (Cmd.mk_Message Cmd.Raw false (appendCardRead [] c)).

Definition ReportKeypad (d : Device) (k : Cmd.KeypadEntry) : Device * option error :=
  queue d (Cmd.mk_Message Cmd.Keypad false (appendKeypad [] k)).

(** ** status.go *)

Definition SetInput (d : Device) (index : Z) (active : bool) : Device * option error :=
  if decide (index < 0 \/ index >= len (p_inputs d)) then (d, Some (EPd ErrNoSuchContact))
  else
    let d := d <| p_inputs := <[Z.to_nat index := active]> (p_inputs d) |> in
    coalesce d (contactStatus Cmd.IStatR (p_inputs d)).

Definition setLocal (d : Device) : Device * option error := coalesce d (localStatus d).
Definition SetTamper (d : Device) (active : bool) : Device * option error :=
  setLocal (d <| p_tamper := active |>).
Definition SetPower (d : Device) (failure : bool) : Device * option error :=
  setLocal (d <| p_powerFailure := failure |>).

(** ** control.go *)

Definition outputEntrySize : Z := 4.

Inductive outputAction := outputUnknown | outputLeave | outputDeenergise | outputEnergise.

#[global] Instance outputAction_eq : EqDecision outputAction.
Proof. solve_decision. Defined.

Definition outputActionFor (c : Z) : outputAction :=
  if decide (c = Cmd.OutputNOP) then outputLeave
  else if decide (c = Cmd.OutputOffAbort \/ c = Cmd.OutputOffAfterTimer \/ c = Cmd.OutputTimedOff)
  then outputDeenergise
  else if decide (c = Cmd.OutputOnAbort \/ c = Cmd.OutputOnAfterTimer \/ c = Cmd.OutputTimedOn)
  then outputEnergise
  else outputUnknown.

(** The two loops over the entries of a payload whose length is a multiple of
    four. *)
Fixpoint outputs_check (n : Z) (data : octets) : option Z :=
  match data with
  | num :: ctl :: _ :: _ :: rest =>
      if decide (num >= n) then Some Cmd.NAKUnsupportedInput
      else if decide (outputActionFor ctl = outputUnknown) then Some Cmd.NAKUnsupportedInput
      else outputs_check n rest
  | _ => None
  end.

Fixpoint outputs_apply (outputs : list bool) (data : octets) : list bool :=
  match data with
  | num :: ctl :: _ :: _ :: rest =>
      outputs_apply
        (match outputActionFor ctl with
         | outputDeenergise => <[Z.to_nat num := false]> outputs
         | outputEnergise => <[Z.to_nat num := true]> outputs
         | outputLeave | outputUnknown => outputs
         end) rest
  | _ => outputs
  end.

Definition applyOutputs (d : Device) (data : octets) : Device * Cmd.Message :=
  if decide (len data = 0 \/ len data mod outputEntrySize <> 0) then (d, nak Cmd.NAKCommandLength)
  else
    match outputs_check (len (p_outputs d)) data with
    | Some reason => (d, nak reason)
    | None => (d <| p_outputs := outputs_apply (p_outputs d) data |>, ack)
    end.

Definition applyCommunication (d : Device) (data : octets) : Device * Cmd.Message :=
  match Cmd.ParseCommunication data with
  | Err _ => (d, nak Cmd.NAKCommandLength)
  | Ok want =>
      let addr := Cmd.co_Address want in
      if negb (Frame.Address_Valid addr) || bool_decide (addr = Frame.BroadcastAddress)
      then (d, nak Cmd.NAKUnsupportedInput)
      else
        (d <| p_adopting := Some addr |>,
         Cmd.mk_Message Cmd.Com false
           (Cmd.m_Data (Cmd.CommunicationCommand (Cmd.mk_Communication addr (Cmd.co_Baud want)))))
  end.

(** ** sealed.go: [open], [installKey] *)

Definition open (d : Device) (f : Frame.Frame) : Device * result octets :=
  let data := Frame.f_Data f in
  if decide (len data < Secure.MACTagSize) then (d, Err ErrMACMismatch)
  else
    let body := Frame.AppendBody f [] in
    let split := len data - Secure.MACTagSize in
    match p_session d, Frame.f_Security f with
    | Some s, Some sb =>
        match Secure.Verify s (slice body 0 (len body - Secure.MACTagSize))
                (slice data split (len data)) true with
        | (s, Some e) => (d <| p_session := Some s |>, Err e)
        | (s, None) =>
            let d := d <| p_session := Some s |> in
            let payload := slice data 0 split in
            if negb (Secure.BlockType_Encrypted (Frame.sb_Type sb)) then (d, Ok payload)
            else (d, Secure.Open s payload true)
        end
    | _, _ => (d, Err EPanic)
    end.

Definition installKey (d : Device) (data : octets) : Device * Cmd.Message :=
  match Cmd.ParseKeySet data with
  | Err _ => (d, nak Cmd.NAKCommandLength)
  | Ok payload =>
      if decide (Cmd.ks_Type payload <> Cmd.KeySCBK \/ len (Cmd.ks_Key payload) <> Aes.BlockSize)
      then (d, nak Cmd.NAKUnsupportedInput)
      else (d <| p_adoptingKey := Some (Cmd.ks_Key payload) |>, ack)
  end.

Definition adoptKey (d : Device) : Device :=
  match p_adoptingKey d with
  | None => d
  | Some key =>
      let d := d <| p_adoptingKey := None |> in
      let d := dropSession (d <| p_key := key |>) in
      let d := refreshCapabilities d in
      if g_keyInstalled (p_cfg d) then d <| p_installed := p_installed d ++ [key] |> else d
  end.

(** ** dispatch.go *)

Definition delegate (d : Device) (f : Frame.Frame) : Device * Cmd.Message :=
  match g_handler (p_cfg d) with
  | None => (d, nak Cmd.NAKUnknownCommand)
  | Some h =>
      let n := p_calls d in
      let d := d <| p_calls := S n |> in
      match h n (Cmd.mk_Message (Frame.f_Code f) false (Frame.f_Data f)) with
      | Some m => (d, m)
      | None => (d, nak Cmd.NAKUnknownCommand)
      end
  end.

Definition dispatch (d : Device) (f : Frame.Frame) (secured : bool) : Device * Cmd.Message :=
  let c := Frame.f_Code f in
  let data := Frame.f_Data f in
  if decide (c = Cmd.Poll) then pollReply d
  else if decide (c = Cmd.ID) then
    (d, Cmd.mk_Message Cmd.PDID false (appendDeviceID [] (g_identity (p_cfg d))))
  else if decide (c = Cmd.Cap) then
    (d, Cmd.mk_Message Cmd.PDCap false (Cmd.CapabilityReport_Append (p_capabilities d) []))
  else if decide (c = Cmd.LStat) then (d, localStatus d)
  else if decide (c = Cmd.IStat) then (d, contactStatus Cmd.IStatR (p_inputs d))
  else if decide (c = Cmd.OStat) then (d, contactStatus Cmd.OStatR (p_outputs d))
  else if decide (c = Cmd.RStat) then (d, readerStatus d)
  else if decide (c = Cmd.Out) then applyOutputs d data
  else if decide (c = Cmd.ComSet) then applyCommunication d data
  else if decide (c = Cmd.LED \/ c = Cmd.Buz \/ c = Cmd.Text \/ c = Cmd.KeepActive \/
                  c = Cmd.AbortCode \/ c = Cmd.ACURxSize) then (d, ack)
  else if decide (c = Cmd.Chlng \/ c = Cmd.SCrypt) then
    if secureEnabled d then (d, nak Cmd.NAKSecureRequired) else (d, nak Cmd.NAKEncryptionUnsup)
  else if decide (c = Cmd.KeySet) then
    if negb secured then (d, nak Cmd.NAKSecureRequired) else installKey d data
  else delegate d f.

(** ** handshake.go *)

Definition answered := (Device * (Cmd.Message * option Frame.SecurityBlock))%type.

(** The suite and the nonce source are there whenever [secureEnabled] is. *)
Definition answerChallenge (d : Device) (chlng : octets) : result answered :=
  let d := dropSession d in
  match g_suite (p_cfg d), g_nonce (p_cfg d) with
  | Some suite, Some nonce =>
      let session := Secure.NewSession suite Secure.RolePD (p_key d) in
      let n := p_nonces d in
      let d := d <| p_nonces := S n |> in
      match Secure.AnswerChallenge session chlng (nonce n) (deviceUID (g_identity (p_cfg d))) with
      | (_, Err _) => Ok (d, (nak Cmd.NAKCommandLength, None))
      | (session, Ok ccrypt) =>
          Ok (d <| p_session := Some session |>,
              (Cmd.mk_Message Cmd.CCrypt false ccrypt, Some (SB Secure.SCS12)))
      end
  | _, _ => Err EPanic
  end.

Definition answerCryptogram (d : Device) (scrypt : octets) : answered :=
  match p_session d with
  | None => (d, (nak Cmd.NAKSecureRequired, None))
  | Some s =>
      match Secure.AnswerServerCryptogram s scrypt with
      | (_, Err _) => (dropSession d, (nak Cmd.NAKSecureRequired, None))
      | (s, Ok rmac) =>
          (d <| p_session := Some s |>, (Cmd.mk_Message Cmd.RMACI false rmac, Some (SB Secure.SCS14)))
      end
  end.

Definition answerEstablished (d : Device) (f : Frame.Frame) : answered :=
  if negb (Device_Secure d) then (d, (nak Cmd.NAKSecureRequired, None))
  else
    match open d f with
    | (d, Err _) => (dropSession d, (nak Cmd.NAKSecureRequired, None))
    | (d, Ok payload) =>
        let '(d, m) := dispatch d (zero_frame <| Frame.f_Code := Frame.f_Code f |>
                                     <| Frame.f_Data := payload |>) true in
        (d, (m, replyBlock (len (Cmd.m_Data m))))
    end.

Definition answerSecure (d : Device) (f : Frame.Frame) (sb : Frame.SecurityBlock) : result answered :=
  if negb (secureEnabled d) then Ok (d, (nak Cmd.NAKEncryptionUnsup, None))
  else
    let t := Frame.sb_Type sb in
    if decide (t = Secure.SCS11) then answerChallenge d (Frame.f_Data f)
    else if decide (t = Secure.SCS13) then Ok (answerCryptogram d (Frame.f_Data f))
    else if decide (t = Secure.SCS15 \/ t = Secure.SCS17) then Ok (answerEstablished d f)
    else Ok (d, (nak Cmd.NAKEncryptionUnsup, None)).

Definition answer (d : Device) (f : Frame.Frame) : result answered :=
  match Frame.f_Security f with
  | Some sb => answerSecure d f sb
  | None =>
      if Device_Secure d then Ok (dropSession d, (nak Cmd.NAKSecureRequired, None))
      else let '(d, m) := dispatch d f false in Ok (d, (m, None))
  end.

(** ** cache.go *)

Definition sequenceRotation : Z := 3.

Definition nextSequence (s : Z) : Z := if decide (s >= sequenceRotation) then 1 else s + 1.

Definition restart (d : Device) : Device :=
  dropSession (d <| p_cached := zero_frame |> <| p_cachedSeq := 0 |> <| p_cachedValid := false |>).

(** sealed.go *)
Definition sealReply (d : Device) (m : Cmd.Message) (seq : Z) (scheme : Frame.Scheme)
    (block : Frame.SecurityBlock) : Device * result Frame.Frame :=
  match p_session d with
  | None => (d, Err EPanic)
  | Some s =>
      match (if Secure.BlockType_Encrypted (Frame.sb_Type block) then Secure.Seal s (Cmd.m_Data m) false
             else Ok (Cmd.m_Data m)) with
      | Err e => (d, Err e)
      | Ok payload =>
          let data := payload ++ replicate (Z.to_nat Secure.MACTagSize) 0 in
          match Cmd.EncodeSecure (Cmd.mk_Message (Cmd.m_Code m) true data) (p_address d) seq scheme block with
          | Err e => (d, Err e)
          | Ok f =>
              let body := Frame.AppendBody f [] in
              match Secure.Authenticate s (slice body 0 (len body - Secure.MACTagSize)) false with
              | (s, Err e) => (d <| p_session := Some s |>, Err e)
              | (s, Ok tag) =>
                  let f := f <| Frame.f_Data := slice data 0 (len data - Secure.MACTagSize) ++ tag |> in
                  (d <| p_session := Some s |>, Ok (Frame.Seal f))
              end
          end
      end
  end.

Definition encode (d : Device) (m : Cmd.Message) (seq : Z) (scheme : Frame.Scheme)
    (block : option Frame.SecurityBlock) : Device * result Frame.Frame :=
  match block with
  | None => (d, Cmd.Encode m (p_address d) seq scheme)
  | Some block =>
      if Secure.BlockType_Handshake (Frame.sb_Type block) then
        (d, match Cmd.EncodeSecure m (p_address d) seq scheme block with
            | Err e => Err e
            | Ok f => Ok (Frame.Seal f)
            end)
      else sealReply d m seq scheme block
  end.

Definition emit (d : Device) (command : Frame.Frame) (seq : Z) (m : Cmd.Message)
    (block : option Frame.SecurityBlock) : Device * result Frame.Frame :=
  let m := m <| Cmd.m_IsReply := true |> in
  let scheme := Frame.Control_Scheme (Frame.f_Control command) in
  match encode d m seq scheme block with
  | (d, Err e) => (d <| p_adopting := None |> <| p_adoptingKey := None |>, Err e)
  | (d, Ok reply) =>
      let d := if decide (seq = 0) then d <| p_cachedValid := false |>
               else d <| p_cached := reply |> <| p_cachedSeq := seq |> <| p_cachedValid := true |> in
      let d := match p_adopting d with
               | Some a => d <| p_address := a |> <| p_adopting := None |>
               | None => d
               end in
      (adoptKey d, Ok reply)
  end.

(** ** handle.go *)

Definition screen (f : Frame.Frame) : option error :=
  if Frame.f_IsReply f then Some (EPd ErrNotCommand)
  else if negb (Frame.CheckOK f) then Some (EPd ErrCorrupt)
  else None.

Definition addressed (d : Device) (a : Z) : bool :=
  bool_decide (a = p_address d) || (g_configAddr (p_cfg d) && bool_decide (a = Frame.BroadcastAddress)).

(** [time.Time.Sub], which saturates. *)
Definition maxDuration : Z := 9223372036854775807.
Definition Sub (t u : Z) : Z := Z.max (- maxDuration - 1) (Z.min maxDuration (t - u)).

Definition observe (d : Device) (now : Z) : Device :=
  let d := if p_seen d && bool_decide (g_timeout (p_cfg d) > 0) &&
              bool_decide (Sub now (p_lastSeen d) > g_timeout (p_cfg d))
           then restart d else d in
  d <| p_seen := true |> <| p_lastSeen := now |>.

Definition answerFor (d : Device) (f : Frame.Frame) (seq : Z) : result answered :=
  if g_strict (p_cfg d) && p_cachedValid d && bool_decide (seq <> nextSequence (p_cachedSeq d))
  then Ok (d, (nak Cmd.NAKSequenceError, None))
  else answer d f.

(** What [Handle] does with a command that is not a repeat. *)
Definition fresh (d : Device) (command : Frame.Frame) (seq : Z) : Device * result Frame.Frame :=
  match answerFor d command seq with
  | Err e => (d, Err e)
  | Ok (d, (m, block)) => emit d command seq m block
  end.

Definition Handle (d : Device) (command : Frame.Frame) (now : Z) : Device * result Frame.Frame :=
  match screen command with
  | Some e => (d, Err e)
  | None =>
      if negb (addressed d (Frame.f_Address command)) then (d, Err (EPd ErrNotAddressed))
      else
        let d := observe d now in
        let seq := Frame.Control_Sequence (Frame.f_Control command) in
        if decide (seq = 0) then fresh (restart d) command seq
        else if p_cachedValid d && bool_decide (seq = p_cachedSeq d) then (d, Ok (p_cached d))
        else fresh d command seq
  end.
