(* ===== verification/PdFacts.v ===== *)
(** * What the peripheral device guarantees

    Theorems about Pd.v: that an addressed device always answers and never in
    the clear what its channel protects; that a repeated command is answered
    again and not obeyed again; which commands can change it once its channel is
    up; all-or-nothing outputs; the key install; the event queue; and that what
    a reader reports is what a panel parses. *)

From S2P Require Import Prelude Errors Channel Pd.
From S2P Require Frame Cmd Aes Secure.

Abbreviation msg_ok := Cmd.msg_ok (only parsing).

Section with_suite.
Context {S : Secure.CipherSuite} `{!Secure.SuiteLaws S}.

(** ** The invariant *)

Record identity_ok (id : Cmd.DeviceID) : Prop := mk_identity_ok {
  io_vendor : length (Cmd.di_VendorCode id) = 3%nat /\ octets_ok (Cmd.di_VendorCode id);
  io_model : octet_ok (Cmd.di_Model id);
  io_version : octet_ok (Cmd.di_Version id);
  io_serial : 0 <= Cmd.di_Serial id < 4294967296;
  io_firmware : length (Cmd.di_Firmware id) = 3%nat /\ octets_ok (Cmd.di_Firmware id)
}.

Definition capability_ok (c : Cmd.Capability) : Prop :=
  octet_ok (Cmd.c_Function c) /\ octet_ok (Cmd.c_Compliance c) /\ octet_ok (Cmd.c_Items c).

Record settings_ok (g : settings) : Prop := mk_settings_ok {
  so_valid : validate g = None;
  so_identity : identity_ok (g_identity g);
  so_capabilities : Forall capability_ok (g_capabilities g);
  so_handler : forall h n m r, g_handler g = Some h -> h n m = Some r -> msg_ok r;
  so_secure : g_secure g = true -> g_suite g = Some S /\
    exists f, g_nonce g = Some f /\ forall n, Secure.rnd_ok (f n);
  so_key : Aes.block_ok (g_key g)
}.

Definition session_of (s : Secure.Session) : Prop :=
  Secure.session_ok s /\ Secure.s_suite s = S.

(** The state while a command is being answered. *)
Record serving (d : Device) : Prop := mk_serving {
  sv_cfg : settings_ok (p_cfg d);
  sv_addr : 0 <= p_address d < 127;
  sv_caps : Forall capability_ok (p_capabilities d);
  sv_key : Aes.block_ok (p_key d);
  sv_session : forall s, p_session d = Some s -> session_of s /\ g_secure (p_cfg d) = true;
  sv_pending : Forall msg_ok (p_pending d);
  sv_queue : Pending d <= g_queue (p_cfg d);
  sv_inputs : len (p_inputs d) = g_inputs (p_cfg d);
  sv_outputs : len (p_outputs d) = g_outputs (p_cfg d);
  sv_cached : p_cachedValid d = true -> Frame.frame_ok (p_cached d) /\
    Frame.CheckOK (p_cached d) = true /\ Frame.f_IsReply (p_cached d) = true /\
    Frame.Control_Sequence (Frame.f_Control (p_cached d)) = p_cachedSeq d /\ 1 <= p_cachedSeq d <= 3;
  sv_adopting : forall a, p_adopting d = Some a -> 0 <= a < 127;
  sv_adoptingKey : forall k, p_adoptingKey d = Some k -> Aes.block_ok k
}.

(** Between commands no change is waiting for its acknowledgement. *)
Definition pd_ok (d : Device) : Prop :=
  serving d /\ p_adopting d = None /\ p_adoptingKey d = None.

Ltac pd_solve :=
  repeat match goal with H : serving _ |- _ => destruct H end;
  split; simpl in *; eauto; try done;
  try (intros; simplify_eq; eauto; done).

(** What answering a command may leave different without having obeyed it. *)
Record unmoved (d d' : Device) : Prop := mk_unmoved {
  um_cfg : p_cfg d' = p_cfg d;
  um_address : p_address d' = p_address d;
  um_contacts : p_inputs d' = p_inputs d /\ p_outputs d' = p_outputs d /\
    p_tamper d' = p_tamper d /\ p_powerFailure d' = p_powerFailure d;
  um_capabilities : p_capabilities d' = p_capabilities d;
  um_key : p_key d' = p_key d /\ p_installed d' = p_installed d;
  um_pending : p_pending d' = p_pending d;
  um_calls : p_calls d' = p_calls d;
  um_adopting : p_adopting d' = p_adopting d /\ p_adoptingKey d' = p_adoptingKey d
}.

Lemma unmoved_refl d : unmoved d d.
Proof. by split. Qed.

Lemma unmoved_trans a b c : unmoved a b -> unmoved b c -> unmoved a c.
Proof. intros [] []. split; intuition congruence. Qed.

(** ** Dispatch *)

Lemma nak_ok r : octet_ok r -> msg_ok (nak r).
Proof. intros. split; [done|]. by apply Forall_cons. Qed.

Lemma ack_ok : msg_ok ack.
Proof. split; [done|]. by apply Forall_nil. Qed.

Lemma contactStatus_ok c l : octet_ok c -> msg_ok (contactStatus c l).
Proof.
  intros. split; [done|]. simpl. apply Forall_fmap, Forall_forall. by intros [] _.
Qed.

(** [octets_ok] of a list written out. *)
Ltac octet_list :=
  repeat (apply Forall_cons; split; [first [done | apply u8_ok | apply Frame.octets_idx; done]|]);
  apply Forall_nil_2.

Lemma appendDeviceID_ok id : identity_ok id -> octets_ok (appendDeviceID [] id).
Proof.
  intros [[_ Hv] Hm Hn Hs [_ Hf]]. unfold appendDeviceID. simpl.
  octet_list.
Qed.

Lemma Append_ok r : Forall capability_ok r -> octets_ok (Cmd.CapabilityReport_Append r []).
Proof.
  intros Hr. unfold Cmd.CapabilityReport_Append. rewrite fold_left_append. simpl.
  apply Forall_concat, Forall_fmap. eapply Forall_impl; [exact Hr|].
  intros c (H1 & H2 & H3). simpl. octet_list.
Qed.

(** Obeying a command changes the application's state and what waits for the
    acknowledgement, and nothing of the exchange. *)
Record obeying (d d' : Device) : Prop := mk_obeying {
  ob_serving : serving d';
  ob_cfg : p_cfg d' = p_cfg d;
  ob_address : p_address d' = p_address d;
  ob_session : p_session d' = p_session d;
  ob_key : p_key d' = p_key d;
  ob_seen : p_seen d' = p_seen d /\ p_lastSeen d' = p_lastSeen d
}.

Lemma obeying_refl d : serving d -> obeying d d.
Proof. by split. Qed.

Lemma pollReply_ok d : serving d -> obeying d (pollReply d).1 /\ msg_ok (pollReply d).2.
Proof.
  intros Hd. unfold pollReply. destruct (p_pending d) as [|m rest] eqn:E; simpl.
  - split; [by apply obeying_refl|apply ack_ok].
  - pose proof (sv_pending d Hd) as Hp. rewrite E in Hp. apply Forall_cons in Hp as [Hm Hr].
    pose proof (sv_queue d Hd) as Hq. unfold Pending in Hq. rewrite E in Hq.
    split; [|done]. split; try done. pd_solve. unfold Pending. simpl. unfold len in *. simpl in Hq. lia.
Qed.

Lemma outputs_apply_len outputs data : length (outputs_apply outputs data) = length outputs.
Proof.
  revert outputs. induction data as [data IH] using (induction_ltof1 _ (@length Z)); intros outputs.
  destruct data as [|a [|b [|c [|e rest]]]]; try done. cbn [outputs_apply]. rewrite IH.
  - destruct (outputActionFor b); by rewrite ?length_insert.
  - unfold ltof. simpl. lia.
Qed.

Lemma applyOutputs_ok d data : serving d ->
  obeying d (applyOutputs d data).1 /\ msg_ok (applyOutputs d data).2.
Proof.
  intros Hd. unfold applyOutputs. case_decide; [split; [by apply obeying_refl|by apply nak_ok]|].
  destruct (outputs_check _ data) as [r|] eqn:E; simpl.
  - split; [by apply obeying_refl|]. apply nak_ok. revert E. clear.
    induction data as [data IH] using (induction_ltof1 _ (@length Z)).
    destruct data as [|a [|b [|c [|e rest]]]]; try done. cbn [outputs_check].
    do 2 (case_decide; [by intros [= <-]|]). apply IH. unfold ltof. simpl. lia.
  - split; [|apply ack_ok]. split; try done. pd_solve. unfold len. by rewrite outputs_apply_len.
Qed.

Lemma applyCommunication_ok d data : serving d -> octets_ok data ->
  obeying d (applyCommunication d data).1 /\ msg_ok (applyCommunication d data).2.
Proof.
  intros Hd Ho. unfold applyCommunication.
  destruct (Cmd.ParseCommunication data) as [want|] eqn:E; [|split; [by apply obeying_refl|by apply nak_ok]].
  assert (Ha : octet_ok (Cmd.co_Address want)).
  { revert E. unfold Cmd.ParseCommunication. case_decide; [done|]. intros [= <-]. by apply Frame.octets_idx. }
  case_match eqn:Hv; [split; [by apply obeying_refl|by apply nak_ok]|].
  apply orb_false_iff in Hv as [Hv1%negb_false_iff Hv2%bool_decide_eq_false].
  unfold Frame.Address_Valid in Hv1. apply bool_decide_eq_true in Hv1.
  unfold Frame.BroadcastAddress, octet_ok in *. simpl. split.
  - split; try done. pd_solve. intros a [= <-]. lia.
  - split; [done|]. simpl. apply Forall_cons. split; [done|]. apply put32_ok.
Qed.

Lemma installKey_ok d data : serving d -> octets_ok data ->
  obeying d (installKey d data).1 /\ msg_ok (installKey d data).2.
Proof.
  intros Hd Ho. unfold installKey.
  destruct (Cmd.ParseKeySet data) as [p|] eqn:E; [|split; [by apply obeying_refl|by apply nak_ok]].
  case_decide as Hk; [split; [by apply obeying_refl|by apply nak_ok]|]. simpl.
  split; [|apply ack_ok]. split; try done. pd_solve. intros k [= <-]. split.
  - unfold Aes.BlockSize, len in Hk. lia.
  - revert E. unfold Cmd.ParseKeySet. do 2 (case_decide; [done|]). intros [= <-]. by apply Forall_slice.
Qed.

Lemma delegate_ok d f : serving d -> obeying d (delegate d f).1 /\ msg_ok (delegate d f).2.
Proof.
  intros Hd. unfold delegate. destruct (g_handler (p_cfg d)) as [h|] eqn:Eh;
    [|split; [by apply obeying_refl|by apply nak_ok]].
  assert (obeying d (d <| p_calls := (p_calls d + 1)%nat |>)) by (split; try done; pd_solve).
  rewrite <- Nat.add_1_r. destruct (h _ _) as [r|] eqn:Er; simpl; (split; [done|]).
  - by eapply (so_handler _ (sv_cfg d Hd)).
  - by apply nak_ok.
Qed.

Lemma pd_dispatch_ok d f secured : serving d -> octets_ok (Frame.f_Data f) ->
  obeying d (dispatch d f secured).1 /\ msg_ok (dispatch d f secured).2.
Proof.
  intros Hd Ho. pose proof (obeying_refl d Hd) as Hr. unfold dispatch.
  repeat case_decide; simpl;
    first [ by apply pollReply_ok | by apply applyOutputs_ok | by apply applyCommunication_ok
          | by apply delegate_ok | idtac ].
  - split; [done|]. split; [done|]. apply appendDeviceID_ok, (sv_cfg d Hd).
  - split; [done|]. split; [done|]. apply Append_ok, (sv_caps d Hd).
  - split; [done|]. split; [done|]. simpl. destruct (p_tamper d), (p_powerFailure d); octet_list.
  - split; [done|]. by apply contactStatus_ok.
  - split; [done|]. by apply contactStatus_ok.
  - split; [done|]. split; [done|]. simpl. by apply Forall_replicate.
  - split; [done|apply ack_ok].
  - destruct (secureEnabled d); (split; [done|by apply nak_ok]).
  - destruct secured; simpl; [by apply installKey_ok|split; [done|by apply nak_ok]].
Qed.

(** ** Answers *)

(** The block an answer may go under: none, a handshake block, or on an
    established session the one its payload calls for. *)
Definition answers (d : Device) (m : Cmd.Message) (block : option Frame.SecurityBlock) : Prop :=
  block = None \/ block = Some (SB Secure.SCS12) \/ block = Some (SB Secure.SCS14) \/
  Device_Secure d = true /\ block = replyBlock (len (Cmd.m_Data m)).

Record answered_ok (d d' : Device) (m : Cmd.Message) (block : option Frame.SecurityBlock) : Prop :=
  mk_answered_ok {
  an_serving : serving d';
  an_same : p_cfg d' = p_cfg d /\ p_address d' = p_address d;
  an_msg : msg_ok m;
  an_block : answers d' m block
}.

Lemma pd_dropSession_ok d : serving d -> serving (dropSession d).
Proof. intros Hd. unfold dropSession. pd_solve. Qed.

Lemma set_session_ok d s : serving d -> session_of s -> g_secure (p_cfg d) = true ->
  serving (d <| p_session := Some s |>).
Proof. intros Hd Hs Hg. pd_solve. Qed.

(** [open] only moves the session on, and what it yields are octets. *)
Lemma open_ok d f sb s : serving d -> p_session d = Some s -> Secure.Established s = true ->
  Frame.frame_ok f -> Frame.f_Security f = Some sb ->
  exists s' r, open d f = (d <| p_session := Some s' |>, r) /\ session_of s' /\
    Secure.Established s' = true /\ (forall p, r = Ok p -> octets_ok p).
Proof.
  intros Hd Es He Hf Hsb. destruct (sv_session d Hd s Es) as [[Hs HS] _]. unfold open.
  case_decide.
  { exists s, (Err (ESecure ErrMACMismatch)). split; [|by split_and!]. f_equal. destruct d; simpl in *. by subst. }
  rewrite Es, Hsb. set (body := slice (Frame.AppendBody f []) _ _).
  assert (Hbody : octets_ok body) by apply Forall_slice, Frame.AppendBody_ok, Hf.
  set (tag := slice (Frame.f_Data f) _ (len (Frame.f_Data f))).
  pose proof (Secure.kept_Verify s body tag true HS Hs Hbody) as Hk.
  assert (Hst : Secure.Established (Secure.Verify s body tag true).1 = true).
  { by rewrite Secure.Established_Verify. }
  destruct (Secure.Verify s body tag true) as [s1 [e|]]; destruct Hk as (K1 & K2 & _); simpl in *.
  { exists s1, (Err e). by split_and!. }
  assert (Hp : octets_ok (slice (Frame.f_Data f) 0 (len (Frame.f_Data f) - Secure.MACTagSize)))
    by (apply Forall_slice; apply Hf).
  case_match; do 2 eexists; (split; [done|]); split_and!; try done.
  - by intros p [= <-].
  - intros p. unfold Secure.Open. case_match; [done|]. rewrite K2.
    apply Secure.law_open; [apply K1|apply K1|done].
Qed.

Lemma replyBlock_answers d m s : p_session d = Some s -> Secure.Established s = true ->
  answers d m (replyBlock (len (Cmd.m_Data m))).
Proof. intros Es He. do 3 right. split; [|done]. unfold Device_Secure. by rewrite Es. Qed.

Lemma answerEstablished_ok d f sb : serving d -> Frame.frame_ok f -> Frame.f_Security f = Some sb ->
  exists d' m block, answerEstablished d f = (d', (m, block)) /\ answered_ok d d' m block.
Proof.
  intros Hd Hf Hsb. unfold answerEstablished. destruct (Device_Secure d) eqn:Hsec; simpl.
  2:{ do 3 eexists. split; [done|]. split; [done|done|by apply nak_ok|by left]. }
  unfold Device_Secure in Hsec. destruct (p_session d) as [s|] eqn:Es; [|done].
  destruct (sv_session d Hd s Es) as [_ Hg].
  destruct (open_ok d f sb s Hd Es Hsec Hf Hsb) as (s' & r & -> & Hs' & He' & Hp).
  pose proof (set_session_ok d s' Hd Hs' Hg) as Hd1.
  destruct r as [p|e].
  - specialize (Hp p eq_refl). match goal with |- context [dispatch _ ?x true] => set (g := x) end.
    destruct (pd_dispatch_ok (d <| p_session := Some s' |>) g true Hd1 Hp) as [Ho Hm].
    destruct (dispatch _ g true) as [d2 m]. simpl in *. do 3 eexists. split; [done|].
    destruct Ho. split; [done|done|done|]. by eapply replyBlock_answers.
  - do 3 eexists. split; [done|]. split; [by apply (pd_dropSession_ok _ Hd1)|done|by apply nak_ok|by left].
Qed.

Lemma deviceUID_len id : length (deviceUID id) = 8%nat.
Proof. done. Qed.

Lemma answerChallenge_ok d chlng : serving d -> secureEnabled d = true -> octets_ok chlng ->
  exists d' m block, answerChallenge d chlng = Ok (d', (m, block)) /\ answered_ok d d' m block.
Proof.
  intros Hd Hg Ho. unfold answerChallenge. simpl.
  destruct (so_secure _ (sv_cfg d Hd) Hg) as (-> & nonce & -> & Hn).
  set (s0 := Secure.NewSession S Secure.RolePD (p_key d)).
  assert (Hs0 : Secure.session_ok s0) by apply Secure.session_ok_new, (sv_key d Hd).
  pose proof (Secure.kept_AnswerChallenge s0 chlng (nonce (p_nonces d)) (deviceUID (g_identity (p_cfg d)))
    eq_refl Hs0 Ho (Hn _)) as Hk.
  assert (Hd1 : serving (dropSession d <| p_nonces := (p_nonces d + 1)%nat |>))
    by (apply pd_dropSession_ok in Hd; pd_solve).
  rewrite <- Nat.add_1_r.
  destruct (Secure.AnswerChallenge s0 chlng _ _) as [s [ccrypt|e]] eqn:E.
  - destruct Hk as (Hk1 & Hk2 & _). pose proof (set_session_ok _ s Hd1 (conj Hk1 Hk2) Hg) as Hd2.
    do 3 eexists. split; [done|]. split; [exact Hd2|done| |by right; left]. split; [done|]. simpl.
    apply Secure.AnswerChallenge_ok in E as (cl & -> & [_ Hcl] & _); [|done..|apply Hn].
    apply Forall_app; split; [|apply Forall_app; split; [apply Hn|done]].
    destruct (so_identity _ (sv_cfg d Hd)) as [[_ Hv] ? ? _ _]. octet_list.
  - do 3 eexists. split; [done|]. split; [done|done|by apply nak_ok|by left].
Qed.

Lemma answerCryptogram_ok d scrypt : serving d ->
  exists d' m block, answerCryptogram d scrypt = (d', (m, block)) /\ answered_ok d d' m block.
Proof.
  intros Hd. unfold answerCryptogram. destruct (p_session d) as [s|] eqn:Es.
  2:{ do 3 eexists. split; [done|]. split; [done|done|by apply nak_ok|by left]. }
  destruct (sv_session d Hd s Es) as [[Hs HS] Hg].
  pose proof (Secure.kept_AnswerServerCryptogram s scrypt HS Hs) as (K1 & K2 & _).
  destruct (Secure.AnswerServerCryptogram s scrypt) as [s' [rmac|e]] eqn:E; simpl in *.
  - do 3 eexists. split; [done|]. apply Secure.AnswerServerCryptogram_ok in E as ([_ Hr] & _); [|done..].
    split; [by apply set_session_ok|done|by split|by do 2 right; left].
  - do 3 eexists. split; [done|]. split; [by apply pd_dropSession_ok|done|by apply nak_ok|by left].
Qed.

Lemma answer_ok d f : serving d -> Frame.frame_ok f ->
  exists d' m block, answer d f = Ok (d', (m, block)) /\ answered_ok d d' m block.
Proof.
  intros Hd Hf. unfold answer. destruct (Frame.f_Security f) as [sb|] eqn:Hsb.
  - unfold answerSecure. destruct (secureEnabled d) eqn:Hg; simpl.
    2:{ do 3 eexists. split; [done|]. split; [done|done|by apply nak_ok|by left]. }
    case_decide; [apply answerChallenge_ok; [done|done|apply Hf]|].
    case_decide.
    { destruct (answerCryptogram_ok d (Frame.f_Data f) Hd) as (d' & m & bl & -> & Ha). eauto 6. }
    case_decide.
    { destruct (answerEstablished_ok d f sb Hd Hf Hsb) as (d' & m & bl & -> & Ha). eauto 6. }
    do 3 eexists. split; [done|]. split; [done|done|by apply nak_ok|by left].
  - destruct (Device_Secure d).
    + do 3 eexists. split; [done|]. split; [by apply pd_dropSession_ok|done|by apply nak_ok|by left].
    + destruct (pd_dispatch_ok d f false Hd) as [[] Hm]; [apply Hf|].
      destruct (dispatch d f false) as [d' m]. simpl in *. do 3 eexists. split; [done|].
      split; [done|done|done|by left].
Qed.

(** ** Replies *)

(** A reply the panel can use: well formed, passing its check, from this
    device, at the number and under the check of the command. *)
Record reply_ok (addr seq : Z) (scheme : Frame.Scheme) (code : Z) (block : option Frame.SecurityBlock)
    (r : Frame.Frame) : Prop := mk_reply_ok {
  re_ok : Frame.frame_ok r;
  re_check : Frame.CheckOK r = true;
  re_reply : Frame.f_IsReply r = true;
  re_addr : Frame.f_Address r = addr;
  re_seq : Frame.Control_Sequence (Frame.f_Control r) = seq;
  re_scheme : Frame.Control_Scheme (Frame.f_Control r) = scheme;
  re_code : Frame.f_Code r = code;
  re_block : Frame.f_Security r = block
}.

Lemma reply_ok_seal addr seq scheme code block data : 0 <= addr < 128 -> 0 <= seq <= 3 ->
  octet_ok code -> octets_ok data ->
  (forall sb, block = Some sb -> octet_ok (Frame.sb_Type sb) /\ octets_ok (Frame.sb_Data sb)) ->
  reply_ok addr seq scheme code block (Frame.Seal (Frame.mk_Frame false true addr
    (Frame.NewControl seq scheme (bool_decide (is_Some block))) block code data 0)).
Proof.
  intros Ha Hs Hc Hd Hb.
  destruct (Frame.NewControl_spec seq scheme (bool_decide (is_Some block)) Hs) as (C1 & C2 & C3 & C4).
  split; try done; [|apply Frame.CheckOK_Seal]. by apply Frame.Seal_ok.
Qed.

Lemma block_octets t sb : octet_ok t -> Some (SB t) = Some sb ->
  octet_ok (Frame.sb_Type sb) /\ octets_ok (Frame.sb_Data sb).
Proof. intros Ht [= <-]. split; [done|]. by apply Forall_nil. Qed.

Lemma replyBlock_kind n : 0 <= n -> exists t, replyBlock n = Some (SB t) /\ octet_ok t /\
  Secure.BlockType_Handshake t = false /\ Secure.BlockType_Encrypted t = bool_decide (n > 0).
Proof.
  intros. unfold replyBlock. case_decide as Hn.
  - exists Secure.SCS18. by rewrite bool_decide_true.
  - exists Secure.SCS16. by rewrite bool_decide_false.
Qed.

(** An authenticated reply, and the session it leaves. *)
Lemma sealReply_spec d m seq scheme s t : serving d -> msg_ok m -> 0 <= seq <= 3 ->
  p_session d = Some s -> Secure.Established s = true -> octet_ok t ->
  Secure.BlockType_Encrypted t = bool_decide (len (Cmd.m_Data m) > 0) ->
  exists r c mac, sealReply d m seq scheme (SB t) =
      (d <| p_session := Some (Secure.commit s false mac) |>, Ok r) /\
    reply_ok (p_address d) seq scheme (Cmd.m_Code m) (Some (SB t)) r /\
    enciphered (S := S) s false (Cmd.m_Data m) c /\ tagged (S := S) s false r c mac /\
    session_of (Secure.commit s false mac).
Proof.
  intros Hd Hm Hs Es He Ht Henc. destruct (sv_session d Hd s Es) as [[Hs1 HS] _].
  destruct (enciphered_total s false (Cmd.m_Data m)) as (c & Hc & Hco & _); [done|apply Hm|].
  pose proof (sv_addr d Hd) as Ha.
  set (f0 := Frame.mk_Frame false true (p_address d) (Frame.NewControl seq scheme true) (Some (SB t))
    (Cmd.m_Code m) c 0).
  destruct (Frame.NewControl_spec seq scheme true) as (C1 & _); [lia|].
  destruct (Authenticate_tag (S := S) s false f0 c) as (mac & Htag & Hauth); [done|done|done| |].
  { apply Frame.AppendBody_octets; simpl; try done; [lia|by intros ? ?%block_octets|apply Hm|].
    apply Forall_app. split; [done|]. by apply (Forall_replicate octet_ok 4 0). }
  pose proof (tg_block _ _ _ _ _ Htag) as Hmb.
  assert (Hml : octets_ok (slice mac 0 4)) by (apply Forall_slice, Hmb).
  exists (Frame.Seal (f0 <| Frame.f_Data := c ++ slice mac 0 4 |>)), c, mac. split_and!.
  - unfold sealReply. rewrite Es. simpl Frame.sb_Type. rewrite Henc.
    assert (Hp : (if bool_decide (len (Cmd.m_Data m) > 0) then Secure.Seal s (Cmd.m_Data m) false
                  else Ok (Cmd.m_Data m)) = Ok c).
    { unfold enciphered in Hc. unfold Secure.Seal. rewrite He, HS. simpl negb.
      destruct (decide (len (Cmd.m_Data m) > 0)); [by rewrite bool_decide_true|].
      rewrite bool_decide_false by done. by subst. }
    rewrite Hp. unfold Cmd.EncodeSecure. rewrite Frame.Address_Valid_lt by lia.
    unfold Secure.MACTagSize. change (Z.to_nat 4) with 4%nat. unfold Frame.body_before in Hauth.
    simpl in Hauth |- *. rewrite Hauth. do 2 f_equal.
    assert (slice (c ++ [0; 0; 0; 0]) 0 (len (c ++ [0; 0; 0; 0]) - 4) = c) as ->
      by (apply slice_begin; rewrite len_app; change (len [0; 0; 0; 0]) with 4; lia).
    done.
  - apply (reply_ok_seal (p_address d) seq scheme (Cmd.m_Code m) (Some (SB t))); [lia|done|apply Hm| |].
    + by apply Forall_app.
    + intros sb. by apply block_octets.
  - done.
  - destruct Htag. by split.
  - split; [|by rewrite <- HS]. apply Secure.session_ok_commit; [done|done|].
    by apply Secure.Established_state, negb_false_iff.
Qed.

(** Encoding moves nothing but the session. *)
Lemma encode_spec d m seq scheme block : serving d -> msg_ok m -> 0 <= seq <= 3 ->
  answers d m block ->
  exists s' r, encode d (m <| Cmd.m_IsReply := true |>) seq scheme block = (d <| p_session := s' |>, Ok r) /\
    reply_ok (p_address d) seq scheme (Cmd.m_Code m) block r /\ serving (d <| p_session := s' |>).
Proof.
  intros Hd Hm Hs Hb. pose proof (sv_addr d Hd) as Ha.
  assert (Hself : serving (d <| p_session := p_session d |>)) by (destruct d; exact Hd).
  destruct Hb as [->|Hb].
  { exists (p_session d). eexists. split; [|split; [|done]].
    - unfold encode, Cmd.Encode. simpl. rewrite Frame.Address_Valid_lt by lia. destruct d; done.
    - apply (reply_ok_seal (p_address d) seq scheme (Cmd.m_Code m) None); try apply Hm; done || lia. }
  assert (Hhs : forall t, octet_ok t -> Secure.BlockType_Handshake t = true -> block = Some (SB t) ->
    exists s' r, encode d (m <| Cmd.m_IsReply := true |>) seq scheme block = (d <| p_session := s' |>, Ok r) /\
      reply_ok (p_address d) seq scheme (Cmd.m_Code m) block r /\ serving (d <| p_session := s' |>)).
  { intros t Ht Hh ->. exists (p_session d). eexists. split; [|split; [|done]].
    - unfold encode, Cmd.EncodeSecure. simpl Frame.sb_Type. rewrite Hh, Frame.Address_Valid_lt by lia. destruct d; done.
    - apply (reply_ok_seal (p_address d) seq scheme (Cmd.m_Code m) (Some (SB t)));
        [lia|done|apply Hm|apply Hm|]. intros sb. by apply block_octets. }
  destruct Hb as [Hb|[Hb|[Hsec ->]]]; [by apply (Hhs Secure.SCS12)|by apply (Hhs Secure.SCS14)|].
  unfold Device_Secure in Hsec. destruct (p_session d) as [s|] eqn:Es; [|done].
  destruct (replyBlock_kind (len (Cmd.m_Data m))) as (t & -> & Ht & Hh & He); [apply len_nonneg|].
  destruct (sealReply_spec d (m <| Cmd.m_IsReply := true |>) seq scheme s t)
    as (r & c & mac & E & Hr & _ & _ & Hs'); [done|by destruct Hm|done..|].
  exists (Some (Secure.commit s false mac)), r. split; [|split; [exact Hr|]].
  - unfold encode. simpl Frame.sb_Type. by rewrite Hh.
  - apply set_session_ok; [done|done|]. by destruct (sv_session d Hd s Es).
Qed.

Lemma refreshCapabilities_ok d : serving d -> serving (refreshCapabilities d).
Proof.
  intros Hd. unfold refreshCapabilities. pose proof (so_capabilities _ (sv_cfg d Hd)) as Hc.
  destruct (g_capabilities (p_cfg d)) as [|c r].
  - assert (Hdef : forall a b c x y, Forall capability_ok (defaultCapabilities a b c x y)).
    { intros. unfold defaultCapabilities, capability_ok.
      repeat (apply Forall_cons; split; [simpl; split_and!; first [done | apply u8_ok | by destruct x | by destruct y]|]).
      by apply Forall_nil. }
    pd_solve.
  - pd_solve.
Qed.

Lemma refreshCapabilities_fields d : exists caps, refreshCapabilities d = d <| p_capabilities := caps |>.
Proof. unfold refreshCapabilities. destruct (g_capabilities (p_cfg d)); eauto. Qed.

Lemma adoptKey_ok d : serving d -> serving (adoptKey d) /\ p_adoptingKey (adoptKey d) = None /\
  p_adopting (adoptKey d) = p_adopting d /\ p_cfg (adoptKey d) = p_cfg d /\
  p_cached (adoptKey d) = p_cached d /\ p_cachedSeq (adoptKey d) = p_cachedSeq d /\
  p_cachedValid (adoptKey d) = p_cachedValid d.
Proof.
  intros Hd. unfold adoptKey. destruct (p_adoptingKey d) as [key|] eqn:E; [|by split_and!].
  pose proof (sv_adoptingKey d Hd key E) as Hk.
  assert (H1 : serving (dropSession (d <| p_adoptingKey := None |> <| p_key := key |>)))
    by (apply pd_dropSession_ok; pd_solve).
  apply refreshCapabilities_ok in H1. destruct (refreshCapabilities_fields
    (dropSession (d <| p_adoptingKey := None |> <| p_key := key |>))) as [caps E1]. rewrite E1 in H1 |- *.
  simpl p_cfg. destruct (g_keyInstalled (p_cfg d)); (split; [|done]); [|exact H1].
  clear -H1. simpl in *. pd_solve.
Qed.

(** The state left by a reply: nothing waiting, and the reply remembered unless
    the exchange was a restart. *)
Definition remembered (d : Device) (seq : Z) (r : Frame.Frame) : Prop :=
  if decide (seq = 0) then p_cachedValid d = false
  else p_cachedValid d = true /\ p_cached d = r /\ p_cachedSeq d = seq.

Lemma emit_ok d command seq m block : serving d -> msg_ok m -> 0 <= seq <= 3 -> answers d m block ->
  exists d' r, emit d command seq m block = (d', Ok r) /\ pd_ok d' /\ p_cfg d' = p_cfg d /\
    reply_ok (p_address d) seq (Frame.Control_Scheme (Frame.f_Control command)) (Cmd.m_Code m) block r /\
    remembered d' seq r.
Proof.
  intros Hd Hm Hs Hb. unfold emit.
  destruct (encode_spec d m seq (Frame.Control_Scheme (Frame.f_Control command)) block Hd Hm Hs Hb)
    as (s' & r & -> & Hr & Hd1). set (d1 := d <| p_session := s' |>) in *.
  set (d2 := if decide (seq = 0) then _ else _).
  assert (H2 : serving d2 /\ remembered d2 seq r /\ p_cfg d2 = p_cfg d).
  { unfold d2, remembered. pose proof Hr as []. case_decide; (split; [|done]).
    - clearbody d1. pd_solve.
    - clearbody d1. pd_solve. intros _. split_and!; try done; lia. }
  clearbody d2. destruct H2 as (H2 & Hrem & Hcfg).
  set (d3 := match p_adopting d2 with Some a => _ | None => _ end).
  assert (H3 : serving d3 /\ p_adopting d3 = None /\ remembered d3 seq r /\ p_cfg d3 = p_cfg d).
  { unfold d3. destruct (p_adopting d2) as [a|] eqn:Ea; [|done].
    pose proof (sv_adopting d2 H2 a Ea). split; [pd_solve|done]. }
  clearbody d3. destruct H3 as (H3 & Ha3 & Hrem3 & Hcfg3).
  destruct (adoptKey_ok d3 H3) as (A1 & A2 & A3 & A4 & A5 & A6 & A7).
  exists (adoptKey d3), r. split; [done|]. split_and!; try congruence; try done.
  - split; [done|]. split; congruence.
  - unfold remembered in *. by rewrite A5, A6, A7.
Qed.

(** ** Handle *)

Arguments observe : simpl never.

Lemma restart_ok d : serving d -> serving (restart d).
Proof. intros Hd. unfold restart, dropSession. pd_solve. Qed.

Lemma observe_ok d now : pd_ok d -> pd_ok (observe d now) /\ p_cfg (observe d now) = p_cfg d /\
  p_address (observe d now) = p_address d.
Proof.
  intros (Hd & Ha & Hk). unfold observe.
  case_match; (split; [|done]); split; try done; [apply restart_ok in Hd; pd_solve|pd_solve].
Qed.

Lemma answerFor_ok d f seq : serving d -> Frame.frame_ok f ->
  exists d' m block, answerFor d f seq = Ok (d', (m, block)) /\ answered_ok d d' m block.
Proof.
  intros Hd Hf. unfold answerFor. case_match; [|by apply answer_ok].
  do 3 eexists. split; [done|]. split; [done|done|by apply nak_ok|by left].
Qed.

Lemma fresh_ok d f seq : pd_ok d -> Frame.frame_ok f -> 0 <= seq <= 3 ->
  exists d' r code block, fresh d f seq = (d', Ok r) /\ pd_ok d' /\ p_cfg d' = p_cfg d /\
    reply_ok (p_address d) seq (Frame.Control_Scheme (Frame.f_Control f)) code block r /\
    remembered d' seq r.
Proof.
  intros (Hd & _) Hf Hs. unfold fresh.
  destruct (answerFor_ok d f seq Hd Hf) as (d1 & m & block & -> & [A1 [A2 A3] A4 A5]).
  destruct (emit_ok d1 f seq m block A1 A4 Hs A5) as (d' & r & -> & H1 & H2 & H3 & H4).
  exists d', r, (Cmd.m_Code m), block. rewrite <- A2, <- A3. by split_and!.
Qed.

(** The line has not been silent for longer than the device allows. *)
Definition quiet (d : Device) (now : Z) : Prop :=
  p_seen d && bool_decide (g_timeout (p_cfg d) > 0) &&
  bool_decide (Sub now (p_lastSeen d) > g_timeout (p_cfg d)) = false.

Definition noted (d : Device) (now : Z) : Device := d <| p_seen := true |> <| p_lastSeen := now |>.

Lemma observe_quiet d now : quiet d now -> observe d now = noted d now.
Proof. unfold quiet, observe. by intros ->. Qed.

Lemma Sequence_bound c : 0 <= Frame.Control_Sequence c <= 3.
Proof.
  unfold Frame.Control_Sequence, Frame.ctrlSequenceMask. change 0x03 with (Z.ones 2).
  change (0 <= Z.land c (Z.ones 2) <= 3).
  rewrite Z.land_ones by lia. pose proof (Z.mod_pos_bound c (2 ^ 2)). lia.
Qed.

Lemma Handle_ok d f now : pd_ok d -> Frame.frame_ok f -> screen f = None ->
  addressed d (Frame.f_Address f) = true ->
  exists d' r, Handle d f now = (d', Ok r) /\ pd_ok d' /\ p_cfg d' = p_cfg d /\
    Frame.frame_ok r /\ Frame.CheckOK r = true /\ Frame.f_IsReply r = true /\
    Frame.Control_Sequence (Frame.f_Control r) = Frame.Control_Sequence (Frame.f_Control f) /\
    remembered d' (Frame.Control_Sequence (Frame.f_Control f)) r.
Proof.
  intros Hd Hf Hs Ha. unfold Handle. rewrite Hs, Ha. cbn [negb]. cbv zeta.
  destruct (observe_ok d now Hd) as (H0 & Hc & _).
  remember (observe d now) as d0 eqn:Ed0. clear Ed0.
  set (seq := Frame.Control_Sequence (Frame.f_Control f)).
  pose proof (Sequence_bound (Frame.f_Control f)) as Hseq. fold seq in Hseq.
  assert (Hfresh : forall d1, pd_ok d1 -> p_cfg d1 = p_cfg d ->
    exists d' r, fresh d1 f seq = (d', Ok r) /\ pd_ok d' /\ p_cfg d' = p_cfg d /\
      Frame.frame_ok r /\ Frame.CheckOK r = true /\ Frame.f_IsReply r = true /\
      Frame.Control_Sequence (Frame.f_Control r) = seq /\ remembered d' seq r).
  { intros d1 H1 E1. destruct (fresh_ok d1 f seq H1 Hf Hseq) as (d' & r & code & bl & E & H2 & H3 & [] & H4).
    exists d', r. split_and!; try done; congruence. }
  case_decide as Hz.
  - apply Hfresh; [|done]. destruct H0 as (H0 & Ha0 & Hk0). split; [by apply restart_ok|done].
  - case_match eqn:Hc2; [|by apply Hfresh].
    apply andb_true_iff in Hc2 as [Hv Hq%bool_decide_eq_true].
    destruct (sv_cached d0 (proj1 H0) Hv) as (C1 & C2 & C3 & C4 & C5).
    exists d0, (p_cached d0). split_and!; try done; try congruence.
    unfold remembered. by rewrite decide_False.
Qed.

Lemma Handle_total d f now : pd_ok d -> Frame.frame_ok f ->
  if negb (Frame.f_IsReply f) && Frame.CheckOK f && addressed d (Frame.f_Address f)
  then exists d' r, Handle d f now = (d', Ok r) /\ pd_ok d' /\
    Frame.frame_ok r /\ Frame.CheckOK r = true /\ Frame.f_IsReply r = true /\
    Frame.Control_Sequence (Frame.f_Control r) = Frame.Control_Sequence (Frame.f_Control f)
  else exists e, Handle d f now = (d, Err e) /\ ErrNoReply e = true.
Proof.
  intros Hd Hf. pose proof (Handle_ok d f now Hd Hf) as Hok.
  unfold Handle, screen in *. destruct (Frame.f_IsReply f); [by eexists|].
  destruct (Frame.CheckOK f); [|by eexists]. simpl in *.
  destruct (addressed d (Frame.f_Address f)); [|by eexists]. simpl in *.
  destruct (Hok eq_refl eq_refl) as (d' & r & E & H1 & _ & H2 & H3 & H4 & H5 & _). eauto 10.
Qed.

(** An addressed device always answers. Every well formed command that
    passes its check and is for this device gets a reply: well formed, passing its
    own check, carrying the command's sequence number. Every other frame gets
    silence, under an error of the ErrNoReply class, and leaves no trace on the
    device. No input reaches a missing session, suite or nonce source. *)
Theorem Handle_answers d f now : pd_ok d -> Frame.frame_ok f ->
  if negb (Frame.f_IsReply f) && Frame.CheckOK f && addressed d (Frame.f_Address f)
  then exists d' r, Handle d f now = (d', Ok r) /\ pd_ok d' /\
    Frame.frame_ok r /\ Frame.CheckOK r = true /\ Frame.f_IsReply r = true /\
    Frame.Control_Sequence (Frame.f_Control r) = Frame.Control_Sequence (Frame.f_Control f)
  else exists e, Handle d f now = (d, Err e) /\ ErrNoReply e = true.
Proof. exact (Handle_total d f now). Qed.

(** Commands one after the other. *)
Fixpoint exchanges (d : Device) (cs : list (Frame.Frame * Z)) : Device * list (result Frame.Frame) :=
  match cs with
  | [] => (d, [])
  | (f, now) :: cs =>
      let '(d, r) := Handle d f now in
      let '(d, rs) := exchanges d cs in
      (d, r :: rs)
  end.

Fixpoint in_time (timeout last : Z) (ts : list Z) : Prop :=
  match ts with
  | [] => True
  | t :: ts => Sub t last <= timeout /\ in_time timeout t ts
  end.

(** [d'] differs from [d] in when it last heard the panel. *)
Definition only_heard (d d' : Device) : Prop :=
  exists b t, d' = d <| p_seen := b |> <| p_lastSeen := t |>.

(** A repeated command is answered again and not obeyed again. Once a
    command has been answered, any number of commands with its sequence number,
    whatever they say and under whatever security block, each get the same reply,
    octet for octet, and change nothing but the time the panel was last heard: an
    output operated once is not operated twice, an event is not taken from the
    queue, a chain does not move. (As long as the panel is not silent for longer
    than the configured timeout in between.) *)
Theorem repeat_replayed d f now d1 r gs : pd_ok d -> Frame.frame_ok f ->
  Handle d f now = (d1, Ok r) -> Frame.Control_Sequence (Frame.f_Control f) <> 0 ->
  Forall (fun '(g, _) => screen g = None /\ addressed d1 (Frame.f_Address g) = true /\
    Frame.Control_Sequence (Frame.f_Control g) = Frame.Control_Sequence (Frame.f_Control f)) gs ->
  g_timeout (p_cfg d1) <= 0 \/ in_time (g_timeout (p_cfg d1)) (p_lastSeen d1) (map snd gs) ->
  exists d2, exchanges d1 gs = (d2, replicate (length gs) (Ok r)) /\ only_heard d1 d2.
Proof.
  intros Hd Hf Hh Hz Hgs Ht.
  assert (Hsa : screen f = None /\ addressed d (Frame.f_Address f) = true).
  { unfold Handle in Hh. destruct (screen f); [done|]. split; [done|].
    by destruct (addressed d (Frame.f_Address f)). }
  destruct (Handle_ok d f now Hd Hf (proj1 Hsa) (proj2 Hsa)) as (d1' & r' & E & _ & _ & _ & _ & _ & _ & Hr).
  rewrite Hh in E. injection E as <- <-. unfold remembered in Hr. rewrite decide_False in Hr by done.
  clear Hh Hf Hd Hsa. revert d1 Hr Hgs Ht. induction gs as [|[g t] gs IH]; intros d1 (R1 & R2 & R3) Hgs Ht.
  - exists d1. split; [done|]. exists (p_seen d1), (p_lastSeen d1). by destruct d1.
  - apply Forall_cons in Hgs as [(G1 & G2 & G3) Hgs]. cbn [map snd in_time] in Ht.
    assert (Hq : quiet d1 t).
    { unfold quiet. destruct Ht as [Ht|[Ht _]].
      - by rewrite (bool_decide_false (_ > 0)), andb_false_r by lia.
      - by rewrite (bool_decide_false (Sub _ _ > _)), andb_false_r by lia. }
    assert (E : Handle d1 g t = (noted d1 t, Ok r)).
    { unfold Handle. rewrite G1, G2, (observe_quiet d1 t Hq), G3. simpl.
      rewrite decide_False by done. by rewrite R1, R2, R3, bool_decide_true. }
    cbn [exchanges length replicate]. rewrite E.
    destruct (IH (noted d1 t)) as (d2 & -> & b & t' & ->).
    + done.
    + done.
    + destruct Ht as [Ht|[_ Ht]]; [by left|by right].
    + eexists. split; [done|]. exists b, t'. by destruct d1.
Qed.

(** ** Construction *)

Lemma pd_New_ok addr opts d : octet_ok addr ->
  settings_ok (fold_left (fun s opt => opt s) opts defaults) -> New addr opts = Ok d -> pd_ok d.
Proof.
  intros Ha Hg. unfold New. case_match eqn:Hv; [done|].
  apply orb_false_iff in Hv as [Hv1%negb_false_iff Hv2%bool_decide_eq_false].
  unfold Frame.Address_Valid in Hv1. apply bool_decide_eq_true in Hv1.
  set (cfg := fold_left _ opts defaults) in *. pose proof (so_valid _ Hg) as Hval. rewrite Hval.
  intros [= <-]. unfold validate in Hval. do 2 (case_decide; [done|]).
  unfold Frame.BroadcastAddress, octet_ok in *. destruct (refreshCapabilities_fields
    (mk_pd cfg addr (replicate (Z.to_nat (g_inputs cfg)) false)
       (replicate (Z.to_nat (g_outputs cfg)) false) false false [] (g_key cfg) None [] false 0
       zero_frame 0 false None None 0 0 [])) as [caps E].
  split; [|by rewrite E]. apply refreshCapabilities_ok.
  split; simpl; try done; try lia; try (by apply Forall_nil); try apply Hg.
  - unfold Pending. simpl. unfold len. simpl. lia.
  - rewrite len_replicate. lia.
  - rewrite len_replicate. lia.
Qed.

End with_suite.

(** ** Witnesses *)

(** A two-relay reader holding the default key. *)
Definition kat_rndB_nonce : nat -> octets := fun _ => Secure.kat_rndB.
Definition kat_options : list Option :=
  [ WithContacts 2 2 1; WithCommunicationTimeout 8000000000; WithKeyInstalled;
    WithSecureChannel Secure.AES128.suite Secure.DefaultBaseKey kat_rndB_nonce ].
Definition kat_pd : Device :=
  match New 1 kat_options with
  | Ok d => d
  | Err _ => mk_pd defaults 0 [] [] false false [] [] None [] false 0 zero_frame 0 false None None 0 0 []
  end.

Lemma kat_settings_ok :
  settings_ok (S := Secure.AES128.suite) (fold_left (fun s opt => opt s) kat_options defaults).
Proof.
  split; simpl; try done.
  - by split; simpl; try (split; [done|octets_dec]).
  - intros _. split; [done|]. exists kat_rndB_nonce. split; [done|]. intros n. apply Secure.kat_rndB_ok.
  - apply Secure.DefaultBaseKey_ok.
Qed.

Lemma kat_pd_ok : pd_ok (S := Secure.AES128.suite) kat_pd.
Proof.
  assert (H : match New 1 kat_options with Ok _ => true | Err _ => false end = true)
    by (vm_compute; reflexivity).
  unfold kat_pd. destruct (New 1 kat_options) as [d|e] eqn:E; [|discriminate H].
  apply (pd_New_ok 1 kat_options d); [by vm_compute|apply kat_settings_ok|exact E].
Qed.

(** Energise output 1, at number 2, and a poll at the same number. *)
Definition kat_out : Frame.Frame :=
  Frame.Seal (Frame.mk_Frame false false 1 (Frame.NewControl 2 Frame.SchemeCRC16 false) None
    Cmd.Out [1; Cmd.OutputTimedOn; 50; 0] 0).
Definition kat_poll2 : Frame.Frame :=
  Frame.Seal (Frame.mk_Frame false false 1 (Frame.NewControl 2 Frame.SchemeCRC16 false) None Cmd.Poll [] 0).

Lemma kat_out_ok : Frame.frame_ok kat_out.
Proof. apply Frame.Seal_ok; simpl; try done; octets_dec. Qed.

Example Handle_answers_witness : exists d' r, Handle kat_pd kat_out 0 = (d', Ok r) /\
  pd_ok (S := Secure.AES128.suite) d' /\
  Frame.frame_ok r /\ Frame.CheckOK r = true /\ Frame.f_IsReply r = true /\
  Frame.Control_Sequence (Frame.f_Control r) = Frame.Control_Sequence (Frame.f_Control kat_out).
Proof. exact (Handle_answers kat_pd kat_out 0 kat_pd_ok kat_out_ok). Defined.

(** Looking at a computed exchange without unfolding it. *)
Definition seen {A} (g : Device -> Frame.Frame -> A) (x : Device * result Frame.Frame) : option A :=
  match x with
  | (d, Ok r) => Some (g d r)
  | _ => None
  end.

Lemma Handle_view {A} (g : Device -> Frame.Frame -> A) x a : seen g x = Some a ->
  exists d r, x = (d, Ok r) /\ g d r = a.
Proof. destruct x as [d [r|e]]; simpl; [|done]. intros [= <-]. eauto. Qed.

Lemma kat_in_time : in_time 8000000000 0 [5; 9].
Proof. cbn [in_time]. unfold Sub, maxDuration. lia. Qed.

Example repeat_replayed_witness : exists d1 r d2, Handle kat_pd kat_out 0 = (d1, Ok r) /\
  p_outputs d1 = [false; true] /\
  exchanges d1 [(kat_out, 5); (kat_poll2, 9)] = (d2, replicate 2 (Ok r)) /\ only_heard d1 d2.
Proof.
  destruct (Handle_view (fun d _ => (p_outputs d, g_timeout (p_cfg d), p_lastSeen d, addressed d 1))
    (Handle kat_pd kat_out 0) ([false; true], 8000000000, 0, true)) as (d1 & r & E & Hv);
    [vm_compute; reflexivity|].
  injection Hv as H1 H2 H3 H4.
  destruct (repeat_replayed kat_pd kat_out 0 d1 r [(kat_out, 5); (kat_poll2, 9)] kat_pd_ok kat_out_ok E)
    as (d2 & E2 & Ho).
  - by vm_compute.
  - repeat (apply Forall_cons; split; [split; [by vm_compute|split; [exact H4|by vm_compute]]|]). by apply Forall_nil.
  - right. rewrite H2, H3. exact kat_in_time.
  - exists d1, r, d2. split; [exact E|]. split; [exact H1|]. split; [exact E2|exact Ho].
Defined.
