(* ===== verification/PdLaws.v ===== *)
(** * The peripheral device's particular laws

    What can reach the device's state once its channel is up, and the one way
    round it; the key install; osdp_OUT as all or nothing against a reference;
    the event queue; and what a reader reports against what a panel parses. *)

From S2P Require Import Prelude Errors Channel Pd PdFacts.
From S2P Require Frame Cmd Aes Secure.

Section with_suite.
Context {S : Secure.CipherSuite} `{!Secure.SuiteLaws S}.

(** A command that is for this device, arrives in time, and is neither a restart
    nor a repeat. *)
Record new_command (d : Device) (f : Frame.Frame) (now : Z) : Prop := mk_new_command {
  nc_screen : screen f = None;
  nc_addr : addressed d (Frame.f_Address f) = true;
  nc_quiet : quiet d now;
  nc_seq : Frame.Control_Sequence (Frame.f_Control f) <> 0;
  nc_fresh : p_cachedValid d = true -> Frame.Control_Sequence (Frame.f_Control f) <> p_cachedSeq d
}.

Lemma Handle_new d f now : new_command d f now ->
  Handle d f now = fresh (noted d now) f (Frame.Control_Sequence (Frame.f_Control f)).
Proof.
  intros [H1 H2 H3 H4 H5]. unfold Handle. rewrite H1, H2, (observe_quiet d now H3). cbn [negb]. cbv zeta.
  rewrite decide_False by done. change (p_cachedValid (noted d now)) with (p_cachedValid d).
  change (p_cachedSeq (noted d now)) with (p_cachedSeq d).
  destruct (p_cachedValid d); [|done]. by rewrite bool_decide_false by auto.
Qed.

Lemma noted_ok d now : pd_ok (S := S) d -> pd_ok (S := S) (noted d now).
Proof. intros ([] & Ha & Hk). split; [by split|done]. Qed.

(** ** What an established channel keeps out *)

(** With nothing waiting for an acknowledgement, emitting moves nothing. *)
Lemma emit_unmoved d command seq m block d' r : pd_ok (S := S) d -> msg_ok m -> 0 <= seq <= 3 ->
  answers d m block -> emit d command seq m block = (d', Ok r) ->
  unmoved d d' /\ Frame.f_Code r = Cmd.m_Code m /\ Frame.f_Security r = block.
Proof.
  intros (Hd & Ha & Hk) Hm Hs Hb E. unfold emit in E.
  destruct (encode_spec d m seq (Frame.Control_Scheme (Frame.f_Control command)) block Hd Hm Hs Hb)
    as (s' & r' & Ee & [] & _). cbv zeta in E. rewrite Ee in E. cbn iota in E.
  assert (Hnone : forall d1 : Device, p_adopting d1 = None -> p_adoptingKey d1 = None ->
    adoptKey (match p_adopting d1 with
              | Some a => d1 <| p_address := a |> <| p_adopting := None |>
              | None => d1 end) = d1) by (intros d1 -> E2; unfold adoptKey; by rewrite E2).
  rewrite Hnone in E; [|by case_decide|by case_decide]. injection E as <- <-.
  split; [by case_decide|done].
Qed.

(** The frame carries the code the session expects next. *)
Definition authentic (s : Secure.Session) (f : Frame.Frame) : Prop :=
  exists c m, tagged (S := S) s true f c m.

Lemma open_authentic d f s sb d' p : serving (S := S) d -> Frame.frame_ok f -> p_session d = Some s ->
  Frame.f_Security f = Some sb -> open d f = (d', Ok p) -> authentic s f.
Proof.
  intros Hd Hf Es Hsb. destruct (sv_session d Hd s Es) as [[Hs HS] _]. unfold open.
  case_decide; [done|]. rewrite Es, Hsb. unfold Secure.MACTagSize in *.
  destruct (Secure.Verify _ _ _ _) as [s' [e|]] eqn:E; [done|]. intros _.
  apply Verify_authentic in E as (c & m & Ht & _); [by exists c, m|done|done|by apply Frame.AppendBody_ok|lia].
Qed.

(** What answering by refusal or by a new challenge leaves. *)
Definition refused (d d' : Device) (m : Cmd.Message) : Prop :=
  unmoved d d' /\ (Cmd.m_Code m = Cmd.NAK \/ Cmd.m_Code m = Cmd.CCrypt).

Lemma established_answer d f d' m block s : serving (S := S) d -> Frame.frame_ok f ->
  p_session d = Some s -> Secure.Established s = true -> answer d f = Ok (d', (m, block)) ->
  refused d d' m \/
  authentic s f /\ block = replyBlock (len (Cmd.m_Data m)) /\
  exists sb, Frame.f_Security f = Some sb /\
    (Frame.sb_Type sb = Secure.SCS15 \/ Frame.sb_Type sb = Secure.SCS17).
Proof.
  intros Hd Hf Es He. unfold answer, Device_Secure. rewrite Es, He.
  destruct (Frame.f_Security f) as [sb|] eqn:Hsb.
  2:{ intros [= <- <- <-]. left. split; [done|by left]. }
  unfold answerSecure. destruct (secureEnabled d); cbn [negb].
  2:{ intros [= <- <- <-]. left. split; [apply unmoved_refl|by left]. }
  case_decide as H11.
  { unfold answerChallenge. destruct (g_suite _); [|done]. destruct (g_nonce _); [|done].
    destruct (Secure.AnswerChallenge _ _ _ _) as [s1 [cc|e]]; intros [= <- <- <-]; left;
      (split; [done|simpl; auto]). }
  case_decide as H13.
  { unfold answerCryptogram. rewrite Es.
    assert (exists e, (Secure.AnswerServerCryptogram s (Frame.f_Data f)).2 = Err e) as [e Hx].
    { unfold Secure.AnswerServerCryptogram. case_decide; [by eexists|]. rewrite decide_True; [by eexists|].
      left. unfold Secure.Established in He. apply bool_decide_eq_true in He. by rewrite He. }
    destruct (Secure.AnswerServerCryptogram _ _) as [s1 ?]. simpl in Hx. subst.
    intros [= <- <- <-]. left. split; [done|by left]. }
  case_decide as H15; [|intros [= <- <- <-]; left; split; [apply unmoved_refl|by left]].
  unfold answerEstablished, Device_Secure. rewrite Es, He. cbn [negb].
  destruct (open_ok d f sb s Hd Es He Hf Hsb) as (s' & r & Eo & _). rewrite Eo.
  destruct r as [p|e]; [|intros [= <- <- <-]; left; split; [done|by left]].
  destruct (dispatch _ _ true) as [d2 m2]. intros [= <- <- <-]. right.
  split; [by eapply open_authentic|]. split; [done|]. eauto.
Qed.

(** C10. Once the channel is up, and as long as it is (the device drops it when it has
    heard nothing for its timeout), nothing but an authenticated command reaches
    the device. Any other new command at a non-zero sequence number (plaintext,
    another block, a code that does not verify) is answered with osdp_NAK or, if
    it is a challenge, with a fresh osdp_CCRYPT: contacts, outputs, address, key,
    queued events and the application's handler are untouched. *)
Theorem channel_protects d f now d' r s : pd_ok (S := S) d -> Frame.frame_ok f -> new_command d f now ->
  p_session d = Some s -> Secure.Established s = true -> Handle d f now = (d', Ok r) ->
  (unmoved d d' /\ (Frame.f_Code r = Cmd.NAK \/ Frame.f_Code r = Cmd.CCrypt)) \/
  authentic s f /\ exists sb, Frame.f_Security f = Some sb /\
    (Frame.sb_Type sb = Secure.SCS15 \/ Frame.sb_Type sb = Secure.SCS17) /\
    (Frame.f_Security r = Some (SB Secure.SCS16) \/ Frame.f_Security r = Some (SB Secure.SCS18)).
Proof.
  intros Hd Hf Hn Es He. rewrite Handle_new by done. apply (noted_ok d now) in Hd.
  assert (Hu : unmoved d (noted d now)) by done. set (d0 := noted d now) in *.
  set (seq := Frame.Control_Sequence _). pose proof (Sequence_bound (Frame.f_Control f)) as Hseq. fold seq in Hseq.
  unfold fresh. destruct (answerFor_ok d0 f seq (proj1 Hd) Hf) as (d1 & m & bl & Ea & [A1 A2 A3 A4]).
  rewrite Ea. intros E.
  assert (Href : refused d0 d1 m -> unmoved d d' /\ (Frame.f_Code r = Cmd.NAK \/ Frame.f_Code r = Cmd.CCrypt)).
  { intros [Hum Hc]. assert (Hd1 : pd_ok (S := S) d1).
    { destruct Hd as (? & ? & ?), Hum as [? ? ? ? ? ? ? [? ?]]. split; [done|]. split; congruence. }
    destruct (emit_unmoved d1 f seq m bl d' r Hd1 A3 Hseq A4 E) as (U & -> & _).
    split; [|done]. by eapply unmoved_trans, unmoved_trans. }
  revert Ea. unfold answerFor. destruct (g_strict (p_cfg d0) && _ && _).
  { intros [= <- <- <-]. left. apply Href. split; [apply unmoved_refl|by left]. }
  intros Ea. destruct (established_answer d0 f d1 m bl s (proj1 Hd) Hf Es He Ea) as [?|(Hau & -> & sb & Hsb & Ht)];
    [by left; apply Href|]. right. split; [done|]. exists sb. split; [done|]. split; [done|].
  destruct (emit_ok d1 f seq m _ A1 A3 Hseq A4) as (d2 & r2 & E2 & _ & _ & [] & _).
  rewrite E in E2. injection E2 as <- <-. rewrite re_block. unfold replyBlock.
  destruct (decide (len (Cmd.m_Data m) > 0)); auto.
Qed.

(** A restart leaves an ordinary plaintext reader. *)
Lemma restarted d now : pd_ok (S := S) d ->
  pd_ok (S := S) (restart (observe d now)) /\ p_session (restart (observe d now)) = None /\
  p_cachedValid (restart (observe d now)) = false /\ p_pending (restart (observe d now)) = p_pending d.
Proof.
  intros Hd. destruct (observe_ok d now Hd) as ((H0 & H1) & _). split_and!; try done.
  - split; [by apply restart_ok|done].
  - unfold observe. by case_match.
Qed.

(** A plaintext reply says the message. *)
Lemma emit_clear d command seq m : pd_ok (S := S) d -> msg_ok m -> 0 <= seq <= 3 ->
  exists d' r, emit d command seq m None = (d', Ok r) /\ Frame.f_Security r = None /\
    Frame.f_Code r = Cmd.m_Code m /\ Frame.f_Data r = Cmd.m_Data m /\ unmoved d d'.
Proof.
  intros Hd Hm Hs.
  destruct (emit_ok d command seq m None (proj1 Hd) Hm Hs (or_introl eq_refl)) as (d' & r & E & _).
  destruct (emit_unmoved d command seq m None d' r Hd Hm Hs (or_introl eq_refl) E) as (U & R1 & R2).
  exists d', r. split_and!; try done. revert E. unfold emit, encode, Cmd.Encode.
  pose proof (sv_addr d (proj1 Hd)). rewrite Frame.Address_Valid_lt by lia.
  by intros [= _ <-].
Qed.

(** A poll takes the head of the queue. *)
Lemma polled d m rest : pd_ok (S := S) d -> p_pending d = m :: rest ->
  pd_ok (S := S) (pollReply d).1 /\ msg_ok (pollReply d).2 /\
  (pollReply d).2 = m /\ p_pending (pollReply d).1 = rest.
Proof.
  intros (Hd & Ha & Hk) Hp. destruct (pollReply_ok d Hd) as [Ho Hm]. unfold pollReply in *.
  rewrite Hp in *. split_and!; try done. split; [exact (ob_serving _ _ Ho)|done].
Qed.

(** The way round it: a command at sequence zero drops the session before
    it is looked at, so a plaintext osdp_POLL at zero is answered, in the clear,
    with the event waiting at the head of the queue, a credential included.
    answer's comment says an established session refuses plaintext exactly so
    that this cannot happen. *)
Theorem restart_downgrades d f now s m rest : pd_ok (S := S) d ->
  p_session d = Some s -> Secure.Established s = true -> p_pending d = m :: rest ->
  screen f = None -> addressed d (Frame.f_Address f) = true ->
  Frame.Control_Sequence (Frame.f_Control f) = 0 -> Frame.f_Security f = None ->
  Frame.f_Code f = Cmd.Poll ->
  exists d' r, Handle d f now = (d', Ok r) /\ Frame.f_Security r = None /\
    Frame.f_Code r = Cmd.m_Code m /\ Frame.f_Data r = Cmd.m_Data m /\ p_pending d' = rest.
Proof.
  intros Hd Es He Hp Hs Haddr Hz Hsec Hc. unfold Handle.
  rewrite Hs, Haddr, Hz. cbn [negb]. cbv zeta. rewrite decide_True by done.
  destruct (restarted d now Hd) as (Hd0 & H1 & H2 & H3). generalize dependent (restart (observe d now)).
  intros d0 Hd0 H1 H2 H3. unfold fresh, answerFor. rewrite H2, andb_false_r. cbn [andb].
  unfold answer, Device_Secure. rewrite Hsec, H1. unfold dispatch. rewrite Hc, decide_True by done.
  rewrite Hp in H3. destruct (polled d0 m rest Hd0 H3) as (Hd1 & Hm & Hr).
  destruct (pollReply d0) as [d1 m1]. simpl in Hd1, Hm, Hr. destruct Hr as [-> Hr].
  destruct (emit_clear d1 f 0 m Hd1 Hm) as (d' & r & -> & R1 & R2 & R3 & U); [lia|].
  exists d', r. split_and!; try done. by rewrite (um_pending _ _ U).
Qed.

(** ** The key install *)

Lemma ParseKeySet_of key : Aes.block_ok key ->
  Cmd.ParseKeySet (Cmd.m_Data (Cmd.KeySetCommand key)) = Ok (Cmd.mk_KeySetPayload Cmd.KeySCBK key).
Proof.
  intros [Hl _]. rewrite <- (app_nil_r (Cmd.m_Data _)). apply Cmd.ParseKeySet_command. unfold len. lia.
Qed.

Lemma refreshCapabilities_default d : g_capabilities (p_cfg d) = [] ->
  Cmd.SecureChannel (p_capabilities (refreshCapabilities d)) =
    (g_secure (p_cfg d), g_secure (p_cfg d) && Secure.IsDefault (p_key d)).
Proof.
  intros E. unfold refreshCapabilities. rewrite E. simpl p_capabilities.
  destruct (g_secure (p_cfg d)), (Secure.IsDefault (p_key d)); reflexivity.
Qed.

Lemma adoptKey_fields d key : p_adoptingKey d = Some key ->
  p_key (adoptKey d) = key /\ p_session (adoptKey d) = None /\
  p_installed (adoptKey d) = p_installed d ++ (if g_keyInstalled (p_cfg d) then [key] else []) /\
  (g_capabilities (p_cfg d) = [] -> Cmd.SecureChannel (p_capabilities (adoptKey d)) =
     (g_secure (p_cfg d), g_secure (p_cfg d) && Secure.IsDefault key)) /\
  p_outputs (adoptKey d) = p_outputs d /\ p_pending (adoptKey d) = p_pending d /\
  p_address (adoptKey d) = p_address d.
Proof.
  intros E. unfold adoptKey. rewrite E.
  set (d1 := dropSession _). pose proof (refreshCapabilities_default d1) as Hdef.
  destruct (refreshCapabilities_fields d1) as [caps E1]. rewrite E1 in Hdef |- *.
  change (p_cfg (d1 <| p_capabilities := caps |>)) with (p_cfg d).
  destruct (g_keyInstalled (p_cfg d)); rewrite ?app_nil_r; by split_and!.
Qed.

(** Listening changes nothing of what a frame opens to. *)
Lemma open_noted d f now :
  open (noted d now) f = (noted (open d f).1 now, (open d f).2).
Proof.
  unfold open. case_decide; [done|]. change (p_session (noted d now)) with (p_session d).
  destruct (p_session d) as [s|]; [|done]. destruct (Frame.f_Security f); [|done].
  destruct (Secure.Verify _ _ _ _) as [s' [e|]]; [done|]. by destruct (negb _).
Qed.

(** A reply under the session's block, and what the device is after it. *)
Definition cached (d : Device) (seq : Z) (r : Frame.Frame) : Device :=
  d <| p_cached := r |> <| p_cachedSeq := seq |> <| p_cachedValid := true |>.

(** A new address takes effect once its acknowledgement is on the line. *)
Definition moved (d : Device) : Device :=
  match p_adopting d with
  | Some a => d <| p_address := a |> <| p_adopting := None |>
  | None => d
  end.

Lemma not_moved d : p_adopting d = None -> moved d = d.
Proof. unfold moved. by intros ->. Qed.

Lemma emit_sealed d command seq m s : serving (S := S) d -> msg_ok m -> 1 <= seq <= 3 ->
  p_session d = Some s -> Secure.Established s = true ->
  exists r c mac, emit d command seq m (replyBlock (len (Cmd.m_Data m))) =
      (adoptKey (moved (cached (d <| p_session := Some (Secure.commit s false mac) |>) seq r)), Ok r) /\
    reply_ok (p_address d) seq (Frame.Control_Scheme (Frame.f_Control command)) (Cmd.m_Code m)
      (replyBlock (len (Cmd.m_Data m))) r /\
    enciphered (S := S) s false (Cmd.m_Data m) c /\ tagged (S := S) s false r c mac.
Proof.
  intros Hd Hm Hs Es He.
  destruct (replyBlock_kind (len (Cmd.m_Data m))) as (t & -> & Ht & Hh & Henc); [apply len_nonneg|].
  destruct (sealReply_spec d (m <| Cmd.m_IsReply := true |>) seq
    (Frame.Control_Scheme (Frame.f_Control command)) s t)
    as (r & c & mac & E & Hr & Hc & Htag & _); [done|by destruct Hm|lia|done..|].
  exists r, c, mac. split; [|done]. unfold emit, encode. cbv zeta. simpl Frame.sb_Type. rewrite Hh, E.
  by rewrite decide_False by lia.
Qed.

Lemma keyset_dispatched d f key : Aes.block_ok key -> Frame.f_Code f = Cmd.KeySet ->
  dispatch d (zero_frame <| Frame.f_Code := Frame.f_Code f |>
                <| Frame.f_Data := Cmd.m_Data (Cmd.KeySetCommand key) |>) true =
    (d <| p_adoptingKey := Some key |>, ack).
Proof.
  intros Hk Hc. unfold dispatch. simpl Frame.f_Code. simpl Frame.f_Data. rewrite Hc.
  cbn [negb]. change (installKey d (Cmd.m_Data (Cmd.KeySetCommand key)) = (d <| p_adoptingKey := Some key |>, ack)).
  unfold installKey. rewrite ParseKeySet_of by done. simpl. rewrite decide_False; [done|].
  destruct Hk as [Hl _]. unfold len, Aes.BlockSize. rewrite Hl. intros [?|?]; done.
Qed.

Lemma adopting_ok d key : serving (S := S) d -> Aes.block_ok key ->
  serving (S := S) (d <| p_adoptingKey := Some key |>).
Proof. intros [] Hk. split; try done. by intros k [= <-]. Qed.

(** C29. A key install is acknowledged under the old session and takes effect
    after. To a device that takes any sequence number, and whose channel has not timed
    out, an enciphered osdp_KEYSET that verifies and carries a key is answered
    with an osdp_ACK whose code the session that carried the command produced,
    and only then does the device hold the new key, have no session, tell the
    application once, and (unless its capability report was supplied) report the
    default-key bit of the new key. *)
Theorem keyset_handover d f now s sb key d1 : pd_ok (S := S) d -> Frame.frame_ok f -> new_command d f now ->
  p_session d = Some s -> Secure.Established s = true -> secureEnabled d = true ->
  g_strict (p_cfg d) = false ->
  Frame.f_Security f = Some sb -> Frame.sb_Type sb = Secure.SCS17 -> Frame.f_Code f = Cmd.KeySet ->
  Aes.block_ok key -> open d f = (d1, Ok (Cmd.m_Data (Cmd.KeySetCommand key))) ->
  exists d' r c mac s1, Handle d f now = (d', Ok r) /\
    p_session d1 = Some s1 /\ Frame.f_Code r = Cmd.ACK /\ tagged (S := S) s1 false r c mac /\
    p_key d' = key /\ p_session d' = None /\
    p_installed d' = p_installed d ++ (if g_keyInstalled (p_cfg d) then [key] else []) /\
    (g_capabilities (p_cfg d) = [] -> Cmd.SecureChannel (p_capabilities d') =
       (g_secure (p_cfg d), g_secure (p_cfg d) && Secure.IsDefault key)) /\
    p_outputs d' = p_outputs d /\ p_pending d' = p_pending d /\ p_address d' = p_address d.
Proof.
  intros Hd Hf Hn Es He Hg Hst Hsb Ht Hc Hkey Ho. rewrite Handle_new by done.
  pose proof (nc_seq d f now Hn) as Hz. pose proof (Sequence_bound (Frame.f_Control f)) as Hseq.
  destruct (open_ok d f sb s (proj1 Hd) Es He Hf Hsb) as (s1 & r1 & Eo & Hs1 & He1 & _).
  assert (d1 = d <| p_session := Some s1 |>) as E1 by congruence. clear Eo.
  unfold fresh, answerFor. change (p_cfg (noted d now)) with (p_cfg d). rewrite Hst. cbn [andb].
  unfold answer. rewrite Hsb. unfold answerSecure.
  change (secureEnabled (noted d now)) with (secureEnabled d). rewrite Hg, Ht. cbn [negb]. cbv zeta.
  do 2 (rewrite decide_False by done). rewrite decide_True by auto.
  unfold answerEstablished, Device_Secure. change (p_session (noted d now)) with (p_session d).
  rewrite Es, He. cbn [negb]. rewrite open_noted, Ho. cbn [fst snd].
  rewrite keyset_dispatched by done. subst d1.
  set (d2 := noted _ now <| p_adoptingKey := Some key |>).
  assert (Hd2 : serving (S := S) d2).
  { destruct (sv_session d (proj1 Hd) s Es) as [_ Hsec].
    pose proof (noted_ok _ now (conj (set_session_ok d s1 (proj1 Hd) Hs1 Hsec) (proj2 Hd))) as [Hx _].
    by apply adopting_ok. }
  destruct (emit_sealed d2 f (Frame.Control_Sequence (Frame.f_Control f)) ack s1)
    as (r & c & mac & -> & Hr & _ & Htag); [done|apply ack_ok|lia|done..|].
  rewrite not_moved by apply Hd. set (d3 := cached _ _ r).
  destruct (adoptKey_fields d3 key eq_refl) as (A1 & A2 & A3 & A4 & A5 & A6 & A7).
  do 2 eexists. exists c, mac, s1. split; [done|]. destruct Hr. by split_and!.
Qed.

End with_suite.

(** ** osdp_OUT *)

(** What a payload asks for: the outputs it names and what becomes of each. *)
Fixpoint entries (data : octets) : list (Z * outputAction) :=
  match data with
  | num :: ctl :: _ :: _ :: rest => (num, outputActionFor ctl) :: entries rest
  | _ => []
  end.

(** The last entry for an output that does not leave it alone. *)
Fixpoint wanted (es : list (Z * outputAction)) (i : nat) : option bool :=
  match es with
  | [] => None
  | (num, a) :: es =>
      match wanted es i with
      | Some b => Some b
      | None =>
          if decide (num = Z.of_nat i)
          then match a with
               | outputDeenergise => Some false
               | outputEnergise => Some true
               | outputLeave | outputUnknown => None
               end
          else None
      end
  end.

Definition obeyable (n : Z) (e : Z * outputAction) : Prop := e.1 < n /\ e.2 <> outputUnknown.

#[global] Instance obeyable_dec n e : Decision (obeyable n e).
Proof. unfold obeyable. apply _. Defined.

Lemma list_quad_ind (P : octets -> Prop) :
  (forall l, (length l < 4)%nat -> P l) ->
  (forall a b c e l, P l -> P (a :: b :: c :: e :: l)) -> forall l, P l.
Proof.
  intros H0 H4 l. induction l as [l IH] using (induction_ltof1 _ (@length Z)).
  destruct l as [|a [|b [|c [|e l]]]]; try (apply H0; simpl; lia).
  apply H4, IH. unfold ltof. simpl. lia.
Qed.

Lemma outputs_check_spec n data :
  outputs_check n data = if decide (Forall (obeyable n) (entries data)) then None else Some Cmd.NAKUnsupportedInput.
Proof.
  induction data as [l Hl|a b c e l IH] using list_quad_ind.
  - destruct l as [|? [|? [|? [|? ?]]]]; simpl in Hl; try lia; by rewrite decide_True by (by apply Forall_nil).
  - cbn [outputs_check entries]. rewrite IH. unfold obeyable at 2.
    destruct (decide (a >= n)); [|destruct (decide (outputActionFor b = outputUnknown))].
    + rewrite decide_False; [done|]. intros [[] _]%Forall_cons. simpl in *. lia.
    + rewrite decide_False; [done|]. by intros [[] _]%Forall_cons.
    + destruct (decide (Forall _ (entries l))) as [H|H].
      * rewrite decide_True; [done|]. apply Forall_cons. split; [split; simpl; [lia|done]|done].
      * rewrite decide_False; [done|]. by intros [_ ?]%Forall_cons.
Qed.

Lemma insert_fmap (l : list bool) k v i :
  <[k := v]> l !! i = (fun b => if decide (k = i) then v else b) <$> l !! i.
Proof.
  case_decide; subst.
  - destruct (decide (i < length l)%nat) as [Hi|Hi].
    + rewrite list_lookup_insert_eq by done. by destruct (lookup_lt_is_Some_2 l i Hi) as [x ->].
    + by rewrite list_insert_ge, (lookup_ge_None_2 l i) by lia.
  - rewrite list_lookup_insert_ne by done. by destruct (l !! i).
Qed.

Lemma outputs_apply_spec data outputs i : octets_ok data ->
  outputs_apply outputs data !! i = (fun b => default b (wanted (entries data) i)) <$> outputs !! i.
Proof.
  revert outputs. induction data as [l Hl|a b c e l IH] using list_quad_ind; intros outputs Ho.
  - destruct l as [|? [|? [|? [|? ?]]]]; simpl in Hl; try lia; simpl; by destruct (outputs !! i).
  - cbn [outputs_apply entries wanted]. do 4 (apply Forall_cons in Ho as [? Ho]). rewrite IH by done.
    assert (Hi : Z.to_nat a = i <-> a = Z.of_nat i) by (unfold octet_ok in *; lia).
    destruct (outputActionFor b); rewrite ?insert_fmap, <- ?option_fmap_compose;
      destruct (outputs !! i); simpl; try done; f_equal; destruct (wanted (entries l) i); simpl; try done;
      repeat case_decide; tauto.
Qed.

(** osdp_OUT is all or nothing. A payload that is not whole entries is
    refused as a length error, one that names an output the device does not have
    or a control code nobody defined is refused as unsupported, and either way no
    output has moved, whatever entries came before the bad one. Otherwise it is
    acknowledged and every output is what the last entry naming it asks for, and
    as it was if none does. *)
Theorem applyOutputs_spec d data : octets_ok data ->
  let whole := len data <> 0 /\ len data mod outputEntrySize = 0 in
  let good := Forall (obeyable (len (p_outputs d))) (entries data) in
  (~ whole -> applyOutputs d data = (d, nak Cmd.NAKCommandLength)) /\
  (whole -> ~ good -> applyOutputs d data = (d, nak Cmd.NAKUnsupportedInput)) /\
  (whole -> good -> exists outputs', applyOutputs d data = (d <| p_outputs := outputs' |>, ack) /\
     forall i, outputs' !! i = (fun b => default b (wanted (entries data) i)) <$> p_outputs d !! i).
Proof.
  intros Ho. cbv zeta. unfold applyOutputs. rewrite outputs_check_spec. split_and!.
  - intros Hw. rewrite decide_True; [done|]. destruct (decide (len data = 0)); [by left|right; tauto].
  - intros [] Hg. by rewrite decide_False, decide_False by tauto.
  - intros [] Hg. rewrite decide_False, decide_True by tauto. eexists. split; [done|].
    intros i. by apply outputs_apply_spec.
Qed.

(** ** The event queue *)

(** What is not a snapshot: each one matters. *)
Definition credential (m : Cmd.Message) : Prop := Cmd.m_Code m = Cmd.Raw \/ Cmd.m_Code m = Cmd.Keypad.

#[global] Instance credential_dec m : Decision (credential m).
Proof. unfold credential. apply _. Defined.

(** A command with the number of the last one answered, which is answered again with
    the same reply. *)
Definition repeated (d : Device) (f : Frame.Frame) (now : Z) : bool :=
  let seq := Frame.Control_Sequence (Frame.f_Control f) in
  negb (bool_decide (seq = 0)) && (p_cachedValid (observe d now) && bool_decide (seq = p_cachedSeq (observe d now))).

Section events.
Context {S : Secure.CipherSuite} `{!Secure.SuiteLaws S}.

(** The state a status report is a snapshot of, and nothing of the queue. *)
Record same_contacts (d d' : Device) : Prop := mk_same_contacts {
  same_inputs : p_inputs d' = p_inputs d;
  same_tamper : p_tamper d' = p_tamper d;
  same_power : p_powerFailure d' = p_powerFailure d
}.

Lemma same_contacts_trans a b c : same_contacts a b -> same_contacts b c -> same_contacts a c.
Proof. intros [] []. split; congruence. Qed.

(** Either nothing left the queue, and the answer to a poll is no credential; or the
    command was a poll and its answer is what was at the head. *)
Definition taken (d d' : Device) (code : Z) (m : Cmd.Message) : Prop :=
  p_pending d' = p_pending d /\ (code = Cmd.Poll -> ~ credential m) \/
  code = Cmd.Poll /\ p_pending d = m :: p_pending d'.

Lemma nak_no_credential r : ~ credential (nak r).
Proof. by intros [?|?]. Qed.

Lemma dispatch_taken d f secured d' m : dispatch d f secured = (d', m) ->
  same_contacts d d' /\ taken d d' (Frame.f_Code f) m.
Proof.
  unfold dispatch, taken. case_decide as Hp.
  { unfold pollReply. destruct (p_pending d) as [|m0 rest] eqn:E; intros [= <- <-].
    - split; [done|]. left. split; [done|]. by intros _ [?|?].
    - split; [done|]. by right. }
  unfold applyOutputs, applyCommunication, installKey, delegate.
  repeat case_match; intros [= <- <-]; (split; [done|by left]).
Qed.

(** The session that has opened a command is one command further. *)
Lemma open_commits d f s d' p : p_session d = Some s -> open d f = (d', Ok p) ->
  exists mac, p_session d' = Some (Secure.commit s true mac).
Proof.
  intros Es. unfold open. case_decide; [done|]. rewrite Es. destruct (Frame.f_Security f) as [sb|]; [|done].
  destruct (Secure.Verify s _ _ true) as [s1 [e|]] eqn:Ev; [done|].
  assert (exists mac, s1 = Secure.commit s true mac) as [mac ->].
  { revert Ev. unfold Secure.Verify. case_match; [done|]. case_decide; [done|].
    destruct (Secure.suite_MAC _ _ _ _) as [mac|]; [|done]. case_match; [done|]. intros [= <-]. by exists mac. }
  case_match; intros [= <- _]; by exists mac.
Qed.

(** The channel a reply goes out on: the device's own, one command further. *)
Definition replies_on (d d' : Device) (block : option Frame.SecurityBlock) (n : Z) : Prop :=
  block = None \/ block = replyBlock n /\ exists s mac, p_session d = Some s /\
    p_session d' = Some (Secure.commit s true mac) /\ Secure.Established s = true.

Lemma answer_taken d f d' m block : serving (S := S) d -> Frame.frame_ok f ->
  answer d f = Ok (d', (m, block)) ->
  same_contacts d d' /\
  (p_pending d' = p_pending d /\ (Frame.f_Code f = Cmd.Poll -> ~ credential m) \/
   (Frame.f_Code f = Cmd.Poll /\ p_pending d = m :: p_pending d' /\ replies_on d d' block (len (Cmd.m_Data m)))).
Proof.
  intros Hd Hf. assert (Hnak : forall r c, c = Cmd.Poll -> ~ credential (nak r)) by (intros; apply nak_no_credential).
  unfold answer. destruct (Frame.f_Security f) as [sb|] eqn:Hsb.
  2:{ destruct (Device_Secure d); [intros [= <- <- <-]; split; [done|left; by eauto]|].
      destruct (dispatch d f false) as [d2 m2] eqn:Ed. intros [= <- <- <-].
      apply dispatch_taken in Ed as [Hc [Ht|[]]]; (split; [done|]); [by left|right; split_and!; [done|done|by left]]. }
  unfold answerSecure. destruct (secureEnabled d); cbn [negb].
  2:{ intros [= <- <- <-]. split; [done|left; by eauto]. }
  case_decide.
  { unfold answerChallenge. destruct (g_suite _); [|done]. destruct (g_nonce _); [|done].
    destruct (Secure.AnswerChallenge _ _ _ _) as [s1 [cc|e]]; intros [= <- <- <-]; (split; [done|left; split; [done|by intros _ [?|?]]]). }
  case_decide.
  { unfold answerCryptogram. destruct (p_session d) as [s|]; [|intros [= <- <- <-]; split; [done|left; by eauto]].
    destruct (Secure.AnswerServerCryptogram _ _) as [s1 [|e]]; intros [= <- <- <-]; (split; [done|left; split; [done|by intros _ [?|?]]]). }
  case_decide; [|intros [= <- <- <-]; split; [done|left; by eauto]].
  unfold answerEstablished. destruct (Device_Secure d) eqn:Hsec; cbn [negb];
    [|intros [= <- <- <-]; split; [done|left; by eauto]].
  unfold Device_Secure in Hsec. destruct (p_session d) as [s|] eqn:Es; [|done].
  destruct (open_ok d f sb s Hd Es Hsec Hf Hsb) as (s1 & [p|e] & Eo & Hs1 & He1 & Hp); rewrite Eo.
  2:{ intros [= <- <- <-]. split; [done|left; by eauto]. }
  destruct (open_commits d f s _ p Es Eo) as (mac & [= ->]).
  pose proof (set_session_ok d _ Hd Hs1 (proj2 (sv_session d Hd s Es))) as Hd1.
  match goal with |- context [dispatch ?a ?b true] => set (d1 := a) in *; set (g := b) end.
  destruct (pd_dispatch_ok d1 g true Hd1 (Hp p eq_refl)) as [Ho _].
  destruct (dispatch d1 g true) as [d2 m2] eqn:Ed. intros [= <- <- <-].
  pose proof (ob_session _ _ Ho) as Hses. cbn [fst] in Hses.
  apply dispatch_taken in Ed as [Hc Ht]. split; [exact (same_contacts_trans d d1 d2 (mk_same_contacts d d1 eq_refl eq_refl eq_refl) Hc)|].
  destruct Ht as [Ht|[Hpoll Ht]]; [left; exact Ht|right].
  split; [done|]. split; [done|]. right. split; [done|]. by exists s, mac.
Qed.

(** The reply is the event: in the clear, or under the block and the tag of the
    device's own session, which the command took one step further. *)
Definition carries (d : Device) (r : Frame.Frame) (m : Cmd.Message) : Prop :=
  match Frame.f_Security r with
  | None => Frame.f_Code r = Cmd.m_Code m /\ Frame.f_Data r = Cmd.m_Data m
  | Some _ => exists s mac, p_session d = Some s /\ crosses (S := S) (Secure.commit s true mac) false r m
  end.

Lemma adoptKey_taken d : same_contacts d (adoptKey d) /\ p_pending (adoptKey d) = p_pending d.
Proof.
  unfold adoptKey. destruct (p_adoptingKey d) as [key|]; [|done].
  set (d1 := dropSession _). destruct (refreshCapabilities_fields d1) as [caps ->]. by case_match.
Qed.

Lemma emit_taken d command seq m block d' r : serving (S := S) d -> msg_ok m -> 0 <= seq <= 3 ->
  answers d m block -> emit d command seq m block = (d', Ok r) ->
  same_contacts d d' /\ p_pending d' = p_pending d /\ Frame.f_Code r = Cmd.m_Code m.
Proof.
  intros Hd Hm Hs Hb E. unfold emit in E. cbv zeta in E.
  destruct (encode_spec d m seq (Frame.Control_Scheme (Frame.f_Control command)) block Hd Hm Hs Hb)
    as (s' & r' & Ee & Hr & _). rewrite Ee in E. set (d1 := d <| p_session := s' |>) in *.
  assert (H1 : same_contacts d d1 /\ p_pending d1 = p_pending d) by done. clearbody d1.
  set (d2 := if decide (seq = 0) then _ else _) in E.
  assert (H2 : same_contacts d1 d2 /\ p_pending d2 = p_pending d1) by (subst d2; by case_decide). clearbody d2.
  set (d3 := match p_adopting d2 with Some a => _ | None => _ end) in E.
  assert (H3 : same_contacts d2 d3 /\ p_pending d3 = p_pending d2) by (subst d3; by case_match). clearbody d3.
  pose proof (adoptKey_taken d3) as H4. injection E as <- <-.
  destruct H1 as [C1 P1], H2 as [C2 P2], H3 as [C3 P3], H4 as [C4 P4]. split; [|split; [congruence|apply Hr]].
  eauto using same_contacts_trans.
Qed.

Lemma emit_carries d0 d command seq m block d' r : serving (S := S) d -> msg_ok m -> 0 <= seq <= 3 ->
  replies_on d0 d block (len (Cmd.m_Data m)) ->
  emit d command seq m block = (d', Ok r) -> carries d0 r m.
Proof.
  intros Hd Hm Hs Hb E. unfold emit in E. cbv zeta in E. pose proof (sv_addr d Hd) as Ha.
  destruct Hb as [->|(-> & s0 & mac & Es0 & Es & Hest)].
  { revert E. unfold encode, Cmd.Encode. rewrite Frame.Address_Valid_lt by lia. by intros [= _ <-]. }
  assert (Hsec : Secure.Established (Secure.commit s0 true mac) = true) by done.
  destruct (replyBlock_kind (len (Cmd.m_Data m))) as (t & Ht & Hto & Hh & Henc); [apply len_nonneg|].
  rewrite Ht in E. destruct (sealReply_spec d (m <| Cmd.m_IsReply := true |>) seq
    (Frame.Control_Scheme (Frame.f_Control command)) (Secure.commit s0 true mac) t)
    as (r' & c & tag & Er & Hr & Hc & Htag & _); [done|by destruct Hm|lia|done..|].
  unfold encode in E. simpl Frame.sb_Type in E. rewrite Hh, Er in E.
  assert (r' = r) as <- by (by injection E). unfold carries. pose proof (re_block _ _ _ _ _ _ Hr) as Hb. rewrite Hb.
  exists s0, mac. split; [done|]. apply (crosses_intro _ false r' m c tag); [apply Hr| |exact Hc|exact Htag].
  clear E. rewrite Hb, <- Ht. unfold replyBlock. by case_decide.
Qed.

(** What an answer did to the queue. *)
Definition dealt (d d' : Device) (f r : Frame.Frame) : Prop :=
  p_pending d' = p_pending d /\ (Frame.f_Code f = Cmd.Poll -> Frame.f_Code r <> Cmd.Raw /\ Frame.f_Code r <> Cmd.Keypad) \/
  Frame.f_Code f = Cmd.Poll /\ exists m, p_pending d = m :: p_pending d' /\ Frame.f_Code r = Cmd.m_Code m /\ carries d r m.

Lemma fresh_taken d f seq d' r : pd_ok (S := S) d -> Frame.frame_ok f -> 0 <= seq <= 3 ->
  fresh d f seq = (d', Ok r) -> same_contacts d d' /\ dealt d d' f r.
Proof.
  intros (Hd & _) Hf Hs. unfold fresh.
  destruct (answerFor_ok d f seq Hd Hf) as (d1 & m & bl & Ea & [A1 A2 A3 A4]). rewrite Ea. intros E.
  pose proof (emit_taken d1 f seq m bl d' r A1 A3 Hs A4 E) as (Ec & Ep & Er).
  assert (Ht : same_contacts d d1 /\ (p_pending d1 = p_pending d /\ (Frame.f_Code f = Cmd.Poll -> ~ credential m) \/
   (Frame.f_Code f = Cmd.Poll /\ p_pending d = m :: p_pending d1 /\ replies_on d d1 bl (len (Cmd.m_Data m))))).
  { revert Ea. unfold answerFor. case_match; [intros [= <- <- <-]; split; [done|left; split; [done|intros _; apply nak_no_credential]]|].
    by apply answer_taken. }
  destruct Ht as [Hc Ht]. split; [by eapply same_contacts_trans|]. unfold dealt. rewrite Ep, Er.
  destruct Ht as [[Ht Hn]|(Hpoll & Ht & Hb)]; [left|right]; (split; [done|]).
  - intros Hpoll. specialize (Hn Hpoll). unfold credential in Hn. tauto.
  - exists m. split; [done|]. split; [done|]. by eapply emit_carries.
Qed.

Lemma observe_taken d now : same_contacts d (observe d now) /\ p_pending (observe d now) = p_pending d /\
  (p_session (observe d now) = p_session d \/ p_session (observe d now) = None).
Proof. unfold observe. case_match; (split; [done|]); (split; [done|]); [by right|by left]. Qed.

Lemma carries_before d d0 r m : p_session d0 = p_session d \/ p_session d0 = None -> carries d0 r m -> carries d r m.
Proof.
  unfold carries. destruct (Frame.f_Security r); [|done]. intros [->|E]; [done|]. intros (s0 & mac & Hs & _). congruence.
Qed.

Lemma Handle_taken d f now d' r : pd_ok (S := S) d -> Frame.frame_ok f -> Handle d f now = (d', Ok r) ->
  same_contacts d d' /\
  (if repeated d f now then p_pending d' = p_pending d else dealt d d' f r).
Proof.
  intros Hd Hf. unfold Handle, repeated. destruct (screen f); [done|].
  destruct (addressed d (Frame.f_Address f)); [|done]. cbn [negb]. cbv zeta.
  pose proof (Sequence_bound (Frame.f_Control f)) as Hs.
  destruct (observe_ok d now Hd) as (H0 & _). destruct (observe_taken d now) as (C0 & P0 & S0).
  generalize dependent (observe d now). intros d0 H0 C0 P0 S0.
  assert (Hfresh : forall d1, pd_ok (S := S) d1 -> same_contacts d0 d1 -> p_pending d1 = p_pending d0 ->
    p_session d1 = p_session d0 \/ p_session d1 = None ->
    fresh d1 f (Frame.Control_Sequence (Frame.f_Control f)) = (d', Ok r) -> same_contacts d d' /\ dealt d d' f r).
  { intros d1 H1 C1 P1 S1 E. destruct (fresh_taken d1 f _ d' r H1 Hf Hs E) as [C2 P2].
    split; [by eapply same_contacts_trans, same_contacts_trans|]. revert P2. unfold dealt. rewrite P1, P0.
    intros [?|(Hp & m & E1 & E2 & E3)]; [by left|right]. split; [done|]. exists m. split; [done|]. split; [done|].
    apply (carries_before d d1); [|exact E3]. destruct S1 as [->| ->]; [exact S0|by right]. }
  case_decide as Hz.
  - rewrite (bool_decide_eq_true_2 (_ = 0)) by done. apply Hfresh; [|done|done|by right]. split; [apply restart_ok, H0|apply H0].
  - rewrite (bool_decide_eq_false_2 (_ = 0)) by done. cbn [negb andb]. case_match; [|apply Hfresh; [done..|by left]].
    intros [= <- <-]. split; [done|exact P0].
Qed.

End events.

(** *** What the application does to the device *)

Inductive stimulus :=
  | Command (f : Frame.Frame) (now : Z)
  | Card (c : Cmd.CardRead)
  | Keys (k : Cmd.KeypadEntry)
  | Input (index : Z) (active : bool)
  | Tamper (active : bool)
  | Power (failure : bool).

Definition react (d : Device) (st : stimulus) : Device :=
  match st with
  | Command f now => (Handle d f now).1
  | Card c => (ReportCardRead d c).1
  | Keys k => (ReportKeypad d k).1
  | Input i b => (SetInput d i b).1
  | Tamper b => (SetTamper d b).1
  | Power b => (SetPower d b).1
  end.

(** The Go types. *)
Definition stimulus_ok (st : stimulus) : Prop :=
  match st with
  | Command f _ => Frame.frame_ok f
  | Card c => octet_ok (Cmd.cr_Reader c) /\ octet_ok (Cmd.cr_Format c) /\ octets_ok (Cmd.cr_Data c)
  | Keys k => octet_ok (Cmd.ke_Reader k) /\ octets_ok (Cmd.ke_Keys k)
  | _ => True
  end.

Section queue.
Context {S : Secure.CipherSuite} `{!Secure.SuiteLaws S}.

Lemma set_pending_ok d l : pd_ok (S := S) d -> Forall msg_ok l -> len l <= g_queue (p_cfg d) ->
  pd_ok (S := S) (d <| p_pending := l |>).
Proof. intros ([] & Ha & Hk) Hl Hq. split; [by split|done]. Qed.

Lemma queue_ok d m : pd_ok (S := S) d -> msg_ok m -> pd_ok (S := S) (queue d m).1.
Proof.
  intros Hd Hm. unfold queue. case_decide as Hq; [done|]. apply set_pending_ok; [done| |].
  - apply Forall_app. split; [apply Hd|by apply Forall_singleton].
  - unfold Pending in Hq. rewrite len_app. change (len [m]) with 1. lia.
Qed.

Lemma replace_report_spec l m l' : replace_report l m = Some l' ->
  exists a w b, l = a ++ w :: b /\ l' = a ++ m :: b /\ Cmd.m_Code w = Cmd.m_Code m /\
    Forall (fun x => Cmd.m_Code x <> Cmd.m_Code m) a.
Proof.
  revert l'. induction l as [|x l IH]; intros l'; [done|]. simpl. case_decide as Hx.
  - intros [= <-]. by exists [], x, l.
  - destruct (replace_report l m) as [l0|]; [|done]. intros [= <-].
    destruct (IH l0 eq_refl) as (a & w & b & -> & -> & Hw & Ha).
    exists (x :: a), w, b. split_and!; try done. by apply Forall_cons.
Qed.

Lemma replace_report_none l m : replace_report l m = None -> Forall (fun x => Cmd.m_Code x <> Cmd.m_Code m) l.
Proof.
  induction l as [|x l IH]; intros E; [by apply Forall_nil|]. simpl in E. case_decide; [done|].
  destruct (replace_report l m); [done|]. apply Forall_cons. auto.
Qed.

Lemma coalesce_ok d m : pd_ok (S := S) d -> msg_ok m -> pd_ok (S := S) (coalesce d m).1.
Proof.
  intros Hd Hm. unfold coalesce. destruct (replace_report _ m) as [l|] eqn:E; [|by apply queue_ok].
  pose proof (sv_pending d (proj1 Hd)) as Hp. pose proof (sv_queue d (proj1 Hd)) as Hq.
  apply replace_report_spec in E as (a & w & b & E & -> & _). unfold Pending in Hq. rewrite E in Hp, Hq.
  apply Forall_app in Hp as [? [? ?]%Forall_cons]. apply set_pending_ok; [done| |].
  - apply Forall_app. split; [done|]. by apply Forall_cons.
  - rewrite len_app, len_cons in *. lia.
Qed.

Lemma card_ok c : stimulus_ok (Card c) -> msg_ok (Cmd.mk_Message Cmd.Raw false (appendCardRead [] c)).
Proof.
  intros (? & ? & ?). split; [done|]. unfold appendCardRead.
  rewrite !app_nil_l. apply Forall_app. split; [|done]. apply Forall_app. split; [|apply put16_ok].
  by repeat (apply Forall_cons; split; [done|]); apply Forall_nil.
Qed.

Lemma keys_ok k : stimulus_ok (Keys k) -> msg_ok (Cmd.mk_Message Cmd.Keypad false (appendKeypad [] k)).
Proof.
  intros (? & ?). split; [done|]. simpl. apply Forall_cons. split; [done|]. apply Forall_cons.
  split; [apply u8_ok|]. case_decide; [by apply Forall_slice|done].
Qed.

Lemma localStatus_ok d : msg_ok (localStatus d).
Proof. split; [done|]. simpl. by destruct (p_tamper d), (p_powerFailure d); repeat (apply Forall_cons; split; [done|]); apply Forall_nil. Qed.

Lemma react_ok d st : pd_ok (S := S) d -> stimulus_ok st -> pd_ok (S := S) (react d st).
Proof.
  intros Hd. destruct st as [f now|c|k|i b|b|b]; intros Hst; unfold react.
  - pose proof (Handle_total d f now Hd Hst) as Ha. case_match.
    + destruct Ha as (d' & r & -> & Hd' & _). exact Hd'.
    + by destruct Ha as (e & -> & _).
  - unfold ReportCardRead. case_decide; [done|]. by apply queue_ok, card_ok.
  - unfold ReportKeypad. by apply queue_ok, keys_ok.
  - unfold SetInput. case_decide as Hi; [done|]. apply coalesce_ok; [|by apply contactStatus_ok].
    destruct Hd as ([] & Ha & Hk). split; [|done]. split; try done. cbn. by rewrite len_insert.
  - unfold SetTamper, setLocal. apply coalesce_ok; [|apply localStatus_ok].
    destruct Hd as ([] & Ha & Hk). split; [by split|done].
  - unfold SetPower, setLocal. apply coalesce_ok; [|apply localStatus_ok].
    destruct Hd as ([] & Ha & Hk). split; [by split|done].
Qed.

(** *** Credentials are first in, first out *)

(** The credential a stimulus put in the queue; and the credential a poll was answered
    with, and by which device: every answer to a poll that has the code of one, but for
    the repeats of an answer already given. *)
Definition accepted (d : Device) (st : stimulus) : list Cmd.Message :=
  match st with
  | Card c => match ReportCardRead d c with
              | (_, None) => [Cmd.mk_Message Cmd.Raw false (appendCardRead [] c)]
              | _ => []
              end
  | Keys k => match ReportKeypad d k with
              | (_, None) => [Cmd.mk_Message Cmd.Keypad false (appendKeypad [] k)]
              | _ => []
              end
  | _ => []
  end.

Definition answeredWith (d : Device) (st : stimulus) : list (Device * Frame.Frame) :=
  match st with
  | Command f now => match Handle d f now with
                     | (_, Ok r) =>
                         if decide (Frame.f_Code f = Cmd.Poll /\ (Frame.f_Code r = Cmd.Raw \/ Frame.f_Code r = Cmd.Keypad))
                         then if repeated d f now then [] else [(d, r)]
                         else []
                     | _ => []
                     end
  | _ => []
  end.

Fixpoint served (d : Device) (sts : list stimulus) : Device * list Cmd.Message * list (Device * Frame.Frame) :=
  match sts with
  | [] => (d, [], [])
  | st :: sts =>
      let '(d', acc, out) := served (react d st) sts in
      (d', accepted d st ++ acc, answeredWith d st ++ out)
  end.

Lemma queue_credentials d m : (queue d m).2 = None ->
  p_pending (queue d m).1 = p_pending d ++ [m].
Proof. unfold queue. by case_decide. Qed.

Lemma queue_refused d m e : (queue d m).2 = Some e -> (queue d m).1 = d.
Proof. unfold queue. by case_decide. Qed.

(** Coalescing leaves every other kind of event where it was. *)
Lemma coalesce_filter (P : Cmd.Message -> Prop) `{!forall x, Decision (P x)} d m :
  (forall x, Cmd.m_Code x = Cmd.m_Code m -> ~ P x) ->
  filter P (p_pending (coalesce d m).1) = filter P (p_pending d).
Proof.
  intros Hm. unfold coalesce. destruct (replace_report _ m) as [l|] eqn:E.
  - apply replace_report_spec in E as (a & w & b & -> & -> & Hw & _). cbn [fst p_pending update].
    by rewrite !filter_app, !filter_cons, !decide_False by auto.
  - unfold queue. case_decide; [done|]. cbn [fst p_pending update].
    by rewrite filter_app, filter_cons, decide_False, app_nil_r by auto.
Qed.

Lemma coalesce_credentials d m : ~ credential m ->
  filter credential (p_pending (coalesce d m).1) = filter credential (p_pending d).
Proof. intros Hm. apply coalesce_filter. unfold credential in *. by intros x ->. Qed.

(** What the polls carried. *)
Definition carried_by (x : Device * Frame.Frame) (m : Cmd.Message) : Prop := credential m /\ carries (S := S) x.1 x.2 m.

Lemma poll_credentials d f d' r : dealt (S := S) d d' f r ->
  exists ms, Forall2 carried_by (if decide (Frame.f_Code f = Cmd.Poll /\ (Frame.f_Code r = Cmd.Raw \/ Frame.f_Code r = Cmd.Keypad))
                                 then [(d, r)] else []) ms /\
    filter credential (p_pending d) = ms ++ filter credential (p_pending d').
Proof.
  intros [[-> Hn]|(Hp & m & -> & Hc & Hm)].
  - exists []. case_decide as Hx; [exfalso; tauto|done].
  - rewrite filter_cons, Hc. destruct (decide (credential m)) as [Hcr|Hcr].
    + rewrite decide_True by done. exists [m]. split; [|done]. apply Forall2_cons_2; [by split|by apply Forall2_nil_2].
    + rewrite decide_False by (intros [_ X]; by apply Hcr). by exists [].
Qed.

Lemma step_credentials d st : pd_ok (S := S) d -> stimulus_ok st ->
  exists ms, Forall2 carried_by (answeredWith d st) ms /\
    filter credential (p_pending d) ++ accepted d st = ms ++ filter credential (p_pending (react d st)).
Proof.
  intros Hd Hst. destruct st as [f now|c|k|i b|b|b]; cbn [answeredWith accepted react].
  - rewrite app_nil_r. destruct (Handle d f now) as [d' [r|e]] eqn:E.
    + cbn [fst]. destruct (Handle_taken d f now d' r Hd Hst E) as [_ Hx]. destruct (repeated d f now).
      * exists []. split; [by case_decide|]. by rewrite Hx.
      * by apply poll_credentials.
    + assert (d' = d) as ->; [|by exists []].
      pose proof (Handle_total d f now Hd Hst) as Ha. case_match.
      * destruct Ha as (? & ? & Ha & _). congruence.
      * destruct Ha as (? & Ha & _). congruence.
  - exists []. split; [done|]. unfold ReportCardRead. case_decide; [by rewrite app_nil_r|].
    set (m := Cmd.mk_Message _ _ _). pose proof (queue_credentials d m) as Hq. pose proof (queue_refused d m) as Hr.
    destruct (queue d m) as [d1 [e|]]; cbn [fst snd] in *.
    + by rewrite (Hr e eq_refl), app_nil_r.
    + rewrite (Hq eq_refl), filter_app. by rewrite (filter_cons _ m), decide_True by (by left).
  - exists []. split; [done|]. unfold ReportKeypad.
    set (m := Cmd.mk_Message _ _ _). pose proof (queue_credentials d m) as Hq. pose proof (queue_refused d m) as Hr.
    destruct (queue d m) as [d1 [e|]]; cbn [fst snd] in *.
    + by rewrite (Hr e eq_refl), app_nil_r.
    + rewrite (Hq eq_refl), filter_app. by rewrite (filter_cons _ m), decide_True by (by right).
  - exists []. split; [done|]. rewrite app_nil_r. unfold SetInput. case_decide; [done|].
    rewrite coalesce_credentials; [done|by intros []].
  - exists []. split; [done|]. rewrite app_nil_r. unfold SetTamper, setLocal.
    rewrite coalesce_credentials; [done|by intros []].
  - exists []. split; [done|]. rewrite app_nil_r. unfold SetPower, setLocal.
    rewrite coalesce_credentials; [done|by intros []].
Qed.

(** C9. No credential is lost, invented, duplicated or reordered by the device.
    From an empty queue, whatever commands, status changes and reports arrive in whatever order, the
    card reads and keypad entries the device accepted are exactly those that its
    answers to polls carried, in order, each once, followed by those still waiting; a
    snapshot coalesced past them displaces none. Every answer to a poll that has the
    code of a credential is counted, except that a poll with the number of the last
    command is answered again with the same reply; each carries its credential in the
    clear, or enciphered and tagged on the device's own session. *)
Theorem credentials_fifo d sts d' acc out : pd_ok (S := S) d -> Forall stimulus_ok sts ->
  p_pending d = [] -> served d sts = (d', acc, out) ->
  pd_ok (S := S) d' /\ exists ms,
    Forall2 (fun x m => credential m /\ carries (S := S) x.1 x.2 m) out ms /\
    acc = ms ++ filter credential (p_pending d').
Proof.
  intros Hd Hsts Hp. assert (H0 : filter credential (p_pending d) = []) by (by rewrite Hp). clear Hp.
  change acc with ([] ++ acc) at 2. rewrite <- H0. clear H0.
  revert d acc out Hd. induction Hsts as [|st sts Hst Hsts IH]; intros d acc out Hd; cbn [served].
  - intros [= <- <- <-]. split; [done|]. exists []. split; [done|]. by rewrite app_nil_r.
  - destruct (served (react d st) sts) as [[d2 acc2] out2] eqn:E. intros [= <- <- <-].
    destruct (step_credentials d st Hd Hst) as (ms1 & Hm1 & E1).
    destruct (IH _ _ _ (react_ok d st Hd Hst) E) as (Hd2 & ms2 & Hm2 & E2). split; [done|].
    exists (ms1 ++ ms2). split; [by apply Forall2_app|].
    by rewrite app_assoc, E1, <- app_assoc, E2, app_assoc.
Qed.

(** *** Snapshots are current *)

(** At most one report with code [c] waits, and it is [x]. *)
Definition snap (c : Z) (x : Cmd.Message) (l : list Cmd.Message) : Prop :=
  filter (fun m => Cmd.m_Code m = c) l = [] \/ filter (fun m => Cmd.m_Code m = c) l = [x].

Lemma snap_tail c x m l : snap c x (m :: l) -> snap c x l.
Proof. unfold snap. rewrite filter_cons. case_decide; [|done]. intros [?|[= _ ->]]; [done|by left]. Qed.

Lemma filter_code_none c l : Forall (fun x => Cmd.m_Code x <> c) l -> filter (fun m => Cmd.m_Code m = c) l = [].
Proof. induction 1 as [|y l Hy Hl IH]; [done|]. by rewrite filter_cons, decide_False. Qed.

Lemma snap_coalesce c d m x : Cmd.m_Code m = c -> snap c x (p_pending d) ->
  snap c m (p_pending (coalesce d m).1).
Proof.
  intros <-. unfold snap, coalesce. destruct (replace_report _ m) as [l|] eqn:E.
  - apply replace_report_spec in E as (a & w & b & -> & -> & Hw & Ha). cbn [fst p_pending update].
    rewrite !filter_app, !filter_cons, (filter_code_none _ a Ha), !decide_True by done. simpl.
    intros [?|[= _ ->]]; [done|by right].
  - intros _. apply replace_report_none, filter_code_none in E. unfold queue. case_decide; cbn [fst p_pending update].
    + by left.
    + rewrite filter_app, filter_cons, E, decide_True by done. by right.
Qed.

Lemma snap_coalesce_other c d m x : Cmd.m_Code m <> c -> snap c x (p_pending d) ->
  snap c x (p_pending (coalesce d m).1).
Proof. intros Hc. unfold snap. rewrite coalesce_filter; [done|]. by intros y ->. Qed.

Definition snapshots (d : Device) : Prop :=
  snap Cmd.IStatR (contactStatus Cmd.IStatR (p_inputs d)) (p_pending d) /\
  snap Cmd.LStatR (localStatus d) (p_pending d).

Lemma snapshots_queue d m : Cmd.m_Code m <> Cmd.IStatR -> Cmd.m_Code m <> Cmd.LStatR ->
  snapshots d -> snapshots (queue d m).1.
Proof.
  intros H1 H2. unfold queue. case_decide; [done|]. unfold snapshots, snap.
  change (localStatus (d <| p_pending := p_pending d ++ [m] |>)) with (localStatus d).
  cbn [fst p_pending p_inputs update]. rewrite !filter_app, !filter_cons, !decide_False by done. by rewrite !app_nil_r.
Qed.

Lemma snapshots_taken d d' : same_contacts d d' ->
  p_pending d' = p_pending d \/ (exists m, p_pending d = m :: p_pending d') -> snapshots d -> snapshots d'.
Proof.
  intros [Hi Ht Hp]. unfold snapshots, localStatus. rewrite Hi, Ht, Hp. intros [->|[m ->]]; [done|].
  intros [H1%snap_tail H2%snap_tail]. done.
Qed.

Lemma coalesce_same d m : same_contacts d (coalesce d m).1.
Proof. unfold coalesce, queue. by repeat case_match. Qed.

Lemma snapshots_setLocal d x : snap Cmd.IStatR (contactStatus Cmd.IStatR (p_inputs d)) (p_pending d) ->
  snap Cmd.LStatR x (p_pending d) -> snapshots (setLocal d).1.
Proof.
  intros H1 H2. unfold setLocal. destruct (coalesce_same d (localStatus d)) as [Ei Et Ep]. split.
  - rewrite Ei. by apply snap_coalesce_other.
  - assert (localStatus (coalesce d (localStatus d)).1 = localStatus d) as ->
      by (unfold localStatus at 1; by rewrite Et, Ep).
    by eapply snap_coalesce.
Qed.

Lemma snapshots_step d st : pd_ok (S := S) d -> stimulus_ok st -> snapshots d -> snapshots (react d st).
Proof.
  intros Hd Hst Hs. destruct st as [f now|c|k|i b|b|b]; cbn [react].
  - destruct (Handle d f now) as [d' [r|e]] eqn:E; cbn [fst].
    + destruct (Handle_taken d f now d' r Hd Hst E) as [Hc Hp]. eapply snapshots_taken; [exact Hc| |exact Hs].
      destruct (repeated d f now); [by left|]. destruct Hp as [[? _]|(_ & m & ? & _)]; eauto.
    + pose proof (Handle_total d f now Hd Hst) as Ha. case_match; destruct Ha as (? & Ha).
      * destruct Ha as (? & Ha & _). congruence.
      * destruct Ha as [Ha _]. rewrite E in Ha. by injection Ha as -> _.
  - unfold ReportCardRead. case_decide; [done|]. by apply snapshots_queue.
  - by apply snapshots_queue.
  - unfold SetInput. case_decide; [done|]. set (d1 := d <| p_inputs := _ |>).
    destruct Hs as [H1 H2]. destruct (coalesce_same d1 (contactStatus Cmd.IStatR (p_inputs d1))) as [Ei Et Ep].
    split; unfold localStatus; rewrite ?Ei, ?Et, ?Ep.
    + by eapply snap_coalesce.
    + by apply snap_coalesce_other.
  - destruct Hs. by eapply snapshots_setLocal.
  - destruct Hs. by eapply snapshots_setLocal.
Qed.

(** A waiting status report is never stale. After any sequence of commands,
    reports and changes, at most one input report and one local report wait, and
    each says what the contacts, the tamper and the supply are now, not what they
    were when it was queued; a change that found the queue full has left no older
    report behind. *)
Theorem snapshots_current d sts : pd_ok (S := S) d -> Forall stimulus_ok sts -> p_pending d = [] ->
  let d' := fold_left react sts d in pd_ok (S := S) d' /\ snapshots d'.
Proof.
  intros Hd Hsts Hp. assert (Hs : snapshots d) by (split; left; by rewrite Hp). clear Hp.
  revert d Hd Hs. induction Hsts as [|st sts Hst Hsts IH]; intros d Hd Hs; cbn [fold_left]; [done|].
  apply IH; [by apply react_ok|by apply snapshots_step].
Qed.

End queue.

(** ** What a reader reports is what a panel parses *)

Lemma ParseCardRead_append c : 0 <= Cmd.cr_BitCount c < 65536 ->
  (Cmd.cr_BitCount c + 7) / 8 <= len (Cmd.cr_Data c) -> Cmd.ParseCardRead (appendCardRead [] c) = Ok c.
Proof.
  intros Hb Hl. destruct c as [rd fm bits data]. cbn [Cmd.cr_BitCount Cmd.cr_Data] in *.
  unfold Cmd.ParseCardRead, appendCardRead, put16. cbn [app Cmd.cr_Reader Cmd.cr_Format Cmd.cr_BitCount Cmd.cr_Data].
  rewrite !len_cons, decide_False by (pose proof (len_nonneg data); lia).
  change (idx (rd :: fm :: u8 bits :: u8 (Z.shiftr bits 8) :: data) 0) with rd.
  change (idx (rd :: fm :: u8 bits :: u8 (Z.shiftr bits 8) :: data) 1) with fm.
  change (idx (rd :: fm :: u8 bits :: u8 (Z.shiftr bits 8) :: data) 2) with (u8 bits).
  change (idx (rd :: fm :: u8 bits :: u8 (Z.shiftr bits 8) :: data) 3) with (u8 (Z.shiftr bits 8)).
  rewrite le16_put by done.
  replace (slice _ 4 _) with data.
  2:{ symmetry. apply (slice_end [rd; fm; u8 bits; u8 (Z.shiftr bits 8)] data); [done|].
      rewrite len_app. change (len [rd; fm; u8 bits; u8 (Z.shiftr bits 8)]) with 4. lia. }
  cbn [Cmd.cr_BitCount Cmd.cr_Data]. by rewrite decide_False by lia.
Qed.

Lemma ParseKeypad_append k : len (Cmd.ke_Keys k) <= 255 -> Cmd.ParseKeypadEntry (appendKeypad [] k) = Ok k.
Proof.
  intros Hl. destruct k as [rd keys]. cbn [Cmd.ke_Keys] in Hl. pose proof (len_nonneg keys).
  unfold Cmd.ParseKeypadEntry, appendKeypad. cbn [app Cmd.ke_Reader Cmd.ke_Keys].
  rewrite (decide_False (P := len keys > 255)) by lia. rewrite !len_cons, decide_False by lia.
  change (idx (rd :: u8 (len keys) :: keys) 0) with rd.
  change (idx (rd :: u8 (len keys) :: keys) 1) with (u8 (len keys)). rewrite u8_id by (unfold octet_ok; lia).
  assert (Hs : forall j, j = 2 + len keys -> slice (rd :: len keys :: keys) 2 j = keys).
  { intros j ->. apply (slice_end [rd; len keys] keys); [done|]. by rewrite len_app. }
  rewrite !Hs by lia. by rewrite decide_False by lia.
Qed.

(** A count of keys is one octet: the rest are left out. *)
Lemma ParseKeypad_truncated k : Cmd.ParseKeypadEntry (appendKeypad [] k) =
  Ok (Cmd.mk_KeypadEntry (Cmd.ke_Reader k) (take 255 (Cmd.ke_Keys k))).
Proof.
  rewrite <- (ParseKeypad_append (Cmd.mk_KeypadEntry (Cmd.ke_Reader k) (take 255 (Cmd.ke_Keys k)))).
  2:{ cbn [Cmd.ke_Keys]. rewrite len_take. lia. }
  f_equal. destruct k as [rd keys]. unfold appendKeypad. cbn [Cmd.ke_Keys Cmd.ke_Reader].
  rewrite (decide_False (P := len (take 255 keys) > 255)) by (rewrite len_take; lia).
  case_decide as Hk; [done|]. by rewrite take_ge by (unfold len in Hk; lia).
Qed.

Lemma ParseDeviceID_append id : identity_ok id -> Cmd.ParseDeviceID (appendDeviceID [] id) = Ok id.
Proof.
  intros [[Hv _] Hm Hn Hs [Hf _]]. destruct id as [v m n s f]. cbn in Hv, Hf, Hs.
  destruct v as [|a [|b [|c [|]]]]; try done. destruct f as [|x [|y [|z [|]]]]; try done.
  change (Ok (Cmd.mk_DeviceID [a; b; c] m n (le32 (u8 s) (u8 (Z.shiftr s 8)) (u8 (Z.shiftr s 16)) (u8 (Z.shiftr s 24)))
    [x; y; z]) = Ok (Cmd.mk_DeviceID [a; b; c] m n s [x; y; z]) :> result Cmd.DeviceID).
  by rewrite le32_put.
Qed.

Lemma boolOctet_neq b : bool_decide (boolOctet b <> 0) = b.
Proof. by destruct b. Qed.

(** A panel reads back what a reader reported. A card read whose payload
    covers its bit count is queued (when there is room) under octets that parse to
    the same reader, format, bit count and data, and one that does not is refused
    and changes nothing; a keypad entry parses to its first 255 keys; the
    identity, the inputs and the local status parse to themselves. *)
Theorem reports_parse d c k id : 0 <= Cmd.cr_BitCount c < 65536 -> identity_ok id ->
  (if decide (len (Cmd.cr_Data c) < (Cmd.cr_BitCount c + 7) / 8)
   then ReportCardRead d c = (d, Some (EPd ErrShortCredential))
   else Pending d < g_queue (p_cfg d) -> exists m,
     ReportCardRead d c = (d <| p_pending := p_pending d ++ [m] |>, None) /\
     Cmd.m_Code m = Cmd.Raw /\ Cmd.ParseCardRead (Cmd.m_Data m) = Ok c) /\
  (Pending d < g_queue (p_cfg d) -> exists m,
     ReportKeypad d k = (d <| p_pending := p_pending d ++ [m] |>, None) /\
     Cmd.m_Code m = Cmd.Keypad /\ Cmd.ParseKeypadEntry (Cmd.m_Data m) =
       Ok (Cmd.mk_KeypadEntry (Cmd.ke_Reader k) (take 255 (Cmd.ke_Keys k)))) /\
  Cmd.ParseDeviceID (appendDeviceID [] id) = Ok id /\
  Cmd.ParseInputStatus (Cmd.m_Data (contactStatus Cmd.IStatR (p_inputs d))) =
    Ok (imap (fun i b => Cmd.mk_StatusChange Cmd.StatusInput (Z.of_nat i) b) (p_inputs d)) /\
  Cmd.ParseLocalStatus (Cmd.m_Data (localStatus d)) =
    Ok [Cmd.mk_StatusChange Cmd.StatusTamper 0 (p_tamper d); Cmd.mk_StatusChange Cmd.StatusPower 0 (p_powerFailure d)].
Proof.
  intros Hb Hid. split_and!.
  - unfold ReportCardRead. cbv zeta. case_decide as Hn; [done|]. intros Hq. unfold queue.
    rewrite decide_False by lia. eexists. split; [done|]. split; [done|]. apply ParseCardRead_append; lia.
  - intros Hq. unfold ReportKeypad, queue. rewrite decide_False by lia. eexists. split; [done|]. split; [done|].
    apply ParseKeypad_truncated.
  - by apply ParseDeviceID_append.
  - unfold Cmd.ParseInputStatus, Cmd.parseContacts, contactStatus. cbn [Cmd.m_Data]. f_equal.
    rewrite imap_fmap. apply imap_ext. intros i b _. unfold compose. by rewrite boolOctet_neq.
  - unfold Cmd.ParseLocalStatus, localStatus. cbn [Cmd.m_Data]. rewrite decide_False by done.
    change (idx [boolOctet (p_tamper d); boolOctet (p_powerFailure d)] 0) with (boolOctet (p_tamper d)).
    change (idx [boolOctet (p_tamper d); boolOctet (p_powerFailure d)] 1) with (boolOctet (p_powerFailure d)).
    by rewrite !boolOctet_neq.
Qed.

(** ** Witnesses *)

Abbreviation AES := Secure.AES128.suite (only parsing).

(** A card waiting at the reader. *)
Definition kat_card : Cmd.CardRead := Cmd.mk_CardRead 0 1 26 [0xDE; 0xAD; 0xBE; 0xC0].
Definition kat_credential : Cmd.Message := Cmd.mk_Message Cmd.Raw false (appendCardRead [] kat_card).

(** The reader of PdFacts.v with a card waiting, in the clear and with its
    channel up. *)
Definition kat_waiting : Device := kat_pd <| p_pending := [kat_credential] |>.
Definition kat_channel : Device := kat_waiting <| p_session := Some Secure.pd_established |>.

Lemma kat_queue : g_queue (p_cfg kat_pd) = 8.
Proof. by vm_compute. Qed.

Lemma kat_secure : g_secure (p_cfg kat_waiting) = true.
Proof. by vm_compute. Qed.

Lemma kat_card_ok : stimulus_ok (Card kat_card).
Proof. split_and!; [done|done|octets_dec]. Qed.

Lemma kat_waiting_ok : pd_ok (S := AES) kat_waiting.
Proof.
  apply set_pending_ok; [exact kat_pd_ok| |].
  - apply Forall_singleton. exact (card_ok kat_card kat_card_ok).
  - rewrite kat_queue. done.
Qed.

Lemma kat_session_of : session_of (S := AES) Secure.pd_established.
Proof. destruct Secure.pd_established_kept as (Hok & HS & _). by split. Qed.

Lemma with_session d s : pd_ok (S := AES) d -> session_of (S := AES) s -> g_secure (p_cfg d) = true ->
  pd_ok (S := AES) (d <| p_session := Some s |>).
Proof. intros (Hd & Ha & Hk) Hs Hg. split; [by apply set_session_ok|done]. Qed.

Lemma kat_channel_ok : pd_ok (S := AES) kat_channel.
Proof. exact (with_session kat_waiting Secure.pd_established kat_waiting_ok kat_session_of kat_secure). Qed.

(** The panel's end of the channel: an enciphered command. *)
Definition kat_commands (seq code : Z) (payload : octets) : Frame.Frame :=
  let cp := Secure.kat_session Secure.RoleCP in
  let blank := Frame.mk_Frame false false 1 (Frame.NewControl seq Frame.SchemeCRC16 true)
    (Some (SB Secure.SCS17)) code [] 0 in
  match Secure.Seal cp payload true with
  | Err _ => blank
  | Ok c =>
      match (Secure.Authenticate cp (Frame.body_before (blank <| Frame.f_Data := c ++ replicate 4 0 |>) 4) true).2 with
      | Err _ => blank
      | Ok tag => Frame.Seal (blank <| Frame.f_Data := c ++ tag |>)
      end
  end.

Definition kat_newkey : list Z := map Z.of_nat (seq 1 16).
Definition kat_keyset : Frame.Frame := kat_commands 2 Cmd.KeySet (Cmd.m_Data (Cmd.KeySetCommand kat_newkey)).

Lemma kat_keyset_ok : Frame.frame_ok kat_keyset.
Proof. apply Frame.frame_check_ok. by vm_compute. Qed.

Lemma kat_newkey_ok : Aes.block_ok kat_newkey.
Proof. by split; [|octets_dec]. Qed.

Lemma kat_new f : screen f = None -> Frame.f_Address f = 1 -> Frame.Control_Sequence (Frame.f_Control f) = 2 ->
  new_command kat_channel f 0.
Proof. intros H1 H2 H3. split; [done|by rewrite H2|done|by rewrite H3|done]. Qed.

(** What the reader makes of it. *)
Definition kat_opened : Device := (open kat_channel kat_keyset).1.

Lemma kat_open : open kat_channel kat_keyset = (kat_opened, Ok (Cmd.m_Data (Cmd.KeySetCommand kat_newkey))).
Proof.
  assert (Hr : (open kat_channel kat_keyset).2 = Ok (Cmd.m_Data (Cmd.KeySetCommand kat_newkey)))
    by (vm_compute; reflexivity).
  unfold kat_opened. destruct (open kat_channel kat_keyset) as [d r]. cbn [fst snd] in *. by rewrite Hr.
Qed.

Example keyset_handover_witness : exists d' r c mac s1, Handle kat_channel kat_keyset 0 = (d', Ok r) /\
  p_session kat_opened = Some s1 /\ Frame.f_Code r = Cmd.ACK /\ tagged (S := AES) s1 false r c mac /\
  p_key d' = kat_newkey /\ p_session d' = None /\
  p_installed d' = p_installed kat_channel ++ (if g_keyInstalled (p_cfg kat_channel) then [kat_newkey] else []) /\
  (g_capabilities (p_cfg kat_channel) = [] -> Cmd.SecureChannel (p_capabilities d') =
     (g_secure (p_cfg kat_channel), g_secure (p_cfg kat_channel) && Secure.IsDefault kat_newkey)) /\
  p_outputs d' = p_outputs kat_channel /\ p_pending d' = p_pending kat_channel /\
  p_address d' = p_address kat_channel.
Proof.
  apply (keyset_handover kat_channel kat_keyset 0 Secure.pd_established (SB Secure.SCS17)
    kat_newkey kat_opened kat_channel_ok kat_keyset_ok).
  - apply kat_new; by vm_compute.
  - reflexivity.
  - by vm_compute.
  - by vm_compute.
  - by vm_compute.
  - by vm_compute.
  - reflexivity.
  - by vm_compute.
  - exact kat_newkey_ok.
  - exact kat_open.
Defined.

(** A plaintext osdp_OUT on the channel, and a poll at sequence zero. *)
Definition kat_poll0 : Frame.Frame :=
  Frame.Seal (Frame.mk_Frame false false 1 (Frame.NewControl 0 Frame.SchemeCRC16 false) None Cmd.Poll [] 0).

Example channel_protects_witness : exists d' r, Handle kat_channel kat_out 0 = (d', Ok r) /\
  ((unmoved kat_channel d' /\ (Frame.f_Code r = Cmd.NAK \/ Frame.f_Code r = Cmd.CCrypt)) \/
   authentic (S := AES) Secure.pd_established kat_out /\
   exists sb, Frame.f_Security kat_out = Some sb /\
    (Frame.sb_Type sb = Secure.SCS15 \/ Frame.sb_Type sb = Secure.SCS17) /\
    (Frame.f_Security r = Some (SB Secure.SCS16) \/ Frame.f_Security r = Some (SB Secure.SCS18))).
Proof.
  destruct (Handle_view (fun _ r => Frame.f_Code r) (Handle kat_channel kat_out 0) Cmd.NAK) as (d' & r & E & _);
    [vm_compute; reflexivity|].
  exists d', r. split; [exact E|].
  apply (channel_protects kat_channel kat_out 0 d' r Secure.pd_established kat_channel_ok kat_out_ok).
  - apply kat_new; by vm_compute.
  - reflexivity.
  - by vm_compute.
  - exact E.
Defined.

Example restart_downgrades_witness : exists d' r, Handle kat_channel kat_poll0 0 = (d', Ok r) /\
  Frame.f_Security r = None /\ Frame.f_Code r = Cmd.m_Code kat_credential /\
  Frame.f_Data r = Cmd.m_Data kat_credential /\ p_pending d' = [].
Proof.
  apply (restart_downgrades kat_channel kat_poll0 0 Secure.pd_established kat_credential []
    kat_channel_ok); [reflexivity|by vm_compute|reflexivity|by vm_compute..].
Defined.

(** Two entries, the second for an output that is not there. *)
Definition kat_entries : octets :=
  [0; Cmd.OutputOnAbort; 0; 0; 7; Cmd.OutputOnAbort; 0; 0].

Example applyOutputs_spec_witness : octets_ok kat_entries /\
  applyOutputs kat_pd kat_entries = (kat_pd, nak Cmd.NAKUnsupportedInput).
Proof.
  split; [octets_dec|].
  apply (applyOutputs_spec kat_pd kat_entries); [octets_dec|split; [by vm_compute|by vm_compute]|].
  intros Hf. assert (Hd : bool_decide (Forall (obeyable 2) (entries kat_entries)) = false) by (vm_compute; reflexivity).
  apply bool_decide_eq_false in Hd. apply Hd. assert (Hn : len (p_outputs kat_pd) = 2) by (by vm_compute).
  rewrite Hn in Hf. exact Hf.
Defined.

(** A card, a contact, the poll that takes the card, and the contact back. *)
Definition kat_stimuli : list stimulus :=
  [Card kat_card; Input 0 true; Command kat_poll2 0; Input 0 false].

Lemma kat_stimuli_ok : Forall stimulus_ok kat_stimuli.
Proof.
  repeat (apply Forall_cons; split; [first [exact kat_card_ok|apply Frame.frame_check_ok; by vm_compute|done]|]).
  by apply Forall_nil.
Qed.

Lemma kat_idle : p_pending kat_pd = [].
Proof. by vm_compute. Qed.

Example credentials_fifo_witness : exists d' acc out, served kat_pd kat_stimuli = (d', acc, out) /\
  acc = [kat_credential] /\ pd_ok (S := AES) d' /\
  exists ms, Forall2 (fun x m => credential m /\ carries (S := AES) x.1 x.2 m) out ms /\
    acc = ms ++ filter credential (p_pending d').
Proof.
  destruct (served kat_pd kat_stimuli) as [[d' acc] out] eqn:E. exists d', acc, out.
  assert (Hacc : (served kat_pd kat_stimuli).1.2 = [kat_credential]) by (vm_compute; reflexivity).
  rewrite E in Hacc. split; [reflexivity|]. split; [exact Hacc|].
  exact (credentials_fifo kat_pd kat_stimuli d' acc out kat_pd_ok kat_stimuli_ok kat_idle E).
Defined.

Example snapshots_current_witness : pd_ok (S := AES) (fold_left react kat_stimuli kat_pd) /\
  snapshots (fold_left react kat_stimuli kat_pd).
Proof. exact (snapshots_current kat_pd kat_stimuli kat_pd_ok kat_stimuli_ok kat_idle). Defined.

Example reports_parse_witness : exists m,
  ReportCardRead kat_pd kat_card = (kat_pd <| p_pending := p_pending kat_pd ++ [m] |>, None) /\
  Cmd.m_Code m = Cmd.Raw /\ Cmd.ParseCardRead (Cmd.m_Data m) = Ok kat_card.
Proof.
  destruct (reports_parse kat_pd kat_card (Cmd.mk_KeypadEntry 0 [1; 2; 3; 4]) zero_identity) as [Hr _].
  - by vm_compute.
  - by split; simpl; try (split; [done|octets_dec]).
  - rewrite decide_False in Hr by (by vm_compute). apply Hr. by vm_compute.
Defined.
