(* ===== verification/Reader.v ===== *)
(** * From octets to frames: internal/panel/reader.go and internal/pd/scan.go

    Both ends assemble frames from a byte-oriented port into one buffer that is
    allocated once. [reader] is panel's struct and [scanner] of pd has the same
    fields; [next] and [scan_next] are the two loops, on fuel. The port is a
    parameter: the [i]th call of [Read], given the room left, returns octets or an
    error, and all that is assumed of it is what transport.Port documents, that it
    returns no more than it was given room for.

    [Decode] aliases: the payload of the frame it returns is a window of the
    buffer, and both loops move the rest of the buffer to its front before they
    return that frame. [reread] is a frame seen through those windows, so the
    frame [next] returns here is what its caller finds in it. *)

From S2P Require Import Prelude Errors.
From S2P Require Frame.
Import Frame (Frame, Frame_zero, Decode, WireLen).

Definition maxFrame : Z := 1536.

Record reader := mk_reader {
  r_buf : octets;
  r_n : Z;
  r_reads : nat
}.

#[global] Instance reader_eta : Eta reader := fun r => mk_reader (r_buf r) (r_n r) (r_reads r).

Definition newReader : reader := mk_reader (replicate (Z.to_nat maxFrame) 0) 0 0.

(** [copy(buf, src)]: the front of the buffer is overwritten. *)
Definition copy (buf src : octets) : octets := src ++ drop (length src) buf.

Definition consume (r : reader) (n : Z) : reader :=
  if decide (n <= 0 \/ n > r_n r) then r <| r_n := 0 |>
  else
    let rest := slice (r_buf r) n (r_n r) in
    r <| r_buf := copy (r_buf r) rest |> <| r_n := len rest |>.

(** The loop of [resync]: the first index from [i] on where a frame may start. *)
Fixpoint find_start (i : Z) (l : octets) : option Z :=
  match l with
  | [] => None
  | b :: l => if decide (b = Frame.SOM \/ b = Frame.Mark) then Some i else find_start (i + 1) l
  end.

Definition resync (r : reader) : reader * bool :=
  match find_start 1 (slice (r_buf r) 1 (r_n r)) with
  | Some i => (consume r i, true)
  | None => (r <| r_n := 0 |>, false)
  end.

(** Where in the buffer a decoded frame's payload and its security block's data
    are, and the frame read through those windows. *)
Definition dataOffset (f : Frame) : Z :=
  WireLen f - Frame.Scheme_Size (Frame.Control_Scheme (Frame.f_Control f)) - len (Frame.f_Data f).
Definition blockOffset (f : Frame) : Z :=
  (if Frame.f_HasMark f then 1 else 0) + Frame.HeaderSize + 2.

Definition reread (buf : octets) (f : Frame) : Frame :=
  f <| Frame.f_Data := slice buf (dataOffset f) (dataOffset f + len (Frame.f_Data f)) |>
    <| Frame.f_Security := (fun sb => Frame.mk_SecurityBlock (Frame.sb_Type sb)
         (slice buf (blockOffset f) (blockOffset f + len (Frame.sb_Data sb)))) <$> Frame.f_Security f |>.

Definition filled (r : reader) (bs : octets) : reader :=
  r <| r_buf := slice (r_buf r) 0 (r_n r) ++ copy (slice (r_buf r) (r_n r) (len (r_buf r))) bs |>
    <| r_n := r_n r + len bs |>.

Section port.
Variable Read : nat -> Z -> result octets.

(** The Read of either loop: an error ends it, octets extend the buffer. *)
Definition fetch (r : reader) : reader * option error :=
  let room := len (r_buf r) - r_n r in
  let r' := r <| r_reads := S (r_reads r) |> in
  match Read (r_reads r) room with
  | Err e => (r', Some e)
  | Ok bs => if decide (len bs = 0) then (r', Some (ETransport ErrTimeout)) else (filled r' bs, None)
  end.

(** The body of panel's [for] loop in [reader.next]: what it returns, or nothing
    when it goes round again. *)
Definition next_read (r : reader) : reader * option (Frame * option error) :=
  if decide (r_n r = len (r_buf r))
  then (r <| r_n := 0 |>, Some (Frame_zero, Some (EFrame ErrLengthMismatch)))
  else match fetch r with
       | (r, Some e) => (r, Some (Frame_zero, Some e))
       | (r, None) => (r, None)
       end.

Definition next_turn (r : reader) : reader * option (Frame * option error) :=
  if decide (r_n r > 0) then
    match Decode (slice (r_buf r) 0 (r_n r)) with
    | (f, None) =>
        let r := consume r (WireLen f) in (r, Some (reread (r_buf r) f, None))
    | (f, Some (EFrame ErrBadCheck)) =>
        let r := consume r (WireLen f) in (r, Some (reread (r_buf r) f, Some (EFrame ErrBadCheck)))
    | (_, Some (EFrame ErrShortBuffer)) => next_read r
    | (_, Some e) =>
        match resync r with
        | (r, true) => (r, None)
        | (r, false) => (r, Some (Frame_zero, Some e))
        end
    end
  else next_read r.

(** The body of the loop in pd's [scanner.next]. *)
Definition scan_read (s : reader) : reader * option (Frame * option error) :=
  let s := if decide (r_n s = len (r_buf s)) then s <| r_n := 0 |> else s in
  match fetch s with
  | (s, Some e) => (s, Some (Frame_zero, Some e))
  | (s, None) => (s, None)
  end.

Definition scan_turn (s : reader) : reader * option (Frame * option error) :=
  if decide (r_n s > 0) then
    match Decode (slice (r_buf s) 0 (r_n s)) with
    | (f, None) =>
        let s := consume s (WireLen f) in (s, Some (reread (r_buf s) f, None))
    | (f, Some (EFrame ErrBadCheck)) =>
        let s := consume s (WireLen f) in (s, Some (reread (r_buf s) f, Some (EFrame ErrBadCheck)))
    | (_, Some (EFrame ErrShortBuffer)) => scan_read s
    | (_, Some _) => ((resync s).1, None)
    end
  else scan_read s.

Fixpoint loop (turn : reader -> reader * option (Frame * option error)) (fuel : nat) (r : reader) :
    option (reader * (Frame * option error)) :=
  match fuel with
  | O => None
  | S fuel =>
      match turn r with
      | (r, Some x) => Some (r, x)
      | (r, None) => loop turn fuel r
      end
  end.

(** [reader.next] and [scanner.next]. *)
Definition next : nat -> reader -> option (reader * (Frame * option error)) := loop next_turn.
Definition scan_next : nat -> reader -> option (reader * (Frame * option error)) := loop scan_turn.

End port.

(** ** The buffer *)

Record reader_ok (r : reader) : Prop := mk_reader_ok {
  ro_buf : len (r_buf r) = maxFrame;
  ro_n : 0 <= r_n r <= maxFrame
}.

(** What has arrived and not been taken. *)
Definition content (r : reader) : octets := slice (r_buf r) 0 (r_n r).

Lemma newReader_ok : reader_ok newReader.
Proof. by split. Qed.

Lemma content_len r : reader_ok r -> len (content r) = r_n r.
Proof. intros []. unfold content. rewrite len_slice; lia. Qed.

Lemma content_nil r : reader_ok r -> content r = [] <-> r_n r = 0.
Proof.
  intros Hr. pose proof (content_len r Hr) as Hl. split.
  - intros E. by rewrite E in Hl.
  - intros E. apply len_zero_nil. lia.
Qed.

Lemma copy_len buf src : len src <= len buf -> len (copy buf src) = len buf.
Proof. intros. unfold copy. rewrite len_app, len_drop. unfold len in *. lia. Qed.

Lemma copy_begin buf src : slice (copy buf src) 0 (len src) = src.
Proof. by apply slice_begin. Qed.

Lemma slice_lookup {A} (l : list A) i j k : 0 <= i -> Z.of_nat k < j - i ->
  slice l i j !! k = l !! (Z.to_nat i + k)%nat.
Proof. intros. unfold slice. rewrite lookup_take_lt by lia. by rewrite lookup_drop. Qed.

Lemma copy_lookup buf src k :
  copy buf src !! k = if decide (k < length src)%nat then src !! k else buf !! k.
Proof.
  unfold copy. case_decide.
  - by apply lookup_app_l.
  - rewrite lookup_app_r, lookup_drop by lia. f_equal. lia.
Qed.

(** Slices of what was received are slices of the buffer. *)
Lemma content_slice r i : reader_ok r -> 0 <= i <= r_n r ->
  slice (r_buf r) i (r_n r) = slice (content r) i (len (content r)).
Proof.
  intros Hr Hi. rewrite content_len by done. destruct Hr. unfold content, slice.
  rewrite drop_0, Z.sub_0_r, skipn_firstn_comm, take_take. f_equal. lia.
Qed.

Lemma consume_spec r i : reader_ok r -> 0 < i <= r_n r ->
  reader_ok (consume r i) /\ r_reads (consume r i) = r_reads r /\ r_n (consume r i) = r_n r - i /\
  content (consume r i) = slice (content r) i (len (content r)).
Proof.
  intros Hr Hi. unfold consume. rewrite decide_False by lia.
  rewrite (content_slice r i) by (done || lia). pose proof (content_len r Hr) as Hl.
  assert (Hs : len (slice (content r) i (len (content r))) = r_n r - i) by (rewrite len_slice; lia).
  destruct Hr as [Hb Hn]. split_and!; try done.
  - split; cbn [r_buf r_n update]; [|lia]. rewrite copy_len; lia.
  - apply copy_begin.
Qed.

Lemma filled_spec r bs : reader_ok r -> len bs <= maxFrame - r_n r ->
  reader_ok (filled r bs) /\ r_n (filled r bs) = r_n r + len bs /\
  content (filled r bs) = content r ++ bs.
Proof.
  intros Hr Hb. pose proof (content_len r Hr) as Hl. pose proof (len_nonneg bs). destruct Hr as [Hbuf Hn].
  unfold filled. fold (content r). rewrite Hbuf. unfold content at 2.
  assert (Hc : len (slice (r_buf r) (r_n r) maxFrame) = maxFrame - r_n r) by (rewrite len_slice; lia).
  split_and!; [split; cbn [r_buf r_n update]|done|].
  - rewrite len_app, copy_len; lia.
  - lia.
  - change (slice (content r ++ copy (slice (r_buf r) (r_n r) maxFrame) bs) 0 (r_n r + len bs) = content r ++ bs).
    unfold copy. rewrite app_assoc. apply slice_begin. rewrite len_app. lia.
Qed.

Lemma find_start_some i l k : find_start i l = Some k ->
  exists a b c, l = a ++ b :: c /\ k = i + len a /\ (b = Frame.SOM \/ b = Frame.Mark) /\
    Forall (fun x => x <> Frame.SOM /\ x <> Frame.Mark) a.
Proof.
  revert i. induction l as [|x l IH]; intros i; [done|]. simpl. case_decide as Hx.
  - intros [= <-]. exists [], x, l. split_and!; try done. rewrite len_nil. lia.
  - intros (a & b & c & -> & -> & Hb & Ha)%IH. exists (x :: a), b, c. split_and!; try done.
    + rewrite len_cons. lia.
    + apply Forall_cons. tauto.
Qed.

Lemma find_start_none i l : find_start i l = None <-> Forall (fun x => x <> Frame.SOM /\ x <> Frame.Mark) l.
Proof.
  revert i. induction l as [|x l IH]; intros i; simpl; [split; [by intros; apply Forall_nil|done]|].
  rewrite Forall_cons. case_decide; [naive_solver|]. rewrite IH. tauto.
Qed.

Lemma content_tail r : reader_ok r -> 0 < r_n r ->
  slice (r_buf r) 1 (r_n r) = slice (content r) 1 (len (content r)).
Proof. intros Hr Hn. apply content_slice; [done|lia]. Qed.

(** Resynchronising drops at least one octet, and only from the front. *)
Lemma resync_spec r : reader_ok r -> 0 < r_n r ->
  reader_ok (resync r).1 /\ r_reads (resync r).1 = r_reads r /\ 0 <= r_n (resync r).1 < r_n r.
Proof.
  intros Hr Hn. unfold resync. destruct (find_start 1 _) as [i|] eqn:E.
  - apply find_start_some in E as (a & b & c & E & -> & _).
    rewrite content_tail in E by done. apply (f_equal len) in E. pose proof (content_len r Hr).
    rewrite len_slice, len_app, len_cons in E by lia. pose proof (len_nonneg a). pose proof (len_nonneg c).
    destruct (consume_spec r (1 + len a) Hr) as (C1 & C2 & C3 & _); [lia|]. cbn [fst].
    split_and!; [done|done|lia|lia].
  - destruct Hr. cbn. split_and!; [by split|done|lia|lia].
Qed.

(** ** Termination *)

Section port_facts.
Variable Read : nat -> Z -> result octets.

(** transport.Port: no more octets than there was room for. *)
Definition bounded : Prop := forall i room bs, Read i room = Ok bs -> len bs <= room.

(** The port stops: from the [k]th call on, the deadline has passed. *)
Definition deadline (k : nat) : Prop := forall i room, (k <= i)%nat -> exists e, Read i room = Err e.

Lemma fetch_spec r r' e : bounded -> reader_ok r -> fetch Read r = (r', e) ->
  reader_ok r' /\ r_reads r' = S (r_reads r) /\
  match e with
  | Some _ => r_n r' = r_n r
  | None => exists bs, Read (r_reads r) (maxFrame - r_n r) = Ok bs /\ bs <> [] /\
      content r' = content r ++ bs /\ r_n r' = r_n r + len bs
  end.
Proof.
  intros Hb Hr. unfold fetch. rewrite (ro_buf r Hr).
  destruct (Read _ _) as [bs|e'] eqn:E.
  - case_decide as Hl; intros [= <- <-].
    + destruct Hr. by split_and!.
    + destruct (filled_spec r bs Hr (Hb _ _ _ E)) as (H1 & H2 & H3).
      assert (Hr' : reader_ok (filled (r <| r_reads := S (r_reads r) |>) bs)) by (destruct H1; by split).
      split; [done|]. split; [done|]. exists bs. split_and!; try done. by intros ->.
  - intros [= <- <-]. destruct Hr. by split_and!.
Qed.

Lemma zeroed_ok r : reader_ok r -> reader_ok (r <| r_n := 0 |>).
Proof. intros []. by split. Qed.

(** The [k]th call fails, and has not been made yet. *)
Definition fails_at (k : nat) : Prop := forall room, exists e, Read k room = Err e.
Definition before (k : nat) (r : reader) : Prop := reader_ok r /\ (r_reads r <= k)%nat.

(** The measure of both loops: a read brings the failure nearer, and
    resynchronising shortens what is left. *)
Definition budget (k : nat) (r : reader) : Z := Z.of_nat (k - r_reads r) * (maxFrame + 1) + r_n r.

Definition spends (k : nat) (r r' : reader) : Prop := before k r' /\ budget k r' < budget k r.

Lemma fetch_budget k r r' : bounded -> fails_at k -> before k r -> fetch Read r = (r', None) -> spends k r r'.
Proof.
  intros Hb Hk [Hr Hle] E. pose proof Hr as [_ Hn].
  destruct (fetch_spec r r' None Hb Hr E) as (Hr' & H2 & bs & Hread & _ & _ & Hl).
  pose proof Hr' as [_ Hn'].
  assert (Hlt : (r_reads r < k)%nat).
  { destruct (decide (r_reads r = k)) as [Heq|]; [|lia].
    destruct (Hk (maxFrame - r_n r)) as [e He]. congruence. }
  split; [split; [done|lia]|]. unfold budget. rewrite H2. unfold maxFrame in *. nia.
Qed.

Lemma resync_budget k r : before k r -> 0 < r_n r -> spends k r (resync r).1.
Proof.
  intros [Hr Hle] Hn. destruct (resync_spec r Hr Hn) as (H1 & H2 & H3). split; [split; [done|lia]|].
  unfold budget. rewrite H2. lia.
Qed.

Lemma budget_nonneg k r : reader_ok r -> 0 <= budget k r.
Proof. intros [_ []]. unfold budget, maxFrame. lia. Qed.

(** Going round again uses up budget. *)
Lemma next_read_budget k r r' : bounded -> fails_at k -> before k r -> next_read Read r = (r', None) -> spends k r r'.
Proof.
  intros Hb Hk Hr. unfold next_read. case_decide; [done|].
  destruct (fetch Read r) as [r1 [e|]] eqn:E; [done|]. intros [= <-]. by apply fetch_budget.
Qed.

Lemma next_turn_budget k r r' : bounded -> fails_at k -> before k r -> next_turn Read r = (r', None) -> spends k r r'.
Proof.
  intros Hb Hk Hr. unfold next_turn. case_decide as Hn; [|by apply next_read_budget].
  pose proof (resync_budget k r Hr ltac:(lia)) as Hs.
  destruct (resync r) as [r1 []]; destruct (Decode _) as [f [[[]| | | | | | | | |]|]]; try done;
    (by apply next_read_budget) || (intros [= <-]; exact Hs).
Qed.

Lemma scan_read_budget k r r' : bounded -> fails_at k -> before k r -> scan_read Read r = (r', None) -> spends k r r'.
Proof.
  intros Hb Hk Hr. unfold scan_read. set (r0 := if decide _ then _ else _).
  assert (H0 : before k r0 /\ budget k r0 <= budget k r).
  { destruct Hr as [Hr Hle]. unfold r0. case_decide; [|done].
    split; [split; [by apply zeroed_ok|done]|]. destruct Hr. unfold budget. simpl. lia. }
  clearbody r0. destruct H0 as [Hr0 Hb0].
  destruct (fetch Read r0) as [r1 [e|]] eqn:E; [done|]. intros [= <-].
  destruct (fetch_budget k r0 r1 Hb Hk Hr0 E). split; [done|lia].
Qed.

Lemma scan_turn_budget k r r' : bounded -> fails_at k -> before k r -> scan_turn Read r = (r', None) -> spends k r r'.
Proof.
  intros Hb Hk Hr. unfold scan_turn. case_decide as Hn; [|by apply scan_read_budget].
  pose proof (resync_budget k r Hr ltac:(lia)) as Hs.
  destruct (Decode _) as [f [[[]| | | | | | | | |]|]]; try done;
    (by apply scan_read_budget) || (intros [= <-]; exact Hs).
Qed.

Lemma loop_terminates turn k fuel r :
  (forall r r', before k r -> turn r = (r', None) -> spends k r r') ->
  before k r -> budget k r < Z.of_nat fuel -> is_Some (loop turn fuel r).
Proof.
  intros Ht. revert r. induction fuel as [|fuel IH]; intros r Hr Hf.
  { pose proof (budget_nonneg k r (proj1 Hr)). lia. }
  cbn [loop]. destruct (turn r) as [r' [x|]] eqn:E; [by eexists|].
  destruct (Ht r r' Hr E). apply IH; [done|lia].
Qed.

Lemma readers_return k fuel r : bounded -> fails_at k -> before k r -> budget k r < Z.of_nat fuel ->
  is_Some (next Read fuel r) /\ is_Some (scan_next Read fuel r).
Proof. intros Hb Hk Hr Hf. split; apply (loop_terminates _ k); eauto using next_turn_budget, scan_turn_budget. Qed.

(** C27. Neither loop outlives its port's deadline. From any state of the buffer,
    if the port's reads fail from its [k]th call on (as they do once the read
    deadline has passed), [next] and [scan_next] return, within a number of turns
    that is at most 1537 for each read that may still succeed and one for each
    octet in the buffer; whatever the octets are. *)
Theorem readers_terminate fuel k r : bounded -> deadline k -> reader_ok r ->
  Z.of_nat (k - r_reads r) * 1537 + r_n r < Z.of_nat fuel ->
  is_Some (next Read fuel r) /\ is_Some (scan_next Read fuel r).
Proof.
  intros Hb Hk Hr Hf. apply (readers_return (k `max` r_reads r)); [done|intros room; apply Hk; lia|split; [done|lia]|].
  unfold budget, maxFrame. replace (k `max` r_reads r - r_reads r)%nat with (k - r_reads r)%nat by lia. lia.
Qed.

End port_facts.

(** ** What comes back *)

Lemma window_data f tail :
  slice (Frame.wire_octets f ++ tail) (dataOffset f) (dataOffset f + len (Frame.f_Data f)) = Frame.f_Data f.
Proof.
  set (pre := Frame.mark_octets f ++ Frame.header f ++ Frame.sec_octets (Frame.f_Security f) ++ [Frame.f_Code f]).
  assert (Hw : Frame.wire_octets f = pre ++ Frame.f_Data f ++ Frame.check_octets f)
    by (unfold Frame.wire_octets, Frame.tail_octets, pre; by rewrite <- !app_assoc).
  assert (Ho : dataOffset f = len pre).
  { unfold dataOffset. rewrite <- Frame.len_wire_octets, Hw. autorewrite with osdp_len. lia. }
  rewrite Hw, Ho, <- !app_assoc. by apply slice_mid.
Qed.

Lemma window_block f sb tail : Frame.f_Security f = Some sb ->
  slice (Frame.wire_octets f ++ tail) (blockOffset f) (blockOffset f + len (Frame.sb_Data sb)) = Frame.sb_Data sb.
Proof.
  intros Hsb. set (pre := Frame.mark_octets f ++ Frame.header f ++ [u8 (2 + len (Frame.sb_Data sb)); Frame.sb_Type sb]).
  assert (Hw : Frame.wire_octets f = pre ++ Frame.sb_Data sb ++ Frame.tail_octets f)
    by (unfold Frame.wire_octets, pre; rewrite Hsb; cbn [Frame.sec_octets]; by rewrite <- !app_assoc).
  assert (Ho : blockOffset f = len pre).
  { unfold blockOffset, pre, Frame.mark_octets, Frame.HeaderSize. destruct (Frame.f_HasMark f); done. }
  rewrite Hw, Ho, <- !app_assoc. by apply slice_mid.
Qed.

Lemma reread_same f tail : reread (Frame.wire_octets f ++ tail) f = f.
Proof.
  unfold reread. rewrite window_data. destruct (Frame.f_Security f) as [sb|] eqn:Hsb; cbn [fmap option_fmap option_map].
  - rewrite (window_block f sb tail Hsb). destruct sb, f. simpl in *. by subst.
  - destruct f. simpl in *. by subst.
Qed.

Lemma buf_content r : reader_ok r -> exists stale, r_buf r = content r ++ stale.
Proof.
  intros [Hb Hn]. exists (slice (r_buf r) (r_n r) (len (r_buf r))). unfold content. apply slice_split. lia.
Qed.

Lemma WireLen_pos f : 0 < WireLen f.
Proof.
  unfold WireLen, Frame.Len, Frame.HeaderSize. pose proof (Frame.wireLen_nonneg (Frame.f_Security f)).
  pose proof (len_nonneg (Frame.f_Data f)). pose proof (Frame.Scheme_Size_pos (Frame.Control_Scheme (Frame.f_Control f))).
  destruct (Frame.f_HasMark f); lia.
Qed.

(** The error a whole frame comes back with. *)
Definition verdict (f : Frame) : option error := if Frame.CheckOK f then None else Some (EFrame ErrBadCheck).

Section port_facts2.
Variable Read : nat -> Z -> result octets.

(** A whole frame at the front of the buffer is taken, seen through what follows
    it, which is what the buffer then holds. *)
Lemma turn_wire r f rest : reader_ok r -> Frame.frame_ok f -> Frame.representable f = None ->
  content r = Frame.wire_octets f ++ rest ->
  exists r', next_turn Read r = (r', Some (reread (copy (r_buf r) rest) f, verdict f)) /\
    scan_turn Read r = (r', Some (reread (copy (r_buf r) rest) f, verdict f)) /\
    reader_ok r' /\ content r' = rest /\ r_reads r' = r_reads r.
Proof.
  intros Hr Hf Hrep Hc. pose proof (content_len r Hr) as Hn. pose proof (WireLen_pos f) as Hpos.
  rewrite Hc, len_app, Frame.len_wire_octets in Hn. pose proof (len_nonneg rest).
  destruct (consume_spec r (WireLen f) Hr) as (C1 & C2 & C3 & C4); [lia|].
  assert (Hrest : slice (content r) (WireLen f) (len (content r)) = rest).
  { rewrite Hc. apply slice_end; [by rewrite Frame.len_wire_octets|done]. }
  rewrite Hrest in C4.
  assert (Hbuf : r_buf (consume r (WireLen f)) = copy (r_buf r) rest).
  { unfold consume. rewrite decide_False by lia. rewrite content_slice, Hrest by (done || lia). done. }
  exists (consume r (WireLen f)). unfold next_turn, scan_turn. rewrite !decide_True by lia.
  fold (content r). rewrite Hc, (Frame.Decode_wire f rest Hf Hrep). unfold verdict.
  destruct (Frame.CheckOK f); cbv zeta; rewrite Hbuf; by split_and!.
Qed.
(** A buffer that holds only the beginning of a frame asks for more. *)
Lemma turn_more r f rest : reader_ok r -> Frame.frame_ok f -> Frame.representable f = None ->
  Frame.wire_octets f = content r ++ rest -> rest <> [] -> WireLen f <= maxFrame ->
  next_turn Read r = match fetch Read r with
                     | (r, Some e) => (r, Some (Frame_zero, Some e))
                     | (r, None) => (r, None)
                     end /\ scan_turn Read r = next_turn Read r.
Proof.
  intros Hr Hf Hrep Hc Hrest Hmax. pose proof (content_len r Hr) as Hn.
  assert (Hlt : r_n r < len (r_buf r)).
  { rewrite (ro_buf r Hr), <- Hn. rewrite <- Frame.len_wire_octets, Hc, len_app in Hmax.
    destruct rest as [|x rest]; [done|]. rewrite len_cons in Hmax. pose proof (len_nonneg rest). lia. }
  assert (Hread : next_read Read r = match fetch Read r with
                     | (r, Some e) => (r, Some (Frame_zero, Some e))
                     | (r, None) => (r, None)
                     end) by (unfold next_read; by rewrite decide_False by lia).
  assert (Hread2 : scan_read Read r = next_read Read r).
  { rewrite Hread. unfold scan_read. by rewrite decide_False by lia. }
  unfold next_turn, scan_turn. case_decide as H0; [|by rewrite Hread2, Hread]. fold (content r).
  assert (Decode (content r) = (Frame_zero, Some (EFrame ErrShortBuffer))) as ->; [|by rewrite Hread2, Hread].
  replace (content r) with (take (length (content r)) (Frame.wire_octets f)) by (rewrite Hc; by apply take_len_app).
  apply (Frame.decode_prefix_wire f); [done|done|]. rewrite Hc, length_app. destruct rest; [done|]. simpl. lia.
Qed.

(** The next reads hand over these octets. *)
Definition delivers (i : nat) (chunks : list octets) : Prop :=
  forall j c room, chunks !! j = Some c -> len c <= room -> Read (i + j) room = Ok c.

Lemma delivers_cons i c chunks : delivers i (c :: chunks) -> delivers (S i) chunks.
Proof. intros H j c' room Hj. replace (S i + j)%nat with (i + S j)%nat by lia. by apply H. Qed.

(** Octets on the way, in whatever pieces: the frame, the whole frame, and
    nothing but the frame. *)
Lemma fetch_chunk r c chunks : reader_ok r -> delivers (r_reads r) (c :: chunks) -> c <> [] ->
  len (content r) + len c <= maxFrame ->
  exists r', fetch Read r = (r', None) /\ reader_ok r' /\ content r' = content r ++ c /\
    r_reads r' = S (r_reads r) /\ delivers (r_reads r') chunks.
Proof.
  intros Hr Hd Hc Hl. pose proof (content_len r Hr) as Hn. unfold fetch. rewrite (ro_buf r Hr).
  pose proof (Hd 0%nat c (maxFrame - r_n r) eq_refl) as Hread. rewrite Nat.add_0_r in Hread.
  rewrite Hread by lia. rewrite decide_False by (by intros ?%len_zero_nil).
  destruct (filled_spec (r <| r_reads := S (r_reads r) |>) c) as (H1 & _ & H3); [by destruct Hr|cbn; lia|].
  eexists. split; [done|]. split_and!; try done. by apply (delivers_cons _ c).
Qed.

Lemma loop_assembles turn f : Frame.frame_ok f -> Frame.representable f = None -> WireLen f <= maxFrame ->
  turn = next_turn Read \/ turn = scan_turn Read ->
  forall chunks r fuel, reader_ok r -> content r ++ concat chunks = Frame.wire_octets f ->
  Forall (fun c => c <> []) chunks -> delivers (r_reads r) chunks -> (length chunks < fuel)%nat ->
  exists r', loop turn fuel r = Some (r', (f, verdict f)) /\ reader_ok r' /\ content r' = [] /\
    r_reads r' = (r_reads r + length chunks)%nat.
Proof.
  intros Hf Hrep Hmax Ht chunks. induction chunks as [|c chunks IH]; intros r fuel Hr Hc Hne Hd Hfuel;
    (destruct fuel as [|fuel]; [simpl in Hfuel; lia|]); cbn [loop].
  - cbn [concat] in Hc. rewrite app_nil_r in Hc.
    destruct (turn_wire r f [] Hr Hf Hrep) as (r' & E1 & E2 & H1 & H2 & H3); [by rewrite app_nil_r|].
    assert (turn r = (r', Some (f, verdict f))) as ->.
    { destruct (buf_content r Hr) as [stale Hb]. rewrite Hc in Hb.
      assert (Hcp : copy (r_buf r) [] = r_buf r) by done. rewrite Hcp, Hb, reread_same in E1, E2. by destruct Ht as [-> | ->]. }
    exists r'. split_and!; try done. simpl. lia.
  - apply Forall_cons in Hne as [Hc0 Hne]. cbn [concat] in Hc.
    destruct (turn_more r f (c ++ concat chunks) Hr Hf Hrep) as [E1 E2]; [done|by destruct c|done|].
    assert (Hl : len (content r) + len c <= maxFrame).
    { rewrite <- Frame.len_wire_octets, <- Hc, !len_app in Hmax. pose proof (len_nonneg (concat chunks)). lia. }
    destruct (fetch_chunk r c chunks Hr Hd Hc0 Hl) as (r1 & Ef & H1 & H2 & H3 & H4).
    assert (turn r = (r1, None)) as -> by (rewrite Ef in E1; destruct Ht as [-> | ->]; congruence).
    destruct (IH r1 fuel H1) as (r' & -> & K1 & K2 & K3); [by rewrite H2, <- app_assoc|done|done|simpl in Hfuel; lia|].
    exists r'. split_and!; try done. rewrite K3, H3. simpl. lia.
Qed.

End port_facts2.

(** Noise: no octet of it could start a frame. *)
Definition noise (l : octets) : Prop := Forall (fun x => x <> Frame.SOM /\ x <> Frame.Mark) l.

Lemma Decode_noise b l : b <> Frame.SOM -> b <> Frame.Mark ->
  Decode (b :: l) = (Frame_zero, Some (EFrame ErrNoStartOfMessage)).
Proof.
  intros H1 H2. rewrite Frame.Decode_no_mark by done. unfold Frame.decodeBody.
  rewrite decide_False by (rewrite len_cons; pose proof (len_nonneg l); lia). by rewrite decide_True.
Qed.

Lemma wire_starts f : exists b w, Frame.wire_octets f = b :: w /\ (b = Frame.SOM \/ b = Frame.Mark).
Proof.
  unfold Frame.wire_octets, Frame.mark_octets. destruct (Frame.f_HasMark f); do 2 eexists; (split; [done|]); auto.
Qed.

(** Two ways to split a list at the first octet that could start a frame. *)
Lemma noise_split a b c a' b' c' : noise a -> noise a' ->
  (b = Frame.SOM \/ b = Frame.Mark) -> (b' = Frame.SOM \/ b' = Frame.Mark) ->
  a ++ b :: c = a' ++ b' :: c' -> a = a' /\ b :: c = b' :: c'.
Proof.
  intros Ha. revert a'. induction Ha as [|x a [Hx1 Hx2] Ha IH]; intros a' Ha' Hb Hb' E.
  - destruct a' as [|y a']; [done|]. apply Forall_cons in Ha' as [[Hy1 Hy2] _].
    injection E as -> _. destruct Hb; congruence.
  - destruct a' as [|y a'].
    + injection E as <- _. destruct Hb'; congruence.
    + apply Forall_cons in Ha' as [_ Ha']. injection E as <- E.
      destruct (IH a' Ha' Hb Hb' E) as [-> ?]. done.
Qed.

(** Noise in front is dropped, all of it and only it. *)
Lemma resync_noise r junk more f : reader_ok r -> junk <> [] -> noise junk -> 0 < r_n r ->
  content r ++ more = junk ++ Frame.wire_octets f ->
  exists junk', noise junk' /\ content (resync r).1 ++ more = junk' ++ Frame.wire_octets f /\
    reader_ok (resync r).1 /\ r_reads (resync r).1 = r_reads r /\
    (content (resync r).1 = [] \/ junk' = []).
Proof.
  intros Hr Hj Hn H0 Hc. destruct (resync_spec r Hr H0) as (H1 & H2 & _).
  destruct junk as [|x junk]; [done|]. pose proof (content_len r Hr) as Hl.
  destruct (content r) as [|x' c'] eqn:Ec; [rewrite len_nil in Hl; lia|].
  injection Hc as -> Hc. pose proof Hn as [[Hx1 Hx2] Hn']%Forall_cons.
  revert H1 H2. unfold resync. rewrite content_tail by done. rewrite Ec.
  assert (Htl : slice (x :: c') 1 (len (x :: c')) = c') by (by apply (slice_end [x])). rewrite Htl.
  destruct (find_start 1 c') as [i|] eqn:E; intros H1 H2; cbn [fst] in *.
  - apply find_start_some in E as (a & b & c & -> & -> & Hb & Ha).
    destruct (consume_spec r (1 + len a) Hr) as (_ & _ & _ & C4).
    { rewrite <- Hl, len_cons, len_app, len_cons. pose proof (len_nonneg a). pose proof (len_nonneg c). lia. }
    assert (Hc2 : content (consume r (1 + len a)) = b :: c).
    { rewrite C4, Ec. apply (slice_end (x :: a)); [by rewrite len_cons|done]. }
    destruct (wire_starts f) as (b' & w & Hw & Hb'). rewrite Hw in Hc. rewrite <- app_assoc in Hc.
    destruct (noise_split a b (c ++ more) junk b' w Ha Hn' Hb Hb' Hc) as [<- E].
    exists []. rewrite Hc2, Hw. split_and!; try done; [by apply Forall_nil|by right].
  - apply find_start_none in E. exists (drop (length c') junk).
    assert (Hce : content (r <| r_n := 0 |>) = []) by done.
    assert (Hlen : (length c' <= length junk)%nat).
    { destruct (decide (length c' <= length junk)%nat) as [|Hgt]; [done|exfalso].
      destruct (wire_starts f) as (b' & w & Hw & Hb'). rewrite Hw in Hc.
      assert (Hb : (c' ++ more) !! length junk = Some b') by (rewrite Hc; by apply list_lookup_middle).
      rewrite lookup_app_l in Hb by lia. destruct (Forall_lookup_1 _ _ _ _ E Hb) as [? ?]. destruct Hb'; congruence. }
    rewrite Hce. split_and!; try done; [by apply Forall_drop| |by left].
    rewrite <- drop_app_le by done. rewrite <- Hc. by rewrite drop_app_length.
Qed.

Section port_facts3.
Variable Read : nat -> Z -> result octets.

Lemma scan_assembles f : Frame.frame_ok f -> Frame.representable f = None ->
  forall fuel chunks junk r, reader_ok r -> noise junk -> len junk + WireLen f <= maxFrame ->
  content r ++ concat chunks = junk ++ Frame.wire_octets f ->
  Forall (fun c => c <> []) chunks -> delivers Read (r_reads r) chunks ->
  (3 * length chunks + (if decide (junk = []) then 0 else if decide (content r = []) then 1 else 2) < fuel)%nat ->
  exists r', scan_next Read fuel r = Some (r', (f, verdict f)) /\ reader_ok r' /\ content r' = [] /\
    r_reads r' = (r_reads r + length chunks)%nat.
Proof.
  intros Hf Hrep. induction fuel as [|fuel IH]; intros chunks junk r Hr Hj Hmax Hc Hne Hd Hfuel; [lia|].
  case_decide as Hj0.
  { subst. rewrite app_nil_l in Hc. rewrite len_nil in Hmax.
    apply (loop_assembles Read (scan_turn Read) f Hf Hrep Hmax (or_intror eq_refl) chunks r); [done..|lia]. }
  pose proof (content_len r Hr) as Hl. pose proof (len_nonneg (content r)) as Hl0.
  cbn [scan_next loop]. destruct (decide (r_n r = 0)) as [Hz|Hz].
  - assert (Hce : content r = []) by (by apply content_nil). rewrite Hce in Hc.
    destruct chunks as [|c chunks]; [by destruct junk|]. apply Forall_cons in Hne as [Hc0 Hne]. cbn [concat] in Hc.
    assert (Hlc : len (content r) + len c <= maxFrame).
    { rewrite Hce, len_nil. rewrite <- Frame.len_wire_octets, <- len_app, <- Hc, app_nil_l, len_app in Hmax.
      pose proof (len_nonneg (concat chunks)). lia. }
    destruct (fetch_chunk Read r c chunks Hr Hd Hc0 Hlc) as (r1 & Ef & H1 & H2 & H3 & H4).
    assert (scan_turn Read r = (r1, None)) as ->.
    { unfold scan_turn, scan_read. rewrite decide_False by lia. rewrite decide_False by (rewrite Hz, (ro_buf r Hr); done).
      by rewrite Ef. }
    destruct (IH chunks junk r1 H1 Hj Hmax) as (r' & E & K1 & K2 & K3); [by rewrite H2, Hce|done|done| |].
    { rewrite decide_False by done. rewrite decide_True in Hfuel by done. simpl in Hfuel. case_decide; lia. }
    exists r'. split; [exact E|]. split_and!; try done. rewrite K3, H3. simpl. lia.
  - assert (scan_turn Read r = ((resync r).1, None)) as ->.
    { unfold scan_turn. rewrite decide_True by lia. fold (content r).
      destruct (content r) as [|x c'] eqn:Ec; [rewrite len_nil in Hl; lia|].
      destruct junk as [|y junk]; [done|]. apply Forall_cons in Hj as [[Hy1 Hy2] _].
      injection Hc as -> _. by rewrite Decode_noise. }
    destruct (resync_noise r junk (concat chunks) f Hr Hj0 Hj) as (junk' & J1 & J2 & J3 & J4 & J5); [lia|done|].
    destruct (IH chunks junk' (resync r).1 J3 J1) as (r' & E & K1 & K2 & K3); [| |done|by rewrite J4| |].
    + destruct (resync_spec r Hr) as (_ & _ & Hlt); [lia|]. apply (f_equal len) in Hc, J2.
      rewrite !len_app in Hc, J2. rewrite (content_len _ J3) in J2. lia.
    + done.
    + rewrite (decide_False (P := content r = [])) in Hfuel by (by intros E%content_nil).
      destruct J5 as [-> | ->]; repeat case_decide; lia || done.
    + exists r'. split; [exact E|]. by rewrite K3, J4.
Qed.

End port_facts3.

(** ** What either loop can return *)

Definition well (r : reader) : Prop := reader_ok r /\ octets_ok (r_buf r).

Lemma well_new : well newReader.
Proof. split; [exact newReader_ok|]. apply Forall_replicate. by compute. Qed.

Lemma reread_ok buf f : octets_ok buf -> Frame.frame_ok f -> Frame.frame_ok (reread buf f).
Proof.
  intros Hb []. split; cbn [reread Frame.f_Address Frame.f_Control Frame.f_Security Frame.f_Code Frame.f_Data
    Frame.f_Check update]; try done.
  - rewrite fok_sec. by destruct (Frame.f_Security f).
  - intros sb. destruct (Frame.f_Security f) as [sb'|] eqn:E; [|done]. intros [= <-].
    destruct (fok_sb sb' eq_refl). split; [done|]. by apply Forall_slice.
  - by apply Forall_slice.
Qed.

Section results.
Variable Read : nat -> Z -> result octets.

(** transport.Port as both loops need it: bounded, and made of octets. *)
Definition sane : Prop := bounded Read /\ forall i room bs, Read i room = Ok bs -> octets_ok bs.

(** A frame, or an error check that failed on one; or what stopped the loop. *)
Definition returned (ours : error -> Prop) (x : Frame * option error) : Prop :=
  match x.2 with
  | None | Some (EFrame ErrBadCheck) => Frame.frame_ok x.1
  | Some e => ours e \/ e = ETransport ErrTimeout \/ exists i room, Read i room = Err e
  end.

Lemma Frame_zero_ok : Frame.frame_ok Frame_zero.
Proof. apply Frame.frame_check_ok. by vm_compute. Qed.

(** What panel's loop makes of octets that are no frame. *)
Inductive line_error : error -> Prop :=
  | le_start : line_error (EFrame ErrNoStartOfMessage)
  | le_length : line_error (EFrame ErrLengthMismatch)
  | le_block : line_error (EFrame ErrBadSecurityBlock).

Lemma returned_error (ours : error -> Prop) e :
  ours e \/ e = ETransport ErrTimeout \/ (exists i room, Read i room = Err e) -> returned ours (Frame_zero, Some e).
Proof. intros H. unfold returned. simpl. destruct e as [[]| | | | | | | | |]; auto; exact Frame_zero_ok. Qed.

Lemma consume_well r n : well r -> well (consume r n).
Proof.
  intros [Hr Ho]. unfold consume. case_decide; [by split; [apply zeroed_ok|]|].
  destruct (consume_spec r n Hr) as (H1 & _); [lia|]. unfold consume in H1. rewrite decide_False in H1 by done.
  split; [done|]. cbn [r_buf update]. unfold copy. apply Forall_app. split; [by apply Forall_slice|by apply Forall_drop].
Qed.

Lemma resync_well r : well r -> well (resync r).1.
Proof. intros Hr. unfold resync. case_match; [by apply consume_well|]. destruct Hr. by split; [apply zeroed_ok|]. Qed.

Lemma fetch_well r r' e : sane -> well r -> fetch Read r = (r', e) ->
  well r' /\ forall e', e = Some e' -> e' = ETransport ErrTimeout \/ exists i room, Read i room = Err e'.
Proof.
  intros [Hb Hs] [Hr Ho] E. destruct (fetch_spec Read r r' e Hb Hr E) as (Hr' & _ & _).
  unfold fetch in E. destruct (Read _ _) as [bs|e0] eqn:ER.
  - case_decide; injection E as <- <-; (split; [split; [done|]|]).
    + done.
    + intros e' [= <-]. by left.
    + unfold filled, copy. cbn [r_buf update]. apply Forall_app. split; [by apply Forall_slice|].
      apply Forall_app. split; [by eapply Hs|]. by apply Forall_drop, Forall_slice.
    + done.
  - injection E as <- <-. split; [by split|]. intros e' [= <-]. right. eauto.
Qed.

Lemma decoded_returned ours r f e : well r -> Decode (slice (r_buf r) 0 (r_n r)) = (f, e) -> Frame.decoded e ->
  well (consume r (WireLen f)) /\ returned ours (reread (r_buf (consume r (WireLen f))) f, e).
Proof.
  intros Hr E He. destruct (Frame.Decode_inv (slice (r_buf r) 0 (r_n r)) f e) as (Hf & _); [|done|done|].
  { apply Forall_slice, Hr. }
  pose proof (consume_well r (WireLen f) Hr) as Hc. split; [done|]. destruct Hc.
  destruct He as [-> | ->]; by apply reread_ok.
Qed.

Lemma next_read_returns ours r r' x : sane -> well r -> (forall e, line_error e -> ours e) -> next_read Read r = (r', x) ->
  well r' /\ forall y, x = Some y -> returned ours y.
Proof.
  intros Hs Hr Ho. unfold next_read. case_decide.
  - intros [= <- <-]. destruct Hr. split; [by split; [apply zeroed_ok|]|]. intros y [= <-]. apply returned_error. left. apply Ho. constructor.
  - destruct (fetch Read r) as [r1 e] eqn:E. destruct (fetch_well r r1 e Hs Hr E) as [H1 He].
    destruct e as [e|]; intros [= <- <-]; (split; [done|]); [|done]. intros y [= <-]. apply returned_error. auto.
Qed.

Lemma next_turn_returns ours r r' x : sane -> well r -> (forall e, line_error e -> ours e) -> next_turn Read r = (r', x) ->
  well r' /\ forall y, x = Some y -> returned ours y.
Proof.
  intros Hs Hr Ho. unfold next_turn. case_decide; [|by apply next_read_returns].
  pose proof (resync_well r Hr) as Hy. destruct (Decode _) as [f e] eqn:E.
  assert (Hd : Frame.decoded e -> (consume r (WireLen f), Some (reread (r_buf (consume r (WireLen f))) f, e)) = (r', x) ->
    well r' /\ forall y, x = Some y -> returned ours y).
  { intros He [= <- <-]. destruct (decoded_returned ours r f e Hr E He). split; [done|]. by intros y [= <-]. }
  destruct e as [e|]; [|by apply Hd; left].
  destruct (Frame.Decode_errors (slice (r_buf r) 0 (r_n r)) e) as [| | | |]; [by rewrite E|..];
    try (by apply next_read_returns); try (by apply Hd; right);
    (destruct (resync r) as [r1 []]; intros [= <- <-]; (split; [exact Hy|]); [done|];
     intros y [= <-]; apply returned_error; left; apply Ho; constructor).
Qed.

Lemma scan_turn_returns r r' x : sane -> well r -> scan_turn Read r = (r', x) ->
  well r' /\ forall y, x = Some y -> returned (fun _ => False) y.
Proof.
  intros Hs Hr. assert (Hread : scan_read Read r = (r', x) ->
    well r' /\ forall y, x = Some y -> returned (fun _ => False) y).
  { unfold scan_read. set (r0 := if decide _ then _ else _).
    assert (Hr0 : well r0) by (unfold r0; case_decide; [destruct Hr; split; [by apply zeroed_ok|done]|done]).
    destruct (fetch Read r0) as [r1 e] eqn:E. destruct (fetch_well r0 r1 e Hs Hr0 E) as [H1 He].
    destruct e as [e|]; intros [= <- <-]; (split; [done|]); [|done]. intros y [= <-]. apply returned_error. auto. }
  unfold scan_turn. case_decide; [|exact Hread]. destruct (Decode _) as [f e] eqn:E.
  destruct e as [e|].
  - destruct (Frame.Decode_errors (slice (r_buf r) 0 (r_n r)) e) as [| | | |]; [by rewrite E|..]; try exact Hread;
      try (intros [= <- <-]; split; [by apply resync_well|done]).
    destruct (decoded_returned (fun _ => False) r f (Some (EFrame ErrBadCheck)) Hr E) as [H1 H2]; [by right|].
    intros [= <- <-]. split; [done|]. by intros y [= <-].
  - destruct (decoded_returned (fun _ => False) r f None Hr E) as [H1 H2]; [by left|].
    intros [= <- <-]. split; [done|]. by intros y [= <-].
Qed.

Lemma loop_returns ours turn fuel r r' y :
  (forall r r' x, well r -> turn r = (r', x) -> well r' /\ forall y, x = Some y -> returned ours y) ->
  well r -> loop turn fuel r = Some (r', y) -> well r' /\ returned ours y.
Proof.
  intros Ht. revert r. induction fuel as [|fuel IH]; intros r Hr; [done|]. cbn [loop].
  destruct (turn r) as [r1 [x|]] eqn:E; destruct (Ht r r1 _ Hr E) as [H1 H2].
  - intros [= <- <-]. auto.
  - by apply IH.
Qed.

(** A frame of pd's loop is well formed, and its errors are the port's. *)
Lemma scan_next_returns fuel r r' y : sane -> well r -> scan_next Read fuel r = Some (r', y) ->
  well r' /\ returned (fun _ => False) y.
Proof. intros Hs Hr. apply loop_returns; [|done]. intros. by eapply scan_turn_returns. Qed.

(** So is panel's, whose errors are the frame package's as well. *)
Lemma next_returns fuel r r' y : sane -> well r -> next Read fuel r = Some (r', y) ->
  well r' /\ returned line_error y.
Proof. intros Hs Hr. apply loop_returns; [|done]. intros. eapply next_turn_returns; eauto. Qed.

End results.

(** C28. Whole frames come out however they went in. With nothing left over in the
    buffer, and no more octets than its 1536, a frame's octets, cut into any pieces by the
    port, come out of both loops as that frame and nothing else,
    with [ErrBadCheck] exactly when its check is wrong, leaving the buffer empty;
    and pd's loop finds it behind any octets that could not start a frame, cut
    anywhere too. *)
Theorem frames_reassembled Read f wire junk chunks r fuel :
  Frame.frame_ok f -> Frame.Append f [] = Ok wire -> reader_ok r -> content r = [] ->
  noise junk -> len junk + len wire <= 1536 -> concat chunks = junk ++ wire ->
  Forall (fun c => c <> []) chunks -> delivers Read (r_reads r) chunks -> (3 * length chunks + 1 < fuel)%nat ->
  (exists r', scan_next Read fuel r = Some (r', (f, verdict f)) /\ content r' = [] /\
     r_reads r' = (r_reads r + length chunks)%nat) /\
  (junk = [] -> exists r', next Read fuel r = Some (r', (f, verdict f)) /\ content r' = [] /\
     r_reads r' = (r_reads r + length chunks)%nat).
Proof.
  intros Hf [Hrep ->]%Frame.Append_inv Hr Hc Hj Hmax Hcat Hne Hd Hfuel. rewrite Frame.len_wire_octets in Hmax. split.
  - destruct (scan_assembles Read f Hf Hrep fuel chunks junk r Hr Hj Hmax) as (r' & E & _ & H1 & H2);
      [by rewrite Hc|done|done| |by exists r'].
    rewrite Hc. repeat case_decide; lia || done.
  - intros ->. rewrite len_nil in Hmax.
    destruct (loop_assembles Read (next_turn Read) f Hf Hrep Hmax (or_introl eq_refl) chunks r fuel Hr)
      as (r' & E & _ & H1 & H2); [by rewrite Hc|done|done|lia|by exists r'].
Qed.

(** ... unless more has arrived behind it. A frame that is followed in the
    buffer by [rest] is returned as a success with its own header, code and check,
    but each octet of its payload that [rest] reaches when the buffer is shifted
    down is [rest]'s. The payload is the frame's own exactly as far as [rest] stops
    short of it; [rest] itself is kept for the next call. *)
Theorem payload_overwritten Read f wire rest r fuel :
  Frame.frame_ok f -> Frame.Append f [] = Ok wire -> reader_ok r -> content r = wire ++ rest ->
  exists r' f', next Read (S fuel) r = Some (r', (f', verdict f)) /\
    scan_next Read (S fuel) r = Some (r', (f', verdict f)) /\ content r' = rest /\
    Frame.f_IsReply f' = Frame.f_IsReply f /\ Frame.f_Address f' = Frame.f_Address f /\
    Frame.f_Control f' = Frame.f_Control f /\ Frame.f_Code f' = Frame.f_Code f /\
    Frame.f_Check f' = Frame.f_Check f /\ len (Frame.f_Data f') = len (Frame.f_Data f) /\
    forall j, (j < length (Frame.f_Data f))%nat -> Frame.f_Data f' !! j =
      if decide (dataOffset f + Z.of_nat j < len rest)
      then rest !! (Z.to_nat (dataOffset f) + j)%nat else Frame.f_Data f !! j.
Proof.
  intros Hf [Hrep ->]%Frame.Append_inv Hr Hc.
  destruct (turn_wire Read r f rest Hr Hf Hrep Hc) as (r' & E1 & E2 & _ & H2 & _).
  exists r', (reread (copy (r_buf r) rest) f). cbn [next scan_next loop]. rewrite E1, E2.
  destruct (buf_content r Hr) as [stale Hb]. rewrite Hc, <- app_assoc in Hb.
  pose proof (window_data f (rest ++ stale)) as Hw. rewrite <- Hb in Hw.
  assert (Hoff : 0 <= dataOffset f).
  { unfold dataOffset, WireLen, Frame.Len, Frame.HeaderSize. pose proof (Frame.wireLen_nonneg (Frame.f_Security f)).
    destruct (Frame.f_HasMark f); lia. }
  assert (Hlb : len (r_buf r) = WireLen f + len rest + len stale) by (rewrite Hb, !len_app, Frame.len_wire_octets; lia).
  pose proof (len_nonneg stale). pose proof (len_nonneg rest). pose proof (len_nonneg (Frame.f_Data f)).
  pose proof (WireLen_pos f). pose proof (Frame.Scheme_Size_pos (Frame.Control_Scheme (Frame.f_Control f))).
  split_and!; try done.
  - unfold reread. cbn [Frame.f_Data update]. rewrite len_slice; [lia|lia|]. rewrite copy_len; unfold dataOffset; lia.
  - intros j Hj. unfold reread. cbn [Frame.f_Data update].
    rewrite slice_lookup by (done || (unfold len; lia)). rewrite copy_lookup.
    destruct (decide (Z.to_nat (dataOffset f) + j < length rest)%nat).
    + rewrite decide_True by (unfold len; lia). done.
    + rewrite decide_False by (unfold len; lia). rewrite <- Hw at 1. by rewrite slice_lookup by (done || (unfold len; lia)).
Qed.

(** ** Witnesses *)

(** Two card reads from the reader at address 0, sent one after the other. *)
Definition kat_raw (seq : Z) (card : octets) : Frame :=
  Frame.Seal (Frame.mk_Frame false true 0 (Frame.NewControl seq Frame.SchemeCRC16 false) None 0x50
    ([0; 1; 26; 0] ++ card) 0).
Definition kat_card1 : Frame := kat_raw 1 [0xDE; 0xAD; 0xBE; 0xC0].
Definition kat_card2 : Frame := kat_raw 2 [0x11; 0x22; 0x33; 0x40].

Lemma kat_card1_ok : Frame.frame_ok kat_card1.
Proof. apply Frame.frame_check_ok. by vm_compute. Qed.

Lemma kat_card1_len : (4 < length (Frame.f_Data kat_card1))%nat.
Proof. apply Nat.ltb_lt. vm_compute. reflexivity. Qed.

(** A port that hands over these chunks and then times out. *)
Definition scripted (chunks : list octets) (i : nat) (room : Z) : result octets :=
  match chunks !! i with
  | Some c => if decide (len c <= room) then Ok c else Err (ETransport ErrTimeout)
  | None => Err (ETransport ErrTimeout)
  end.

Lemma scripted_bounded chunks : bounded (scripted chunks).
Proof. intros i room bs. unfold scripted. destruct (chunks !! i); [|done]. case_decide; [by intros [= <-]|done]. Qed.

Lemma scripted_deadline chunks : deadline (scripted chunks) (length chunks).
Proof. intros i room Hi. unfold scripted. rewrite lookup_ge_None_2 by lia. by eexists. Qed.

Lemma scripted_delivers chunks : delivers (scripted chunks) 0 chunks.
Proof. intros j c room Hj Hr. unfold scripted. rewrite Nat.add_0_l, Hj. by rewrite decide_True. Qed.

(** Chunks of octets make a sane port. *)
Lemma scripted_sane chunks : forallb (forallb Frame.octetb) chunks = true -> sane (scripted chunks).
Proof.
  intros Hc. split; [apply scripted_bounded|]. intros i room bs. unfold scripted.
  assert (Hall : Forall octets_ok chunks)
    by (revert Hc; apply forallb_Forall; intros c; apply forallb_Forall, Frame.octetb_ok).
  destruct (chunks !! i) as [c|] eqn:E; [|done]. case_decide; [|done]. intros [= <-].
  exact (Forall_lookup_1 _ _ _ _ Hall E).
Qed.

(** The whole of the two frames in one read: the panel gets the first frame's
    header with the second frame's card, and no error. *)
Example card_overwritten : exists r' f',
  next (scripted [Frame.wire_octets kat_card1 ++ Frame.wire_octets kat_card2]) 3 newReader =
    Some (r', (f', None)) /\
  Frame.Control_Sequence (Frame.f_Control f') = 1 /\
  Frame.f_Data f' = Frame.f_Data kat_card2 /\ Frame.f_Data f' <> Frame.f_Data kat_card1.
Proof. do 2 eexists. split; [vm_compute; reflexivity|]. by vm_compute. Qed.

Definition kat_split : list octets :=
  [[0x11]; [0x22; 0x53; 0x80]; drop 2 (Frame.wire_octets kat_card1)].

Example readers_terminate_witness :
  is_Some (next (scripted kat_split) 5000 newReader) /\ is_Some (scan_next (scripted kat_split) 5000 newReader).
Proof.
  apply (readers_terminate (scripted kat_split) 5000 3 newReader (scripted_bounded kat_split)
    (scripted_deadline kat_split) newReader_ok). by vm_compute.
Defined.

Example frames_reassembled_witness : exists r',
  scan_next (scripted kat_split) 11 newReader = Some (r', (kat_card1, verdict kat_card1)) /\ content r' = [] /\
  r_reads r' = 3%nat.
Proof.
  destruct (frames_reassembled (scripted kat_split) kat_card1 (Frame.wire_octets kat_card1) [0x11; 0x22] kat_split
    newReader 11) as [(r' & E & H1 & H2) _].
  - exact kat_card1_ok.
  - by vm_compute.
  - exact newReader_ok.
  - done.
  - by repeat (apply Forall_cons; split; [done|]); apply Forall_nil.
  - by vm_compute.
  - by vm_compute.
  - by repeat (apply Forall_cons; split; [done|]); apply Forall_nil.
  - exact (scripted_delivers kat_split).
  - simpl. lia.
  - exists r'. split; [exact E|]. by split.
Defined.

Definition kat_both : reader := filled newReader (Frame.wire_octets kat_card1 ++ Frame.wire_octets kat_card2).

Example payload_overwritten_witness : exists r' f',
  next (scripted []) 1 kat_both = Some (r', (f', None)) /\ content r' = Frame.wire_octets kat_card2 /\
  Frame.f_Data f' !! 4%nat = Frame.wire_octets kat_card2 !! 10%nat.
Proof.
  destruct (payload_overwritten (scripted []) kat_card1 (Frame.wire_octets kat_card1) (Frame.wire_octets kat_card2)
    kat_both 0) as (r' & f' & E & _ & H1 & _ & _ & _ & _ & _ & _ & Hj).
  - exact kat_card1_ok.
  - by vm_compute.
  - apply filled_spec; [exact newReader_ok|by vm_compute].
  - by vm_compute.
  - exists r', f'. split; [exact E|]. split; [exact H1|]. rewrite Hj by exact kat_card1_len.
    vm_compute. reflexivity.
Defined.
