(* ===== verification/Port.v ===== *)
(** * The port under both loops: internal/transport/port.go

    The interface as a record of functions, each given the number of the call (for
    Read) or of the round of the loop that calls it (for the others), so that a
    port can answer differently each time. What Read and Write do depends on the
    deadline in force, the last one that was set: without one nothing bounds how long
    the port keeps a reader busy, and a write may never return ([None]). A port that
    also implements WriteDeadliner has one. *)

From S2P Require Import Prelude Errors.
From S2P Require Reader.

Record Port := mk_Port {
  pt_Read : option Z -> nat -> Z -> result octets;
  pt_Write : option Z -> nat -> octets -> option (Z * option error);
  pt_SetReadDeadline : nat -> Z -> option error;
  pt_WriteDeadliner : option (nat -> Z -> option error);
  pt_Close : option error
}.

(** The port said so itself. *)
Inductive port_error (p : Port) : error -> Prop :=
  | pe_SetReadDeadline i t e : pt_SetReadDeadline p i t = Some e -> port_error p e
  | pe_Read t i room e : pt_Read p t i room = Err e -> port_error p e
  | pe_SetWriteDeadline D i t e : pt_WriteDeadliner p = Some D -> D i t = Some e -> port_error p e
  | pe_Write t i wire n e : pt_Write p t i wire = Some (n, Some e) -> port_error p e.

(** Its read deadline works: with one in force, of any [m] reads in a row one fails.
    Nothing is said of reads without one. *)
Definition patient (p : Port) (m : nat) : Prop :=
  forall t i, exists k, (i <= k < i + m)%nat /\ Reader.fails_at (pt_Read p (Some t)) k.

(** Its write deadline works: a write returns once one is in force, and one that has
    none to set has no write that blocks for ever. *)
Definition unblocked (p : Port) : Prop :=
  match pt_WriteDeadliner p with
  | Some _ => forall t i wire, is_Some (pt_Write p (Some t) i wire)
  | None => forall i wire, is_Some (pt_Write p None i wire)
  end.

(** What transport.Port documents of Read. *)
Definition sane (p : Port) : Prop := forall t, Reader.sane (pt_Read p t).

(** The turns of a reader that are enough for a patient port. *)
Definition enough (m fuel : nat) : Prop := Z.of_nat m * 1537 + 1536 < Z.of_nat fuel.

Lemma patient_reader p m fuel r t : Reader.bounded (pt_Read p (Some t)) -> Reader.reader_ok r -> patient p m -> enough m fuel ->
  is_Some (Reader.next (pt_Read p (Some t)) fuel r) /\ is_Some (Reader.scan_next (pt_Read p (Some t)) fuel r).
Proof.
  intros Hb Hr Hm Hf. destruct (Hm t (Reader.r_reads r)) as (k & Hk & Hfail).
  apply (Reader.readers_return (pt_Read p (Some t)) k fuel r); [done|done|split; [done|lia]|].
  unfold enough in Hf. unfold Reader.budget. pose proof (Reader.ro_n _ Hr). unfold Reader.maxFrame in *. nia.
Qed.

(** A port without faults: nothing but what Read does. *)
Record faultless (p : Port) : Prop := mk_faultless {
  fl_reads : forall i x, pt_SetReadDeadline p i x = None;
  fl_deadlines : forall D i x, pt_WriteDeadliner p = Some D -> D i x = None;
  fl_writes : forall t i wire, pt_Write p t i wire = Some (len wire, None)
}.

Lemma delivers_app Read i a b : Reader.delivers Read i (a ++ b) ->
  Reader.delivers Read i a /\ Reader.delivers Read (i + length a) b.
Proof.
  intros Hd. split.
  - intros j c room Hj. apply Hd. by rewrite lookup_app_l by (by eapply lookup_lt_Some).
  - intros j c room Hj. replace (i + length a + j)%nat with (i + (length a + j))%nat by lia. apply Hd.
    rewrite lookup_app_r by lia. by replace (length a + j - length a)%nat with j by lia.
Qed.

(** A scripted port is patient: once the script is over every read fails. *)
Lemma scripted_patient chunks Write SetReadDeadline D Close :
  patient (mk_Port (fun _ => Reader.scripted chunks) Write SetReadDeadline D Close) (Datatypes.S (length chunks)).
Proof.
  intros t i. exists (length chunks + i)%nat. split; [lia|]. intros room. apply Reader.scripted_deadline. lia.
Qed.
