(* ===== verification/System.v ===== *)
(** * The two ends together

    A bus (internal/bus) and a peripheral device (internal/pd) on one line: what
    an exchange over an established channel amounts to, whatever the command and
    whatever the answer. Enrolment is in Enrol.v, lost frames in Faults.v, many
    exchanges in Delivery.v; the line itself is Reader.v's. *)

From S2P Require Import Prelude Errors Channel.
From S2P Require Frame Cmd Aes Secure Device Bus BusFacts BusLaws Pd PdFacts PdLaws.

Section with_suite.
Context {S : Secure.CipherSuite} `{!Secure.SuiteLaws S}.

Lemma synced_sym a b : Secure.synced (S := S) a b -> Secure.synced (S := S) b a.
Proof.
  intros [[? ?] [? ?] [E ?] [E2 ?] [E3 ?]]. split; [done|done|..]; rewrite <- ?E, <- ?E2, <- ?E3; done.
Qed.

(** ** The command, at the device *)

(** What the device is while it obeys the command of an exchange. *)
Definition hearing (p : Pd.Device) (now : Z) (s : Secure.Session) : Pd.Device :=
  PdFacts.noted (p <| Pd.p_session := Some s |>) now.

Lemma open_synced p f s sp c m data n : Pd.p_session p = Some sp -> Secure.synced (S := S) s sp ->
  octets_ok data -> n = len data -> enciphered (S := S) s true data c -> tagged (S := S) s true f c m ->
  Frame.f_Security f = Some (Bus.blockForCommand n) ->
  Pd.open p f = (p <| Pd.p_session := Some (Secure.commit sp true m) |>, Ok data).
Proof.
  intros Es Hs Hd -> Hc Ht Hsb. unfold Pd.open, Secure.MACTagSize.
  destruct (tagged_parts s true f c m Ht) as (H1 & H2 & H3).
  rewrite decide_False by lia. rewrite Es, Hsb, H2, H3.
  destruct (Verify_tag s sp true f c m Hs Ht) as [Hv _].
  change (slice (Frame.AppendBody f []) 0 (len (Frame.AppendBody f []) - 4)) with (Frame.body_before f 4).
  rewrite Hv. destruct (BusFacts.blockForCommand_kind (len data)) as (_ & _ & _ & ->); [apply len_nonneg|].
  destruct (decide (len data > 0)) as [Hl|Hl].
  - rewrite bool_decide_true by done. cbn [negb]. by rewrite (Open_enciphered s sp true data c m Hs Hd Hl Hc).
  - rewrite bool_decide_false by done. cbn [negb]. unfold enciphered in Hc. by rewrite decide_False in Hc; subst.
Qed.

(** A command of this device's numbering. *)
Definition in_order (p : Pd.Device) (seq : Z) : Prop :=
  Pd.g_strict (Pd.p_cfg p) = true -> Pd.p_cachedValid p = true -> seq = Pd.nextSequence (Pd.p_cachedSeq p).

Lemma in_order_strict p now seq : in_order p seq ->
  Pd.g_strict (Pd.p_cfg (PdFacts.noted p now)) && Pd.p_cachedValid (PdFacts.noted p now) &&
  bool_decide (seq <> Pd.nextSequence (Pd.p_cachedSeq (PdFacts.noted p now))) = false.
Proof.
  intros Ho. change (Pd.p_cfg (PdFacts.noted p now)) with (Pd.p_cfg p).
  change (Pd.p_cachedValid (PdFacts.noted p now)) with (Pd.p_cachedValid p).
  change (Pd.p_cachedSeq (PdFacts.noted p now)) with (Pd.p_cachedSeq p).
  destruct (Pd.g_strict (Pd.p_cfg p)) eqn:E1; [|done]. destruct (Pd.p_cachedValid p) eqn:E2; [|done].
  cbn [andb]. apply bool_decide_eq_false. intros X. by apply X, Ho.
Qed.

(** What a device answers a command of the channel with, before it is sealed. *)
Lemma answer_secure p f now s sp c m data : in_order p (Frame.Control_Sequence (Frame.f_Control f)) ->
  Pd.secureEnabled p = true -> Pd.p_session p = Some sp -> Secure.synced (S := S) s sp -> octets_ok data ->
  enciphered (S := S) s true data c -> tagged (S := S) s true f c m ->
  Frame.f_Security f = Some (Bus.blockForCommand (len data)) ->
  Pd.answerFor (PdFacts.noted p now) f (Frame.Control_Sequence (Frame.f_Control f)) =
    let '(p2, ans) := Pd.dispatch (hearing p now (Secure.commit sp true m))
      (Pd.zero_frame <| Frame.f_Code := Frame.f_Code f |> <| Frame.f_Data := data |>) true in
    Ok (p2, (ans, Pd.replyBlock (len (Cmd.m_Data ans)))).
Proof.
  intros Ho Hg Es Hs Hd Hc Ht Hsb. destruct (Secure.synced_Established s sp Hs) as [_ He].
  pose proof (open_synced p f s sp c m data _ Es Hs Hd eq_refl Hc Ht Hsb) as Hopen.
  unfold Pd.answerFor. rewrite (in_order_strict p now _ Ho).
  unfold Pd.answer. rewrite Hsb. unfold Pd.answerSecure.
  change (Pd.secureEnabled (PdFacts.noted p now)) with (Pd.secureEnabled p). rewrite Hg. cbn [negb]. cbv zeta.
  assert (Hty : Frame.sb_Type (Bus.blockForCommand (len data)) = Secure.SCS15 \/
                Frame.sb_Type (Bus.blockForCommand (len data)) = Secure.SCS17)
    by (unfold Bus.blockForCommand; case_decide; auto).
  rewrite decide_False by (by destruct Hty as [-> | ->]). rewrite decide_False by (by destruct Hty as [-> | ->]).
  rewrite decide_True by done. unfold Pd.answerEstablished, Pd.Device_Secure.
  change (Pd.p_session (PdFacts.noted p now)) with (Pd.p_session p). rewrite Es, He. cbn [negb].
  rewrite PdLaws.open_noted, Hopen. cbn [fst snd]. fold (hearing p now (Secure.commit sp true m)).
  by destruct (Pd.dispatch _ _ true).
Qed.

(** All that shows on the line of a message that crosses it on a channel. *)
Definition sealed_length (n : Z) : Z := if decide (n > 0) then Secure.AES128.paddedLen n else 0.

Record carried (f : Frame.Frame) (reply : bool) (addr q : Z) (scheme : Frame.Scheme) (m : Cmd.Message) : Prop := mk_carried {
  ca_ok : Frame.frame_ok f;
  ca_check : Frame.CheckOK f = true;
  ca_reply : Frame.f_IsReply f = reply;
  ca_addr : Frame.f_Address f = addr;
  ca_seq : Frame.Control_Sequence (Frame.f_Control f) = q;
  ca_scheme : Frame.Control_Scheme (Frame.f_Control f) = scheme;
  ca_code : Frame.f_Code f = Cmd.m_Code m;
  ca_block : exists t, Frame.f_Security f = Some (Pd.SB t);
  ca_length : len (Frame.f_Data f) = sealed_length (len (Cmd.m_Data m)) + 4
}.

Lemma tagged_length s way f c m data : Secure.session_ok s -> octets_ok data -> enciphered (S := S) s way data c ->
  tagged (S := S) s way f c m -> len (Frame.f_Data f) = sealed_length (len data) + 4.
Proof.
  intros Hs Hd Hc [-> Hm _]. rewrite len_app, len_tag by done. by rewrite (enciphered_len s way data c).
Qed.

Lemma Handle_secure p f now s sp c m data : PdFacts.pd_ok (S := S) p -> Frame.frame_ok f ->
  PdLaws.new_command p f now -> in_order p (Frame.Control_Sequence (Frame.f_Control f)) ->
  Pd.secureEnabled p = true -> Pd.p_session p = Some sp -> Secure.synced (S := S) s sp -> octets_ok data ->
  enciphered (S := S) s true data c -> tagged (S := S) s true f c m ->
  Frame.f_Security f = Some (Bus.blockForCommand (len data)) ->
  let sp1 := Secure.commit sp true m in
  let g := Pd.zero_frame <| Frame.f_Code := Frame.f_Code f |> <| Frame.f_Data := data |> in
  let '(p2, ans) := Pd.dispatch (hearing p now sp1) g true in
  exists r c' m',
    let p3 := PdLaws.cached (p2 <| Pd.p_session := Some (Secure.commit sp1 false m') |>)
                (Frame.Control_Sequence (Frame.f_Control f)) r in
    let q := Frame.Control_Sequence (Frame.f_Control f) in
    (Pd.answerFor (PdFacts.noted p now) f q = Ok (p2, (ans, Pd.replyBlock (len (Cmd.m_Data ans)))) /\
     Pd.emit p2 f q ans (Pd.replyBlock (len (Cmd.m_Data ans))) = (Pd.adoptKey (PdLaws.moved p3), Ok r)) /\
    Pd.Handle p f now = (Pd.adoptKey (PdLaws.moved p3), Ok r) /\
    PdFacts.reply_ok (Pd.p_address p) q (Frame.Control_Scheme (Frame.f_Control f)) (Cmd.m_Code ans)
      (Pd.replyBlock (len (Cmd.m_Data ans))) r /\
    PdFacts.msg_ok ans /\ PdFacts.obeying (S := S) (hearing p now sp1) p2 /\
    enciphered (S := S) sp1 false (Cmd.m_Data ans) c' /\ tagged (S := S) sp1 false r c' m' /\
    Secure.session_ok sp1.
Proof.
  intros Hp Hf Hn Ho Hg Es Hs Hd Hc Ht Hsb. cbv zeta.
  destruct (Secure.synced_Established s sp Hs) as [_ He].
  assert (Hcommit : PdFacts.session_of (S := S) (Secure.commit sp true m)).
  { destruct (PdFacts.sv_session p (proj1 Hp) sp Es) as [[Hs0 HS0] _]. split; [|done].
    apply Secure.session_ok_commit; [done|apply Ht|apply Hs]. }
  destruct (PdFacts.sv_session p (proj1 Hp) sp Es) as [_ Hsec].
  pose proof (PdLaws.noted_ok _ now (conj (PdFacts.set_session_ok p _ (proj1 Hp) Hcommit Hsec) (proj2 Hp))) as [Hp1 _].
  fold (hearing p now (Secure.commit sp true m)) in Hp1.
  pose proof (answer_secure p f now s sp c m data Ho Hg Es Hs Hd Hc Ht Hsb) as Hans.
  set (g := Pd.zero_frame <| Frame.f_Code := _ |> <| Frame.f_Data := data |>) in *.
  destruct (PdFacts.pd_dispatch_ok (hearing p now (Secure.commit sp true m)) g true Hp1 Hd) as [Hob Hm].
  destruct (Pd.dispatch _ g true) as [p2 ans] eqn:Ed. cbn [fst snd] in Hob, Hm.
  pose proof (PdLaws.nc_seq p f now Hn) as Hz. pose proof (PdFacts.Sequence_bound (Frame.f_Control f)) as Hq.
  assert (Ese : Pd.p_session p2 = Some (Secure.commit sp true m)) by (by rewrite (PdFacts.ob_session _ _ Hob)).
  destruct (PdLaws.emit_sealed p2 f (Frame.Control_Sequence (Frame.f_Control f)) ans (Secure.commit sp true m))
    as (r & c' & m' & Hemit & Hr & Hc' & Ht'); [apply Hob|done|lia|done|exact He|].
  exists r, c', m'. split; [by split|]. split_and!; try done; try apply Hcommit.
  - rewrite PdLaws.Handle_new by done. unfold Pd.fresh. by rewrite Hans.
  - pose proof (PdFacts.ob_address _ _ Hob) as Ea. change (Pd.p_address p2 = Pd.p_address p) in Ea.
    rewrite <- Ea. exact Hr.
Qed.

(** ** The answer, at the bus *)

(** What the bus's device is when the answer's payload is out. *)
Definition heard (d : Device.Device) (now : Z) (s : Secure.Session) : Device.Device :=
  Device.delivered (d <| Device.d_LastSeen := now |> <| Device.d_misses := 0 |> <| Device.d_session := Some s |>).

Lemma openReply_synced f s sp c m data : Secure.synced (S := S) sp s -> octets_ok data ->
  enciphered (S := S) sp false data c -> tagged (S := S) sp false f c m ->
  Frame.f_Security f = Pd.replyBlock (len data) ->
  Bus.openReply s f = (Secure.commit s false m, Ok data).
Proof.
  intros Hs Hd Hc Ht Hsb. unfold Bus.openReply.
  destruct (PdFacts.replyBlock_kind (len data)) as (t & Hb & _ & _ & Henc); [apply len_nonneg|].
  rewrite Hb in Hsb. rewrite Hsb. unfold Secure.MACTagSize.
  destruct (tagged_parts sp false f c m Ht) as (H1 & H2 & H3). rewrite decide_False by lia. rewrite H2, H3.
  destruct (Verify_tag sp s false f c m Hs Ht) as [Hv _].
  change (slice (Frame.AppendBody f []) 0 (len (Frame.AppendBody f []) - 4)) with (Frame.body_before f 4).
  rewrite Hv. cbn [Frame.sb_Type Pd.SB]. rewrite Henc.
  destruct (decide (len data > 0)) as [Hl|Hl].
  - rewrite bool_decide_true by done. cbn [negb]. by rewrite (Open_enciphered sp s false data c m Hs Hd Hl Hc).
  - rewrite bool_decide_false by done. cbn [negb]. unfold enciphered in Hc. by rewrite decide_False in Hc; subst.
Qed.

Lemma reply_secure b d i r now s sp c m ans seq scheme : PdFacts.msg_ok ans ->
  PdFacts.reply_ok (Device.d_Address d) seq scheme (Cmd.m_Code ans) (Pd.replyBlock (len (Cmd.m_Data ans))) r ->
  seq <> 0 -> Device.d_session d = Some s -> Secure.synced (S := S) sp s ->
  enciphered (S := S) sp false (Cmd.m_Data ans) c -> tagged (S := S) sp false r c m ->
  Bus.reply b d i r now =
    Bus.dispatch b (heard d now (Secure.commit s false m)) i (ans <| Cmd.m_IsReply := true |>).
Proof.
  intros [_ Hd] [] Hz Es Hs Hc Ht. destruct (Secure.synced_Established sp s Hs) as [_ He].
  unfold Bus.reply. rewrite re_reply. cbn [negb]. rewrite decide_False by (intros X; by apply X). cbv zeta.
  rewrite decide_False by congruence.
  change (Device.d_session (d <| Device.d_LastSeen := now |> <| Device.d_misses := 0 |>)) with (Device.d_session d).
  rewrite Es, He, (openReply_synced r s sp c m (Cmd.m_Data ans) Hs Hd Hc Ht re_block).
  unfold heard, Cmd.Decode. cbn [Frame.f_Code Frame.f_IsReply Frame.f_Data update]. rewrite re_code, re_reply.
  by destruct ans.
Qed.

(** ** In step *)

(** What the two ends have to agree on. *)
Record in_step (d : Device.Device) (p : Pd.Device) : Prop := mk_in_step {
  is_addr : Device.d_Address d = Pd.p_address p;
  is_state : Device.d_State d = Device.Secure;
  is_channel : exists s sp, Device.d_session d = Some s /\ Pd.p_session p = Some sp /\
    Secure.synced (S := S) s sp;
  is_seq : Pd.p_cachedValid p = true /\ Pd.p_cachedSeq p = Device.d_seq d;
  is_repeat : Device.d_repeatSequence d = false
}.

(** What the bus chooses for a device on its channel. *)
Lemma commandFor_secure b d d1 n msg block : Device.d_State d = Device.Secure ->
  Bus.commandFor b d = (d1, n, Ok (msg, block)) ->
  Device.d_session d1 = Device.d_session d /\ block = Some (Bus.blockForCommand (len (Cmd.m_Data msg))) /\
  (msg = Device.pollMessage \/ head (Device.d_outbox d) = Some msg).
Proof.
  intros Est. unfold Bus.commandFor. rewrite Est.
  destruct (BusFacts.deferring_fields d) as [v Ev]. destruct (Device.deferring d) as [d0 df]. cbn [fst] in Ev. subst d0.
  set (d0 := d <| Device.d_deferCommands := v |>).
  destruct df; [intros [= <- _ <- <-]; by split_and!; [..|left]|].
  destruct (Device.withholdsKeySet d0); [intros [= <- _ <- <-]; by split_and!; [..|left]|].
  destruct (BusFacts.outbound_fields d0) as (i & o & Eo & Hc).
  destruct (Device.outbound d0) as [d2 m]. cbn [fst snd] in Eo, Hc. subst d2. intros [= <- _ <- <-].
  split_and!; try done. destruct Hc as [[-> _]|[_ Hc]]; [by left|right].
  change (Device.d_outbox d0) with (Device.d_outbox d) in Hc. by rewrite Hc.
Qed.

Lemma heard_fields d now s : Device.d_Address (heard d now s) = Device.d_Address d /\
  Device.d_State (heard d now s) = Device.d_State d /\ Device.d_session (heard d now s) = Some s /\
  Device.d_seq (heard d now s) = Device.d_seq d /\
  Device.d_repeatSequence (heard d now s) = Device.d_repeatSequence d.
Proof. unfold heard, Device.delivered. by case_match. Qed.

Lemma not_adopting p : Pd.p_adoptingKey p = None -> Pd.adoptKey p = p.
Proof. unfold Pd.adoptKey. by intros ->. Qed.

(** The number of the next command, to a device that answered the last one. *)
Lemma in_step_sequence d p : in_step d p -> PdFacts.serving (S := S) p ->
  exists q, Device.nextSequence d = (d <| Device.d_seq := q |> <| Device.d_repeatSequence := false |>, q) /\
    1 <= q <= 3 /\ q <> Pd.p_cachedSeq p /\ q = Pd.nextSequence (Pd.p_cachedSeq p).
Proof.
  intros [_ _ _ [Hv Hs] Hr] Hp. destruct (PdFacts.sv_cached p Hp Hv) as (_ & _ & _ & _ & Hq).
  rewrite Hs in *. destruct (BusFacts.nextSequence_spec d) as (q & E & H1 & H2); [lia|by rewrite Hr|].
  exists q. rewrite Hr in H2. split_and!; try done; try lia; unfold Pd.nextSequence, Pd.sequenceRotation.
  - assert (Device.d_seq d = 1 \/ Device.d_seq d = 2 \/ Device.d_seq d = 3) as [E1|[E1|E1]] by lia; rewrite H2, E1; done.
  - assert (Device.d_seq d = 1 \/ Device.d_seq d = 2 \/ Device.d_seq d = 3) as [E1|[E1|E1]] by lia; rewrite H2, E1; done.
Qed.

(** The bus's half: the frame that leaves, and the device it leaves behind. *)
Record sent_frame (b : Bus.Bus) (d d1 : Device.Device) (p : Pd.Device) (s : Secure.Session) (msg : Cmd.Message) (q : Z)
    (f : Frame.Frame) (c m : octets) : Prop := mk_sent_frame {
  sf_same : Device.d_Address d1 = Device.d_Address d /\ Device.d_State d1 = Device.d_State d;
  sf_msg : Cmd.msg_ok msg;
  sf_carried : carried f false (Pd.p_address p) q (Bus.b_scheme b) msg;
  sf_seq : 1 <= q <= 3 /\ q <> Pd.p_cachedSeq p /\ q = Pd.nextSequence (Pd.p_cachedSeq p);
  sf_block : Frame.f_Security f = Some (Bus.blockForCommand (len (Cmd.m_Data msg)));
  sf_data : enciphered (S := S) s true (Cmd.m_Data msg) c;
  sf_tag : tagged (S := S) s true f c m
}.

(** A device after the frame has left: numbered, and its chain stepped. *)
Definition numbered (d1 : Device.Device) (q : Z) (s : Secure.Session) : Device.Device :=
  d1 <| Device.d_seq := q |> <| Device.d_repeatSequence := false |> <| Device.d_session := Some s |>.

(** The turn of device [d], which took [msg]: of the line, that device and the turn
    changed. *)
Record took_turn (b b' : Bus.Bus) (d d1 : Device.Device) (msg : Cmd.Message) (d' : Device.Device) : Prop := mk_took_turn {
  tt_chosen : exists b0 n block, Bus.commandFor b0 d = (d1, n, Ok (msg, block));
  tt_devices : Bus.b_devices b' = <[Bus.b_current b := d']> (Bus.b_devices b);
  tt_current : Bus.b_current b' = ((Bus.b_current b + 1) mod length (Bus.b_devices b))%nat
}.

Lemma took_turn_device b b' d d1 msg d' : Bus.device b (Bus.b_current b) = Some d -> took_turn b b' d d1 msg d' ->
  Bus.device b' (Bus.b_current b) = Some d'.
Proof.
  intros Hd Ht. unfold Bus.device. rewrite (tt_devices _ _ _ _ _ _ Ht).
  by apply list_lookup_insert_eq, (lookup_lt_Some _ _ _ Hd).
Qed.

Lemma command_sent b d p : BusFacts.bus_ok (S := S) b -> Bus.device b (Bus.b_current b) = Some d ->
  PdFacts.pd_ok (S := S) p -> in_step d p -> Forall (fun m => Cmd.m_IsReply m = false) (Device.d_outbox d) ->
  exists b' d1 msg q f c m s sp,
    Bus.Next b = (b', Some (Bus.mk_Step (Bus.b_current b) f (Bus.l_ReplyTimeout (Bus.b_line b)))) /\
    took_turn b b' d d1 msg (numbered d1 q (Secure.commit s true m)) /\
    (msg = Device.pollMessage \/ head (Device.d_outbox d) = Some msg) /\
    (Device.d_session d = Some s /\ Pd.p_session p = Some sp) /\ Secure.synced (S := S) s sp /\ sent_frame b d d1 p s msg q f c m.
Proof.
  intros Hb Hdev Hp Hstep Hcmds. pose proof (BusFacts.bus_ok_device b _ d Hb Hdev) as Hd.
  pose proof Hstep as [Haddr Hst (s & sp & Es & Esp & Hs) _ Hrep].
  pose proof (BusFacts.Next_unfold b d Hdev) as Hnext. cbv zeta in Hnext.
  set (b0 := b <| Bus.b_current := _ |>) in *.
  destruct (BusFacts.commandFor_spec b0 d) as (d1 & n & msg & block & Ec & Hc);
    [by apply (BusFacts.device_ok_config b)|exact (BusFacts.bus_ok_config b Hb)|].
  destruct (commandFor_secure b0 d d1 n msg block Hst Ec) as (Es1 & -> & Hmsg).
  pose proof Hc as [Harm Hm _ (Ca & Cs & Cq & Cr & _) _ _ _].
  assert (Hreply : Cmd.m_IsReply msg = false).
  { destruct Hmsg as [-> |Hh]; [done|]. destruct (Device.d_outbox d) as [|m0 o]; [done|].
    injection Hh as ->. by apply Forall_cons in Hcmds as [? _]. }
  destruct (BusFacts.do_session b d Hd s Es) as (Hs0 & HS0 & _).
  pose proof (PdFacts.sv_addr p (proj1 Hp)) as Hpa.
  destruct (Secure.synced_Established s sp Hs) as [He _].
  destruct (BusFacts.compose_secure b0 d1 msg s Harm Hm) as (f & c & m & (q & Eq & Er & Hf) & Hfs & Hfd & Hfc & Hmb & Hmac & _);
    [by rewrite Ca, Haddr; lia|by rewrite Es1|done..|].
  assert (Hstep1 : in_step d1 p) by (split; [congruence|congruence|exists s, sp; split_and!; congruence || done|split; [apply Hstep|rewrite Cq; apply Hstep]|congruence]).
  destruct (in_step_sequence d1 p Hstep1 (proj1 Hp)) as (q' & Eq' & Hq & Hqne & Hqn).
  rewrite Eq in Eq'. assert (q' = q) as -> by (by injection Eq'). clear Eq'.
  pose proof Hf as [F1 F2 F3 F4 F5 F6 F7 F8].
  rewrite (Hnext _ _ _ _ _ _ Ec Er). eexists _, d1, msg, q, f, c, m, s, sp. split; [done|].
  split; [split; [by eexists b0, n, _|done|done]|]. split; [done|]. split; [done|]. split; [done|].
  assert (Htag : tagged (S := S) s true f c m) by done.
  split; try done. split; try done; try congruence.
  - unfold Bus.blockForCommand in Hfs. case_decide; rewrite Hfs; by eexists.
  - apply (tagged_length s true f c m (Cmd.m_Data msg)); try done. apply Hm.
Qed.

(** One exchange over an established channel: the two frames and the two messages
    they carry, the two sessions at either end, and what each end is once its part is done. *)
Record exchange := mk_exchange {
  x_bus : Bus.Bus; x_taken : Device.Device; x_msg : Cmd.Message; x_seq : Z; x_s1 : Secure.Session; x_f : Frame.Frame;
  x_sp1 : Secure.Session; x_s2 : Secure.Session; x_sp2 : Secure.Session;
  x_obeyed : Pd.Device; x_ans : Cmd.Message; x_r : Frame.Frame; x_pd : Pd.Device
}.

Definition x_sent (x : exchange) : Device.Device := numbered (x_taken x) (x_seq x) (x_s1 x).

Record exchanged (b : Bus.Bus) (d : Device.Device) (p : Pd.Device) (now now' : Z) (x : exchange) : Prop := mk_exchanged {
  xd_next : Bus.Next b =
    (x_bus x, Some (Bus.mk_Step (Bus.b_current b) (x_f x) (Bus.l_ReplyTimeout (Bus.b_line b))));
  xd_turn : took_turn b (x_bus x) d (x_taken x) (x_msg x) (x_sent x);
  xd_msg : x_msg x = Device.pollMessage \/ head (Device.d_outbox d) = Some (x_msg x);
  xd_seq : 1 <= x_seq x <= 3 /\ x_seq x = Pd.nextSequence (Pd.p_cachedSeq p);
  xd_command : carried (x_f x) false (Pd.p_address p) (x_seq x) (Bus.b_scheme b) (x_msg x);
  xd_hears : PdLaws.new_command p (x_f x) now;
  xd_dispatch : Pd.dispatch (hearing p now (x_sp1 x))
    (Pd.zero_frame <| Frame.f_Code := Cmd.m_Code (x_msg x) |> <| Frame.f_Data := Cmd.m_Data (x_msg x) |>) true =
    (x_obeyed x, x_ans x);
  xd_ans : PdFacts.msg_ok (x_ans x) /\ PdFacts.msg_ok (x_msg x);
  xd_address : Pd.p_address (x_obeyed x) = Pd.p_address p;
  xd_session : Pd.p_session (x_obeyed x) = Some (x_sp1 x) /\ Secure.session_ok (x_sp1 x) /\
    Secure.s_suite (x_sp1 x) = S /\ Secure.Established (x_sp1 x) = true;
  xd_answer : Pd.answerFor (PdFacts.noted p now) (x_f x) (x_seq x) =
    Ok (x_obeyed x, (x_ans x, Pd.replyBlock (len (Cmd.m_Data (x_ans x)))));
  xd_emit : Pd.emit (x_obeyed x) (x_f x) (x_seq x) (x_ans x) (Pd.replyBlock (len (Cmd.m_Data (x_ans x)))) = (x_pd x, Ok (x_r x));
  xd_handle : Pd.Handle p (x_f x) now = (x_pd x, Ok (x_r x));
  xd_ok : PdFacts.pd_ok (S := S) (x_pd x);
  xd_pd : x_pd x = Pd.adoptKey (PdLaws.moved (PdLaws.cached (x_obeyed x <| Pd.p_session := Some (x_sp2 x) |>) (x_seq x) (x_r x)));
  xd_reply : carried (x_r x) true (Pd.p_address p) (x_seq x) (Bus.b_scheme b) (x_ans x);
  xd_opened : Secure.Established (x_s1 x) = true /\ Bus.openReply (x_s1 x) (x_r x) = (x_s2 x, Ok (Cmd.m_Data (x_ans x)));
  xd_heard : Bus.reply (x_bus x) (x_sent x) (Bus.b_current b) (x_r x) now' =
    Bus.dispatch (x_bus x) (heard (x_sent x) now' (x_s2 x)) (Bus.b_current b) (x_ans x <| Cmd.m_IsReply := true |>);
  xd_step : Pd.p_adopting (x_obeyed x) = None -> Pd.p_adoptingKey (x_obeyed x) = None ->
    in_step (heard (x_sent x) now' (x_s2 x)) (x_pd x);
  xd_down : exists s, Device.d_session d = Some s /\ crosses (S := S) s true (x_f x) (x_msg x);
  xd_up : crosses (S := S) (x_sp1 x) false (x_r x) (x_ans x)
}.

Lemma channel_step b d p now now' : BusFacts.bus_ok (S := S) b ->
  Bus.device b (Bus.b_current b) = Some d -> PdFacts.pd_ok (S := S) p -> in_step d p ->
  PdFacts.quiet p now -> Forall (fun m => Cmd.m_IsReply m = false) (Device.d_outbox d) ->
  exists x, exchanged b d p now now' x.
Proof.
  intros Hb Hdev Hp Hstep Hquiet Hcmds.
  destruct (command_sent b d p Hb Hdev Hp Hstep Hcmds)
    as (b' & d1 & msg & q & f & c & m & s & sp & En & Hturn & Hmsg & (Hds & Esp) & Hs & [[Ca Cs] Hm Hcar (Hq & Hqne & Hqn) Hfs Hfc Ht]).
  pose proof Hcar as [F1 F2 F5 F4 F6 F7 F8 _ _]. pose proof Hstep as [Haddr Hst _ _ _].
  assert (Hnew : PdLaws.new_command p f now).
  { split; [|..|done| |].
    - unfold Pd.screen. by rewrite F5, F2.
    - unfold Pd.addressed. by rewrite F4, bool_decide_true.
    - rewrite F6. lia.
    - by rewrite F6. }
  destruct (PdFacts.sv_session p (proj1 Hp) sp Esp) as [[_ Hsuite] Hsec].
  pose proof (Handle_secure p f now s sp c m (Cmd.m_Data msg) Hp F1 Hnew) as HH. cbv zeta in HH.
  rewrite F6, F7, F8 in HH.
  assert (Hin : in_order p q) by (by intros _ _).
  specialize (HH Hin Hsec Esp Hs ltac:(apply Hm) Hfc Ht Hfs).
  destruct (Pd.dispatch _ _ true) as [p2 ans] eqn:Ed.
  destruct HH as (r & c' & m' & [Hanswer Hemit] & HHandle & Hr & Hans & Hob & Hc' & Ht' & Hsp1).
  destruct (Verify_tag s sp true f c m Hs Ht) as [_ Hs1].
  destruct (Verify_tag _ _ false r c' m' (synced_sym _ _ Hs1) Ht') as [_ Hs2].
  destruct (Secure.synced_Established _ _ Hs1) as [He1 He2].
  pose proof (PdFacts.ob_address _ _ Hob) as Hpa2. change (Pd.p_address p2 = Pd.p_address p) in Hpa2.
  exists (mk_exchange b' d1 msg q (Secure.commit s true m) f (Secure.commit sp true m)
    (Secure.commit (Secure.commit s true m) false m') (Secure.commit (Secure.commit sp true m) false m') p2 ans r
    (Pd.adoptKey (PdLaws.moved (PdLaws.cached (p2 <| Pd.p_session := Some (Secure.commit (Secure.commit sp true m) false m') |>) q r)))).
  split; cbn [x_bus x_taken x_msg x_seq x_s1 x_f x_sp1 x_s2 x_sp2 x_obeyed x_ans x_r x_pd]; try done.
  - by split_and!; [rewrite (PdFacts.ob_session _ _ Hob)|..].
  - destruct (PdFacts.Handle_ok p f now Hp F1) as (p' & r' & E & Hp' & _); [apply Hnew|apply Hnew|].
    rewrite HHandle in E. pose proof (f_equal fst E) as E1. cbn [fst] in E1. by rewrite E1.
  - pose proof Hr as [R1 R2 R3 R4 R5 R6 R7 R8]. split; try done.
    + rewrite R8. unfold Pd.replyBlock. case_decide; by eexists.
    + apply (tagged_length _ false r c' m' (Cmd.m_Data ans) Hsp1); try done. apply Hans.
  - split; [exact He1|]. apply (openReply_synced r _ _ c' m' (Cmd.m_Data ans) (synced_sym _ _ Hs1)); try done; [apply Hans|apply Hr].
  - assert (Hda : Device.d_Address (numbered d1 q (Secure.commit s true m)) = Pd.p_address p) by (rewrite <- Haddr; exact Ca).
    rewrite <- Hda in Hr. eapply (reply_secure _ _ _ r now' _ _ c' m' ans q _ Hans Hr); [lia|reflexivity|by apply synced_sym|done|done].
  - intros Ha Hk. rewrite PdLaws.not_moved by exact Ha. rewrite not_adopting by exact Hk.
    unfold x_sent. cbn [x_taken x_seq x_s1].
    destruct (heard_fields (numbered d1 q (Secure.commit s true m)) now' (Secure.commit (Secure.commit s true m) false m'))
      as (G1 & G2 & G3 & G4 & G5).
    split; rewrite ?G1, ?G2, ?G3, ?G4, ?G5; try done.
    + change (Device.d_Address d1 = Pd.p_address p2). congruence.
    + change (Device.d_State d1 = Device.Secure). congruence.
    + do 2 eexists. split; [done|]. split; [done|]. by apply synced_sym.
  - exists s. split; [exact Hds|]. apply (crosses_intro s true f msg c m); try done.
    rewrite Hfs. unfold Bus.blockForCommand. by case_decide.
  - apply (crosses_intro _ false r ans c' m'); try done; [apply Hr|].
    rewrite (PdFacts.re_block _ _ _ _ _ _ Hr). unfold Pd.replyBlock. by case_decide.
Qed.

(** C8. An established channel is transparent. When the two ends are in step and the
    device has not been left silent for longer than its own timeout, the command the
    bus chooses (a poll, or the head of the device's queue) crosses the line under
    SCS_17 with its payload enciphered, or under SCS_15 when it has none, and with its
    tag; the device obeys exactly that command, once; its answer crosses back the same
    way under SCS_18 or SCS_16, and the bus dispatches exactly that answer. Nothing is
    taken for a failure, and unless the command changed the device's address or key the
    two ends are in step again, for the next exchange. *)
Theorem channel_transparent b d p now now' : BusFacts.bus_ok (S := S) b ->
  Bus.device b (Bus.b_current b) = Some d -> PdFacts.pd_ok (S := S) p -> in_step d p ->
  PdFacts.quiet p now -> Forall (fun m => Cmd.m_IsReply m = false) (Device.d_outbox d) ->
  exists b' st msg d', Bus.Next b = (b', Some st) /\ Bus.device b' (Bus.st_Device st) = Some d' /\
    (msg = Device.pollMessage \/ head (Device.d_outbox d) = Some msg) /\
    (exists s, Device.d_session d = Some s /\ crosses (S := S) s true (Bus.st_Frame st) msg) /\
    exists sp1 s2 sp2,
      let '(p2, ans) := Pd.dispatch (hearing p now sp1)
          (Pd.zero_frame <| Frame.f_Code := Cmd.m_Code msg |> <| Frame.f_Data := Cmd.m_Data msg |>) true in
      exists r p', Pd.Handle p (Bus.st_Frame st) now = (p', Ok r) /\ PdFacts.pd_ok (S := S) p' /\
        crosses (S := S) sp1 false r ans /\
        p' = Pd.adoptKey (PdLaws.moved (PdLaws.cached (p2 <| Pd.p_session := Some sp2 |>) (Device.d_seq d') r)) /\
        Bus.reply b' d' (Bus.st_Device st) r now' =
          Bus.dispatch b' (heard d' now' s2) (Bus.st_Device st) (ans <| Cmd.m_IsReply := true |>) /\
        (Pd.p_adopting p2 = None -> Pd.p_adoptingKey p2 = None -> in_step (heard d' now' s2) p').
Proof.
  intros Hb Hdev Hp Hstep Hquiet Hcmds.
  destruct (channel_step b d p now now' Hb Hdev Hp Hstep Hquiet Hcmds) as [x Hx].
  eexists (x_bus x), _, (x_msg x), (x_sent x). split; [apply Hx|]. split; [exact (took_turn_device _ _ _ _ _ _ Hdev (xd_turn _ _ _ _ _ _ Hx))|].
  split; [apply Hx|]. split; [apply Hx|]. exists (x_sp1 x), (x_s2 x), (x_sp2 x). rewrite (xd_dispatch _ _ _ _ _ _ Hx).
  exists (x_r x), (x_pd x). split_and!; apply Hx.
Qed.

End with_suite.
