(* ===== verification/Enrol.v ===== *)
(** * Enrolment: from an unknown reader to a running channel

    The four exchanges that bring a device from offline to an established channel,
    both ends being the modelled ones: osdp_ID, osdp_CAP, osdp_CHLNG, osdp_SCRYPT.
    Outside a channel the payloads travel as they are, so each exchange is one
    answer of the device dispatched by the bus. *)

From S2P Require Import Prelude Errors Channel.
From S2P Require Frame Cmd Aes Secure Device Bus BusFacts BusLaws Pd PdFacts PdLaws System.

(** One turn of panel.cycle over a line that loses nothing; a reply the bus
    cannot attribute counts as silence. *)
Definition exchange (b : Bus.Bus) (p : Pd.Device) (now : Z) : Bus.Bus * Pd.Device * option Bus.Event :=
  match Bus.Next b with
  | (b, None) => (b, p, None)
  | (b, Some st) =>
      match Pd.Handle p (Bus.st_Frame st) now with
      | (p, Err _) => let '(b, e) := Bus.Timeout b (Bus.st_Device st) in (b, p, e)
      | (p, Ok r) =>
          match Bus.Reply b (Bus.st_Device st) r now with
          | (b, Ok e) => (b, p, Some e)
          | (b, Err _) => let '(b, e) := Bus.Timeout b (Bus.st_Device st) in (b, p, e)
          end
      end
  end.

(** The same with the two ends' own clocks: [t] at the device, [t'] at the bus. *)
Definition transaction (b : Bus.Bus) (d : Pd.Device) (t t' : Z) : Bus.Bus * Pd.Device * option Bus.Event :=
  match Bus.Next b with
  | (b, None) => (b, d, None)
  | (b, Some st) =>
      match Pd.Handle d (Bus.st_Frame st) t with
      | (d, Err _) => let '(b, e) := Bus.Timeout b (Bus.st_Device st) in (b, d, e)
      | (d, Ok r) =>
          match Bus.Reply b (Bus.st_Device st) r t' with
          | (b, Ok e) => (b, d, Some e)
          | (b, Err _) => let '(b, e) := Bus.Timeout b (Bus.st_Device st) in (b, d, e)
          end
      end
  end.

Lemma transaction_exchange b d t : transaction b d t t = exchange b d t.
Proof. done. Qed.

Section with_suite.
Context {S : Secure.CipherSuite} `{!Secure.SuiteLaws S}.

(** ** Outside the channel *)

Definition plain_command (block : option Frame.SecurityBlock) : Prop :=
  block = None \/ block = Some (Bus.SB Secure.SCS11) \/ block = Some (Bus.SB Secure.SCS13).
Definition plain_answer (block : option Frame.SecurityBlock) : Prop :=
  block = None \/ block = Some (Pd.SB Secure.SCS12) \/ block = Some (Pd.SB Secure.SCS14).

Lemma emit_plain p command seq m block : PdFacts.serving (S := S) p -> PdFacts.msg_ok m -> 1 <= seq <= 3 ->
  plain_answer block -> exists r,
    Pd.emit p command seq m block = (Pd.adoptKey (PdLaws.moved (PdLaws.cached p seq r)), Ok r) /\
    PdFacts.reply_ok (Pd.p_address p) seq (Frame.Control_Scheme (Frame.f_Control command)) (Cmd.m_Code m) block r /\
    Frame.f_Data r = Cmd.m_Data m.
Proof.
  intros Hp Hm Hs Hb. pose proof (PdFacts.sv_addr p Hp) as Ha. unfold Pd.emit. cbv zeta.
  set (scheme := Frame.Control_Scheme _).
  exists (Frame.Seal (Frame.mk_Frame false true (Pd.p_address p)
    (Frame.NewControl seq scheme (bool_decide (is_Some block))) block (Cmd.m_Code m) (Cmd.m_Data m) 0)).
  assert (Hr : Pd.encode p (m <| Cmd.m_IsReply := true |>) seq scheme block =
    (p, Ok (Frame.Seal (Frame.mk_Frame false true (Pd.p_address p)
      (Frame.NewControl seq scheme (bool_decide (is_Some block))) block (Cmd.m_Code m) (Cmd.m_Data m) 0)))).
  { unfold Pd.encode. destruct Hb as [-> |[-> | ->]]; unfold Cmd.Encode, Cmd.EncodeSecure;
      cbn [Frame.sb_Type Pd.SB Cmd.m_IsReply Cmd.m_Code Cmd.m_Data update];
      rewrite Frame.Address_Valid_lt by lia; done. }
  rewrite Hr, decide_False by lia. split; [done|]. split; [|done].
  apply PdFacts.reply_ok_seal; [lia|lia|apply Hm|apply Hm|].
  intros sb E. destruct Hb as [-> |[-> | ->]]; [done| |].
  - by apply (PdFacts.block_octets Secure.SCS12).
  - by apply (PdFacts.block_octets Secure.SCS14).
Qed.

(** What the bus's device is when an answer in the clear is taken. *)
Definition attended (d : Device.Device) (now : Z) : Device.Device :=
  Device.delivered (d <| Device.d_LastSeen := now |> <| Device.d_misses := 0 |>).

Lemma reply_plain b d i r now ans seq scheme block :
  PdFacts.reply_ok (Device.d_Address d) seq scheme (Cmd.m_Code ans) block r ->
  Frame.f_Data r = Cmd.m_Data ans -> seq <> 0 -> Device.secureEstablished d = false ->
  Bus.reply b d i r now = Bus.dispatch b (attended d now) i (ans <| Cmd.m_IsReply := true |>).
Proof.
  intros [] Hd Hz He. unfold Bus.reply. rewrite re_reply. cbn [negb].
  rewrite decide_False by (intros X; by apply X). cbv zeta. rewrite decide_False by congruence.
  change (Device.d_session (d <| Device.d_LastSeen := now |> <| Device.d_misses := 0 |>)) with (Device.d_session d).
  assert (Hdec : Cmd.Decode r = ans <| Cmd.m_IsReply := true |>).
  { unfold Cmd.Decode. rewrite re_code, re_reply, Hd. by destruct ans. }
  rewrite Hdec. unfold Device.secureEstablished in He. destruct (Device.d_session d) as [s|]; [|done]. by rewrite He.
Qed.

(** The next number is neither a restart nor a repeat. *)
Definition ready (d : Device.Device) (p : Pd.Device) : Prop :=
  Device.d_repeatSequence d = false /\ (Pd.p_cachedValid p = true -> Pd.p_cachedSeq p = Device.d_seq d).

Lemma ready_sequence b d p : BusFacts.device_ok (S := S) b d -> ready d p -> PdFacts.serving (S := S) p ->
  exists q, Device.nextSequence d = (d <| Device.d_seq := q |> <| Device.d_repeatSequence := false |>, q) /\
    1 <= q <= 3 /\ (Pd.p_cachedValid p = true -> q <> Pd.p_cachedSeq p /\ q = Pd.nextSequence (Pd.p_cachedSeq p)).
Proof.
  intros Hd [Hr Hc] Hp.
  destruct (BusFacts.nextSequence_spec d) as (q & E & H1 & H2); [apply (BusFacts.do_seq b d Hd)|by rewrite Hr|].
  exists q. rewrite Hr in H2. split; [done|]. split; [done|]. intros Hv. rewrite (Hc Hv).
  destruct (PdFacts.sv_cached p Hp Hv) as (_ & _ & _ & _ & Hq). rewrite (Hc Hv) in Hq.
  assert (Device.d_seq d = 1 \/ Device.d_seq d = 2 \/ Device.d_seq d = 3) as [E1|[E1|E1]] by lia; rewrite H2, E1; done.
Qed.

(** The only device of its line. *)
Definition alone (b : Bus.Bus) (d : Device.Device) : Prop := Bus.b_devices b = [d] /\ Bus.b_current b = 0%nat.

Lemma alone_device b d : alone b d -> Bus.device b (Bus.b_current b) = Some d.
Proof. intros [H1 H2]. unfold Bus.device. by rewrite H1, H2. Qed.

(** The bus's half: what it asks, in a frame numbered as [nextSequence] says. *)
Lemma asked_frame b d d1 n msg block : BusFacts.bus_ok (S := S) b -> alone b d -> Device.d_Address d < 127 ->
  Bus.commandFor b d = (d1, n, Ok (msg, block)) -> plain_command block ->
  exists f q t,
    let d2 := d1 <| Device.d_seq := q |> <| Device.d_repeatSequence := false |> in
    Bus.Next b = (Bus.set_device (b <| Bus.b_nonces := n |>) 0 d2, Some (Bus.mk_Step 0 f t)) /\
    q = (Device.nextSequence d).2 /\ Device.d_Address d1 = Device.d_Address d /\
    (Frame.frame_ok f /\ Frame.f_IsReply f = Cmd.m_IsReply msg /\ Frame.CheckOK f = true /\
     Frame.f_Address f = Device.d_Address d) /\
    Frame.Control_Sequence (Frame.f_Control f) = q /\
    Frame.f_Code f = Cmd.m_Code msg /\ Frame.f_Data f = Cmd.m_Data msg /\ Frame.f_Security f = block.
Proof.
  intros Hb Hal Haddr Ec Hblock.
  pose proof (alone_device b d Hal) as Hdev. pose proof (BusFacts.bus_ok_device b _ d Hb Hdev) as Hd.
  pose proof (BusFacts.Next_unfold b d Hdev) as Hnext. cbv zeta in Hnext.
  assert (Hturn : b <| Bus.b_current := ((Bus.b_current b + 1) mod length (Bus.b_devices b))%nat |> = b).
  { destruct Hal as [H1 H2]. rewrite H1, H2. destruct b. simpl in *. by subst. }
  rewrite Hturn in Hnext.
  destruct (BusFacts.commandFor_spec b d Hd (BusFacts.bus_ok_config b Hb)) as (d1' & n' & msg' & block' & Ec' & Hc).
  rewrite Ec in Ec'. injection Ec' as <- <- <- <-.
  pose proof Hc as [Harm Hm _ (Ca & Cs & Cq & Cr & _) _ _ _].
  assert (Hcomp : exists f, BusFacts.composed b d1 msg (Device.d_session d1) (Bus.compose b d1 msg block) f /\
    Frame.f_Security f = block /\ Frame.f_Data f = Cmd.m_Data msg).
  { destruct Hblock as [-> |[-> | ->]]; [apply (BusFacts.compose_clear (S := S))|apply (BusFacts.compose_handshake (S := S))..];
      done || (rewrite Ca; lia). }
  destruct Hcomp as (f & (q & Eq & Er & Hf) & Hfs & Hfd). pose proof Hf as [F1 F2 F3 F4 F5 F6 F7 F8].
  assert (Hq : q = (Device.nextSequence d).2).
  { apply (f_equal snd) in Eq. cbn [snd] in Eq. rewrite <- Eq. unfold Device.nextSequence. rewrite Cq, Cr. by repeat case_match. }
  pose proof (Hnext _ _ _ _ _ _ Ec Er) as Hn. rewrite (proj2 Hal) in Hn.
  assert (Hd2 : d1 <| Device.d_seq := q |> <| Device.d_repeatSequence := false |> <| Device.d_session := Device.d_session d1 |> =
    d1 <| Device.d_seq := q |> <| Device.d_repeatSequence := false |>) by (by destruct d1).
  rewrite Hd2 in Hn. exists f, q. eexists. cbv zeta. split; [exact Hn|]. split; [exact Hq|]. split; [done|].
  split; [|by split_and!]. split_and!; try done. congruence.
Qed.

(** The device takes it for a new command when it is ready for one. *)
Lemma asked_plain b d p now d1 n msg block : BusFacts.bus_ok (S := S) b -> alone b d -> PdFacts.serving (S := S) p ->
  Device.d_Address d = Pd.p_address p -> ready d p -> PdFacts.quiet p now ->
  Bus.commandFor b d = (d1, n, Ok (msg, block)) -> Cmd.m_IsReply msg = false -> plain_command block ->
  exists f q t,
    let d2 := d1 <| Device.d_seq := q |> <| Device.d_repeatSequence := false |> in
    Bus.Next b = (Bus.set_device (b <| Bus.b_nonces := n |>) 0 d2, Some (Bus.mk_Step 0 f t)) /\
    1 <= q <= 3 /\ Device.d_Address d1 = Device.d_Address d /\
    Frame.frame_ok f /\ PdLaws.new_command p f now /\ System.in_order p q /\
    Frame.Control_Sequence (Frame.f_Control f) = q /\
    Frame.f_Code f = Cmd.m_Code msg /\ Frame.f_Data f = Cmd.m_Data msg /\ Frame.f_Security f = block.
Proof.
  intros Hb Hal Hp Haddr Hready Hquiet Ec Hreply Hblock. pose proof (PdFacts.sv_addr p Hp) as Hpa.
  destruct (asked_frame b d d1 n msg block Hb Hal ltac:(lia) Ec Hblock) as (f & q & t & Hn & Hq' & Ca & (F1 & F5 & F2 & F4) & F6 & F8 & Hfd & Hfs).
  destruct (ready_sequence b d p (BusFacts.bus_ok_device b _ d Hb (alone_device b d Hal)) Hready Hp) as (q' & Eq' & Hq & Hqc).
  rewrite Eq' in Hq'. cbn [snd] in Hq'. subst q'. cbv zeta in *.
  exists f, q, t. split; [exact Hn|]. split; [done|]. split; [done|]. split; [done|].
  split; [|split; [intros _ Hv; by apply Hqc|by split_and!]]. split; [|..|done| |].
  - unfold Pd.screen. by rewrite F5, Hreply, F2.
  - unfold Pd.addressed. rewrite bool_decide_true; [done|congruence].
  - rewrite F6. lia.
  - rewrite F6. intros Hv. by apply Hqc.
Qed.

(** The device's half, given its answer. *)
Lemma answered_plain p f now q p1 ans bl : PdFacts.pd_ok (S := S) p -> Frame.frame_ok f ->
  PdLaws.new_command p f now -> System.in_order p q -> Frame.Control_Sequence (Frame.f_Control f) = q -> 1 <= q <= 3 ->
  Pd.answer (PdFacts.noted p now) f = Ok (p1, (ans, bl)) ->
  plain_answer bl -> Pd.p_adopting p1 = None -> Pd.p_adoptingKey p1 = None -> exists r,
    Pd.Handle p f now = (PdLaws.cached p1 q r, Ok r) /\ PdFacts.pd_ok (S := S) (PdLaws.cached p1 q r) /\
    PdFacts.reply_ok (Pd.p_address p) q (Frame.Control_Scheme (Frame.f_Control f)) (Cmd.m_Code ans) bl r /\
    Frame.f_Data r = Cmd.m_Data ans.
Proof.
  intros Hp Hf Hnew Ho Hs Hq Hans Hbl Had Hak. pose proof (PdLaws.noted_ok p now Hp) as Hpn.
  destruct (PdFacts.answer_ok (PdFacts.noted p now) f (proj1 Hpn) Hf) as (p1' & ans' & bl' & Ea & [A1 [A2 A3] A4 _]).
  rewrite Hans in Ea. injection Ea as <- <- <-.
  destruct (emit_plain p1 f q ans bl A1 A4 Hq Hbl) as (r & Hemit & Hr & Hrd).
  rewrite PdLaws.not_moved in Hemit by exact Had. rewrite System.not_adopting in Hemit by exact Hak.
  assert (HH : Pd.Handle p f now = (PdLaws.cached p1 q r, Ok r)).
  { rewrite PdLaws.Handle_new by done. unfold Pd.fresh, Pd.answerFor. rewrite Hs.
    rewrite (System.in_order_strict p now q Ho). by rewrite Hans. }
  exists r. split; [exact HH|]. split; [|split; [|exact Hrd]].
  - destruct (PdFacts.Handle_ok p f now Hp Hf) as (p' & r' & E & Hp' & _); [apply Hnew|apply Hnew|].
    rewrite HH in E. pose proof (f_equal fst E) as E1. cbn [fst] in E1. by rewrite E1.
  - change (Pd.p_address p) with (Pd.p_address (PdFacts.noted p now)). by rewrite <- A3.
Qed.

(** One exchange outside the channel, given what the bus asks and what the
    device answers. *)
Lemma exchange_plain b d p now d1 n msg block p1 ans bl :
  BusFacts.bus_ok (S := S) b -> alone b d -> PdFacts.pd_ok (S := S) p ->
  Device.d_Address d = Pd.p_address p -> ready d p -> PdFacts.quiet p now ->
  Bus.commandFor b d = (d1, n, Ok (msg, block)) -> Cmd.m_IsReply msg = false -> plain_command block ->
  Device.secureEstablished d1 = false ->
  (forall f, Frame.f_Code f = Cmd.m_Code msg -> Frame.f_Data f = Cmd.m_Data msg -> Frame.f_Security f = block ->
     Pd.answer (PdFacts.noted p now) f = Ok (p1, (ans, bl))) ->
  plain_answer bl -> Pd.p_adopting p1 = None -> Pd.p_adoptingKey p1 = None ->
  exists q r, 1 <= q <= 3 /\
    let d2 := d1 <| Device.d_seq := q |> <| Device.d_repeatSequence := false |> in
    let b1 := Bus.set_device (b <| Bus.b_nonces := n |>) 0 d2 in
    forall d3 ev, Bus.dispatch b1 (attended d2 now) 0 (ans <| Cmd.m_IsReply := true |>) = (d3, Ok ev) ->
    exchange b p now = (Bus.set_device b1 0 d3, PdLaws.cached p1 q r, Some ev) /\
    BusFacts.bus_ok (S := S) (Bus.set_device b1 0 d3) /\ PdFacts.pd_ok (S := S) (PdLaws.cached p1 q r).
Proof.
  intros Hb Hal Hp Haddr Hready Hquiet Ec Hreply Hblock Hest Hans Hbl Had Hak.
  destruct (asked_plain b d p now d1 n msg block Hb Hal (proj1 Hp) Haddr Hready Hquiet Ec Hreply Hblock)
    as (f & q & t & Hn & Hq & Ca & F1 & Hnew & Ho & F6 & F8 & Hfd & Hfs). cbv zeta in Hn.
  destruct (answered_plain p f now q p1 ans bl Hp F1 Hnew Ho F6 Hq (Hans f F8 Hfd Hfs) Hbl Had Hak)
    as (r & HH & Hp' & Hr & Hrd).
  exists q, r. split; [done|]. cbv zeta. intros d3 ev Hdisp.
  set (d2 := d1 <| Device.d_seq := q |> <| Device.d_repeatSequence := false |>) in *.
  set (b1 := Bus.set_device (b <| Bus.b_nonces := n |>) 0 d2) in *.
  assert (Hdev1 : Bus.device b1 0 = Some d2).
  { unfold b1, Bus.device, Bus.set_device. cbn [Bus.b_devices update]. by rewrite (proj1 Hal). }
  assert (Hrep : Bus.Reply b1 0 r now = (Bus.set_device b1 0 d3, Ok ev)).
  { unfold Bus.Reply. rewrite Hdev1. assert (Hda : Pd.p_address p = Device.d_Address d2) by (rewrite <- Haddr; by symmetry).
    rewrite Hda in Hr. by rewrite (reply_plain b1 d2 0 r now ans q _ bl Hr Hrd ltac:(lia) Hest), Hdisp. }
  split_and!; [|..|exact Hp'].
  - unfold exchange. rewrite Hn. cbn [Bus.st_Frame Bus.st_Device]. by rewrite HH, Hrep.
  - pose proof (BusFacts.Next_ok b Hb) as Hb1. rewrite Hn in Hb1.
    eapply BusFacts.bus_step_ok; [exact Hb1|]. eapply BusFacts.step_Reply; [apply Hr|exact Hrep].
Qed.

(** ** The four exchanges *)

(** Two ends that share a key, between exchanges; [t] is when the device last
    heard the panel. *)
Record meeting (key : list Z) (b : Bus.Bus) (d : Device.Device) (p : Pd.Device) (t : Z) : Prop := mk_meeting {
  me_bus : BusFacts.bus_ok (S := S) b;
  me_pd : PdFacts.pd_ok (S := S) p;
  me_alone : alone b d;
  me_channel : Bus.secureEnabled b = true /\ Bus.b_suite b = Some S;
  me_lookup : Device.baseKey d (Bus.b_keys b) = Some key;
  me_declined : Device.d_secureDeclined d = false;
  me_ready : ready d p;
  me_addr : Device.d_Address d = Pd.p_address p;
  me_key : Pd.p_key p = key;
  me_caps : (Cmd.SecureChannel (Pd.p_capabilities p)).1 = true;
  me_secure : Pd.g_secure (Pd.p_cfg p) = true;
  me_heard : Pd.p_seen p = true -> Pd.p_lastSeen p = t
}.

(** The device is not kept waiting long enough to forget. *)
Definition prompt (p : Pd.Device) (t now : Z) : Prop :=
  Pd.g_timeout (Pd.p_cfg p) <= 0 \/ Pd.Sub now t <= Pd.g_timeout (Pd.p_cfg p).

Lemma meeting_quiet key b d p t now : meeting key b d p t -> prompt p t now -> PdFacts.quiet p now.
Proof.
  intros Hm Ht. unfold PdFacts.quiet. destruct (Pd.p_seen p) eqn:E; [|done]. rewrite (me_heard _ _ _ _ _ Hm E).
  destruct Ht as [Ht|Ht].
  - by rewrite (bool_decide_false (_ > 0)) by lia.
  - by rewrite (bool_decide_false (Pd.Sub _ _ > _)), andb_false_r by lia.
Qed.

(** What an exchange must leave alone at either end. *)
Record kept_bus (d d' : Device.Device) : Prop := mk_kept_bus {
  kb_addr : Device.d_Address d' = Device.d_Address d;
  kb_installed : Device.d_installedKey d' = Device.d_installedKey d;
  kb_declined : Device.d_secureDeclined d' = Device.d_secureDeclined d
}.

Record kept_pd (p p' : Pd.Device) : Prop := mk_kept_pd {
  kp_cfg : Pd.p_cfg p' = Pd.p_cfg p;
  kp_address : Pd.p_address p' = Pd.p_address p;
  kp_key : Pd.p_key p' = Pd.p_key p;
  kp_caps : Pd.p_capabilities p' = Pd.p_capabilities p;
  kp_heard : Pd.p_seen p' = Pd.p_seen p /\ Pd.p_lastSeen p' = Pd.p_lastSeen p
}.

Lemma meeting_next key b d p t now d2 d3 p1 n q r :
  meeting key b d p t -> kept_bus d d3 -> kept_pd (PdFacts.noted p now) p1 ->
  Device.d_seq d3 = q -> Device.d_repeatSequence d3 = false ->
  let b' := Bus.set_device (Bus.set_device (b <| Bus.b_nonces := n |>) 0 d2) 0 d3 in
  BusFacts.bus_ok (S := S) b' -> PdFacts.pd_ok (S := S) (PdLaws.cached p1 q r) ->
  meeting key b' d3 (PdLaws.cached p1 q r) now.
Proof.
  intros [] [] [? ? ? ? [? ?]] Hq Hr b' Hb' Hp'. split; try done.
  - destruct me_alone0 as [L1 L2]. split; [|done]. unfold b', Bus.set_device. cbn [Bus.b_devices update]. by rewrite L1.
  - unfold Device.baseKey in *. by rewrite kb_installed0, kb_addr0.
  - by rewrite kb_declined0.
  - change (Device.d_Address d3 = Pd.p_address p1). by rewrite kb_addr0, kp_address0.
  - change (Pd.p_key p1 = key). by rewrite kp_key0.
  - change ((Cmd.SecureChannel (Pd.p_capabilities p1)).1 = true). by rewrite kp_caps0.
  - change (Pd.g_secure (Pd.p_cfg p1) = true). by rewrite kp_cfg0.
Qed.

Lemma attended_fields d now : kept_bus d (attended d now) /\
  Device.d_State (attended d now) = Device.d_State d /\ Device.d_session (attended d now) = Device.d_session d /\
  Device.d_pending (attended d now) = Device.d_pending d /\ Device.d_seq (attended d now) = Device.d_seq d /\
  Device.d_repeatSequence (attended d now) = Device.d_repeatSequence d /\
  Device.d_Caps (attended d now) = Device.d_Caps d.
Proof. unfold attended, Device.delivered. by case_match. Qed.

(** osdp_ID: the device is known. *)
Lemma identifies key b d p t now : meeting key b d p t -> prompt p t now ->
  Device.d_State d = Device.Offline -> Device.secureEstablished d = false -> Pd.p_session p = None ->
  exists b' d' p' id, exchange b p now = (b', p', Some (Bus.event Bus.KindIdentified 0 <| Bus.e_ID := id |>)) /\
    meeting key b' d' p' now /\ Device.d_State d' = Device.Identifying /\
    Device.d_session d' = Device.d_session d /\ Device.d_pending d' = Device.d_pending d /\
    Pd.p_session p' = None /\ Pd.p_cfg p' = Pd.p_cfg p /\ id = Pd.g_identity (Pd.p_cfg p).
Proof.
  intros Hm Ht Hst He Hs. pose proof Hm as [Hb Hp Hal _ _ _ Hr Ha _ _ _ _].
  pose proof (PdFacts.so_identity _ (PdFacts.sv_cfg p (proj1 Hp))) as Hid. destruct Hp as (Hp0 & Had & Hak).
  destruct (exchange_plain b d p now d (Bus.b_nonces b) (Cmd.mk_Message Cmd.ID false [0]) None
    (PdFacts.noted p now) (Cmd.mk_Message Cmd.PDID false (Pd.appendDeviceID [] (Pd.g_identity (Pd.p_cfg p)))) None
    Hb Hal (conj Hp0 (conj Had Hak)) Ha Hr (meeting_quiet _ _ _ _ _ _ Hm Ht)) as (q & r & Hq & Hx);
    [unfold Bus.commandFor; by rewrite Hst|done|by left|done| |by left|exact Had|exact Hak|].
  { intros f Hc Hd Hsec. unfold Pd.answer. rewrite Hsec. unfold Pd.Device_Secure.
    change (Pd.p_session (PdFacts.noted p now)) with (Pd.p_session p). rewrite Hs.
    unfold Pd.dispatch. rewrite Hc. done. }
  cbv zeta in Hx. set (d2 := d <| Device.d_seq := q |> <| Device.d_repeatSequence := false |>) in *.
  destruct (attended_fields d2 now) as ([K1 K2 K3] & A1 & A2 & A3 & A4 & A5 & A6).
  edestruct Hx as (E & Hb' & Hp').
  { unfold Bus.dispatch. cbn [Cmd.m_Code Cmd.m_Data update]. rewrite decide_True by done.
    rewrite PdLaws.ParseDeviceID_append by done. cbn [Bus.on]. reflexivity. }
  eexists _, _, _, _. split; [exact E|]. split.
  { apply (meeting_next key b d p t now d2 _ _ (Bus.b_nonces b) q r Hm);
      [by split|by split|exact A4|exact A5|exact Hb'|exact Hp']. }
  by split_and!.
Qed.

Lemma ParseCapabilities_Append r : Cmd.ParseCapabilities (Cmd.CapabilityReport_Append r []) = Ok r.
Proof.
  unfold Cmd.ParseCapabilities, Cmd.CapabilitySize. rewrite Cmd.len_CapabilityReport_Append.
  rewrite decide_False by (rewrite Z.mul_comm, Z.mod_mul by lia; by intros X).
  rewrite Cmd.capability_loop_append. case_decide as Hl; [|done].
  by rewrite (len_zero_nil r) by lia.
Qed.

Lemma afterCapabilities_capable b d key : Bus.secureEnabled b = true -> Bus.b_suite b = Some S ->
  Device.d_secureDeclined d = false -> (Cmd.SecureChannel (Device.d_Caps d)).1 = true ->
  Device.baseKey d (Bus.b_keys b) = Some key ->
  Bus.afterCapabilities b d = d <| Device.d_session := Some (Secure.NewSession S Secure.RoleCP key) |>
                                <| Device.d_State := Device.SecureHandshake |>.
Proof.
  intros H1 H2 H3 H4 H5. unfold Bus.afterCapabilities. rewrite H1, H2. destruct d. cbn in *. subst.
  destruct (Cmd.SecureChannel _) as [cap dk]. cbn in H4. subst cap. cbn [negb].
  unfold Device.baseKey in *. cbn in *. by rewrite H5.
Qed.

(** osdp_CAP: the device declares the channel, and the bus prepares for it. *)
Lemma capable key b d p t now : meeting key b d p t -> prompt p t now ->
  Device.d_State d = Device.Identifying -> Device.secureEstablished d = false -> Device.d_pending d = None ->
  Pd.p_session p = None ->
  exists b' d' p', exchange b p now =
      (b', p', Some (Bus.event Bus.KindCapabilities 0 <| Bus.e_Caps := Pd.p_capabilities p |>)) /\
    meeting key b' d' p' now /\ Device.d_State d' = Device.SecureHandshake /\
    Device.d_session d' = Some (Secure.NewSession S Secure.RoleCP key) /\ Device.d_pending d' = None /\
    Pd.p_session p' = None /\ Pd.p_cfg p' = Pd.p_cfg p.
Proof.
  intros Hm Ht Hst He Hpend Hs. pose proof Hm as [Hb Hp Hal [Hen Hsuite] Hlk Hdec Hr Ha _ Hcaps _ _].
  pose proof Hp as (Hp0 & Had & Hak).
  destruct (exchange_plain b d p now d (Bus.b_nonces b) (Cmd.mk_Message Cmd.Cap false [0]) None
    (PdFacts.noted p now) (Cmd.mk_Message Cmd.PDCap false (Cmd.CapabilityReport_Append (Pd.p_capabilities p) [])) None
    Hb Hal Hp Ha Hr (meeting_quiet _ _ _ _ _ _ Hm Ht)) as (q & r & Hq & Hx);
    [unfold Bus.commandFor; by rewrite Hst|done|by left|done| |by left|exact Had|exact Hak|].
  { intros f Hc Hd Hsec. unfold Pd.answer. rewrite Hsec. unfold Pd.Device_Secure.
    change (Pd.p_session (PdFacts.noted p now)) with (Pd.p_session p). rewrite Hs.
    unfold Pd.dispatch. rewrite Hc. done. }
  cbv zeta in Hx. set (d2 := d <| Device.d_seq := q |> <| Device.d_repeatSequence := false |>) in *.
  set (b1 := Bus.set_device _ 0 d2) in *.
  destruct (attended_fields d2 now) as ([K1 K2 K3] & A1 & A2 & A3 & A4 & A5 & A6).
  set (da := attended d2 now) in *.
  edestruct Hx as (E & Hb' & Hp').
  { unfold Bus.dispatch. cbn [Cmd.m_Code Cmd.m_Data update]. rewrite decide_False, decide_True by done.
    rewrite ParseCapabilities_Append. cbn [Bus.on].
    rewrite (afterCapabilities_capable b1 _ key Hen Hsuite); [reflexivity|..].
    - change (Device.d_secureDeclined da = false). by rewrite K3.
    - exact Hcaps.
    - unfold Device.baseKey in Hlk |- *.
      change (match Device.d_installedKey da with
              | Some k => Some k
              | None => match Bus.b_keys b with Some f => f (Device.d_Address da) | None => None end
              end = Some key). by rewrite K1, K2. }
  eexists _, _, _. split; [exact E|]. split.
  { apply (meeting_next key b d p t now d2 _ _ (Bus.b_nonces b) q r Hm);
      [by split|by split|exact A4|exact A5|exact Hb'|exact Hp']. }
  split_and!; try done. change (Device.d_pending da = None). by rewrite A3.
Qed.

(** ** The handshake *)

(** The calls of one handshake, in order, and that they end in agreement. *)
Record handshake_runs (key rndA rndB uid : octets) (cp1 pd1 cp2 pd2 cp : Secure.Session)
    (cc sc rm : octets) : Prop := mk_handshake_runs {
  hr_begin : Secure.BeginChallenge (Secure.NewSession S Secure.RoleCP key) rndA = (cp1, Ok rndA);
  hr_answer : Secure.AnswerChallenge (Secure.NewSession S Secure.RolePD key) rndA rndB uid = (pd1, Ok cc);
  hr_cryptogram : Secure.AnswerCryptogram cp1 cc = (cp2, Ok sc);
  hr_server : Secure.AnswerServerCryptogram pd1 sc = (pd2, Ok rm);
  hr_complete : Secure.CompleteHandshake cp2 rm = (cp, None);
  hr_synced : Secure.synced (S := S) cp pd2;
  hr_waiting : Secure.Established cp1 = false /\ Secure.Established cp2 = false
}.

Lemma run_Ok {A} (x : Secure.Session * result A) s a : Secure.run x = Ok (s, a) -> x = (s, Ok a).
Proof. unfold Secure.run. destruct x as [s' [a'|e]]; simpl; [by intros [= -> ->]|done]. Qed.

Lemma handshake_steps key rndA rndB uid : Aes.block_ok key -> Secure.rnd_ok rndA -> Secure.rnd_ok rndB ->
  length uid = 8%nat -> exists cp1 pd1 cp2 pd2 cp cc sc rm,
    handshake_runs key rndA rndB uid cp1 pd1 cp2 pd2 cp cc sc rm.
Proof.
  intros Hk HA HB Hu. destruct (Secure.handshake_synced key rndA rndB uid Hk HA HB Hu) as (cp & pd & E & Hs & _).
  unfold Secure.handshake in E.
  apply bind_Ok in E as ([cp1 ch] & E1%run_Ok & E). apply bind_Ok in E as ([pd1 cc] & E2%run_Ok & E).
  apply bind_Ok in E as ([cp2 sc] & E3%run_Ok & E). apply bind_Ok in E as ([pd2 rm] & E4%run_Ok & E).
  destruct (Secure.CompleteHandshake cp2 rm) as [cp' [e|]] eqn:E5; [done|]. injection E as -> ->.
  assert (ch = rndA /\ Secure.Established cp1 = false) as [-> H1].
  { revert E1. unfold Secure.BeginChallenge. cbn. by intros [= <- <-]. }
  exists cp1, pd1, cp2, pd, cp, cc, sc, rm. split; try done. split; [done|].
  revert E3. unfold Secure.AnswerCryptogram. repeat case_match; intros [= <- <-]; done.
Qed.

(** osdp_CHLNG: the device answers the challenge, and the bus checks its answer. *)
Lemma challenged key b d p t now : meeting key b d p t -> prompt p t now ->
  Device.d_State d = Device.SecureHandshake ->
  Device.d_session d = Some (Secure.NewSession S Secure.RoleCP key) -> Device.d_pending d = None ->
  exists b' d' p' rndA rndB uid cp1 pd1 cp2 pd2 cp cc sc rm,
    exchange b p now = (b', p', Some (Bus.event Bus.KindNone 0)) /\ meeting key b' d' p' now /\
    handshake_runs key rndA rndB uid cp1 pd1 cp2 pd2 cp cc sc rm /\
    Device.d_State d' = Device.SecureHandshake /\ Device.d_session d' = Some cp2 /\
    Device.d_pending d' = Some (Device.mk_secureStep (Cmd.mk_Message Cmd.SCrypt false sc) (Bus.SB Secure.SCS13)) /\
    Pd.p_session p' = Some pd1 /\ Pd.p_cfg p' = Pd.p_cfg p.
Proof.
  intros Hm Ht Hst Hsess Hpend. pose proof Hm as [Hb Hp Hal _ _ _ Hr Ha Hkey _ Hsec _].
  pose proof Hp as (Hp0 & Had & Hak). pose proof (BusFacts.bus_ok_device b _ d Hb (alone_device b d Hal)) as Hd.
  destruct (BusFacts.do_session b d Hd _ Hsess) as (_ & _ & _ & [nonce Hnonce]).
  destruct (PdFacts.so_secure _ (PdFacts.sv_cfg p Hp0) Hsec) as (Hsu & nb & Hnb & HB).
  set (rndA := nonce (Bus.b_nonces b)). set (rndB := nb (Pd.p_nonces p)).
  set (uid := Pd.deviceUID (Pd.g_identity (Pd.p_cfg p))).
  destruct (handshake_steps key rndA rndB uid) as (cp1 & pd1 & cp2 & pd2 & cp & cc & sc & rm & HR);
    [rewrite <- Hkey; apply (PdFacts.sv_key p Hp0)|exact (BusFacts.bo_nonce b Hb nonce _ Hnonce)|apply HB|done|].
  pose proof HR as [R1 R2 R3 R4 R5 R6 [R7 R8]].
  set (p1 := Pd.dropSession (PdFacts.noted p now) <| Pd.p_nonces := (Pd.p_nonces p + 1)%nat |> <| Pd.p_session := Some pd1 |>).
  destruct (exchange_plain b d p now (d <| Device.d_session := Some cp1 |>) (Bus.b_nonces b + 1)%nat
    (Cmd.mk_Message Cmd.Chlng false rndA) (Some (Bus.SB Secure.SCS11)) p1
    (Cmd.mk_Message Cmd.CCrypt false cc) (Some (Pd.SB Secure.SCS12))
    Hb Hal Hp Ha Hr (meeting_quiet _ _ _ _ _ _ Hm Ht)) as (q & r & Hq & Hx);
    [|done|by right; left|exact R7| |by right; left|exact Had|exact Hak|].
  { unfold Bus.commandFor. rewrite Hst. unfold Bus.handshakeCommand. rewrite Hpend, Hsess, Hnonce. fold rndA.
    rewrite R1, <- Nat.add_1_r. done. }
  { intros f Hc Hd0 Hs. unfold Pd.answer. rewrite Hs. unfold Pd.answerSecure.
    change (Pd.secureEnabled (PdFacts.noted p now)) with (Pd.g_secure (Pd.p_cfg p)). rewrite Hsec. cbn [negb].
    cbv zeta. rewrite decide_True by done. unfold Pd.answerChallenge. cbv zeta.
    change (Pd.p_cfg (Pd.dropSession (PdFacts.noted p now))) with (Pd.p_cfg p). rewrite Hsu, Hnb, Hd0.
    change (Pd.p_key (Pd.dropSession (PdFacts.noted p now))) with (Pd.p_key p).
    change (Pd.p_nonces (Pd.dropSession (PdFacts.noted p now))) with (Pd.p_nonces p).
    rewrite Hkey. cbn [Cmd.m_Data]. fold rndB.
    change (Pd.deviceUID (Pd.g_identity (Pd.p_cfg (Pd.dropSession (PdFacts.noted p now) <| Pd.p_nonces := Datatypes.S (Pd.p_nonces p) |>))))
      with uid.
    rewrite R2. unfold p1. by rewrite Nat.add_1_r. }
  cbv zeta in Hx.
  set (d2 := d <| Device.d_session := Some cp1 |> <| Device.d_seq := q |> <| Device.d_repeatSequence := false |>) in *.
  destruct (attended_fields d2 now) as ([K1 K2 K3] & A1 & A2 & A3 & A4 & A5 & A6).
  set (da := attended d2 now) in *.
  edestruct Hx as (E & Hb' & Hp').
  { unfold Bus.dispatch. cbn [Cmd.m_Code Cmd.m_Data update].
    do 6 (rewrite decide_False by done). rewrite decide_True by done.
    unfold Bus.onCryptogram. rewrite A2. change (Device.d_session d2) with (Some cp1). cbv iota.
    rewrite R3. reflexivity. }
  eexists _, _, _, rndA, rndB, uid, cp1, pd1, cp2, pd2, cp, cc, sc, rm. split; [exact E|]. split.
  { apply (meeting_next key b d p t now d2 _ _ (Bus.b_nonces b + 1)%nat q r Hm);
      [by split|by split|exact A4|exact A5|exact Hb'|exact Hp']. }
  split_and!; try done. change (Device.d_State da = Device.SecureHandshake). by rewrite A1.
Qed.

(** osdp_SCRYPT: both ends have proved the key, and the channel is up. *)
Lemma confirmed key b d p t now rndA rndB uid cp1 pd1 cp2 pd2 cp cc sc rm : meeting key b d p t -> prompt p t now ->
  handshake_runs key rndA rndB uid cp1 pd1 cp2 pd2 cp cc sc rm ->
  Device.d_State d = Device.SecureHandshake -> Device.d_session d = Some cp2 ->
  Device.d_pending d = Some (Device.mk_secureStep (Cmd.mk_Message Cmd.SCrypt false sc) (Bus.SB Secure.SCS13)) ->
  Pd.p_session p = Some pd1 ->
  exists b' d' p', exchange b p now =
      (b', p', Some (Bus.event Bus.KindSecure 0 <| Bus.e_DefaultKey := Secure.UsingDefaultKey cp |>)) /\
    meeting key b' d' p' now /\ System.in_step (S := S) d' p'.
Proof.
  intros Hm Ht [R1 R2 R3 R4 R5 R6 [R7 R8]] Hst Hsess Hpend Hs.
  pose proof Hm as [Hb Hp Hal _ _ _ Hr Ha _ _ Hsec _]. pose proof Hp as (Hp0 & Had & Hak).
  set (p1 := PdFacts.noted p now <| Pd.p_session := Some pd2 |>).
  destruct (exchange_plain b d p now (d <| Device.d_pending := None |>) (Bus.b_nonces b)
    (Cmd.mk_Message Cmd.SCrypt false sc) (Some (Bus.SB Secure.SCS13)) p1
    (Cmd.mk_Message Cmd.RMACI false rm) (Some (Pd.SB Secure.SCS14))
    Hb Hal Hp Ha Hr (meeting_quiet _ _ _ _ _ _ Hm Ht)) as (q & r & Hq & Hx);
    [|done|by right; right| | |by right; right|exact Had|exact Hak|].
  { unfold Bus.commandFor. rewrite Hst. unfold Bus.handshakeCommand. by rewrite Hpend. }
  { unfold Device.secureEstablished.
    change (Device.d_session (d <| Device.d_pending := None |>)) with (Device.d_session d). by rewrite Hsess. }
  { intros f Hc Hd0 Hsb. unfold Pd.answer. rewrite Hsb. unfold Pd.answerSecure.
    change (Pd.secureEnabled (PdFacts.noted p now)) with (Pd.g_secure (Pd.p_cfg p)). rewrite Hsec. cbn [negb].
    cbv zeta. rewrite decide_False, decide_True by done. unfold Pd.answerCryptogram.
    change (Pd.p_session (PdFacts.noted p now)) with (Pd.p_session p). rewrite Hs, Hd0. cbn [Cmd.m_Data].
    by rewrite R4. }
  cbv zeta in Hx.
  set (d2 := d <| Device.d_pending := None |> <| Device.d_seq := q |> <| Device.d_repeatSequence := false |>) in *.
  destruct (attended_fields d2 now) as ([K1 K2 K3] & A1 & A2 & A3 & A4 & A5 & A6).
  set (da := attended d2 now) in *.
  edestruct Hx as (E & Hb' & Hp').
  { unfold Bus.dispatch. cbn [Cmd.m_Code Cmd.m_Data update].
    do 7 (rewrite decide_False by done). rewrite decide_True by done.
    unfold Bus.onInitialRMAC. rewrite A2. change (Device.d_session d2) with (Device.d_session d). rewrite Hsess.
    rewrite R5. reflexivity. }
  eexists _, _, _. split; [exact E|]. split.
  { apply (meeting_next key b d p t now d2 _ _ (Bus.b_nonces b) q r Hm);
      [by split|by split|exact A4|exact A5|exact Hb'|exact Hp']. }
  split.
  - change (Device.d_Address da = Pd.p_address p). rewrite K1. exact Ha.
  - done.
  - exists cp, pd2. by split_and!.
  - split; [done|]. symmetry. exact A4.
  - exact A5.
Qed.

(** Exchanges at the given times, and the events they raise. *)
Fixpoint converse (b : Bus.Bus) (p : Pd.Device) (ts : list Z) : Bus.Bus * Pd.Device * list (option Bus.Event) :=
  match ts with
  | [] => (b, p, [])
  | t :: ts =>
      let '(b, p, e) := exchange b p t in
      let '(b, p, es) := converse b p ts in
      (b, p, e :: es)
  end.

Lemma enrols key b d p t t1 t2 t3 t4 : meeting key b d p t ->
  Device.d_State d = Device.Offline -> Device.d_session d = None -> Device.d_pending d = None ->
  Pd.p_session p = None ->
  prompt p t t1 -> prompt p t1 t2 -> prompt p t2 t3 -> prompt p t3 t4 ->
  exists b' d' p' es, converse b p [t1; t2; t3; t4] = (b', p', es) /\
    map (option_map Bus.e_Kind) es =
      [Some Bus.KindIdentified; Some Bus.KindCapabilities; Some Bus.KindNone; Some Bus.KindSecure] /\
    BusFacts.bus_ok (S := S) b' /\ PdFacts.pd_ok (S := S) p' /\ alone b' d' /\ System.in_step (S := S) d' p' /\
    meeting key b' d' p' t4.
Proof.
  intros Hm Hst Hs Hpend Hps T1 T2 T3 T4.
  assert (He : Device.secureEstablished d = false) by (unfold Device.secureEstablished; by rewrite Hs).
  destruct (identifies key b d p t t1 Hm T1 Hst He Hps) as (b1 & d1 & p1 & id & E1 & Hm1 & S1 & Q1 & P1 & N1 & C1 & _).
  destruct (capable key b1 d1 p1 t1 t2 Hm1) as (b2 & d2 & p2 & E2 & Hm2 & S2 & Q2 & P2 & N2 & C2);
    [unfold prompt in *; by rewrite C1|done|unfold Device.secureEstablished; by rewrite Q1, Hs|by rewrite P1|done|].
  destruct (challenged key b2 d2 p2 t2 t3 Hm2) as (b3 & d3 & p3 & rA & rB & u & c1 & k1 & c2 & k2 & c & cc & sc & rm & E3 & Hm3 & HR & S3 & Q3 & P3 & N3 & C3);
    [unfold prompt in *; by rewrite C2, C1|done..|].
  destruct (confirmed key b3 d3 p3 t3 t4 rA rB u c1 k1 c2 k2 c cc sc rm Hm3) as (b4 & d4 & p4 & E4 & Hm4 & Hstep);
    [unfold prompt in *; by rewrite C3, C2, C1|done..|].
  exists b4, d4, p4. cbn [converse]. rewrite E1, E2, E3, E4. eexists. split; [done|]. split; [done|].
  pose proof Hm4 as []. by split_and!.
Qed.

(** C7. Two ends that share a key and are ready to meet are enrolled. The panel's end:
    a line with the one device, offline, with the channel switched on and not declined
    for it, and no session or step of a handshake left over. The reader's: the channel
    switched on and declared by its capability report, and no session left over. And the
    number of the last command the reader answered, if there is one, is the last the
    panel used. Then, whatever the address, the key, the identity, the two ends' nonces
    and the reader's other settings, four exchanges, each within the reader's timeout of
    the one before, take the device from offline to an established channel, raising the
    four events in order, and leave both ends in step: the same keys, the same chains,
    the same numbering. (A panel that is restarted while the reader keeps its session
    and its numbering is not ready in this sense: [restarted_panel_declined].) *)
Theorem enrolment key b d p t t1 t2 t3 t4 : meeting key b d p t ->
  Device.d_State d = Device.Offline -> Device.d_session d = None -> Device.d_pending d = None ->
  Pd.p_session p = None ->
  prompt p t t1 -> prompt p t1 t2 -> prompt p t2 t3 -> prompt p t3 t4 ->
  exists b' d' p' es, converse b p [t1; t2; t3; t4] = (b', p', es) /\
    map (option_map Bus.e_Kind) es =
      [Some Bus.KindIdentified; Some Bus.KindCapabilities; Some Bus.KindNone; Some Bus.KindSecure] /\
    BusFacts.bus_ok (S := S) b' /\ PdFacts.pd_ok (S := S) p' /\ alone b' d' /\ System.in_step (S := S) d' p'.
Proof.
  intros Hm Hst Hs Hpend Hps T1 T2 T3 T4.
  destruct (enrols key b d p t t1 t2 t3 t4 Hm Hst Hs Hpend Hps T1 T2 T3 T4)
    as (b' & d' & p' & es & E & K & Hb & Hp & Hal & Hstep & _).
  exists b', d', p', es. by split_and!.
Qed.

End with_suite.

(** ** Witnesses *)

Abbreviation AES := Secure.AES128.suite (only parsing).

(** The reader of PdFacts.v at address 0, facing the line of BusLaws.v. *)
Definition kat_reader : Pd.Device :=
  match Pd.New 0 PdFacts.kat_options with
  | Ok d => d
  | Err _ => PdFacts.kat_pd
  end.

Lemma kat_reader_ok : PdFacts.pd_ok (S := AES) kat_reader.
Proof.
  assert (Hn : match Pd.New 0 PdFacts.kat_options with Ok _ => true | Err _ => false end = true)
    by (vm_compute; reflexivity).
  unfold kat_reader. destruct (Pd.New 0 PdFacts.kat_options) as [d|e] eqn:E; [|discriminate Hn].
  apply (PdFacts.pd_New_ok 0 PdFacts.kat_options d); [by vm_compute|apply PdFacts.kat_settings_ok|exact E].
Qed.

Lemma demo_ok : BusFacts.bus_ok (S := AES) BusLaws.demo.
Proof.
  apply (BusFacts.reachable_ok BusLaws.demo_line [0] Frame.SchemeCRC16 BusFacts.kat_keyFor BusFacts.kat_nonce);
    [octets_dec|apply BusFacts.kat_keyFor_ok|apply BusFacts.kat_nonce_ok|exact BusLaws.reachable_demo].
Qed.

Lemma kat_meeting : meeting (S := AES) Secure.DefaultBaseKey BusLaws.demo (Device.NewDevice 0) kat_reader 0.
Proof.
  split; [exact demo_ok|exact kat_reader_ok|done|done|done|done| |by vm_compute..].
  split; [done|]. intros Hv. assert (Hx : Pd.p_cachedValid kat_reader = false) by (by vm_compute). congruence.
Qed.

Lemma kat_prompt : prompt kat_reader 0 0.
Proof. right. by vm_compute. Qed.

Example enrolment_witness : exists b' d' p' es,
  converse BusLaws.demo kat_reader [0; 0; 0; 0] = (b', p', es) /\
  map (option_map Bus.e_Kind) es =
    [Some Bus.KindIdentified; Some Bus.KindCapabilities; Some Bus.KindNone; Some Bus.KindSecure] /\
  BusFacts.bus_ok (S := AES) b' /\ PdFacts.pd_ok (S := AES) p' /\ alone b' d' /\ System.in_step (S := AES) d' p'.
Proof.
  apply (enrolment Secure.DefaultBaseKey BusLaws.demo (Device.NewDevice 0) kat_reader 0 0 0 0 0 kat_meeting);
    [reflexivity|reflexivity|reflexivity|by vm_compute|exact kat_prompt..].
Defined.

(** Why the numbers have to match. A new panel faces a reader that was enrolled a moment
    ago: its first command has the number of the last one the reader answered, so the
    reader repeats that answer, an osdp_RMAC_I; the panel takes it for a handshake gone
    wrong and gives the channel up for good, although both ends hold the key. *)
Example restarted_panel_declined :
  let reader := (converse BusLaws.demo kat_reader [0; 0; 0; 0]).1.2 in
  let '(b, _, es) := converse BusLaws.demo reader (replicate 8 0) in
  map (option_map Bus.e_Kind) es = Some Bus.KindSecureFailed :: Some Bus.KindNAK :: replicate 6 (Some Bus.KindNone) /\
  map (fun d => (Device.d_State d, Device.d_secureDeclined d)) (Bus.b_devices b) = [(Device.Online, true)].
Proof. vm_compute. by split. Qed.

(** The pair once enrolled. *)
Lemma kat_enrolled : exists b d p, BusFacts.bus_ok (S := AES) b /\ Bus.device b (Bus.b_current b) = Some d /\
  PdFacts.pd_ok (S := AES) p /\ System.in_step (S := AES) d p /\ PdFacts.quiet p 0 /\ Device.d_outbox d = [].
Proof.
  destruct (enrols Secure.DefaultBaseKey BusLaws.demo (Device.NewDevice 0) kat_reader 0 0 0 0 0 kat_meeting)
    as (b & d & p & es & E & _ & Hb & Hp & Hal & Hstep & Hm); [reflexivity|reflexivity|reflexivity|by vm_compute|exact kat_prompt..|].
  exists b, d, p. split; [exact Hb|]. split; [exact (alone_device b d Hal)|]. split; [exact Hp|]. split; [exact Hstep|].
  assert (Hv : (option_map Device.d_outbox (Bus.device (converse BusLaws.demo kat_reader [0; 0; 0; 0]).1.1 0),
      Pd.g_timeout (Pd.p_cfg (converse BusLaws.demo kat_reader [0; 0; 0; 0]).1.2)) = (Some [], 8000000000))
    by (vm_compute; reflexivity).
  rewrite E in Hv. cbn [fst snd] in Hv. pose proof (alone_device b d Hal) as Hdev. rewrite (proj2 Hal) in Hdev.
  rewrite Hdev in Hv. injection Hv as H1 H2. split; [|exact H1].
  apply (meeting_quiet _ _ _ _ _ _ Hm). right. rewrite H2. vm_compute. discriminate.
Qed.

Example channel_transparent_witness : exists b d p, System.in_step (S := AES) d p /\
  exists b' st msg d', Bus.Next b = (b', Some st) /\ Bus.device b' (Bus.st_Device st) = Some d' /\
    (msg = Device.pollMessage \/ head (Device.d_outbox d) = Some msg) /\
    (exists s, Device.d_session d = Some s /\ crosses (S := AES) s true (Bus.st_Frame st) msg) /\
    exists sp1 s2 sp2,
      let '(p2, ans) := Pd.dispatch (System.hearing p 0 sp1)
          (Pd.zero_frame <| Frame.f_Code := Cmd.m_Code msg |> <| Frame.f_Data := Cmd.m_Data msg |>) true in
      exists r p', Pd.Handle p (Bus.st_Frame st) 0 = (p', Ok r) /\ PdFacts.pd_ok (S := AES) p' /\
        crosses (S := AES) sp1 false r ans /\
        p' = Pd.adoptKey (PdLaws.moved (PdLaws.cached (p2 <| Pd.p_session := Some sp2 |>) (Device.d_seq d') r)) /\
        Bus.reply b' d' (Bus.st_Device st) r 0 =
          Bus.dispatch b' (System.heard d' 0 s2) (Bus.st_Device st) (ans <| Cmd.m_IsReply := true |>) /\
        (Pd.p_adopting p2 = None -> Pd.p_adoptingKey p2 = None -> System.in_step (S := AES) (System.heard d' 0 s2) p').
Proof.
  destruct kat_enrolled as (b & d & p & Hb & Hdev & Hp & Hstep & Hq & Ho).
  exists b, d, p. split; [exact Hstep|].
  apply (System.channel_transparent b d p 0 0 Hb Hdev Hp Hstep Hq). rewrite Ho. by apply Forall_nil.
Defined.
