(* ===== verification/Faults.v ===== *)
(** * What a lost frame does

    Exchanges of which the line loses the command or the reply, replayed on the two
    modelled ends from a fresh line. The bus repeats the commands an application
    queued, never a poll or an enrolment command (Device.retransmit), while the
    device takes an event off its queue, and steps its chains, when it answers;
    these are the consequences. *)

From S2P Require Import Prelude Errors.
From S2P Require Frame Cmd Aes Secure Device Bus BusFacts BusLaws Pd PdFacts PdLaws Enrol.

Inductive fate := Through | ReplyLost | CommandLost.

Definition transact (b : Bus.Bus) (p : Pd.Device) (f : fate) (now : Z) : Bus.Bus * Pd.Device * option Bus.Event :=
  match f with
  | Through => Enrol.exchange b p now
  | ReplyLost | CommandLost =>
      match Bus.Next b with
      | (b, None) => (b, p, None)
      | (b, Some st) =>
          let p := match f with
                   | ReplyLost => (Pd.Handle p (Bus.st_Frame st) now).1
                   | _ => p
                   end in
          let '(b, e) := Bus.Timeout b (Bus.st_Device st) in (b, p, e)
      end
  end.

Fixpoint transacts (b : Bus.Bus) (p : Pd.Device) (fs : list fate) (now : Z) :
    Bus.Bus * Pd.Device * list (option Bus.Event) :=
  match fs with
  | [] => (b, p, [])
  | f :: fs =>
      let '(b, p, e) := transact b p f now in
      let '(b, p, es) := transacts b p fs now in
      (b, p, e :: es)
  end.

Definition kinds (x : Bus.Bus * Pd.Device * list (option Bus.Event)) : list (option Bus.Kind) :=
  map (option_map Bus.e_Kind) x.2.

(** A reader without a channel, identified and online. *)
Definition plain_line : Bus.Bus := Bus.New BusLaws.demo_line [0] Frame.SchemeCRC16.
Definition plain_reader : Pd.Device :=
  match Pd.New 0 [Pd.WithContacts 2 2 1] with
  | Ok d => d
  | Err _ => Enrol.kat_reader
  end.
Definition plain_pair := transacts plain_line plain_reader [Through; Through] 0.

(** A card is presented; it has not been reported yet. *)
Definition badged (x : Bus.Bus * Pd.Device * list (option Bus.Event)) : Bus.Bus * Pd.Device :=
  (x.1.1, (Pd.ReportCardRead x.1.2 PdLaws.kat_card).1).

Definition after (fs : list fate) (x : Bus.Bus * Pd.Device) := transacts x.1 x.2 fs 0.

(** One lost reply, and the card that was presented is never heard of: the poll is
    not repeated, and the device has already taken the card off its queue. With
    the reply through, it is reported. *)
Example lost_reply_loses_card :
  kinds plain_pair = [Some Bus.KindIdentified; Some Bus.KindOnline] /\
  kinds (after [Through; Through] (badged plain_pair)) = [Some Bus.KindCardRead; Some Bus.KindNone] /\
  Pd.Pending (badged plain_pair).2 = 1 /\
  kinds (after [ReplyLost; Through; Through; Through; Through] (badged plain_pair)) =
    [Some Bus.KindNone; Some Bus.KindNone; Some Bus.KindNone; Some Bus.KindNone; Some Bus.KindNone] /\
  Pd.Pending (after [ReplyLost; Through; Through; Through; Through] (badged plain_pair)).1.2 = 0.
Proof. split_and!; vm_compute; reflexivity. Qed.

(** The other way: a card reported at the first number of the rotation is reported
    again when the line has been cut for three polls. The bus starts its numbering
    over at one, not at zero, and the device takes the osdp_ID for a repeat of the
    poll it answered. *)
Example card_reported_twice :
  kinds (after [Through; CommandLost; CommandLost; CommandLost; Through]
    (badged (transacts plain_line plain_reader [Through; Through; Through] 0))) =
    [Some Bus.KindCardRead; Some Bus.KindNone; Some Bus.KindNone; Some Bus.KindOffline; Some Bus.KindCardRead].
Proof. vm_compute. reflexivity. Qed.

(** On a secure line the one lost reply costs the channel as well: the device has
    stepped its chains and the bus has not, so the next command fails to verify. *)
Definition secure_pair := transacts BusLaws.demo Enrol.kat_reader [Through; Through; Through; Through] 0.

Example lost_reply_drops_channel :
  kinds secure_pair = [Some Bus.KindIdentified; Some Bus.KindCapabilities; Some Bus.KindNone; Some Bus.KindSecure] /\
  kinds (after [Through; ReplyLost; Through] secure_pair.1) =
    [Some Bus.KindNone; Some Bus.KindNone; Some Bus.KindSecureFailed].
Proof. split_and!; vm_compute; reflexivity. Qed.
