(* ===== verification/Server.v ===== *)
(** * Serving a line: internal/pd/server.go, serve.go and serveroptions.go

    The loop that reads a command, hands it to [Pd.Handle] and writes the answer.
    Everything outside the package is one record, [world]: the port (Port.v), what
    the context and the clock answer, by the number of the round or of the call,
    and what the application does to the device in the meantime, as the stimuli of PdLaws.v (the device is
    locked, so they fall between two commands). A round of the loop is a function
    from [Server] to [Server] and what [Run] returns, if it returns; both the loop
    and its reader run on fuel. [s_sent] is what the port accepted, one entry for
    each call of Write; [s_closed] is [closeOnce] with [closeErr]. *)

From S2P Require Import Prelude Errors.
From S2P Require Frame Cmd Secure Reader Port Pd PdFacts PdLaws.
Import Port (pt_Read, pt_Write, pt_SetReadDeadline, pt_WriteDeadliner, pt_Close, patient, unblocked, enough).
Import Frame (Frame, WireLen).

Record world := mk_world {
  w_cancelled : nat -> bool;
  w_cancelledLate : nat -> bool;
  w_clock : nat -> Z;
  w_deviceClock : nat -> Z;
  w_port : Port.Port;
  w_application : nat -> list PdLaws.stimulus
}.

Definition defaultIdleTimeout : Z := 500000000.

Record serverSettings := mk_serverSettings { c_idle : Z }.
Definition serverDefaults : serverSettings := mk_serverSettings defaultIdleTimeout.
Definition ServerOption := serverSettings -> serverSettings.
Definition WithIdleTimeout (d : Z) : ServerOption := fun s =>
  if decide (d > 0) then mk_serverSettings d else s.

(** [s_round] counts the rounds of the loop, [s_ticks] the calls of the clock. *)
Record Server := mk_Server {
  s_device : Pd.Device;
  s_idle : Z;
  s_started : bool;
  s_scan : Reader.reader;
  s_round : nat;
  s_ticks : nat;
  s_sent : list octets;
  s_closed : option (option error)
}.

#[global] Instance Server_eta : Eta Server := fun s =>
  mk_Server (s_device s) (s_idle s) (s_started s) (s_scan s) (s_round s) (s_ticks s) (s_sent s) (s_closed s).

(** A nil option is skipped. *)
Definition NewServer (device : Pd.Device) (opts : list (option ServerOption)) : Server :=
  let cfg := fold_left (fun cfg opt => match opt with Some opt => opt cfg | None => cfg end) opts serverDefaults in
  mk_Server device (c_idle cfg) false Reader.newReader 0 0 [] None.

Section serve.
Variable w : world.

(** [s.clock.Now().Add(s.idle)]. *)
Definition deadlineAt (s : Server) : Server * Z :=
  (s <| s_ticks := S (s_ticks s) |>, w_clock w (s_ticks s) + s_idle s).

Definition stopped (s : Server) (e : error) : option error :=
  if w_cancelledLate w (s_round s) then None else Some e.

(** Out of fuel is [None]. *)
Definition read (fuel : nat) (s : Server) : option (Server * result Frame) :=
  let '(s, t) := deadlineAt s in
  match pt_SetReadDeadline (w_port w) (s_round s) t with
  | Some e => Some (s, Err e)
  | None =>
      match Reader.scan_next (pt_Read (w_port w) (Some t)) fuel (s_scan s) with
      | None => None
      | Some (scan, (f, e)) =>
          let s := s <| s_scan := scan |> in
          match e with
          | None | Some (EFrame ErrBadCheck) => Some (s, Ok f)
          | Some e => Some (s, Err e)
          end
      end
  end.

(** The write deadline that is set, if the port has them, and what setting it said. *)
Definition armWrite (s : Server) : Server * option Z * option error :=
  match pt_WriteDeadliner (w_port w) with
  | Some SetWriteDeadline => let '(s, t) := deadlineAt s in (s, Some t, SetWriteDeadline (s_round s) t)
  | None => (s, None, None)
  end.

(** [None] is a write that never returns. *)
Definition write (s : Server) (wire : octets) : option (Server * option error) :=
  match armWrite s with
  | (s, _, Some e) => Some (s, Some e)
  | (s, t, None) =>
      match pt_Write (w_port w) t (s_round s) wire with
      | None => None
      | Some (n, err) =>
          let s := s <| s_sent := s_sent s ++ [slice wire 0 n] |> in
          match err with
          | Some e => Some (s, Some e)
          | None => if decide (n <> len wire) then Some (s, Some (ETransport ErrShortWrite)) else Some (s, None)
          end
      end
  end.

(** One round: [None] goes round again, [Some e] is what [Run] returns. *)
Definition round (fuel : nat) (s : Server) : option (Server * option (option error)) :=
  let again s := Some (s <| s_round := S (s_round s) |>, None) in
  if w_cancelled w (s_round s) then Some (s, Some None)
  else
    match read fuel s with
    | None => None
    | Some (s, Err (ETransport ErrTimeout)) => again s
    | Some (s, Err e) => Some (s, Some (stopped s e))
    | Some (s, Ok command) =>
        let device := fold_left PdLaws.react (w_application w (s_round s)) (s_device s) in
        let '(device, reply) := Pd.Handle device command (w_deviceClock w (s_round s)) in
        let s := s <| s_device := device |> in
        match reply with
        | Err e => if ErrNoReply e then again s else Some (s, Some (Some e))
        | Ok reply =>
            match Frame.Append reply [] with
            | Err e => Some (s, Some (Some e))
            | Ok out =>
                match write s out with
                | None => None
                | Some (s, Some e) => Some (s, Some (stopped s e))
                | Some (s, None) => again s
                end
            end
        end
    end.

Fixpoint serve (rounds fuel : nat) (s : Server) : option (Server * option error) :=
  match rounds with
  | O => None
  | S rounds =>
      match round fuel s with
      | None => None
      | Some (s, Some e) => Some (s, e)
      | Some (s, None) => serve rounds fuel s
      end
  end.

Definition Run (rounds fuel : nat) (s : Server) : option (Server * option error) :=
  if s_started s then Some (s, Some (EPd Pd_ErrAlreadyRun))
  else serve rounds fuel (s <| s_started := true |> <| s_scan := Reader.newReader |>).

(** [closeOnce] and [closeErr]. *)
Definition Close (s : Server) : Server * option error :=
  match s_closed s with
  | Some e => (s, e)
  | None => let e := pt_Close (w_port w) in (s <| s_closed := Some e |>, e)
  end.

End serve.

(** ** What the loop keeps *)

Section with_suite.
Context {S : Secure.CipherSuite} `{!Secure.SuiteLaws S}.

Definition server_ok (s : Server) : Prop := PdFacts.pd_ok (S := S) (s_device s) /\ Reader.well (s_scan s).

(** What transport.Port documents, and the Go types of what is reported. *)
Definition world_ok (w : world) : Prop :=
  Port.sane (w_port w) /\ forall t, Forall PdLaws.stimulus_ok (w_application w t).

(** The port said so itself, or took less than it was given. *)
Definition port_error (w : world) (e : error) : Prop :=
  Port.port_error (w_port w) e \/
  (e = ETransport ErrShortWrite /\ exists dl t wire n, pt_Write (w_port w) dl t wire = Some (n, None) /\ n <> len wire).

Lemma reacts_ok d sts : PdFacts.pd_ok (S := S) d -> Forall PdLaws.stimulus_ok sts ->
  PdFacts.pd_ok (S := S) (fold_left PdLaws.react sts d).
Proof. intros Hd Hs. revert d Hd. induction Hs; intros d Hd; [done|]. by apply IHHs, PdLaws.react_ok. Qed.

Lemma read_spec w fuel s s' x : world_ok w -> server_ok s -> read w fuel s = Some (s', x) ->
  server_ok s' /\ s_device s' = s_device s /\ s_round s' = s_round s /\ s_sent s' = s_sent s /\
  match x with
  | Ok f => Frame.frame_ok f
  | Err e => e = ETransport ErrTimeout \/ port_error w e
  end.
Proof.
  intros [Hs _] [Hd Hr]. unfold read. cbn [deadlineAt].
  destruct (pt_SetReadDeadline _ _ _) as [e|] eqn:E.
  { intros [= <- <-]. split_and!; try done. right. left. by eapply Port.pe_SetReadDeadline. }
  cbn [s_scan update]. destruct (Reader.scan_next _ _ _) as [[scan [f e]]|] eqn:Ex; [|done].
  destruct (Reader.scan_next_returns _ _ _ _ _ (Hs _) Hr Ex) as [Hr' Hret]. unfold Reader.returned in Hret. cbn [fst snd] in Hret.
  destruct e as [[[]| | | | | | | | |]|]; intros [= <- <-]; (split; [by split|]); (split; [done|]);
    (split; [done|]); (split; [done|]); try exact Hret; destruct Hret as [[]|[?|(i & room & Hx)]]; try (by left); right; left; by eapply Port.pe_Read.
Qed.

Lemma write_spec w s wire s' e : write w s wire = Some (s', e) ->
  s_device s' = s_device s /\ s_round s' = s_round s /\ s_scan s' = s_scan s /\
  match e with
  | None => s_sent s' = s_sent s ++ [slice wire 0 (len wire)]
  | Some e => port_error w e
  end.
Proof.
  unfold write. destruct (armWrite w s) as [[s1 dl] refused] eqn:E. unfold armWrite in E.
  assert (H1 : s_device s1 = s_device s /\ s_round s1 = s_round s /\ s_scan s1 = s_scan s /\ s_sent s1 = s_sent s /\
    forall e, refused = Some e -> port_error w e).
  { destruct (pt_WriteDeadliner (w_port w)) as [D|] eqn:ED; injection E as <- <- <-; split_and!; try done.
    intros e1 He. left. by eapply Port.pe_SetWriteDeadline. }
  clear E. destruct H1 as (Ed & Er & Es & Et & Hp).
  destruct refused as [e0|]; [intros [= <- <-]; split_and!; auto|].
  destruct (pt_Write (w_port w) dl (s_round s1) wire) as [[n [e1|]]|] eqn:EW; [| |done].
  { intros [= <- <-]. split_and!; try done. left. by eapply Port.pe_Write. }
  case_decide as Hn; intros [= <- <-]; (split_and!; [done..|]).
  - right. split; [done|]. exists dl. eauto.
  - assert (n = len wire) as -> by (by destruct (decide (n = len wire))). cbn [s_sent update]. by rewrite Et.
Qed.

(** One round. It is spoken to before it speaks: what goes on the line is the
    encoding of the device's answer to a frame that was read in that round. *)
Definition round_end (w : world) (s s' : Server) (x : option (option error)) : Prop :=
  match x with
  | None => s_round s' = Datatypes.S (s_round s) /\ w_cancelled w (s_round s) = false /\
      (s_sent s' = s_sent s \/ exists d f r d', Frame.frame_ok f /\ PdFacts.pd_ok (S := S) d /\
         Pd.Handle d f (w_deviceClock w (s_round s)) = (d', Ok r) /\
         s_sent s' = s_sent s ++ [Frame.wire_octets r])
  | Some None => w_cancelled w (s_round s) = true \/ w_cancelledLate w (s_round s) = true
  | Some (Some e) => port_error w e \/ exists r, Frame.frame_ok r /\ Frame.Append r [] = Err e
  end.

(** A port's error ends the loop, unless the context explains it. *)
Lemma round_stops w s s2 e : server_ok s2 -> s_round s2 = s_round s -> port_error w e ->
  server_ok s2 /\ round_end w s s2 (Some (stopped w s2 e)).
Proof.
  intros H2 Hn He. split; [done|]. unfold stopped. rewrite Hn. destruct (w_cancelledLate w (s_round s)) eqn:E; [by right|by left].
Qed.

(** Nothing to say: the loop goes round. *)
Lemma round_again w s s2 : w_cancelled w (s_round s) = false -> server_ok s2 -> s_round s2 = s_round s ->
  s_sent s2 = s_sent s ->
  server_ok (s2 <| s_round := Datatypes.S (s_round s2) |>) /\ round_end w s (s2 <| s_round := Datatypes.S (s_round s2) |>) None.
Proof. intros Hc H2 Hn Hs. split; [done|]. cbn [round_end s_round s_sent update]. rewrite Hn. auto. Qed.

(** The device's answer to [f] goes on the line. *)
Lemma round_replies w s s1 dev f d' r : w_cancelled w (s_round s) = false -> server_ok s1 ->
  s_round s1 = s_round s -> s_sent s1 = s_sent s -> Frame.frame_ok f -> PdFacts.pd_ok (S := S) dev ->
  Pd.Handle dev f (w_deviceClock w (s_round s1)) = (d', Ok r) -> PdFacts.pd_ok (S := S) d' -> Frame.frame_ok r ->
  match write w (s1 <| s_device := d' |>) (Frame.wire_octets r) with
  | None => True
  | Some (s2, Some e) => server_ok s2 /\ round_end w s s2 (Some (stopped w s2 e))
  | Some (s2, None) => server_ok (s2 <| s_round := Datatypes.S (s_round s2) |>) /\
      round_end w s (s2 <| s_round := Datatypes.S (s_round s2) |>) None
  end.
Proof.
  intros Hc [Hd1 Hr1] Hn Hs Hf Hdev EH Hd' Hr.
  destruct (write w (s1 <| s_device := d' |>) (Frame.wire_octets r)) as [[s2 [e|]]|] eqn:EW; [| |done];
    destruct (write_spec _ _ _ _ _ EW) as (W1 & W2 & W3 & W4); cbn [s_device s_round s_scan s_sent update] in W1, W2, W3, W4.
  - apply round_stops; [by split; rewrite ?W1, ?W3|by rewrite W2|done].
  - split; [by split; cbn [s_device s_scan update]; rewrite ?W1, ?W3|]. cbn [round_end s_round s_sent update]. rewrite W2, Hn.
    split; [done|]. split; [done|]. right. exists dev, f, r, d'. rewrite <- Hn. split_and!; try done.
    by rewrite W4, slice_full, Hs.
Qed.

Lemma round_spec w fuel s s' x : world_ok w -> server_ok s -> round w fuel s = Some (s', x) ->
  server_ok s' /\ round_end w s s' x.
Proof.
  intros Hw Hs. unfold round. destruct (w_cancelled w (s_round s)) eqn:Ec; [intros [= <- <-]; split; [done|by left]|].
  destruct (read w fuel s) as [[s1 y]|] eqn:Er; [|done].
  destruct (read_spec w fuel s s1 y Hw Hs Er) as (Hok1 & Ed & Ern & Esent & Hy). cbv zeta. destruct y as [f|e].
  2:{ destruct (decide (e = ETransport ErrTimeout)) as [->|Hne]; [intros [= <- <-]; by apply round_again|].
      destruct Hy as [?|Hy]; [done|]. pose proof (round_stops w s s1 e Hok1 Ern Hy) as Hx.
      destruct e as [| | |[]| | | | | |]; try done; by intros [= <- <-]. }
  set (dev := fold_left PdLaws.react (w_application w (s_round s1)) (s_device s1)).
  assert (Hdev : PdFacts.pd_ok (S := S) dev) by (apply reacts_ok; [apply Hok1|apply Hw]). clearbody dev.
  pose proof (PdFacts.Handle_total dev f (w_deviceClock w (s_round s1)) Hdev Hy) as Hh.
  destruct (Pd.Handle dev f (w_deviceClock w (s_round s1))) as [d' reply] eqn:EH.
  case_match.
  - destruct Hh as (d2 & r & [= -> ->] & Hd2 & Hf & _). destruct (Frame.Append r []) as [out|e] eqn:EA.
    + apply Frame.Append_inv in EA as [_ ->].
      pose proof (round_replies w s s1 dev f d2 r Ec Hok1 Ern Esent Hy Hdev EH Hd2 Hf) as Hx.
      destruct (write w _ _) as [[s2 [e|]]|]; [by intros [= <- <-]..|done].
    + intros [= <- <-]. split; [by split; [|apply Hok1]|]. right. eauto.
  - destruct Hh as (e & [= -> ->] & He). rewrite He. intros [= <- <-].
    exact (round_again w s (s1 <| s_device := dev |>) Ec (conj Hdev (proj2 Hok1)) Ern Esent).
Qed.

Lemma serve_spec w rounds fuel s s' e : world_ok w -> server_ok s -> serve w rounds fuel s = Some (s', e) ->
  server_ok s' /\
  match e with
  | None => exists t, w_cancelled w t = true \/ w_cancelledLate w t = true
  | Some e => port_error w e \/ exists r, Frame.frame_ok r /\ Frame.Append r [] = Err e
  end.
Proof.
  intros Hw. revert s. induction rounds as [|rounds IH]; intros s Hs; [done|]. cbn [serve].
  destruct (round w fuel s) as [[s1 [x|]]|] eqn:E; [| |done]; destruct (round_spec w fuel s s1 _ Hw Hs E) as [H1 H2].
  - intros [= <- <-]. split; [done|]. destruct x as [e1|]; [exact H2|]. eauto.
  - by apply IH.
Qed.

(** Nothing on the line stops a device being served. Whatever octets arrive,
    whatever commands they carry and whatever the application reports meanwhile,
    [Run] returns nil only when its context was cancelled, and otherwise an error
    the port made (or ErrShortWrite for one that took less than it was given), or
    that of an answer too long to be a frame; [ErrAlreadyRun] if it had been run.
    The device's invariant holds at the end. *)
Theorem server_survives w rounds fuel s s' e : world_ok w -> server_ok s -> Run w rounds fuel s = Some (s', e) ->
  server_ok s' /\
  match e with
  | None => exists t, w_cancelled w t = true \/ w_cancelledLate w t = true
  | Some e => (s_started s = true /\ e = EPd Pd_ErrAlreadyRun) \/ port_error w e \/
      exists r, Frame.frame_ok r /\ Frame.Append r [] = Err e
  end.
Proof.
  intros Hw [Hd Hr]. unfold Run. destruct (s_started s) eqn:Es.
  { intros [= <- <-]. split; [by split|]. by left. }
  intros [H1 H2]%serve_spec; [|done|by split; [|exact Reader.well_new]]. split; [done|]. destruct e; [by right|done].
Qed.

Lemma write_returns w s wire : unblocked (w_port w) -> is_Some (write w s wire).
Proof.
  unfold unblocked, write, armWrite. destruct (pt_WriteDeadliner (w_port w)) as [D|]; intros Hu; cbn [deadlineAt].
  - destruct (D _ _); [by eexists|]. match goal with |- context [pt_Write _ (Some ?t) ?i ?b] => destruct (Hu t i b) as [[n err] ->] end.
    destruct err; [by eexists|]. case_decide; by eexists.
  - match goal with |- context [pt_Write _ _ ?i ?b] => destruct (Hu i b) as [[n err] ->] end.
    destruct err; [by eexists|]. case_decide; by eexists.
Qed.

Lemma round_returns w m fuel s : world_ok w -> server_ok s -> patient (w_port w) m -> unblocked (w_port w) ->
  enough m fuel -> is_Some (round w fuel s).
Proof.
  intros [Hs _] [_ [Hr _]] Hm Hu Hf. unfold round. destruct (w_cancelled w (s_round s)); [by eexists|].
  assert (Hread : is_Some (read w fuel s)).
  { unfold read. cbn [deadlineAt s_scan update]. destruct (pt_SetReadDeadline _ _ _); [by eexists|].
    match goal with |- context [pt_Read _ (Some ?t)] =>
      destruct (Port.patient_reader (w_port w) m fuel (s_scan s) t) as [_ [[scan [f e]] ->]] end;
      [apply Hs|done..|destruct e as [[[]| | | | | | | | |]|]; by eexists]. }
  destruct Hread as [[s1 x] ->]. cbv zeta. destruct x as [f|e]; [|destruct e as [| | |[]| | | | | |]; by eexists].
  destruct (Pd.Handle _ _ _) as [d [r|e]]; [|destruct (ErrNoReply e); by eexists].
  destruct (Frame.Append r []) as [out|e]; [|by eexists].
  match goal with |- context [write w ?s2 out] => destruct (write_returns w s2 out Hu) as [[s3 [e|]] ->] end; by eexists.
Qed.

Lemma serve_returns w m c fuel : world_ok w -> patient (w_port w) m -> unblocked (w_port w) -> w_cancelled w c = true ->
  enough m fuel -> forall n s, server_ok s -> (s_round s + n = c)%nat ->
  is_Some (serve w (Datatypes.S n) fuel s).
Proof.
  intros Hw Hm Hu Hc Hf n. induction n as [|n IH]; intros s Hs Hn; cbn [serve].
  - destruct (round_returns w m fuel s Hw Hs Hm Hu Hf) as [[s1 [x|]] E]; rewrite E; [by eexists|].
    destruct (round_spec w fuel s s1 None Hw Hs E) as (_ & _ & Hx & _).
    replace (s_round s) with c in Hx by lia. congruence.
  - destruct (round_returns w m fuel s Hw Hs Hm Hu Hf) as [[s1 [x|]] E]; rewrite E; [by eexists|].
    destruct (round_spec w fuel s s1 None Hw Hs E) as (H1 & H2 & _). apply IH; [done|lia].
Qed.

(** Shutdown is prompt. A server that has made [c] rounds at most when its
    context is cancelled returns, provided its port's deadlines work: of any [m] reads
    in a row under one, one comes back with an error, and a write under one returns. A round costs at most 1537
    turns of the reader for each of those reads, and 1536 for the octets it holds. *)
Theorem server_stops w m c fuel s : world_ok w -> server_ok s -> patient (w_port w) m -> unblocked (w_port w) ->
  s_started s = false -> (s_round s <= c)%nat -> w_cancelled w c = true ->
  enough m fuel ->
  is_Some (Run w (Datatypes.S (c - s_round s)) fuel s).
Proof.
  intros Hw [Hd Hr] Hm Hu Hst Hle Hc Hf. unfold Run. rewrite Hst.
  apply (serve_returns w m c fuel); try done; [by split; [|exact Reader.well_new]|cbn; lia].
Qed.

(** ** What a served device says

    The specification: the device answers the commands one after the other, with
    what the application reported before each. *)
Fixpoint conversation (w : world) (t : nat) (d : Pd.Device) (commands : list Frame) : Pd.Device * list Frame :=
  match commands with
  | [] => (d, [])
  | f :: commands =>
      let '(d, r) := Pd.Handle (fold_left PdLaws.react (w_application w t) d) f (w_deviceClock w t) in
      let '(d, rs) := conversation w (Datatypes.S t) d commands in
      (d, match r with Ok r => r :: rs | Err _ => rs end)
  end.

(** One command as it reaches the port: noise first, in any pieces. *)
Record arrival := mk_arrival { a_frame : Frame; a_noise : octets; a_chunks : list octets }.

Record arrives (fuel : nat) (a : arrival) : Prop := mk_arrives {
  ar_ok : Frame.frame_ok (a_frame a);
  ar_wire : Frame.representable (a_frame a) = None;
  ar_noise : Reader.noise (a_noise a);
  ar_fits : len (a_noise a) + WireLen (a_frame a) <= 1536;
  ar_chunks : concat (a_chunks a) = a_noise a ++ Frame.wire_octets (a_frame a);
  ar_pieces : Forall (fun c => c <> []) (a_chunks a);
  ar_fuel : (3 * length (a_chunks a) + 1 < fuel)%nat
}.

(** A port without faults, and a context that lasts [n] rounds. *)
Record healthy (w : world) (t n : nat) : Prop := mk_healthy {
  he_running : forall i, (t <= i < t + n)%nat -> w_cancelled w i = false;
  he_port : Port.faultless (w_port w)
}.

Lemma healthy_later w t n : healthy w t (Datatypes.S n) -> healthy w (Datatypes.S t) n.
Proof. intros []. split; [|done]. intros i Hi. apply he_running0. lia. Qed.

Lemma write_healthy w t n s wire : healthy w t n -> exists s', write w s wire = Some (s', None) /\
  s_device s' = s_device s /\ s_round s' = s_round s /\ s_scan s' = s_scan s /\ s_sent s' = s_sent s ++ [wire].
Proof.
  intros [_ [_ Hd Hw]]. unfold write, armWrite. destruct (pt_WriteDeadliner (w_port w)) as [D|] eqn:ED; cbn [deadlineAt];
    [rewrite (Hd D _ _ eq_refl)|]; rewrite Hw, decide_False, slice_full by (by intros ?); by eexists.
Qed.

(** What a server is between two commands: as well as it was, and with nothing
    left over in its buffer. *)
Record idle (s : Server) : Prop := mk_idle {
  id_ok : server_ok s;
  id_empty : Reader.content (s_scan s) = []
}.

Lemma round_serves w fuel s a d r : world_ok w -> idle s -> arrives fuel a ->
  (forall dl, Reader.delivers (pt_Read (w_port w) dl) (Reader.r_reads (s_scan s)) (a_chunks a)) -> healthy w (s_round s) 1 ->
  Pd.Handle (fold_left PdLaws.react (w_application w (s_round s)) (s_device s)) (a_frame a)
    (w_deviceClock w (s_round s)) = (d, r) ->
  (forall r', r = Ok r' -> Frame.representable r' = None) ->
  exists s', round w fuel s = Some (s', None) /\ idle s' /\ s_device s' = d /\
    s_round s' = Datatypes.S (s_round s) /\
    Reader.r_reads (s_scan s') = (Reader.r_reads (s_scan s) + length (a_chunks a))%nat /\
    s_sent s' = s_sent s ++ match r with Ok r => [Frame.wire_octets r] | Err _ => [] end.
Proof.
  intros Hw [Hs Hc] [Hf Hrep Hn Hfit Hcat Hne Hfu] Hd Hh EH Hr.
  set (dl := w_clock w (s_ticks s) + s_idle s).
  destruct (Reader.scan_assembles (pt_Read (w_port w) (Some dl)) (a_frame a) Hf Hrep fuel (a_chunks a) (a_noise a) (s_scan s))
    as (scan & Es & Hok & Hc' & Hreads); [apply Hs|done|done|by rewrite Hc|done|exact (Hd _)|repeat case_decide; lia || done|].
  assert (Eread : exists s1, read w fuel s = Some (s1, Ok (a_frame a)) /\ s_device s1 = s_device s /\
    s_round s1 = s_round s /\ s_sent s1 = s_sent s /\ s_scan s1 = scan).
  { unfold read. cbn [deadlineAt s_scan s_round update]. rewrite (Port.fl_reads _ (he_port _ _ _ Hh)). fold dl. rewrite Es. unfold Reader.verdict.
    destruct (Frame.CheckOK _); eexists; by split_and!. }
  destruct Eread as (s1 & Er & E1 & E2 & E3 & E4).
  destruct (read_spec w fuel s s1 _ Hw Hs Er) as (Hs1 & _).
  assert (Hdev : PdFacts.pd_ok (S := S) (fold_left PdLaws.react (w_application w (s_round s)) (s_device s)))
    by (apply reacts_ok; [apply Hs|apply Hw]).
  pose proof (PdFacts.Handle_total _ (a_frame a) (w_deviceClock w (s_round s)) Hdev Hf) as Ht. rewrite EH in Ht.
  assert (Hpd : PdFacts.pd_ok (S := S) d /\ forall e, r = Err e -> ErrNoReply e = true).
  { case_match; [destruct Ht as (? & ? & [= -> ->] & ? & _)|destruct Ht as (? & [= -> ->] & ?)]; split; try done.
    by intros ? [= <-]. }
  clear Ht. destruct Hpd as [Hpd He].
  unfold round. rewrite (he_running _ _ _ Hh) by lia. rewrite Er. cbv beta iota zeta. rewrite E1, E2, EH. cbv beta iota.
  destruct r as [r|e].
  - rewrite Frame.Append_wire by (by apply Hr).
    destruct (write_healthy w _ _ (s1 <| s_device := d |>) (Frame.wire_octets r) Hh) as (s2 & -> & W1 & W2 & W3 & W4).
    cbn [s_device s_round s_scan s_sent update] in W1, W2, W3, W4.
    eexists. split; [done|]. cbn [s_device s_round s_scan s_sent update]. rewrite W1, W2, W3, W4, E2, E3, E4.
    split_and!; try done. split; [split|]; cbn [s_device s_scan update]; rewrite ?W1, ?W3, ?E4; try done. rewrite <- E4. apply Hs1.
  - rewrite (He e eq_refl). eexists. split; [done|]. cbn [s_device s_round s_scan s_sent update].
    rewrite E2, E3, E4, app_nil_r. split_and!; try done.
    split; [split|]; cbn [s_device s_scan update]; rewrite ?E4; try done. rewrite <- E4. apply Hs1.
Qed.

(** C14. A served device speaks as the device does. On a port without faults, commands
    arrive one after the other, cut into any pieces, each behind noise that cannot be
    taken for a frame: octets none of which is the start of message 0x53 or the mark
    0xFF, no more of them than fit the reader's 1536 octets together with the command.
    They are answered in order: what the loop wrote is the encoding of the answers of
    [Handle], silence included, and it is left waiting with the device those answers left
    and an empty buffer. *)
Theorem server_refines w fuel arrs rounds s d rs : world_ok w -> idle s -> Forall (arrives fuel) arrs ->
  (forall dl, Reader.delivers (pt_Read (w_port w) dl) (Reader.r_reads (s_scan s)) (concat (map a_chunks arrs))) ->
  healthy w (s_round s) (length arrs) ->
  conversation w (s_round s) (s_device s) (map a_frame arrs) = (d, rs) ->
  Forall (fun r => Frame.representable r = None) rs ->
  exists s', serve w (length arrs + rounds) fuel s = serve w rounds fuel s' /\ idle s' /\ s_device s' = d /\
    s_round s' = (s_round s + length arrs)%nat /\ s_sent s' = s_sent s ++ map Frame.wire_octets rs.
Proof.
  intros Hw Hs Ha. revert s Hs d rs. induction Ha as [|a arrs Ha Hall IH]; intros s Hs d rs Hd Hh E Hrs.
  { injection E as <- <-. exists s. split_and!; try done; rewrite ?app_nil_r; (done || (cbn; lia)). }
  cbn [map concat conversation length] in *. 
  assert (Hd1 : forall dl, Reader.delivers (pt_Read (w_port w) dl) (Reader.r_reads (s_scan s)) (a_chunks a))
    by (intros dl; apply (Port.delivers_app _ _ _ _ (Hd dl))).
  assert (Hd2 : forall dl, Reader.delivers (pt_Read (w_port w) dl) (Reader.r_reads (s_scan s) + length (a_chunks a)) (concat (map a_chunks arrs)))
    by (intros dl; apply (Port.delivers_app _ _ _ _ (Hd dl))).
  destruct (Pd.Handle _ _ _) as [d1 r1] eqn:EH. destruct (conversation w _ d1 _) as [d2 rs2] eqn:Ec.
  injection E as <- <-.
  assert (Hr1 : (forall r', r1 = Ok r' -> Frame.representable r' = None) /\
    Forall (fun r => Frame.representable r = None) rs2).
  { destruct r1 as [r1|e1]; [|by split]. apply Forall_cons in Hrs as [? ?]. split; [by intros ? [= <-]|done]. }
  destruct Hr1 as [Hr1 Hrs2].
  destruct (round_serves w fuel s a d1 r1 Hw Hs Ha Hd1) as (s1 & Er & Hs1 & E1 & E2 & E3 & E4); [|done|done|].
  { destruct Hh. split; try done. intros i Hi. apply he_running0. lia. }
  destruct (IH s1 Hs1 d2 rs2) as (s' & E' & Hs' & F1 & F2 & F3); rewrite ?E1, ?E2, ?E3; try done; [by apply healthy_later|].
  exists s'. cbn [serve Nat.add]. rewrite Er. split_and!; try done; [lia|].
  rewrite F3, E4, <- app_assoc. by destruct r1.
Qed.

End with_suite.

(** ** Witnesses

    The reader of PdFacts.v on a line that carries noise and half of its first
    command, the rest, and another command whole; a card is presented before the
    second round, and the context is cancelled after four. *)
Abbreviation AES := Secure.AES128.suite (only parsing).

Definition kat_arrivals : list arrival := [
  mk_arrival PdFacts.kat_out [0x11; 0x22] [[0x11]; [0x22; 0x53]; drop 1 (Frame.wire_octets PdFacts.kat_out)];
  mk_arrival PdFacts.kat_poll2 [] [Frame.wire_octets PdFacts.kat_poll2]].

Definition kat_port : Port.Port := Port.mk_Port (fun _ => Reader.scripted (concat (map a_chunks kat_arrivals)))
  (fun _ _ wire => Some (len wire, None)) (fun _ _ => None) None None.

Definition kat_world : world := mk_world (fun t => bool_decide (4 <= t)%nat) (fun _ => false) (fun _ => 0) (fun _ => 0)
  kat_port (fun t => if decide (t = 1%nat) then [PdLaws.Card PdLaws.kat_card] else []).

Definition kat_server : Server := NewServer PdFacts.kat_pd [Some (WithIdleTimeout 1000000)].

Lemma kat_world_ok : world_ok kat_world.
Proof.
  split; [intros dl; apply Reader.scripted_sane; by vm_compute|].
  intros t. cbn [w_application kat_world]. case_decide; [|by apply Forall_nil].
    apply Forall_cons. split; [exact PdLaws.kat_card_ok|by apply Forall_nil].
Qed.

Lemma kat_server_ok : server_ok (S := AES) kat_server.
Proof. split; [exact PdFacts.kat_pd_ok|exact Reader.well_new]. Qed.

Lemma kat_patient : patient kat_port 5.
Proof. exact (Port.scripted_patient (concat (map a_chunks kat_arrivals)) _ _ _ _). Qed.

Lemma kat_unblocked : unblocked kat_port.
Proof. by eexists. Qed.

Example server_stops_witness : is_Some (Run kat_world 5 9300 kat_server).
Proof.
  apply (server_stops kat_world 5 4 9300 kat_server kat_world_ok kat_server_ok kat_patient kat_unblocked);
    [reflexivity|apply Nat.leb_le; reflexivity|reflexivity|vm_compute; reflexivity].
Defined.

(** What it did: two answers on the line, the second of them the card, and nil. *)
Example kat_served : option_map (fun x => (length (s_sent x.1), x.2)) (Run kat_world 5 9300 kat_server) =
  Some (2%nat, None).
Proof. vm_compute. reflexivity. Qed.

Lemma kat_run : exists s', Run kat_world 5 9300 kat_server = Some (s', None).
Proof.
  pose proof kat_served as Hk. destruct (Run kat_world 5 9300 kat_server) as [[s' e]|]; [|discriminate Hk].
  exists s'. pose proof (f_equal (fun x => match x with Some y => y.2 | None => None end) Hk) as He.
  cbn in He. by rewrite He.
Qed.

Example server_survives_witness : exists s', server_ok (S := AES) s' /\
  exists t, w_cancelled kat_world t = true \/ w_cancelledLate kat_world t = true.
Proof.
  destruct kat_run as [s' E]. exists s'.
  exact (server_survives kat_world 5 9300 kat_server s' None kat_world_ok kat_server_ok E).
Defined.

Lemma kat_arrives : Forall (arrives 12) kat_arrivals.
Proof.
  apply Forall_cons; split; [|apply Forall_cons; split; [|by apply Forall_nil]]; split;
    match goal with
    | |- Frame.frame_ok _ => apply Frame.frame_check_ok; by vm_compute
    | |- Forall _ _ => repeat (apply Forall_cons; split; [by vm_compute|]); by apply Forall_nil
    | |- (_ < _)%nat => apply Nat.ltb_lt; reflexivity
    | |- Reader.noise _ => repeat (apply Forall_cons; split; [by vm_compute|]); by apply Forall_nil
    | |- _ => by vm_compute
    end.
Qed.

Lemma kat_healthy : healthy kat_world (s_round kat_server) (length kat_arrivals).
Proof. split; [|by split]. intros i Hi. simpl in *. by rewrite bool_decide_false by lia. Qed.

Definition kat_said : Pd.Device * list Frame :=
  conversation kat_world (s_round kat_server) (s_device kat_server) (map a_frame kat_arrivals).

Lemma kat_answers_fit : Forall (fun r => Frame.representable r = None) kat_said.2.
Proof.
  apply (forallb_Forall (fun r => bool_decide (Frame.representable r = None))); [|by vm_compute].
  intros r. apply bool_decide_eq_true_1.
Qed.

Lemma kat_server_idle : idle (S := AES) kat_server.
Proof. split; [exact kat_server_ok|reflexivity]. Qed.

Lemma kat_delivers :
  forall dl, Reader.delivers (pt_Read (w_port kat_world) dl) (Reader.r_reads (s_scan kat_server)) (concat (map a_chunks kat_arrivals)).
Proof. intros dl. exact (Reader.scripted_delivers _). Qed.

Lemma kat_said_eq : conversation kat_world (s_round kat_server) (s_device kat_server) (map a_frame kat_arrivals) =
  (kat_said.1, kat_said.2).
Proof. unfold kat_said. apply surjective_pairing. Qed.

Example server_refines_witness : exists s',
  serve kat_world (length kat_arrivals + 3) 12 kat_server = serve kat_world 3 12 s' /\ idle (S := AES) s' /\
  s_device s' = kat_said.1 /\ s_round s' = (s_round kat_server + length kat_arrivals)%nat /\
  s_sent s' = s_sent kat_server ++ map Frame.wire_octets kat_said.2.
Proof.
  exact (server_refines kat_world 12 kat_arrivals 3 kat_server kat_said.1 kat_said.2 kat_world_ok kat_server_idle
    kat_arrives kat_delivers kat_healthy kat_said_eq kat_answers_fit).
Defined.
