(* ===== verification/Panel.v ===== *)
(** * Driving a line: internal/panel/panel.go, cycle.go, send.go and options.go

    The poll cycle over the bus of Bus.v and the reader of Reader.v. As in
    Server.v, what is outside the package is a record, [world]: the port, the
    context, the clock, the requests other goroutines have handed over by the time
    a round drains them, and whether the consumer of the event channel or the
    cancelled context is first when an event is published. [p_sent] is what the
    port was given, [p_events] what was published, [p_answers] what each request
    was answered on its [done] channel. An event is recorded as it was when it was
    published; its payload aliases the reader's buffer (see Reader.payload_overwritten
    for what that does). *)

From S2P Require Import Prelude Errors.
From S2P Require Frame Cmd Secure Reader Port Device Bus BusFacts BusLaws.
Import Frame (Frame, WireLen).
Import Port (pt_Read, pt_Write, pt_SetReadDeadline, pt_WriteDeadliner, pt_Close, patient, unblocked, enough).

(** One command, or a key to install, or an address to move to. *)
Record request := mk_request {
  q_addr : Z;
  q_msg : Cmd.Message;
  q_key : option (list Z);
  q_comms : option Cmd.Communication
}.

Record world := mk_world {
  w_port : Port.Port;
  w_cancelled : nat -> bool;
  w_cancelledLate : nat -> bool;
  w_clock : nat -> Z;
  w_Sleep : nat -> Z -> option error;
  w_requests : nat -> list request;
  w_publish : nat -> option error
}.

(** ** options.go *)

Definition defaultEventBuffer : Z := 16.
Definition defaultRequestQueue : Z := 16.

Record settings := mk_settings { c_buffer : Z; c_requests : Z }.
Definition defaults : settings := mk_settings defaultEventBuffer defaultRequestQueue.
Definition Option := settings -> settings.
Definition WithEventBuffer (n : Z) : Option := fun s =>
  if decide (n >= 0) then mk_settings n (c_requests s) else s.

(** ** panel.go *)

Record Panel := mk_Panel {
  p_bus : Bus.Bus;
  p_settings : settings;
  p_started : bool;
  p_reader : Reader.reader;
  p_round : nat;
  p_ticks : nat;
  p_sent : list octets;
  p_events : list Bus.Event;
  p_answers : list (request * option error);
  p_closed : option (option error)
}.

#[global] Instance Panel_eta : Eta Panel := fun p =>
  mk_Panel (p_bus p) (p_settings p) (p_started p) (p_reader p) (p_round p) (p_ticks p) (p_sent p)
    (p_events p) (p_answers p) (p_closed p).

Definition New (b : Bus.Bus) (opts : list Option) : Panel :=
  mk_Panel b (fold_left (fun cfg opt => opt cfg) opts defaults) false Reader.newReader 0 0 [] [] [] None.

(** ** send.go: the first device with the address, if there is one. *)

Fixpoint addressed (i : nat) (ds : list Device.Device) (addr : Z) : option nat :=
  match ds with
  | [] => None
  | d :: ds => if decide (Device.d_Address d = addr) then Some i else addressed (S i) ds addr
  end.

Definition queue (b : Bus.Bus) (req : request) : Bus.Bus * option error :=
  match addressed 0 (Bus.b_devices b) (q_addr req) with
  | None => (b, Some (EPanel ErrUnknownDevice))
  | Some i =>
      match q_key req, q_comms req with
      | Some key, _ => Bus.InstallKey b i key
      | None, Some to => Bus.SetCommunication b i to
      | None, None => Bus.Send b i (q_msg req)
      end
  end.

Section drive.
Variable w : world.

Definition answer (p : Panel) (req : request) : Panel :=
  let '(b, e) := queue (p_bus p) req in
  p <| p_bus := b |> <| p_answers := p_answers p ++ [(req, e)] |>.

Definition drainRequests (p : Panel) : Panel := fold_left answer (w_requests w (p_round p)) p.

Definition emit (p : Panel) (ev : Bus.Event) : Panel * option error :=
  if decide (Bus.e_Kind ev = Bus.KindNone) then (p, None)
  else match w_publish w (p_round p) with
       | Some e => (p, Some e)
       | None => (p <| p_events := p_events p ++ [ev] |>, None)
       end.

(** ** cycle.go *)

(** [p.clock.Now()]. *)
Definition Now (p : Panel) : Panel * Z := (p <| p_ticks := S (p_ticks p) |>, w_clock w (p_ticks p)).

(** The write deadline that is set, if the port has them, and what setting it said. *)
Definition armWrite (p : Panel) (timeout : Z) : Panel * option Z * option error :=
  match pt_WriteDeadliner (w_port w) with
  | Some SetWriteDeadline =>
      let '(p, now) := Now p in
      let t := now + timeout in
      (p, Some t, SetWriteDeadline (p_round p) t)
  | None => (p, None, None)
  end.

(** [None] is a write that never returns. *)
Definition send (p : Panel) (wire : octets) (timeout : Z) : option (Panel * option error) :=
  match armWrite p timeout with
  | (p, _, Some e) => Some (p, Some e)
  | (p, t, None) =>
      match pt_Write (w_port w) t (p_round p) wire with
      | None => None
      | Some (n, err) => Some (p <| p_sent := p_sent p ++ [slice wire 0 n] |>, err)
      end
  end.

(** [p.bus.Timeout(ctx, step.Device)]; the device exists, [Next] named it. *)
Definition silent (p : Panel) (step : Bus.Step) : Panel * result Bus.Event :=
  let '(b, ev) := Bus.Timeout (p_bus p) (Bus.st_Device step) in
  (p <| p_bus := b |>, match ev with Some ev => Ok ev | None => Err EPanic end).

Definition unattributed (p : Panel) (step : Bus.Step) : Panel * result Bus.Event := silent p step.

(** Out of fuel is [None]. *)
Definition await (fuel : nat) (p : Panel) (step : Bus.Step) : option (Panel * result Bus.Event) :=
  let '(p, now) := Now p in
  let t := now + Bus.st_Timeout step in
  match pt_SetReadDeadline (w_port w) (p_round p) t with
  | Some e => Some (p, Err e)
  | None =>
      match Reader.next (pt_Read (w_port w) (Some t)) fuel (p_reader p) with
      | None => None
      | Some (r, (f, err)) =>
          let p := p <| p_reader := r |> in
          match err with
          | None =>
              let '(p, now) := Now p in
              match Bus.Reply (p_bus p) (Bus.st_Device step) f now with
              | (b, Ok ev) => Some (p <| p_bus := b |>, Ok ev)
              | (b, Err _) => Some (unattributed (p <| p_bus := b |>) step)
              end
          | Some (ETransport ErrTimeout) => Some (silent p step)
          | Some (EFrame ErrBadCheck) | Some (EFrame ErrLengthMismatch)
          | Some (EFrame ErrNoStartOfMessage) | Some (EFrame ErrBadSecurityBlock) => Some (silent p step)
          | Some e => Some (p, Err e)
          end
      end
  end.

Definition cycle (fuel : nat) (p : Panel) : option (Panel * option error) :=
  match Bus.Next (p_bus p) with
  | (b, None) => Some (p <| p_bus := b |>, Some (EPanel ErrNoDevices))
  | (b, Some step) =>
      let p := p <| p_bus := b |> in
      match Frame.Append (Bus.st_Frame step) [] with
      | Err e => Some (p, Some e)
      | Ok wire =>
          match send p wire (Bus.st_Timeout step) with
          | None => None
          | Some (p, Some e) => Some (p, Some e)
          | Some (p, None) =>
              match w_Sleep w (p_round p) (Bus.l_Turnaround (Bus.b_line (p_bus p))) with
              | Some e => Some (p, Some e)
              | None =>
                  match await fuel p step with
                  | None => None
                  | Some (p, Err e) => Some (p, Some e)
                  | Some (p, Ok ev) => Some (emit p ev)
                  end
              end
          end
      end
  end.

(** One round of [Run]: [None] goes round again, [Some e] is what it returns; a round that
    does not return (a write that never does, a reader out of fuel) is [None] itself. *)
Definition round (fuel : nat) (p : Panel) : option (Panel * option (option error)) :=
  if w_cancelled w (p_round p) then Some (p, Some None)
  else
    match cycle fuel (drainRequests p) with
    | None => None
    | Some (p, Some e) => Some (p, Some (if w_cancelledLate w (p_round p) then None else Some e))
    | Some (p, None) => Some (p <| p_round := S (p_round p) |>, None)
    end.

Fixpoint drive (rounds fuel : nat) (p : Panel) : option (Panel * option error) :=
  match rounds with
  | O => None
  | S rounds =>
      match round fuel p with
      | None => None
      | Some (p, Some e) => Some (p, e)
      | Some (p, None) => drive rounds fuel p
      end
  end.

Definition Run (rounds fuel : nat) (p : Panel) : option (Panel * option error) :=
  if p_started p then Some (p, Some (EPanel ErrAlreadyRun))
  else
    let p := p <| p_started := true |> in
    if decide (length (Bus.b_devices (p_bus p)) = 0%nat) then Some (p, Some (EPanel ErrNoDevices))
    else drive rounds fuel (p <| p_reader := Reader.newReader |>).

(** [closeOnce] and [closeErr]. *)
Definition Close (p : Panel) : Panel * option error :=
  match p_closed p with
  | Some e => (p, e)
  | None => let e := pt_Close (w_port w) in (p <| p_closed := Some e |>, e)
  end.

End drive.

(** ** What a cycle does *)

Section with_suite.
Context {S : Secure.CipherSuite} `{!Secure.SuiteLaws S}.

Definition request_ok (req : request) : Prop :=
  BusFacts.msg_ok (q_msg req) /\ (forall k, q_key req = Some k -> Aes.block_ok k) /\
  (forall to, q_comms req = Some to -> 0 <= Cmd.co_Address to).

Definition world_ok (w : world) : Prop :=
  Port.sane (w_port w) /\ forall t, Forall request_ok (w_requests w t).

(** What stops a panel: its port, its context, its line's configuration, or a
    command too long to be a frame. *)
Inductive stops (w : world) : error -> Prop :=
  | st_port e : Port.port_error (w_port w) e -> stops w e
  | st_Sleep t d e : w_Sleep w t d = Some e -> stops w e
  | st_publish t e : w_publish w t = Some e -> stops w e
  | st_frame f e : Frame.frame_ok f -> Frame.Append f [] = Err e -> stops w e
  | st_devices b b' : BusFacts.bus_ok (S := S) b -> Bus.Next b = (b', None) -> stops w (EPanel ErrNoDevices).

Definition panel_ok (p : Panel) : Prop := BusFacts.bus_ok (S := S) (p_bus p) /\ Reader.well (p_reader p).

(** Between two exchanges: nothing is in flight. *)
Definition rested (b : Bus.Bus) : Prop := Forall (fun d => Device.d_inflight d = None) (Bus.b_devices b).

Lemma queue_step b req b' e : request_ok req -> queue b req = (b', e) -> rtc (BusFacts.bus_step) b b'.
Proof.
  intros (Hm & Hk & Hc). unfold queue. destruct (addressed _ _ _) as [i|]; [|by intros [= <- <-]].
  destruct (q_key req) as [key|]; [|destruct (q_comms req) as [to|]]; intros E; apply rtc_once.
  - eapply BusFacts.step_InstallKey; [|exact E]. by apply Hk.
  - eapply BusFacts.step_SetCommunication; [|exact E]. by apply Hc.
  - by eapply BusFacts.step_Send.
Qed.

Lemma steps_ok b b' : BusFacts.bus_ok (S := S) b -> rtc BusFacts.bus_step b b' -> BusFacts.bus_ok (S := S) b'.
Proof. intros Hb Hs. induction Hs; [done|]. by eapply IHHs, BusFacts.bus_step_ok. Qed.

(** The parts of a panel a call leaves alone. *)
Record same_panel (p p' : Panel) : Prop := mk_same_panel {
  sp_round : p_round p' = p_round p;
  sp_started : p_started p' = p_started p
}.

Lemma same_panel_trans p q r : same_panel p q -> same_panel q r -> same_panel p r.
Proof. intros [] []. split; congruence. Qed.

Lemma answers_step reqs p : Forall request_ok reqs ->
  rtc BusFacts.bus_step (p_bus p) (p_bus (fold_left answer reqs p)) /\
  p_reader (fold_left answer reqs p) = p_reader p /\ same_panel p (fold_left answer reqs p).
Proof.
  intros Hr. revert p. induction Hr as [|req reqs Hreq _ IH]; intros p; [done|]. cbn [fold_left].
  unfold answer at 2 4 6. destruct (queue (p_bus p) req) as [b e] eqn:E.
  set (p1 := p <| p_bus := b |> <| p_answers := p_answers p ++ [(req, e)] |>).
  destruct (IH p1) as (H1 & H2 & H3). split_and!; [|exact H2|by apply (same_panel_trans p p1)].
  etrans; [by eapply queue_step|exact H1].
Qed.

Lemma silent_step p step p' r : silent p step = (p', r) ->
  rtc BusFacts.bus_step (p_bus p) (p_bus p') /\ p_reader p' = p_reader p /\ same_panel p p'.
Proof.
  unfold silent. destruct (Bus.Timeout _ _) as [b ev] eqn:E. intros [= <- <-]. split_and!; try done.
  apply rtc_once. by eapply BusFacts.step_Timeout.
Qed.

Lemma send_spec w p wire t p' e : send w p wire t = Some (p', e) ->
  p_bus p' = p_bus p /\ p_reader p' = p_reader p /\ same_panel p p' /\
  forall e', e = Some e' -> Port.port_error (w_port w) e'.
Proof.
  unfold send. destruct (armWrite w p t) as [[p1 dl] refused] eqn:E. unfold armWrite in E.
  assert (H1 : p_bus p1 = p_bus p /\ p_reader p1 = p_reader p /\ same_panel p p1 /\
    forall e, refused = Some e -> Port.port_error (w_port w) e).
  { destruct (pt_WriteDeadliner (w_port w)) as [D|] eqn:ED; injection E as <- <- <-; (split; [done|]);
      (split; [done|]); (split; [by split|]); [|done]. intros e1 He. by eapply Port.pe_SetWriteDeadline. }
  clear E. destruct H1 as (Eb & Er & Es & Hp).
  destruct refused as [e0|]; [intros [= <- <-]; split_and!; auto; by intros e' [= <-]; auto|].
  destruct (pt_Write (w_port w) dl (p_round p1) wire) as [[n err]|] eqn:EW; [|done]. intros [= <- <-].
  split; [done|]. split; [done|]. split; [by apply (same_panel_trans p p1)|]. intros e' ->. by eapply Port.pe_Write.
Qed.

(** The first three facts of a call's specification. *)
Ltac parts := split; [done|]; split; [done|]; split; [done|].

Lemma await_spec w fuel p step p' r : world_ok w -> panel_ok p ->
  is_Some (Bus.device (p_bus p) (Bus.st_Device step)) -> await w fuel p step = Some (p', r) ->
  panel_ok p' /\ same_panel p p' /\ rtc BusFacts.bus_step (p_bus p) (p_bus p') /\
  forall e, r = Err e -> Port.port_error (w_port w) e.
Proof.
  intros [Hs _] [Hb Hr] Hdev. unfold await. cbn [Now].
  destruct (pt_SetReadDeadline _ _ _) as [e|] eqn:E.
  { intros [= <- <-]. split_and!; try done. intros ? [= <-]. by eapply Port.pe_SetReadDeadline. }
  cbn [p_reader update]. destruct (Reader.next _ _ _) as [[rd [f err]]|] eqn:Ex; [|done].
  destruct (Reader.next_returns _ _ _ _ _ (Hs _) Hr Ex) as [Hr' Hret]. unfold Reader.returned in Hret. cbn [fst snd] in Hret.
  assert (Hsilent : forall p1, BusFacts.bus_ok (S := S) (p_bus p1) -> rtc BusFacts.bus_step (p_bus p) (p_bus p1) ->
    is_Some (Bus.device (p_bus p1) (Bus.st_Device step)) ->
    p_reader p1 = rd -> same_panel p p1 -> Some (silent p1 step) = Some (p', r) ->
    panel_ok p' /\ same_panel p p' /\ rtc BusFacts.bus_step (p_bus p) (p_bus p') /\
    forall e, r = Err e -> Port.port_error (w_port w) e).
  { intros p1 Hb1 Hst [d Hd] Hrd Hsame [= E1]. destruct (silent_step _ _ _ _ E1) as (S1 & S2 & S3).
    split; [split; [by eapply steps_ok|by rewrite S2, Hrd]|]. split; [by eapply same_panel_trans|].
    split; [by etrans|]. intros e ->. revert E1. unfold silent, Bus.Timeout. rewrite Hd.
    by destruct (Bus.timeout _ _). }
  destruct err as [e|].
  - assert (Hother : Port.port_error (w_port w) e -> Some (p <| p_ticks := Datatypes.S (p_ticks p) |> <| p_reader := rd |>, Err e) = Some (p', r) ->
      panel_ok p' /\ same_panel p p' /\ rtc BusFacts.bus_step (p_bus p) (p_bus p') /\
      forall e, r = Err e -> Port.port_error (w_port w) e).
    { intros He [= <- <-]. split_and!; try done. by intros ? [= <-]. }
    assert (Hnot : e <> EFrame ErrBadCheck -> e <> ETransport ErrTimeout -> ~ Reader.line_error e ->
      Port.port_error (w_port w) e).
    { intros H1 H2 H3. destruct e as [[]| | | | | | | | |]; try done;
        destruct Hret as [?|[?|(i & room & Hx)]]; try done; by eapply Port.pe_Read. }
    destruct e as [[]| | |[]| | | | | |]; try (by apply Hsilent);
      apply Hother, Hnot; try done; by intros Hl; inversion Hl.
  - destruct (Bus.Reply _ _ f _) as [b res] eqn:ER. cbn [p_bus update] in ER.
    assert (Hst : rtc BusFacts.bus_step (p_bus p) b) by (apply rtc_once; eapply BusFacts.step_Reply; [exact Hret|exact ER]).
    assert (Hb' : BusFacts.bus_ok (S := S) b) by (by eapply steps_ok).
    destruct res as [ev|e].
    + intros [= <- <-]. by split_and!.
    + apply Hsilent; try done. cbn [p_bus update]. destruct Hdev as [d Hd]. revert ER.
      unfold Bus.Reply. rewrite Hd. destruct (Bus.reply _ _ _ _ _) as [d' r']. intros [= <- _].
      unfold Bus.device, Bus.set_device in *. cbn [Bus.b_devices update].
      rewrite list_lookup_insert_eq; [done|by eapply lookup_lt_Some].
Qed.

Lemma cycle_spec w fuel p p' x : world_ok w -> panel_ok p -> cycle w fuel p = Some (p', x) ->
  panel_ok p' /\ same_panel p p' /\ rtc BusFacts.bus_step (p_bus p) (p_bus p') /\
  forall e, x = Some e -> stops w e.
Proof.
  intros Hw Hp. pose proof Hp as [Hb Hr]. unfold cycle.
  destruct (Bus.Next (p_bus p)) as [b1 [step|]] eqn:En.
  2:{ assert (Hst : BusFacts.bus_step (p_bus p) b1) by (by eapply BusFacts.step_Next).
      intros [= <- <-]. split; [split; [by eapply BusFacts.bus_step_ok|done]|]. split; [done|].
      split; [by apply rtc_once|]. intros e [= <-]. by eapply st_devices. }
  assert (Hst : BusFacts.bus_step (p_bus p) b1) by (by eapply BusFacts.step_Next).
  set (p1 := p <| p_bus := b1 |>).
  assert (Hp1 : panel_ok p1) by (split; [by eapply BusFacts.bus_step_ok|done]).
  destruct (BusFacts.Next_frame (p_bus p) b1 step Hb En) as (Hf & _ & _ & _ & _ & Hdev).
  destruct (Frame.Append (Bus.st_Frame step) []) as [wire|e] eqn:EA.
  2:{ intros [= <- <-]. split; [done|]. split; [done|]. split; [by apply rtc_once|].
      intros ? [= <-]. by eapply st_frame. }
  destruct (send w p1 wire (Bus.st_Timeout step)) as [[p2 e2]|] eqn:ES; [|done].
  destruct (send_spec w p1 wire _ p2 e2 ES) as (S1 & S2 & S3 & S4).
  assert (Hp2 : panel_ok p2) by (destruct Hp1; split; rewrite ?S1, ?S2; done).
  assert (Hs2 : rtc BusFacts.bus_step (p_bus p) (p_bus p2)) by (rewrite S1; by apply rtc_once).
  assert (Hsame : same_panel p p2) by (by apply (same_panel_trans p p1)).
  destruct e2 as [e2|].
  { intros [= <- <-]. parts. intros ? [= <-]. by apply st_port, S4. }
  destruct (w_Sleep w (p_round p2) _) as [e3|] eqn:EW.
  { intros [= <- <-]. parts. intros ? [= <-]. by eapply st_Sleep. }
  destruct (await w fuel p2 step) as [[p3 r]|] eqn:Ea; [|done].
  destruct (await_spec w fuel p2 step p3 r Hw Hp2) as (A1 & A2 & A3 & A4); [by rewrite S1|done|].
  assert (Hs3 : rtc BusFacts.bus_step (p_bus p) (p_bus p3)) by (by etrans).
  assert (Hsame3 : same_panel p p3) by (by eapply same_panel_trans).
  destruct r as [ev|e].
  2:{ intros [= <- <-]. parts. intros ? [= <-]. by apply st_port, A4. }
  unfold emit. case_decide; [intros [= <- <-]; by parts|].
  destruct (w_publish w (p_round p3)) as [e|] eqn:EP; intros [= <- <-].
  - parts. intros ? [= <-]. by eapply st_publish.
  - split; [done|]. split; [by apply (same_panel_trans p p3)|]. by split.
Qed.

Lemma drained w p : world_ok w -> panel_ok p ->
  panel_ok (drainRequests w p) /\ same_panel p (drainRequests w p) /\
  rtc BusFacts.bus_step (p_bus p) (p_bus (drainRequests w p)).
Proof.
  intros [_ Hq] [Hb Hr]. destruct (answers_step (w_requests w (p_round p)) p (Hq _)) as (H1 & H2 & H3).
  fold (drainRequests w p) in *. split; [split; [by eapply steps_ok|by rewrite H2]|]. by split.
Qed.

Lemma panel_round_spec w fuel p p' x : world_ok w -> panel_ok p -> round w fuel p = Some (p', x) ->
  panel_ok p' /\ rtc BusFacts.bus_step (p_bus p) (p_bus p') /\
  match x with
  | None => p_round p' = Datatypes.S (p_round p) /\ w_cancelled w (p_round p) = false
  | Some None => w_cancelled w (p_round p) = true \/ w_cancelledLate w (p_round p) = true
  | Some (Some e) => stops w e
  end.
Proof.
  intros Hw Hp. unfold round. destruct (w_cancelled w (p_round p)) eqn:Ec; [intros [= <- <-]; by auto using rtc_refl|].
  destruct (drained w p Hw Hp) as (D1 & D2 & D3).
  destruct (cycle w fuel (drainRequests w p)) as [[p1 e]|] eqn:E; [|done].
  destruct (cycle_spec w fuel _ p1 e Hw D1 E) as (C1 & C2 & C3 & C4).
  assert (Hs : rtc BusFacts.bus_step (p_bus p) (p_bus p1)) by (by etrans).
  assert (Hn : p_round p1 = p_round p) by (destruct C2, D2; congruence).
  destruct e as [e|]; intros [= <- <-]; (split; [done|]; split; [done|]).
  - rewrite Hn. destruct (w_cancelledLate w (p_round p)); auto.
  - cbn [p_round update]. by rewrite Hn.
Qed.

Lemma drive_spec w rounds fuel p p' e : world_ok w -> panel_ok p -> drive w rounds fuel p = Some (p', e) ->
  panel_ok p' /\ rtc BusFacts.bus_step (p_bus p) (p_bus p') /\
  match e with
  | None => exists t, w_cancelled w t = true \/ w_cancelledLate w t = true
  | Some e => stops w e
  end.
Proof.
  intros Hw. revert p. induction rounds as [|rounds IH]; intros p Hp; [done|]. cbn [drive].
  destruct (round w fuel p) as [[p1 [x|]]|] eqn:E; [| |done]; destruct (panel_round_spec w fuel p p1 _ Hw Hp E) as (H1 & H2 & H3).
  - intros [= <- <-]. split; [done|]. split; [done|]. destruct x; [done|]. eauto.
  - intros (K1 & K2 & K3)%IH; [|done]. split; [done|]. split; [by etrans|done].
Qed.

(** C12. Only a panel's own port, context or configuration stops it. Whatever the
    devices answer or fail to answer, and whatever else is on the line, [Run]
    returns nil only when its context was cancelled, and otherwise an error of the
    port, of the cancelled wait or publication, of a command too long to be a
    frame, or [ErrNoDevices]; corrupt frames and answers nobody asked for are
    never among them. The bus has then been driven through its own operations
    only, so every law of the bus holds of it. *)
Theorem panel_survives w rounds fuel p p' e : world_ok w -> panel_ok p -> Run w rounds fuel p = Some (p', e) ->
  panel_ok p' /\ rtc BusFacts.bus_step (p_bus p) (p_bus p') /\
  match e with
  | None => exists t, w_cancelled w t = true \/ w_cancelledLate w t = true
  | Some e => (p_started p = true /\ e = EPanel ErrAlreadyRun) \/
      (Bus.b_devices (p_bus p) = [] /\ e = EPanel ErrNoDevices) \/ stops w e
  end.
Proof.
  intros Hw Hp. unfold Run. destruct (p_started p) eqn:Es; [intros [= <- <-]; by auto using rtc_refl|].
  cbn [p_bus update]. case_decide as Hl.
  { intros [= <- <-]. split; [done|]. split; [done|]. right. left. split; [by apply nil_length_inv|done]. }
  intros (H1 & H2 & H3)%drive_spec; [|done|by split; [apply Hp|exact Reader.well_new]].
  split; [done|]. split; [done|]. destruct e; auto.
Qed.

Lemma await_returns w m fuel p step : world_ok w -> panel_ok p -> patient (w_port w) m -> enough m fuel ->
  is_Some (await w fuel p step).
Proof.
  intros [Hs _] [_ [Hr _]] Hm Hf. unfold await. cbn [Now]. destruct (pt_SetReadDeadline _ _ _); [by eexists|].
  cbn [p_reader update].
  match goal with |- context [pt_Read _ (Some ?t)] =>
    destruct (Port.patient_reader (w_port w) m fuel (p_reader p) t) as [[[rd [f e]] ->] _]; [apply Hs|done..|] end.
  destruct e as [[[]| | |[]| | | | | |]|]; try by eexists. cbv zeta. cbn [Now].
  destruct (Bus.Reply _ _ _ _) as [b [ev|e]]; by eexists.
Qed.

Lemma send_returns w p wire t : unblocked (w_port w) -> is_Some (send w p wire t).
Proof.
  unfold unblocked, send, armWrite. destruct (pt_WriteDeadliner (w_port w)) as [D|]; intros Hu; cbn [Now].
  - destruct (D _ _); [by eexists|]. match goal with |- context [pt_Write _ (Some ?t) ?i ?b] => destruct (Hu t i b) as [[n err] ->] end.
    by eexists.
  - match goal with |- context [pt_Write _ _ ?i ?b] => destruct (Hu i b) as [[n err] ->] end. by eexists.
Qed.

Lemma panel_round_returns w m fuel p : world_ok w -> panel_ok p -> patient (w_port w) m -> unblocked (w_port w) -> enough m fuel ->
  is_Some (round w fuel p).
Proof.
  intros Hw Hp Hm Hu Hf. unfold round. destruct (w_cancelled w (p_round p)); [by eexists|].
  destruct (drained w p Hw Hp) as (D1 & _ & _).
  assert (Hc : is_Some (cycle w fuel (drainRequests w p))).
  { unfold cycle. destruct (Bus.Next _) as [b1 [step|]] eqn:En; [|by eexists].
    destruct (Frame.Append _ _); [|by eexists].
    match goal with |- context [send w ?q ?b ?t] => destruct (send_returns w q b t Hu) as [[p2 e2] ES] end.
    rewrite ES. destruct e2 as [e2|]; [by eexists|].
    destruct (send_spec w _ a _ p2 _ ES) as (S1 & S2 & _ & _).
    destruct (w_Sleep _ _ _); [by eexists|].
    assert (Hp2 : panel_ok p2).
    { split; rewrite ?S1, ?S2; [|apply D1]. cbn [p_bus update]. by apply (BusFacts.Next_frame _ _ _ (proj1 D1) En). }
    destruct (await_returns w m fuel p2 step Hw Hp2 Hm Hf) as [[p3 [ev|e]] ->]; by eexists. }
  destruct Hc as [[p1 [e|]] ->]; by eexists.
Qed.

Lemma drive_returns w m c fuel : world_ok w -> patient (w_port w) m -> unblocked (w_port w) -> w_cancelled w c = true ->
  enough m fuel -> forall n p, panel_ok p -> (p_round p + n = c)%nat -> is_Some (drive w (Datatypes.S n) fuel p).
Proof.
  intros Hw Hm Hu Hc Hf n. induction n as [|n IH]; intros p Hp Hn; cbn [drive].
  - destruct (panel_round_returns w m fuel p Hw Hp Hm Hu Hf) as [[p1 [x|]] E]; rewrite E; [by eexists|].
    destruct (panel_round_spec w fuel p p1 None Hw Hp E) as (_ & _ & _ & Hx).
    replace (p_round p) with c in Hx by lia. congruence.
  - destruct (panel_round_returns w m fuel p Hw Hp Hm Hu Hf) as [[p1 [x|]] E]; rewrite E; [by eexists|].
    destruct (panel_round_spec w fuel p p1 None Hw Hp E) as (H1 & _ & H2 & _). apply IH; [done|lia].
Qed.

(** C13. Shutdown is prompt. A panel whose context is cancelled by its [c]th
    transaction returns, if its port's deadlines work: with a read deadline in force,
    of any [m] reads one fails, and with a write deadline in force a write returns. (A
    port that has no write deadlines must not block a write for ever: such a write can
    be ended by closing the port only, as transport.Port says.) Without a deadline
    nothing is assumed of the port, so the panel has to arm both before each use; then
    no reply, no flood of octets, no silence and no peer that stops reading can keep it. *)
Theorem panel_stops w m c fuel p : world_ok w -> panel_ok p -> patient (w_port w) m -> unblocked (w_port w) ->
  (p_round p <= c)%nat -> w_cancelled w c = true -> enough m fuel ->
  is_Some (Run w (Datatypes.S (c - p_round p)) fuel p).
Proof.
  intros Hw Hp Hm Hu Hle Hc Hf. unfold Run. destruct (p_started p); [by eexists|].
  cbn [p_bus update]. case_decide; [by eexists|].
  apply (drive_returns w m c fuel); try done; [by split; [apply Hp|exact Reader.well_new]|cbn; lia].
Qed.

End with_suite.
