(* ===== verification/PanelLaws.v ===== *)
(** * What becomes of an application's commands

    The path of a command from the request channel through the bus's queue to the
    line, over a whole run of panel's cycle. *)

From S2P Require Import Prelude Errors.
From S2P Require Frame Cmd Secure Reader Port Device Bus BusFacts BusLaws Panel.
Import Panel.
Import BusFacts (owed).

(** The command a request amounts to. *)
Definition command (req : request) : Cmd.Message :=
  match q_key req, q_comms req with
  | Some key, _ => Cmd.KeySetCommand key
  | None, Some to => Cmd.CommunicationCommand to
  | None, None => q_msg req
  end.

(** The commands for device [i] among these requests, as they are accepted. *)
Fixpoint granted (i : nat) (b : Bus.Bus) (reqs : list request) : list Cmd.Message :=
  match reqs with
  | [] => []
  | req :: reqs =>
      let '(b', e) := queue b req in
      (if decide (e = None /\ addressed 0 (Bus.b_devices b) (q_addr req) = Some i) then [command req] else []) ++
      granted i b' reqs
  end.

(** Over a run: what each round drains. *)
Fixpoint promised (w : world) (i : nat) (rounds fuel : nat) (p : Panel) : list Cmd.Message :=
  match rounds with
  | O => []
  | S rounds =>
      (if w_cancelled w (p_round p) then [] else granted i (p_bus p) (w_requests w (p_round p))) ++
      match round w fuel p with
      | Some (p', None) => promised w i rounds fuel p'
      | _ => []
      end
  end.

(** ** What answers a command

    A specification beside the bus: a frame answers for the command in flight when it is
    a reply, from the device's address, with a sequence number that is not zero, and,
    on an established channel, one that channel opens; and it is not osdp_BUSY. *)
Definition accepts (d : Device.Device) (f : Frame.Frame) : bool :=
  Frame.f_IsReply f && bool_decide (Frame.f_Address f = Device.d_Address d) &&
  bool_decide (Frame.Control_Sequence (Frame.f_Control f) <> 0) &&
  match Device.d_session d with
  | Some s => if Secure.Established s then match (Bus.openReply s f).2 with Ok _ => true | Err _ => false end else true
  | None => true
  end.

Definition acquits (d : Device.Device) (f : Frame.Frame) : list Cmd.Message :=
  if accepts d f && bool_decide (Frame.f_Code f <> Cmd.Busy) then option_list (Device.d_inflight d) else [].

(** The frame a panel that waits for a step's answer reads, if it reads one. *)
Definition heard (w : world) (fuel : nat) (p : Panel) (step : Bus.Step) : option Frame.Frame :=
  let t := w_clock w (p_ticks p) + Bus.st_Timeout step in
  match Port.pt_SetReadDeadline (w_port w) (p_round p) t with
  | Some _ => None
  | None =>
      match Reader.next (Port.pt_Read (w_port w) (Some t)) fuel (p_reader p) with
      | Some (_, (f, None)) => Some f
      | _ => None
      end
  end.

Definition acquitted (w : world) (fuel : nat) (p : Panel) (step : Bus.Step) (d : Device.Device) : list Cmd.Message :=
  match heard w fuel p step with
  | Some f => acquits d f
  | None => []
  end.

(** What one cycle's answer answers for, if it was device [i]'s turn and its command
    went out. *)
Definition answeredOnce (w : world) (fuel i : nat) (p : Panel) : list Cmd.Message :=
  match Bus.Next (p_bus p) with
  | (b, Some step) =>
      match Frame.Append (Bus.st_Frame step) [] with
      | Ok wire =>
          match send w (p <| p_bus := b |>) wire (Bus.st_Timeout step) with
          | Some (p, None) =>
              match w_Sleep w (p_round p) (Bus.l_Turnaround (Bus.b_line (p_bus p))), Bus.device b i with
              | None, Some d => if decide (Bus.st_Device step = i) then acquitted w fuel p step d else []
              | _, _ => []
              end
          | _ => []
          end
      | Err _ => []
      end
  | _ => []
  end.

(** Over a run: the commands whose exchange was answered, in order. *)
Fixpoint answered (w : world) (i : nat) (rounds fuel : nat) (p : Panel) : list Cmd.Message :=
  match rounds with
  | O => []
  | S rounds =>
      (if w_cancelled w (p_round p) then [] else answeredOnce w fuel i (drainRequests w p)) ++
      match round w fuel p with
      | Some (p', None) => answered w i rounds fuel p'
      | _ => []
      end
  end.

Section with_suite.
Context {S : Secure.CipherSuite} `{!Secure.SuiteLaws S}.

Lemma accepts_spec d f : accepts d f = true <-> BusFacts.accepted d f.
Proof.
  unfold accepts, BusFacts.accepted. rewrite !andb_true_iff, !bool_decide_eq_true. split.
  - intros [[[H1 H2] H3] H4]. split_and!; try done. intros s Es He. rewrite Es, He in H4.
    destruct (Bus.openReply s f).2 as [o|]; [by exists o|done].
  - intros (H1 & H2 & H3 & H4). split_and!; try done. destruct (Device.d_session d) as [s|]; [|done].
    destruct (Secure.Established s) eqn:He; [|done]. by destruct (H4 s eq_refl He) as [o ->].
Qed.

(** [i]'s queue grew by these. *)
Definition grew (i : nat) (b b' : Bus.Bus) (ms : list Cmd.Message) : Prop :=
  forall d, Bus.device b i = Some d -> exists d', Bus.device b' i = Some d' /\
    owed d' = owed d ++ ms /\ Device.d_inflight d' = Device.d_inflight d.

Lemma grew_refl i b : grew i b b [].
Proof. intros d Hd. exists d. by rewrite app_nil_r. Qed.

Lemma grew_trans i b1 b2 b3 l k : grew i b1 b2 l -> grew i b2 b3 k -> grew i b1 b3 (l ++ k).
Proof.
  intros H1 H2 d Hd. destruct (H1 d Hd) as (d2 & Hd2 & O2 & I2). destruct (H2 d2 Hd2) as (d3 & Hd3 & O3 & I3).
  exists d3. split; [done|]. split; [by rewrite O3, O2, app_assoc|congruence].
Qed.

Lemma owed_enqueue d m : owed (Device.enqueue d m) = owed d ++ [m] /\
  Device.d_inflight (Device.enqueue d m) = Device.d_inflight d.
Proof. unfold owed, Device.enqueue. simpl. split; [by rewrite app_assoc|done]. Qed.

(** One device of a bus replaced. *)
Lemma grew_set i j b d d' m : Bus.device b j = Some d -> owed d' = owed d ++ [m] ->
  Device.d_inflight d' = Device.d_inflight d ->
  grew i b (Bus.set_device b j d') (if decide (j = i) then [m] else []).
Proof.
  intros Hj Ho Hi d0 Hd. unfold Bus.device, Bus.set_device in *. cbn [Bus.b_devices update].
  case_decide as E.
  - subst j. simplify_eq. exists d'. split; [|done]. apply list_lookup_insert_eq. by eapply lookup_lt_Some.
  - exists d0. rewrite list_lookup_insert_ne, app_nil_r by done. done.
Qed.

Lemma Send_grew i j b m b' e : Bus.Send b j m = (b', e) ->
  grew i b b' (if decide (e = None /\ j = i) then [m] else []).
Proof.
  unfold Bus.Send. destruct (Bus.device b j) as [d|] eqn:Ed.
  - destruct (Bus.checkSize b d m) as [e0|]; intros [= <- <-].
    + rewrite decide_False by (by intros [? _]). apply grew_refl.
    + destruct (owed_enqueue d m) as [E1 E2]. pose proof (grew_set i j b d _ m Ed E1 E2) as Hg.
      revert Hg. repeat case_decide; try done; naive_solver.
  - intros [= <- <-]. rewrite decide_False by (by intros [? _]). apply grew_refl.
Qed.

Lemma queue_grew i b req b' e : queue b req = (b', e) ->
  grew i b b' (if decide (e = None /\ addressed 0 (Bus.b_devices b) (q_addr req) = Some i) then [command req] else []).
Proof.
  unfold queue, command. destruct (addressed _ _ _) as [j|].
  2:{ intros [= <- <-]. rewrite decide_False by (by intros [? _]). apply grew_refl. }
  assert (Hiff : forall m, (if decide (e = None /\ Some j = Some i) then [m] else []) =
    (if decide (e = None /\ j = i) then [m] else []) :> list Cmd.Message)
    by (intros m; repeat case_decide; naive_solver).
  rewrite Hiff. destruct (q_key req) as [key|]; [|destruct (q_comms req) as [to|]].
  - unfold Bus.InstallKey. destruct (Bus.device b j) as [d|] eqn:Ed.
    + destruct (Device.secureEstablished d); simpl negb; cbv iota; intros [= <- <-].
      2: { rewrite decide_False by (by intros [? _]). apply grew_refl. }
      { destruct (owed_enqueue (d <| Device.d_pendingKey := Some key |>) (Cmd.KeySetCommand key)) as [E1 E2].
        pose proof (grew_set i j b d _ _ Ed E1 E2) as Hg. revert Hg. repeat case_decide; try done; naive_solver. }
    + intros [= <- <-]. rewrite decide_False by (by intros [? _]). apply grew_refl.
  - unfold Bus.SetCommunication. destruct (decide (_ >= _)); [|destruct (existsb _ _)].
    + intros [= <- <-]. rewrite decide_False by (by intros [? _]). apply grew_refl.
    + intros [= <- <-]. rewrite decide_False by (by intros [? _]). apply grew_refl.
    + apply Send_grew.
  - apply Send_grew.
Qed.

Lemma answers_grew i reqs p : grew i (p_bus p) (p_bus (fold_left answer reqs p)) (granted i (p_bus p) reqs).
Proof.
  revert p. induction reqs as [|req reqs IH]; intros p; [apply grew_refl|]. cbn [fold_left granted].
  destruct (queue (p_bus p) req) as [b e] eqn:E.
  assert (Ha : p_bus (answer p req) = b) by (unfold answer; by rewrite E).
  specialize (IH (answer p req)). rewrite Ha in IH. eapply grew_trans; [by apply queue_grew|exact IH].
Qed.

Lemma queue_length b req : length (Bus.b_devices (queue b req).1) = length (Bus.b_devices b).
Proof.
  assert (Hsend : forall j m, length (Bus.b_devices (Bus.Send b j m).1) = length (Bus.b_devices b)).
  { intros j m. unfold Bus.Send. destruct (Bus.device b j); [|done]. destruct (Bus.checkSize _ _ _); [done|].
    simpl. by rewrite length_insert. }
  unfold queue. destruct (addressed _ _ _) as [j|]; [|done]. destruct (q_key req) as [key|]; [|destruct (q_comms req)].
  - unfold Bus.InstallKey. destruct (Bus.device b j); [|done]. destruct (negb _); [done|]. simpl. by rewrite length_insert.
  - unfold Bus.SetCommunication. case_decide; [done|]. destruct (existsb _ _); [done|]. apply Hsend.
  - apply Hsend.
Qed.

Lemma drained_length w p : length (Bus.b_devices (p_bus (drainRequests w p))) = length (Bus.b_devices (p_bus p)).
Proof.
  unfold drainRequests. generalize (w_requests w (p_round p)) as reqs. intros reqs. revert p.
  induction reqs as [|req reqs IH]; intros p; [done|]. cbn [fold_left]. rewrite IH. unfold answer.
  pose proof (queue_length (p_bus p) req) as Hq. by destruct (queue (p_bus p) req).
Qed.

Lemma grew_rested b b' : length (Bus.b_devices b') = length (Bus.b_devices b) ->
  (forall i, exists ms, grew i b b' ms) -> rested b -> rested b'.
Proof.
  intros Hl Hg Hr. apply Forall_lookup. intros i d' Hd'.
  destruct (lookup_lt_is_Some_2 (Bus.b_devices b) i) as [d Hd].
  { rewrite <- Hl. by eapply lookup_lt_Some. }
  destruct (Hg i) as [ms Hi]. destruct (Hi d Hd) as (d2 & Hd2 & _ & E). unfold Bus.device in Hd2. simplify_eq.
  rewrite E. exact (Forall_lookup_1 _ _ _ _ Hr Hd).
Qed.

(** What an exchange does to the queue of device [i]: [released] has gone from its front,
    and in the end nothing is in flight. *)
Definition settled (i : nat) (b b' : Bus.Bus) (released : list Cmd.Message) (done : bool) : Prop :=
  forall d, Bus.device b i = Some d -> exists d', Bus.device b' i = Some d' /\
    released ++ owed d' = owed d /\
    (done = true -> Device.d_inflight d = None -> Device.d_inflight d' = None).

Lemma silent_owed p step p' r d : silent p step = (p', r) -> Bus.device (p_bus p) (Bus.st_Device step) = Some d ->
  exists d', Bus.b_devices (p_bus p') = <[Bus.st_Device step := d']> (Bus.b_devices (p_bus p)) /\
    owed d' = owed d /\ Device.d_inflight d' = None.
Proof.
  intros E Hd. revert E. unfold silent, Bus.Timeout. rewrite Hd.
  pose proof (BusFacts.timeout_owed d (Bus.st_Device step)) as Ht.
  destruct (Bus.timeout d _) as [d' ev]. intros [= <- _]. exists d'. by destruct Ht.
Qed.

Lemma reply_released b d i f now : acquits d f ++ owed (Bus.reply b d i f now).1 = owed d.
Proof.
  unfold acquits. destruct (BusFacts.reply_owed b d i f now) as [(Ha & _ & E)|(Ha & E & _)]; rewrite E.
  - rewrite (proj2 (accepts_spec d f) Ha). case_decide as Hb; cbn [andb];
      [by rewrite bool_decide_false by (by intros ?)|by rewrite bool_decide_true].
  - destruct (accepts d f) eqn:Hx; [|done]. by apply accepts_spec in Hx.
Qed.

(** Waiting for the answer: an accepted one releases the command in flight, and nothing
    else does. *)
Lemma await_owed w fuel p step p' r d : await w fuel p step = Some (p', r) ->
  Bus.device (p_bus p) (Bus.st_Device step) = Some d ->
  exists d', Bus.b_devices (p_bus p') = <[Bus.st_Device step := d']> (Bus.b_devices (p_bus p)) /\
    acquitted w fuel p step d ++ owed d' = owed d /\ (forall ev, r = Ok ev -> Device.d_inflight d' = None).
Proof.
  intros E Hd. revert E. unfold await, acquitted, heard. cbn [Now].
  assert (Hsame : forall p1 e, p_bus p1 = p_bus p -> Some (p1, Err e) = Some (p', r) ->
    exists d', Bus.b_devices (p_bus p') = <[Bus.st_Device step := d']> (Bus.b_devices (p_bus p)) /\
    [] ++ owed d' = owed d /\ (forall ev, r = Ok ev -> Device.d_inflight d' = None)).
  { intros p1 e Ep [= <- <-]. exists d. rewrite Ep, list_insert_id by done. by split_and!. }
  assert (Hsil : forall p1, p_bus p1 = p_bus p -> Some (silent p1 step) = Some (p', r) ->
    exists d', Bus.b_devices (p_bus p') = <[Bus.st_Device step := d']> (Bus.b_devices (p_bus p)) /\
    [] ++ owed d' = owed d /\ (forall ev, r = Ok ev -> Device.d_inflight d' = None)).
  { intros p1 Ep [= E1]. rewrite <- Ep in Hd |- *. destruct (silent_owed p1 step p' r d E1 Hd) as (d' & D1 & D2 & D3).
    exists d'. by split_and!. }
  cbn [p_round p_reader update]. destruct (Port.pt_SetReadDeadline _ _ _) as [e|]; [by apply Hsame|].
  destruct (Reader.next _ _ _) as [[rd [f err]]|]; [|done].
  destruct err as [e|]; [destruct e as [[]| | |[]| | | | | |]; (by apply Hsame) || (by apply Hsil)|].
  destruct (Bus.Reply _ _ f _) as [b res] eqn:ER. cbn [p_bus update] in ER. unfold Bus.Reply in ER. rewrite Hd in ER.
  set (now := w_clock w _) in ER. clearbody now. pose proof (reply_released (p_bus p) d (Bus.st_Device step) f now) as R1.
  pose proof (BusFacts.reply_settles (p_bus p) d (Bus.st_Device step) f now) as Hset.
  destruct (Bus.reply (p_bus p) d (Bus.st_Device step) f now) as [d1 r1]. injection ER as <- <-. cbn [fst snd] in *.
  destruct r1 as [ev|e].
  - intros [= <- <-]. exists d1. split_and!; try done; by eapply Hset.
  - assert (Hd1 : Bus.device (Bus.set_device (p_bus p) (Bus.st_Device step) d1) (Bus.st_Device step) = Some d1)
      by (apply list_lookup_insert_eq; by eapply lookup_lt_Some).
    intros [= E1]. unfold unattributed in E1. edestruct (silent_owed _ step p' r d1 E1) as (d' & D1 & D2 & D3); [exact Hd1|].
    exists d'. split; [rewrite D1; apply list_insert_insert_eq|]. split; [by rewrite D2|done].
Qed.

Lemma settled_set i b b' j d d' rel (over : bool) : Bus.device b j = Some d ->
  Bus.b_devices b' = <[j := d']> (Bus.b_devices b) -> rel ++ owed d' = owed d ->
  (over = true -> Device.d_inflight d' = None) ->
  length (Bus.b_devices b') = length (Bus.b_devices b) /\ settled i b b' (if decide (j = i) then rel else []) over.
Proof.
  intros Hd E Ho Hi. split; [by rewrite E, length_insert|]. intros d0 Hd0. unfold Bus.device in *. rewrite E.
  destruct (decide (j = i)) as [->|Hne].
  - simplify_eq. exists d'. rewrite list_lookup_insert_eq by (by eapply lookup_lt_Some). auto.
  - exists d0. rewrite list_lookup_insert_ne by done. auto.
Qed.

Lemma cycle_settled w fuel p p' e i : panel_ok (S := S) p -> rested (p_bus p) -> cycle w fuel p = Some (p', e) ->
  length (Bus.b_devices (p_bus p')) = length (Bus.b_devices (p_bus p)) /\
  settled i (p_bus p) (p_bus p') (answeredOnce w fuel i p) (bool_decide (e = None)).
Proof.
  intros [Hb _] Hr. unfold cycle, answeredOnce. set (b := p_bus p) in *.
  destruct (Bus.device b (Bus.b_current b)) as [d|] eqn:Hd.
  2:{ assert (En : Bus.Next b = (b, None)).
      { apply lookup_ge_None in Hd. pose proof (BusFacts.bo_current b Hb) as Hc. unfold Bus.Next. case_decide; [done|].
        destruct (Bus.b_devices b); [done|]. specialize (Hc ltac:(done)). lia. }
      rewrite En. intros [= <- <-]. split; [done|]. intros d0 Hd0. by exists d0. }
  assert (Hi : Device.d_inflight d = None) by (exact (Forall_lookup_1 _ _ _ _ Hr Hd)).
  destruct (BusFacts.Next_owed b d Hb Hd Hi) as (d2 & E2 & O2).
  assert (Hstay : forall p1 (over : bool), Bus.b_devices (p_bus p1) = Bus.b_devices (Bus.Next b).1 -> over = false ->
    length (Bus.b_devices (p_bus p1)) = length (Bus.b_devices b) /\ settled i b (p_bus p1) [] over).
  { intros p1 over E ->. destruct (settled_set i b (p_bus p1) (Bus.b_current b) d d2 [] false) as [Hl Hs];
      [done|by rewrite E|done|done|]. split; [done|]. by destruct (decide (Bus.b_current b = i)). }
  destruct (Bus.Next b) as [b1 [step|]] eqn:En; cbn [fst] in *.
  2:{ intros [= <- <-]. by apply Hstay. }
  destruct (BusFacts.Next_frame b b1 step Hb En) as (_ & _ & _ & Hstep & _ & _).
  destruct (Frame.Append _ _) as [wire|e1]; [|intros [= <- <-]; by apply Hstay].
  destruct (send w _ wire _) as [[p2 e2]|] eqn:ES; [|done]. destruct (send_spec _ _ _ _ _ _ ES) as (S1 & _).
  cbn [p_bus update] in S1. destruct e2 as [e2|]; [intros [= <- <-]; apply Hstay; [by rewrite S1|done]|].
  destruct (w_Sleep _ _ _) as [e3|]; [intros [= <- <-]; apply Hstay; [by rewrite S1|done]|].
  destruct (await w fuel p2 step) as [[p3 r]|] eqn:Ea; [|done].
  assert (Hd2 : Bus.device b1 (Bus.st_Device step) = Some d2).
  { unfold Bus.device. rewrite E2, Hstep. apply list_lookup_insert_eq. by eapply lookup_lt_Some. }
  destruct (await_owed w fuel p2 step p3 r d2 Ea) as (d3 & A1 & A2 & A4); [by rewrite S1|].
  set (rel := acquitted w fuel p2 step d2) in *.
  assert (Hrel : (match Bus.device b1 i with
      | Some d => if decide (Bus.st_Device step = i) then acquitted w fuel p2 step d else []
      | None => []
      end) = if decide (Bus.st_Device step = i) then rel else []).
  { case_decide as Hsi; [subst i; by rewrite Hd2|by destruct (Bus.device b1 i)]. }
  rewrite Hrel. rewrite S1, E2, Hstep, list_insert_insert_eq in A1. rewrite O2 in A2.
  assert (Hfin : forall p4 (over : bool), p_bus p4 = p_bus p3 -> (over = true -> exists ev, r = Ok ev) ->
    length (Bus.b_devices (p_bus p4)) = length (Bus.b_devices b) /\
    settled i b (p_bus p4) (if decide (Bus.st_Device step = i) then rel else []) over).
  { intros p4 over E Hov. rewrite Hstep. apply (settled_set i b (p_bus p4) (Bus.b_current b) d d3 rel); try done; [by rewrite E|].
    intros H0. destruct (Hov H0) as [ev Hev]. by eapply A4. }
  destruct r as [ev|e4]; [|intros [= <- <-]; by apply Hfin].
  unfold emit. destruct (decide (Bus.e_Kind ev = _)); [intros [= <- <-]; apply Hfin; eauto|].
  destruct (w_publish _ _); intros [= <- <-]; apply Hfin; eauto.
Qed.

(** One round, for device [i]. *)
Lemma round_settled w fuel p p' x i : world_ok w -> panel_ok (S := S) p -> rested (p_bus p) ->
  round w fuel p = Some (p', x) -> forall d, Bus.device (p_bus p) i = Some d ->
  (x = None -> rested (p_bus p')) /\
  exists d', Bus.device (p_bus p') i = Some d' /\
    (if w_cancelled w (p_round p) then [] else answeredOnce w fuel i (drainRequests w p)) ++ owed d' =
      owed d ++ (if w_cancelled w (p_round p) then [] else granted i (p_bus p) (w_requests w (p_round p))).
Proof.
  intros Hw Hp Hr. unfold round. destruct (w_cancelled w (p_round p)).
  { intros [= <- <-] d Hd. split; [done|]. exists d. by rewrite app_nil_r. }
  destruct (drained w p Hw Hp) as (Hp1 & _ & _).
  pose proof (fun i => answers_grew i (w_requests w (p_round p)) p) as Hg.
  fold (drainRequests w p) in Hg. set (p1 := drainRequests w p) in *.
  assert (Hl1 : length (Bus.b_devices (p_bus p1)) = length (Bus.b_devices (p_bus p))) by apply drained_length.
  assert (Hr1 : rested (p_bus p1)) by (eapply grew_rested; [exact Hl1|eauto|exact Hr]).
  destruct (cycle w fuel p1) as [[p2 e]|] eqn:Ec; [|done].
  destruct (cycle_settled w fuel p1 p2 e i Hp1 Hr1 Ec) as [_ Hs].
  assert (Hrest : e = None -> rested (p_bus p2)).
  { intros ->. apply Forall_lookup. intros k d2 Hd2.
    destruct (cycle_settled w fuel p1 p2 None k Hp1 Hr1 Ec) as [Hl2 Hk].
    destruct (lookup_lt_is_Some_2 (Bus.b_devices (p_bus p1)) k) as [d1 Hd1]; [rewrite <- Hl2; by eapply lookup_lt_Some|].
    destruct (Hk d1 Hd1) as (d3 & Hd3 & _ & Hin). unfold Bus.device in Hd3. simplify_eq.
    apply Hin; [done|]. exact (Forall_lookup_1 _ _ _ _ Hr1 Hd1). }
  intros Hx d Hd. destruct (Hg i d Hd) as (d1 & Hd1 & O1 & _). destruct (Hs d1 Hd1) as (d2 & Hd2 & O2 & _).
  assert (Hp2 : p_bus p' = p_bus p2 /\ (x = None -> e = None)).
  { destruct e; by injection Hx as <- <-. }
  destruct Hp2 as [Eb Hxe]. rewrite Eb. split; [auto|]. exists d2. split; [done|]. by rewrite O2, O1.
Qed.

(** C11. Commands keep their order and none is lost on the way. Over any run of the
    panel from between two transactions, whatever the line does and however it ends, the commands accepted for a device
    are its queue extended at the back, and a command leaves the front of that queue for
    one reason: the frame the panel read in the exchange that carried it was an accepted
    answer other than osdp_BUSY ([acquits]). What was queued, followed by what the
    application was told was accepted, is exactly the commands so answered for, in order,
    followed by what is still queued or in flight; silence, a corrupt or a stray frame
    and a run that ends release nothing. *)
Theorem commands_in_order w rounds fuel p p' e i d : world_ok w -> panel_ok (S := S) p -> rested (p_bus p) ->
  drive w rounds fuel p = Some (p', e) -> Bus.device (p_bus p) i = Some d ->
  exists d', Bus.device (p_bus p') i = Some d' /\
    answered w i rounds fuel p ++ owed d' = owed d ++ promised w i rounds fuel p.
Proof.
  intros Hw. revert p d. induction rounds as [|rounds IH]; intros p d Hp Hr; [done|]. cbn [drive promised answered].
  destruct (round w fuel p) as [[p1 x]|] eqn:E; [|done]. intros Hdr Hd.
  destruct (round_settled w fuel p p1 x i Hw Hp Hr E d Hd) as (Hr1 & d1 & Hd1 & Ho).
  destruct (panel_round_spec w fuel p p1 x Hw Hp E) as (Hp1 & _).
  destruct x as [x|].
  - injection Hdr as <- <-. exists d1. rewrite !app_nil_r. by split_and!.
  - destruct (IH p1 d1 Hp1 (Hr1 eq_refl) Hdr Hd1) as (d2 & Hd2 & Ho2).
    exists d2. split; [done|]. by rewrite <- app_assoc, Ho2, app_assoc, Ho, <- app_assoc.
Qed.

End with_suite.
