(* ===== verification/Link.v ===== *)
(** * Both runtimes on one line

    A round of panel's loop (Panel.round) and a round of the device's
    (Server.round), joined by a line that carries what each writes to the other's
    reader: in any pieces, and behind noise on the way to the device. Together they
    make one exchange, the one of Enrol.v, on which the laws about bus and device
    are stated; octets, buffers and ports have dropped out. *)

From S2P Require Import Prelude Errors.
From S2P Require Frame Cmd Secure Reader Port Device Bus BusFacts BusLaws Pd PdFacts PdLaws System Enrol Server Panel.
Import Frame (Frame, WireLen).
Import Enrol (transaction).

(** The events a panel publishes. *)
Definition published (e : option Bus.Event) : list Bus.Event :=
  match e with
  | Some ev => if decide (Bus.e_Kind ev = Bus.KindNone) then [] else [ev]
  | None => []
  end.

(** When the panel takes the time of the answer. *)
Definition replyTime (w : Panel.world) (p : Panel.Panel) : Z :=
  Panel.w_clock w (Panel.p_ticks p + match Port.pt_WriteDeadliner (Panel.w_port w) with Some _ => 2 | None => 1 end)%nat.

(** The device's answer reaches the panel, or its deadline passes. *)
Definition answer_arrives (w : Panel.world) (fuel : nat) (i : nat) (r : result Frame) : Prop :=
  match r with
  | Ok r => exists chunks, concat chunks = Frame.wire_octets r /\ Forall (fun c => c <> []) chunks /\
      (forall dl, Reader.delivers (Port.pt_Read (Panel.w_port w) dl) i chunks) /\ (length chunks < fuel)%nat /\
      Frame.representable r = None /\ WireLen r <= 1536
  | Err _ => forall dl room, Port.pt_Read (Panel.w_port w) dl i room = Err (ETransport ErrTimeout)
  end.

Section with_suite.
Context {S : Secure.CipherSuite} `{!Secure.SuiteLaws S}.

(** The panel between two transactions. *)
Record waiting (p : Panel.Panel) : Prop := mk_waiting {
  wa_ok : Panel.panel_ok (S := S) p;
  wa_empty : Reader.content (Panel.p_reader p) = []
}.

(** A port without faults, and nothing to interrupt this transaction. *)
Record calm (w : Panel.world) (t : nat) : Prop := mk_calm {
  ca_running : Panel.w_cancelled w t = false;
  ca_sleep : forall d, Panel.w_Sleep w t d = None;
  ca_publish : Panel.w_publish w t = None;
  ca_port : Port.faultless (Panel.w_port w)
}.

Lemma next_silent Read r fuel e : Reader.reader_ok r -> Reader.content r = [] ->
  (forall room, Read (Reader.r_reads r) room = Err e) ->
  exists r', Reader.next Read (Datatypes.S fuel) r = Some (r', (Frame.Frame_zero, Some e)) /\
    Reader.content r' = [] /\ (octets_ok (Reader.r_buf r) -> Reader.well r').
Proof.
  intros Hr Hc Hread. pose proof (proj1 (Reader.content_nil r Hr) Hc) as Hn.
  exists (r <| Reader.r_reads := Datatypes.S (Reader.r_reads r) |>).
  cbn [Reader.next Reader.loop]. unfold Reader.next_turn, Reader.next_read, Reader.fetch.
  rewrite decide_False by lia. rewrite decide_False by (rewrite Hn, (Reader.ro_buf r Hr); done).
  rewrite Hread. split; [done|]. split; [exact Hc|]. intros Ho. split; [|exact Ho]. destruct Hr. by split.
Qed.

Lemma send_calm w t p wire x : calm w t -> exists p', Panel.send w p wire x = Some (p', None) /\
  Panel.p_bus p' = Panel.p_bus p /\ Panel.p_reader p' = Panel.p_reader p /\ Panel.p_round p' = Panel.p_round p /\
  Panel.p_events p' = Panel.p_events p /\ Panel.p_sent p' = Panel.p_sent p ++ [wire] /\
  Panel.p_ticks p' = (Panel.p_ticks p + match Port.pt_WriteDeadliner (Panel.w_port w) with Some _ => 1 | None => 0 end)%nat.
Proof.
  intros [_ _ _ [_ Hd Hw]]. unfold Panel.send, Panel.armWrite. destruct (Port.pt_WriteDeadliner _) as [D|] eqn:ED; cbn [Panel.Now];
    [rewrite (Hd D _ _ eq_refl)|]; rewrite Hw, slice_full; eexists; (split; [done|]); cbn; split_and!; try done; lia.
Qed.

(** What the bus makes of what came back. *)
Definition concluded (b : Bus.Bus) (i : nat) (r : result Frame) (t' : Z) : Bus.Bus * option Bus.Event :=
  match r with
  | Ok r =>
      match Bus.Reply b i r t' with
      | (b, Ok e) => (b, Some e)
      | (b, Err _) => Bus.Timeout b i
      end
  | Err _ => Bus.Timeout b i
  end.

Lemma silent_some p step : is_Some (Bus.device (Panel.p_bus p) (Bus.st_Device step)) -> exists ev,
  Bus.Timeout (Panel.p_bus p) (Bus.st_Device step) = ((Bus.Timeout (Panel.p_bus p) (Bus.st_Device step)).1, Some ev) /\
  Panel.silent p step = (p <| Panel.p_bus := (Bus.Timeout (Panel.p_bus p) (Bus.st_Device step)).1 |>, Ok ev).
Proof.
  intros [d Hd]. unfold Panel.silent, Bus.Timeout. rewrite Hd. destruct (Bus.timeout d _) as [d' ev]. by exists ev.
Qed.

Lemma await_calm w fuel p step r : calm w (Panel.p_round p) -> waiting p ->
  is_Some (Bus.device (Panel.p_bus p) (Bus.st_Device step)) ->
  answer_arrives w fuel (Reader.r_reads (Panel.p_reader p)) r -> (0 < fuel)%nat ->
  (forall f, r = Ok f -> Frame.frame_ok f /\ Frame.CheckOK f = true) ->
  exists p' ev, Panel.await w fuel p step = Some (p', Ok ev) /\
    concluded (Panel.p_bus p) (Bus.st_Device step) r (Panel.w_clock w (Datatypes.S (Panel.p_ticks p))) =
      (Panel.p_bus p', Some ev) /\
    Reader.content (Panel.p_reader p') = [] /\ Panel.p_round p' = Panel.p_round p /\
    Panel.p_events p' = Panel.p_events p /\ Panel.p_sent p' = Panel.p_sent p.
Proof.
  intros Hc [[Hb Hr] Hempty] Hdev Ha Hfu Hf. unfold Panel.await. cbn [Panel.Now Panel.p_reader update].
  rewrite (Port.fl_reads _ (ca_port _ _ Hc)). set (dl := Some (Panel.w_clock w (Panel.p_ticks p) + Bus.st_Timeout step)).
  destruct r as [f|e].
  - destruct Ha as (chunks & A1 & A2 & A3 & A4 & A5 & A6). destruct (Hf f eq_refl) as [Hok Hck].
    destruct (Reader.loop_assembles (Port.pt_Read (Panel.w_port w) dl) (Reader.next_turn (Port.pt_Read (Panel.w_port w) dl)) f
      Hok A5 A6 (or_introl eq_refl) chunks (Panel.p_reader p) fuel (proj1 Hr)) as (rd & E & _ & Hcon & _);
      [by rewrite Hempty|done..|].
    change (Reader.next (Port.pt_Read (Panel.w_port w) dl) fuel (Panel.p_reader p)) with
      (Reader.loop (Reader.next_turn (Port.pt_Read (Panel.w_port w) dl)) fuel (Panel.p_reader p)).
    rewrite E. unfold Reader.verdict. rewrite Hck. cbv iota beta zeta. cbn [Panel.Now].
    unfold concluded. cbn [Panel.p_bus Panel.p_ticks update].
    destruct (Bus.Reply _ _ _ _) as [b res] eqn:ER. destruct res as [ev|e].
    + eexists _, ev. split; [done|]. by split_and!.
    + unfold Panel.unattributed.
      match goal with |- context [Panel.silent ?p2 step] => set (p1 := p2) end.
      destruct (silent_some p1 step) as (ev & E1 & E2).
      { cbn. pose proof (BusFacts.Reply_length (Panel.p_bus p) (Bus.st_Device step) f
          (Panel.w_clock w (Datatypes.S (Panel.p_ticks p)))) as Hl. rewrite ER in Hl. cbn in Hl.
        apply lookup_lt_is_Some_2. rewrite Hl. destruct Hdev. by eapply lookup_lt_Some. }
      rewrite E2. exists (p1 <| Panel.p_bus := (Bus.Timeout (Panel.p_bus p1) (Bus.st_Device step)).1 |>), ev.
      split; [done|]. split; [exact E1|]. by split_and!.
  - destruct fuel as [|fuel]; [lia|].
    destruct (next_silent (Port.pt_Read (Panel.w_port w) dl) (Panel.p_reader p) fuel _ (proj1 Hr) Hempty (Ha dl)) as (rd & E & Hcon & _).
    rewrite E. match goal with |- context [Panel.silent ?p2 step] => set (p1 := p2) end.
    destruct (silent_some p1 step Hdev) as (ev & E1 & E2). rewrite E2.
    exists (p1 <| Panel.p_bus := (Bus.Timeout (Panel.p_bus p1) (Bus.st_Device step)).1 |>), ev.
    split; [done|]. split; [exact E1|]. by split_and!.
Qed.

(** Draining the requests touches the bus and the answers only. *)
Lemma drained_fields w p : let p1 := Panel.drainRequests w p in
  Panel.p_reader p1 = Panel.p_reader p /\ Panel.p_round p1 = Panel.p_round p /\ Panel.p_ticks p1 = Panel.p_ticks p /\
  Panel.p_events p1 = Panel.p_events p /\ Panel.p_sent p1 = Panel.p_sent p.
Proof.
  cbv zeta. unfold Panel.drainRequests. generalize (Panel.w_requests w (Panel.p_round p)) as reqs. intros reqs.
  revert p. induction reqs as [|req reqs IH]; intros p; [done|]. cbn [fold_left].
  destruct (IH (Panel.answer p req)) as (-> & -> & -> & -> & ->). unfold Panel.answer.
  by destruct (Panel.queue (Panel.p_bus p) req).
Qed.

(** A transaction by its two halves. *)
Lemma transaction_concluded b b1 st d0 t t' d r b2 ev : Bus.Next b = (b1, Some st) ->
  Pd.Handle d0 (Bus.st_Frame st) t = (d, r) -> concluded b1 (Bus.st_Device st) r t' = (b2, ev) ->
  transaction b d0 t t' = (b2, d, ev).
Proof.
  intros En EH Ec. unfold transaction, concluded in *. rewrite En, EH. destruct r as [f|e]; [|by rewrite Ec].
  destruct (Bus.Reply b1 _ f t') as [b3 [e|e]]; [by injection Ec as -> ->|by rewrite Ec].
Qed.

(** The panel's half of a transaction, given the answer that will come. *)
Lemma round_calm w fuel p b st wire r : Panel.world_ok w -> waiting p -> calm w (Panel.p_round p) ->
  Bus.Next (Panel.p_bus (Panel.drainRequests w p)) = (b, Some st) -> Frame.Append (Bus.st_Frame st) [] = Ok wire ->
  answer_arrives w fuel (Reader.r_reads (Panel.p_reader p)) r -> (0 < fuel)%nat ->
  (forall f, r = Ok f -> Frame.frame_ok f /\ Frame.CheckOK f = true) ->
  exists p' ev, Panel.round w fuel p = Some (p', None) /\
    concluded b (Bus.st_Device st) r (replyTime w p) = (Panel.p_bus p', Some ev) /\
    Panel.p_events p' = Panel.p_events p ++ published (Some ev) /\ Panel.p_sent p' = Panel.p_sent p ++ [wire] /\
    Reader.content (Panel.p_reader p') = [].
Proof.
  intros Hw Hp Hc En EA Hans Hfu Hf.
  destruct (Panel.drained w p Hw (wa_ok p Hp)) as (Hp1 & _ & _).
  destruct (drained_fields w p) as (F1 & F2 & F3 & F4 & F5).
  unfold Panel.round. rewrite (ca_running _ _ Hc). unfold Panel.cycle. rewrite En, EA.
  set (p1 := Panel.drainRequests w p) in *.
  destruct (send_calm w (Panel.p_round p) (p1 <| Panel.p_bus := b |>) wire (Bus.st_Timeout st) Hc)
    as (p2 & -> & B1 & B2 & B3 & B4 & B5 & B6). cbn [Panel.p_bus Panel.p_reader Panel.p_round Panel.p_events
      Panel.p_sent Panel.p_ticks update] in B1, B2, B3, B4, B5, B6.
  rewrite F2 in B3. rewrite B3. rewrite (ca_sleep _ _ Hc).
  destruct (BusFacts.Next_frame _ b st (proj1 Hp1) En) as (_ & _ & Hb & _ & _ & Hdev).
  destruct (await_calm w fuel p2 st r) as (p3 & ev & -> & A1 & A2 & A3 & A4 & A5); try done.
  - by rewrite B3.
  - split; [split; [by rewrite B1|rewrite B2, F1; apply Hp]|rewrite B2, F1; apply Hp].
  - by rewrite B1.
  - by rewrite B2, F1.
  - rewrite B1, B6, F3 in A1. unfold Panel.emit, published. cbv zeta.
    assert (Htick : Panel.w_clock w (Datatypes.S (Panel.p_ticks p +
      match Port.pt_WriteDeadliner (Panel.w_port w) with Some _ => 1 | None => 0 end)) = replyTime w p)
      by (unfold replyTime; f_equal; destruct (Port.pt_WriteDeadliner _); lia).
    rewrite Htick in A1. case_decide as Hk; cbv beta iota.
    + eexists _, ev. split; [done|]. cbn. rewrite decide_True by done.
      rewrite A4, A5, B4, B5, F4, F5, app_nil_r. by split_and!.
    + rewrite A3, B3, (ca_publish _ _ Hc). cbv beta iota. eexists _, ev. split; [done|]. cbn.
      rewrite decide_False by done. rewrite A4, A5, B4, B5, F4, F5. by split_and!.
Qed.

(** One transaction of the two runtimes is one exchange of their models. On a line
    that carries both frames, behind noise and in pieces, a round of the panel's
    loop and a round of the device's do to the bus and to the device exactly what
    [transaction] does, publish exactly its event, put exactly the command and the
    answer (or nothing) on the wire, and leave both readers empty and both ends fit
    for the next. What the application asked of the panel, and reported to the
    device, before the round is done first. *)
Theorem runtimes_exchange wp ws fuel p s b st noise down wire d r :
  Panel.world_ok wp -> Server.world_ok ws -> waiting p -> Server.idle (S := S) s ->
  calm wp (Panel.p_round p) -> Server.healthy ws (Server.s_round s) 1 ->
  Bus.Next (Panel.p_bus (Panel.drainRequests wp p)) = (b, Some st) -> Frame.Append (Bus.st_Frame st) [] = Ok wire ->
  Server.arrives fuel (Server.mk_arrival (Bus.st_Frame st) noise down) ->
  (forall dl, Reader.delivers (Port.pt_Read (Server.w_port ws) dl) (Reader.r_reads (Server.s_scan s)) down) ->
  Pd.Handle (fold_left PdLaws.react (Server.w_application ws (Server.s_round s)) (Server.s_device s)) (Bus.st_Frame st)
    (Server.w_deviceClock ws (Server.s_round s)) = (d, r) ->
  answer_arrives wp fuel (Reader.r_reads (Panel.p_reader p)) r ->
  exists p' s' ev,
    Panel.round wp fuel p = Some (p', None) /\ Server.round ws fuel s = Some (s', None) /\
    transaction (Panel.p_bus (Panel.drainRequests wp p))
      (fold_left PdLaws.react (Server.w_application ws (Server.s_round s)) (Server.s_device s))
      (Server.w_deviceClock ws (Server.s_round s)) (replyTime wp p) = (Panel.p_bus p', Server.s_device s', ev) /\
    Panel.p_events p' = Panel.p_events p ++ published ev /\
    Panel.p_sent p' = Panel.p_sent p ++ [wire] /\
    Server.s_sent s' = Server.s_sent s ++ match r with Ok r => [Frame.wire_octets r] | Err _ => [] end /\
    waiting p' /\ Server.idle (S := S) s'.
Proof.
  intros Hwp Hws Hp Hs Hc Hh En EA Har Hdel EH Hans.
  assert (Hd0 : PdFacts.pd_ok (S := S)
    (fold_left PdLaws.react (Server.w_application ws (Server.s_round s)) (Server.s_device s)))
    by (apply Server.reacts_ok; [apply Hs|apply Hws]).
  pose proof (PdFacts.Handle_total _ (Bus.st_Frame st) (Server.w_deviceClock ws (Server.s_round s)) Hd0 (Server.ar_ok _ _ Har)) as Ht.
  rewrite EH in Ht.
  assert (Hf : forall f, r = Ok f -> Frame.frame_ok f /\ Frame.CheckOK f = true).
  { intros f ->. case_match; [destruct Ht as (? & ? & [= -> ->] & _ & ? & ? & _); done|by destruct Ht as (? & ? & _)]. }
  clear Ht.
  destruct (Server.round_serves ws fuel s _ d r Hws Hs Har Hdel Hh EH) as (s' & Ers & Hs' & Ed & _ & _ & Esent).
  { intros f ->. by destruct Hans as (? & _ & _ & _ & _ & ? & _). }
  destruct (round_calm wp fuel p b st wire r Hwp Hp Hc En EA Hans) as (p' & ev & Erp & Econ & Eev & Esp & Econt);
    [pose proof (Server.ar_fuel _ _ Har); lia|exact Hf|].
  exists p', s', (Some ev). split; [done|]. split; [done|].
  split; [rewrite Ed; by eapply transaction_concluded|]. split; [done|]. split; [done|]. split; [done|].
  split; [|done]. split; [|done]. by apply (Panel.panel_round_spec wp fuel p p' None Hwp (wa_ok p Hp) Erp).
Qed.

End with_suite.

(** ** Witnesses

    The panel of BusLaws.v and the reader of Enrol.v, each behind its own loop. The
    line's two scripts are the frames of the four exchanges of an enrolment, each
    cut in two; what goes to the reader has an octet of noise in front. *)
Abbreviation AES := Secure.AES128.suite (only parsing).

(** What is on the wire while the two converse. *)
Fixpoint wires (b : Bus.Bus) (d : Pd.Device) (n : nat) : list (Frame * result Frame) :=
  match n, Bus.Next b with
  | Datatypes.S n, (b, Some st) =>
      let '(d, r) := Pd.Handle d (Bus.st_Frame st) 0 in
      (Bus.st_Frame st, r) :: wires (concluded b (Bus.st_Device st) r 0).1 d n
  | _, _ => []
  end.

Definition cut (noise w : octets) : list octets := [noise ++ take 3 w; drop 3 w].
Definition kat_wires : list (Frame * result Frame) := wires BusLaws.demo Enrol.kat_reader 4.
Definition kat_down : list octets := concat (map (fun x => cut [0x11] (Frame.wire_octets x.1)) kat_wires).
Definition kat_up : list octets :=
  concat (map (fun x => match x.2 with Ok r => cut [] (Frame.wire_octets r) | Err _ => [] end) kat_wires).

Definition kat_port (chunks : list octets) : Port.Port :=
  Port.mk_Port (fun _ => Reader.scripted chunks) (fun _ _ wire => Some (len wire, None)) (fun _ _ => None) None None.

(** The application asks for the local status while the last exchange is due. *)
Definition kat_request : Panel.request := Panel.mk_request 0 Cmd.LocalStatusCommand None None.

Definition kat_panel_world : Panel.world :=
  Panel.mk_world (kat_port kat_up) (fun t => bool_decide (4 <= t)%nat) (fun _ => false) (fun _ => 0) (fun _ _ => None)
    (fun t => if decide (t = 3%nat) then [kat_request] else []) (fun _ => None).
Definition kat_server_world : Server.world :=
  Server.mk_world (fun t => bool_decide (4 <= t)%nat) (fun _ => false) (fun _ => 0) (fun _ => 0) (kat_port kat_down)
    (fun _ => []).
Definition kat_panel : Panel.Panel := Panel.New BusLaws.demo [Panel.WithEventBuffer 4].
Definition kat_server : Server.Server := Server.NewServer Enrol.kat_reader [].

(** Four rounds of each, and the reader is enrolled over a secure channel. *)
Example line_enrols :
  option_map (fun x => (map Bus.e_Kind (Panel.p_events x.1), x.2)) (Panel.Run kat_panel_world 5 16000 kat_panel) =
    Some ([Bus.KindIdentified; Bus.KindCapabilities; Bus.KindSecure], None) /\
  option_map (fun x => (concat (Server.s_sent x.1), x.2)) (Server.Run kat_server_world 5 16000 kat_server) =
    Some (concat kat_up, None) /\
  option_map (fun x => concat (map (fun w => 0x11 :: w) (Panel.p_sent x.1))) (Panel.Run kat_panel_world 5 16000 kat_panel) =
    Some (concat kat_down).
Proof. split_and!; vm_compute; reflexivity. Qed.

Lemma kat_panel_world_ok : Panel.world_ok kat_panel_world.
Proof.
  split; [intros dl; apply Reader.scripted_sane; by vm_compute|]. intros t. cbn [Panel.w_requests kat_panel_world].
  case_decide; [|by apply Forall_nil]. apply Forall_cons. split; [|by apply Forall_nil]. split; [by split|by split].
Qed.

Lemma kat_server_world_ok : Server.world_ok kat_server_world.
Proof. split; [intros dl; apply Reader.scripted_sane; by vm_compute|]. intros t. by apply Forall_nil. Qed.

Lemma kat_panel_ok : Panel.panel_ok (S := AES) kat_panel.
Proof. split; [exact Enrol.demo_ok|exact Reader.well_new]. Qed.

Lemma line_patient : Port.patient (kat_port kat_up) 9.
Proof.
  assert (Hl : length kat_up = 8%nat) by (vm_compute; reflexivity).
  pose proof (Port.scripted_patient kat_up (fun _ _ wire => Some (len wire, None)) (fun _ _ => None) None None) as Hp.
  rewrite Hl in Hp. exact Hp.
Qed.

Lemma line_unblocked : Port.unblocked (kat_port kat_up).
Proof. by eexists. Qed.

Lemma kat_enough : Port.enough 9 16000.
Proof. by vm_compute. Qed.

Example panel_stops_witness : is_Some (Panel.Run kat_panel_world 5 16000 kat_panel).
Proof.
  apply (Panel.panel_stops kat_panel_world 9 4 16000 kat_panel kat_panel_world_ok kat_panel_ok line_patient line_unblocked);
    [apply Nat.leb_le; reflexivity|reflexivity|exact kat_enough].
Defined.

Lemma line_run : exists p', Panel.Run kat_panel_world 5 16000 kat_panel = Some (p', None).
Proof.
  pose proof (proj1 line_enrols) as Hk. destruct (Panel.Run kat_panel_world 5 16000 kat_panel) as [[p' e]|]; [|discriminate Hk].
  exists p'. pose proof (f_equal (fun x => match x with Some y => y.2 | None => None end) Hk) as He.
  cbn [option_map snd] in He. by rewrite He.
Qed.

Example panel_survives_witness : exists p', Panel.panel_ok (S := AES) p' /\
  rtc BusFacts.bus_step (Panel.p_bus kat_panel) (Panel.p_bus p') /\
  exists t, Panel.w_cancelled kat_panel_world t = true \/ Panel.w_cancelledLate kat_panel_world t = true.
Proof.
  destruct line_run as [p' E]. exists p'.
  exact (Panel.panel_survives kat_panel_world 5 16000 kat_panel p' None kat_panel_world_ok kat_panel_ok E).
Defined.

Lemma kat_waiting : waiting (S := AES) kat_panel.
Proof. split; [exact kat_panel_ok|reflexivity]. Qed.

Lemma line_idle : Server.idle (S := AES) kat_server.
Proof. split; [split; [exact Enrol.kat_reader_ok|exact Reader.well_new]|reflexivity]. Qed.

(** The first of the four: osdp_ID and osdp_PDID. *)
Definition kat_first : Bus.Step := default (Bus.mk_Step 0 Frame.Frame_zero 0) (Bus.Next BusLaws.demo).2.
Definition kat_command : Frame := Bus.st_Frame kat_first.
Definition kat_answer : Pd.Device * result Frame := Pd.Handle Enrol.kat_reader kat_command 0.

Lemma kat_next : Bus.Next (Panel.p_bus (Panel.drainRequests kat_panel_world kat_panel)) =
  ((Bus.Next BusLaws.demo).1, Some kat_first).
Proof.
  change (Bus.Next BusLaws.demo = ((Bus.Next BusLaws.demo).1, Some kat_first)).
  assert (Hc : match (Bus.Next BusLaws.demo).2 with Some _ => true | None => false end = true) by (vm_compute; reflexivity).
  unfold kat_first. destruct (Bus.Next BusLaws.demo) as [b [st|]]; [reflexivity|discriminate Hc].
Qed.

Lemma line_arrives : Server.arrives 12 (Server.mk_arrival kat_command [0x11] (cut [0x11] (Frame.wire_octets kat_command))).
Proof.
  split; match goal with
    | |- Frame.frame_ok _ => apply Frame.frame_check_ok; by vm_compute
    | |- (_ < _)%nat => apply Nat.ltb_lt; reflexivity
    | |- Forall _ _ => apply (forallb_Forall (fun c => bool_decide (c <> []))); [intros c; apply bool_decide_eq_true_1|by vm_compute]
    | |- Reader.noise _ => apply Forall_cons; split; [by vm_compute|by apply Forall_nil]
    | |- _ => by vm_compute
    end.
Qed.

Definition kat_reply : Frame := match kat_answer.2 with Ok r => r | Err _ => Frame.Frame_zero end.

Lemma kat_handle : Pd.Handle (fold_left PdLaws.react (Server.w_application kat_server_world 0) (Server.s_device kat_server))
  kat_command 0 = (kat_answer.1, Ok kat_reply).
Proof.
  assert (Hd : fold_left PdLaws.react (Server.w_application kat_server_world 0) (Server.s_device kat_server) = Enrol.kat_reader)
    by reflexivity.
  rewrite Hd. unfold kat_reply, kat_answer.
  assert (Hc : match (Pd.Handle Enrol.kat_reader kat_command 0).2 with Ok _ => true | Err _ => false end = true)
    by (vm_compute; reflexivity).
  revert Hc. generalize (Pd.Handle Enrol.kat_reader kat_command 0) as x. intros [d [r|e]] Hc; [reflexivity|discriminate Hc].
Qed.

Lemma kat_scripted chunks more all : all = chunks ++ more -> Reader.delivers (Reader.scripted all) 0 chunks.
Proof. intros ->. by destruct (Port.delivers_app _ 0 chunks more (Reader.scripted_delivers _)). Qed.

Lemma kat_answer_arrives : answer_arrives kat_panel_world 12 0 (Ok kat_reply).
Proof.
  exists (cut [] (Frame.wire_octets kat_reply)). split; [by vm_compute|].
  split; [apply (forallb_Forall (fun c => bool_decide (c <> []))); [intros c; apply bool_decide_eq_true_1|by vm_compute]|].
  split; [intros dl; apply (kat_scripted _ (drop 2 kat_up)); by vm_compute|].
  split; [apply Nat.ltb_lt; reflexivity|]. split; by vm_compute.
Qed.

Lemma kat_command_delivered :
  forall dl, Reader.delivers (Port.pt_Read (Server.w_port kat_server_world) dl) 0 (cut [0x11] (Frame.wire_octets kat_command)).
Proof. intros dl. apply (kat_scripted _ (drop 2 kat_down)). by vm_compute. Qed.

Lemma kat_calm : calm kat_panel_world 0.
Proof. by repeat split. Qed.

Lemma line_healthy : Server.healthy kat_server_world 0 1.
Proof. split; [|by split]. intros i Hi. simpl in *. by rewrite bool_decide_false by lia. Qed.

Example runtimes_exchange_witness : exists p' s' ev,
  Panel.round kat_panel_world 12 kat_panel = Some (p', None) /\ Server.round kat_server_world 12 kat_server = Some (s', None) /\
  transaction (Panel.p_bus (Panel.drainRequests kat_panel_world kat_panel))
    (fold_left PdLaws.react (Server.w_application kat_server_world 0) (Server.s_device kat_server)) 0
    (replyTime kat_panel_world kat_panel) = (Panel.p_bus p', Server.s_device s', ev) /\
  Panel.p_events p' = Panel.p_events kat_panel ++ published ev /\ waiting (S := AES) p' /\ Server.idle (S := AES) s'.
Proof.
  assert (EA : Frame.Append (Bus.st_Frame kat_first) [] = Ok (Frame.wire_octets kat_command)) by (vm_compute; reflexivity).
  destruct (runtimes_exchange kat_panel_world kat_server_world 12 kat_panel kat_server (Bus.Next BusLaws.demo).1 kat_first
    [0x11] (cut [0x11] (Frame.wire_octets kat_command)) (Frame.wire_octets kat_command) kat_answer.1 (Ok kat_reply)
    kat_panel_world_ok kat_server_world_ok kat_waiting line_idle kat_calm line_healthy kat_next EA line_arrives
    kat_command_delivered kat_handle kat_answer_arrives) as (p' & s' & ev & H1 & H2 & H3 & H4 & _ & _ & H5 & H6).
  exists p', s', ev. split; [exact H1|]. split; [exact H2|]. split; [exact H3|]. split; [exact H4|]. by split.
Defined.
