(* ===== verification/Store.v ===== *)
(** * The event store: protobuf/service

    name.go, pagination.go, memory.go, memory_read.go, memory_write.go, status.go,
    list_events.go and event_service.go: resource names, page tokens and the ring
    of the most recent events, with the service that reads it. Go strings are their
    octets. Of the generated message the store touches three fields; the rest of an
    event is a parameter, [R]. An [entry] never changes once appended, so pointers
    to entries are entries. A nil dereference or an index out of range is
    [Panicked], and StoreLaws.v shows there is none. *)

From Stdlib Require Import Strings.String Strings.Ascii.
From S2P Require Import Prelude.

Definition str (s : string) : octets := map (fun a => Z.of_N (N_of_ascii a)) (list_ascii_of_string s).

Inductive store_error :=
  | ErrNotFound
  | ErrInvalidPageToken
  | ErrInvalidName
  | ErrInvalidParent
  | ErrCapacity
  | ErrNilEvent
  | ErrNilStore
  | ErrCanceled
  | ErrDeadlineExceeded
  | Panicked.

#[export] Instance store_error_eq : EqDecision store_error.
Proof. solve_decision. Defined.

(** A value or an error. *)
Definition res (A : Type) : Type := (store_error + A)%type.

(** ** name.go *)

Definition slash : Z := 47.
Definition devicesCollection : octets := str "devices".
Definition eventsCollection : octets := str "events".
Definition Wildcard : octets := str "-".

Definition EventName (device event : octets) : octets :=
  devicesCollection ++ [slash] ++ device ++ [slash] ++ eventsCollection ++ [slash] ++ event.

Definition DeviceName (device : octets) : octets := devicesCollection ++ [slash] ++ device.

(** [strings.Split] at one octet. *)
Fixpoint Split (s : octets) (sep : Z) : list octets :=
  match s with
  | [] => [[]]
  | c :: s =>
      if decide (c = sep) then [] :: Split s sep
      else match Split s sep with
           | part :: parts => (c :: part) :: parts
           | [] => [[c]]
           end
  end.

Definition validSegment (s : octets) : bool := bool_decide (s <> []) && bool_decide (s <> Wildcard).

Definition ParseEventName (name : octets) : res (octets * octets) :=
  match Split name slash with
  | [p0; device; p2; event] =>
      if bool_decide (p0 <> devicesCollection) || bool_decide (p2 <> eventsCollection) ||
         negb (validSegment device) || negb (validSegment event)
      then inl ErrInvalidName
      else inr (device, event)
  | _ => inl ErrInvalidName
  end.

Definition ParseParent (parent : octets) : res octets :=
  match Split parent slash with
  | [p0; device] =>
      if bool_decide (p0 <> devicesCollection) || bool_decide (device = []) then inl ErrInvalidParent
      else if bool_decide (device <> Wildcard) && negb (validSegment device) then inl ErrInvalidParent
      else inr device
  | _ => inl ErrInvalidParent
  end.

(** ** The standard library's part of pagination.go

    [strconv.FormatUint] and [strconv.ParseUint] in base 10, and
    [base64.RawURLEncoding]. *)

Fixpoint digits (fuel : nat) (n : Z) (acc : octets) : octets :=
  match fuel with
  | O => acc
  | S fuel => if decide (n < 10) then (48 + n) :: acc else digits fuel (n / 10) (48 + n mod 10 :: acc)
  end.
Definition FormatUint (n : Z) : octets := digits 20 n [].

Definition maxUint64 : Z := 2 ^ 64 - 1.

Fixpoint parse_digits (n : Z) (s : octets) : option Z :=
  match s with
  | [] => Some n
  | c :: s =>
      if decide (48 <= c <= 57) then
        if decide (n >= maxUint64 / 10 + 1) then None
        else
          let n1 := n * 10 + (c - 48) in
          if decide (n1 > maxUint64) then None else parse_digits n1 s
      else None
  end.
Definition ParseUint (s : octets) : option Z :=
  match s with [] => None | _ => parse_digits 0 s end.

Definition b64_char (x : Z) : Z :=
  if decide (x < 26) then 65 + x else if decide (x < 52) then 71 + x else if decide (x < 62) then x - 4
  else if decide (x = 62) then 45 else 95.

Definition b64_value (c : Z) : option Z :=
  if decide (65 <= c <= 90) then Some (c - 65) else if decide (97 <= c <= 122) then Some (c - 71)
  else if decide (48 <= c <= 57) then Some (c + 4) else if decide (c = 45) then Some 62
  else if decide (c = 95) then Some 63 else None.

Fixpoint EncodeToString (b : octets) : octets :=
  match b with
  | x :: y :: z :: b =>
      let v := Z.shiftl x 16 + Z.shiftl y 8 + z in
      b64_char (Z.shiftr v 18) :: b64_char (Z.land (Z.shiftr v 12) 63) ::
      b64_char (Z.land (Z.shiftr v 6) 63) :: b64_char (Z.land v 63) :: EncodeToString b
  | [x; y] =>
      let v := Z.shiftl x 16 + Z.shiftl y 8 in
      [b64_char (Z.shiftr v 18); b64_char (Z.land (Z.shiftr v 12) 63); b64_char (Z.land (Z.shiftr v 6) 63)]
  | [x] => let v := Z.shiftl x 16 in [b64_char (Z.shiftr v 18); b64_char (Z.land (Z.shiftr v 12) 63)]
  | [] => []
  end.

(** Four values make three octets; two or three at the end make one or two, and
    one alone is an error. The bits left over are ignored. *)
Fixpoint b64_join (vs : list Z) : option octets :=
  match vs with
  | a :: b :: c :: d :: vs =>
      let v := Z.shiftl a 18 + Z.shiftl b 12 + Z.shiftl c 6 + d in
      out ← b64_join vs; Some (u8 (Z.shiftr v 16) :: u8 (Z.shiftr v 8) :: u8 v :: out)
  | [a; b; c] =>
      let v := Z.shiftl a 18 + Z.shiftl b 12 + Z.shiftl c 6 in
      Some [u8 (Z.shiftr v 16); u8 (Z.shiftr v 8)]
  | [a; b] => let v := Z.shiftl a 18 + Z.shiftl b 12 in Some [u8 (Z.shiftr v 16)]
  | [_] => None
  | [] => Some []
  end.

Definition DecodeString (s : octets) : option octets :=
  vs ← mapM b64_value (filter (fun c => c <> 10 /\ c <> 13) s); b64_join vs.

(** ** pagination.go *)

Definition cursorSeparator : octets := [0].

Definition encodeCursor (parent : octets) (seq : Z) : octets :=
  EncodeToString (parent ++ cursorSeparator ++ FormatUint seq).

(** [strings.LastIndex] of the separator, as the two sides of it. *)
Fixpoint split_last (s : octets) : option (octets * octets) :=
  match s with
  | [] => None
  | c :: s =>
      match split_last s with
      | Some (l, r) => Some (c :: l, r)
      | None => if decide (c = 0) then Some ([], s) else None
      end
  end.

Definition decodeCursor (token parent : octets) : res Z :=
  match DecodeString token with
  | None => inl ErrInvalidPageToken
  | Some raw =>
      match split_last raw with
      | None => inl ErrInvalidPageToken
      | Some (l, r) =>
          if decide (l <> parent) then inl ErrInvalidPageToken
          else match ParseUint r with
               | None => inl ErrInvalidPageToken
               | Some seq => inr seq
               end
      end
  end.

(** [fmt.Sprintf("%016x", seq)]. *)
Definition hex_digit (x : Z) : Z := if decide (x < 10) then 48 + x else 87 + x.
Definition hex16 (seq : Z) : octets :=
  map (fun i => hex_digit (Z.land (Z.shiftr seq (4 * (15 - Z.of_nat i))) 15)) (List.seq 0 16).

(** [sort.Search], on a predicate that may panic. *)
Fixpoint Search_loop (fuel : nat) (f : Z -> option bool) (i j : Z) : option Z :=
  if decide (i < j) then
    match fuel with
    | O => None
    | S fuel =>
        let h := Z.shiftr (i + j) 1 in
        match f h with
        | None => None
        | Some true => Search_loop fuel f i h
        | Some false => Search_loop fuel f (h + 1) j
        end
    end
  else Some i.
Definition Search (n : Z) (f : Z -> option bool) : option Z := Search_loop (Z.to_nat n) f 0 n.

Section store.
Variable R : Type.

(** The generated message: what the store reads or writes of it, and the rest. *)
Record Event := mk_Event {
  ev_Name : octets;
  ev_EventTime : option Z;
  ev_CreateTime : option Z;
  ev_Rest : R
}.

Record entry := mk_entry { en_seq : Z; en_device : octets; en_ev : Event }.

(** ** memory.go *)

Record MemoryStore := mk_MemoryStore {
  ms_ring : list (option entry);
  ms_next : Z;
  ms_count : Z;
  ms_seq : Z;
  ms_byName : gmap octets entry
}.

Definition NewMemoryStore (capacity : Z) : res MemoryStore :=
  if decide (capacity <= 0) then inl ErrCapacity
  else inr (mk_MemoryStore (replicate (Z.to_nat capacity) None) 0 0 0 ∅).

Definition Cap (s : MemoryStore) : Z := len (ms_ring s).
Definition Len (s : MemoryStore) : Z := ms_count s.

(** ** memory_write.go *)

Definition Append (s : MemoryStore) (ctx : option store_error) (now : Z) (parent : octets) (ev : option Event) :
    MemoryStore * res Event :=
  match ctx with
  | Some e => (s, inl e)
  | None =>
  match ParseParent parent with
  | inl e => (s, inl e)
  | inr device =>
      if decide (device = Wildcard) then (s, inl ErrInvalidParent)
      else match ev with
      | None => (s, inl ErrNilEvent)
      | Some ev =>
          let eventTime := match ev_EventTime ev with None => Some now | t => t end in
          let stored := mk_Event (EventName device (hex16 (ms_seq s))) eventTime (Some now) (ev_Rest ev) in
          let e := mk_entry (ms_seq s) device stored in
          let seq := (ms_seq s + 1) mod 2 ^ 64 in
          let put byName count :=
            (mk_MemoryStore (<[Z.to_nat (ms_next s) := Some e]> (ms_ring s))
               ((ms_next s + 1) mod len (ms_ring s)) count seq (<[ev_Name stored := e]> byName),
             inr stored) in
          if decide (ms_count s = len (ms_ring s)) then
            match ms_ring s !! Z.to_nat (ms_next s) with
            | Some (Some old) => put (delete (ev_Name (en_ev old)) (ms_byName s)) (ms_count s)
            | _ => (s, inl Panicked)
            end
          else put (ms_byName s) (ms_count s + 1)
      end
  end
  end.

(** ** memory_read.go *)

Definition Get (s : MemoryStore) (ctx : option store_error) (name : octets) : res Event :=
  match ctx with
  | Some e => inl e
  | None =>
  match ParseEventName name with
  | inl e => inl e
  | inr _ =>
      match ms_byName s !! name with
      | None => inl ErrNotFound
      | Some e => inr (en_ev e)
      end
  end
  end.

(** Go's remainder keeps the sign of the dividend. *)
Definition at_ (s : MemoryStore) (i : Z) : option entry :=
  let n := len (ms_ring s) in
  match ms_ring s !! Z.to_nat (Z.rem (Z.rem (ms_next s - ms_count s + i) n + n) n) with
  | Some e => e
  | None => None
  end.

(** The loop of [page]: [k] positions are left below. *)
Fixpoint page_loop (s : MemoryStore) (device : octets) (want : Z) (k : nat) (out : list entry) : option (list entry) :=
  match k with
  | O => Some out
  | S k =>
      if decide (len out < want) then
        match at_ s (Z.of_nat k) with
        | None => None
        | Some e =>
            let hit := bool_decide (device = Wildcard) || bool_decide (en_device e = device) in
            page_loop s device want k (if hit then out ++ [e] else out)
        end
      else Some out
  end.

Definition page (s : MemoryStore) (device : octets) (upper want : Z) : option (list entry) :=
  match Search (ms_count s) (fun i => e ← at_ s i; Some (bool_decide (en_seq e >= upper))) with
  | None => None
  | Some start => page_loop s device want (Z.to_nat start) []
  end.

(** ** store.go *)

Definition DefaultPageSize : Z := 50.
Definition MaxPageSize : Z := 1000.

Record Query := mk_Query { qu_Parent : octets; qu_PageSize : Z; qu_PageToken : octets }.
Record Page := mk_Page { pg_Events : list Event; pg_NextPageToken : octets }.

Definition pageSizeOf (q : Query) : Z :=
  let size := if decide (qu_PageSize q <= 0) then DefaultPageSize else qu_PageSize q in
  if decide (size > MaxPageSize) then MaxPageSize else size.

Definition List_ (s : MemoryStore) (ctx : option store_error) (q : Query) : res Page :=
  match ctx with
  | Some e => inl e
  | None =>
  match ParseParent (qu_Parent q) with
  | inl e => inl e
  | inr device =>
      let size := pageSizeOf q in
      match (if decide (qu_PageToken q <> []) then decodeCursor (qu_PageToken q) (qu_Parent q) else inr maxUint64) with
      | inl e => inl e
      | inr upper =>
          match page s device upper (size + 1) with
          | None => inl Panicked
          | Some found =>
              if decide (len found > size) then
                match found !! Z.to_nat (size - 1) with
                | None => inl Panicked
                | Some last =>
                    inr (mk_Page (map en_ev (take (Z.to_nat size) found)) (encodeCursor (qu_Parent q) (en_seq last)))
                end
              else inr (mk_Page (map en_ev found) [])
          end
      end
  end
  end.

(** ** status.go, event_service.go and list_events.go *)

Inductive code := NotFound | InvalidArgument | Canceled | DeadlineExceeded | Internal | Unimplemented.

Definition statusError (e : store_error) : code :=
  match e with
  | ErrNotFound => NotFound
  | ErrInvalidName | ErrInvalidParent | ErrInvalidPageToken => InvalidArgument
  | ErrCanceled => Canceled
  | ErrDeadlineExceeded => DeadlineExceeded
  | _ => Internal
  end.

Definition defaultOrderBy : octets := str "event_time desc".

Record serviceSettings := mk_serviceSettings { sv_default : Z; sv_max : Z }.
Definition Option := serviceSettings -> serviceSettings.
Definition WithDefaultPageSize (n : Z) : Option := fun s =>
  if decide (n > 0) then mk_serviceSettings n (sv_max s) else s.
Definition WithMaxPageSize (n : Z) : Option := fun s =>
  if decide (n > 0) then mk_serviceSettings (sv_default s) n else s.

(** The service over the memory store. *)
Record EventService := mk_EventService { es_store : MemoryStore; es_defaultPageSize : Z; es_maxPageSize : Z }.

Definition NewEventService (store : option MemoryStore) (opts : list Option) : res EventService :=
  match store with
  | None => inl ErrNilStore
  | Some store =>
      let cfg := fold_left (fun cfg opt => opt cfg) opts (mk_serviceSettings DefaultPageSize MaxPageSize) in
      let dflt := if decide (sv_default cfg > sv_max cfg) then sv_max cfg else sv_default cfg in
      inr (mk_EventService store dflt (sv_max cfg))
  end.

Definition GetEvent (s : EventService) (ctx : option store_error) (name : octets) : code + Event :=
  match ParseEventName name with
  | inl e => inl (statusError e)
  | inr _ =>
      match Get (es_store s) ctx name with
      | inl e => inl (statusError e)
      | inr ev => inr ev
      end
  end.

Record ListEventsRequest := mk_ListEventsRequest {
  lr_Parent : octets;
  lr_PageSize : Z;
  lr_PageToken : octets;
  lr_Filter : octets;
  lr_OrderBy : octets
}.

Definition pageSize (s : EventService) (requested : Z) : code + Z :=
  if decide (requested < 0) then inl InvalidArgument
  else if decide (requested = 0) then inr (es_defaultPageSize s)
  else if decide (requested > es_maxPageSize s) then inr (es_maxPageSize s)
  else inr requested.

Definition checkUnsupported (req : ListEventsRequest) : option code :=
  if decide (lr_Filter req <> []) then Some Unimplemented
  else if decide (lr_OrderBy req <> [] /\ lr_OrderBy req <> defaultOrderBy) then Some Unimplemented
  else None.

Definition ListEvents (s : EventService) (ctx : option store_error) (req : ListEventsRequest) : code + Page :=
  match ParseParent (lr_Parent req) with
  | inl e => inl (statusError e)
  | inr _ =>
      match checkUnsupported req with
      | Some c => inl c
      | None =>
          match pageSize s (lr_PageSize req) with
          | inl c => inl c
          | inr size =>
              match List_ (es_store s) ctx (mk_Query (lr_Parent req) size (lr_PageToken req)) with
              | inl e => inl (statusError e)
              | inr page => inr page
              end
          end
      end
  end.

End store.

Arguments ev_Name {R}. Arguments ev_EventTime {R}. Arguments ev_CreateTime {R}. Arguments ev_Rest {R}.
Arguments mk_Event {R}. Arguments mk_entry {R}. Arguments en_seq {R}. Arguments en_device {R}. Arguments en_ev {R}.
Arguments mk_MemoryStore {R}. Arguments ms_ring {R}. Arguments ms_next {R}. Arguments ms_count {R}.
Arguments ms_seq {R}. Arguments ms_byName {R}. Arguments NewMemoryStore {R}. Arguments Cap {R}. Arguments Len {R}.
Arguments Append {R}. Arguments Get {R}. Arguments at_ {R}. Arguments page_loop {R}. Arguments page {R}.
Arguments List_ {R}. Arguments mk_Page {R}. Arguments pg_Events {R}. Arguments pg_NextPageToken {R}.
