(* ===== verification/StoreFacts.v ===== *)
(** * The event store's promises

    The names and page tokens of Store.v read back as they were made; the ring is
    the last events of an unbounded log, and each operation is the one the log
    defines; a client that follows the page tokens while the panel goes on writing
    sees every event it was due, once, newest first. *)

From S2P Require Import Prelude Store.

(** ** Resource names *)

Lemma Split_app s t sep : ~ In sep s -> Split (s ++ sep :: t) sep = s :: Split t sep.
Proof.
  induction s as [|c s IH]; intros Hn; cbn [app Split].
  - by rewrite decide_True.
  - rewrite decide_False by (intros ->; apply Hn; by left). by rewrite IH by (intros ?; apply Hn; by right).
Qed.

Lemma Split_none s sep : ~ In sep s -> Split s sep = [s].
Proof.
  induction s as [|c s IH]; intros Hn; [done|]. cbn [Split].
  rewrite decide_False by (intros ->; apply Hn; by left). by rewrite IH by (intros ?; apply Hn; by right).
Qed.

Lemma Split_cons c s sep : exists part parts, Split s sep = part :: parts /\
  Split (c :: s) sep = if decide (c = sep) then [] :: part :: parts else (c :: part) :: parts.
Proof.
  assert (H : exists part parts, Split s sep = part :: parts).
  { destruct s as [|x s]; cbn [Split]; [by eexists _, _|]. case_decide; [by eexists _, _|].
    destruct (Split s sep); by eexists _, _. }
  destruct H as (part & parts & E). exists part, parts. split; [done|]. cbn [Split]. by rewrite E.
Qed.

(** [strings.Join] puts the parts together again, and no part holds the octet. *)
Fixpoint Join (parts : list octets) (sep : Z) : octets :=
  match parts with
  | [] => []
  | [p] => p
  | p :: parts => p ++ sep :: Join parts sep
  end.

Lemma Split_Join s sep : Join (Split s sep) sep = s /\ Forall (fun p => ~ In sep p) (Split s sep).
Proof.
  induction s as [|c s [IH1 IH2]]; [split; [done|by repeat constructor; auto]|].
  destruct (Split_cons c s sep) as (part & parts & E & ->). rewrite E in IH1, IH2. case_decide as Hc.
  - subst c. split; [change (sep :: Join (part :: parts) sep = sep :: s); by rewrite IH1|].
    apply Forall_cons. split; [by intros []|done].
  - apply Forall_cons in IH2 as [H1 H2]. split.
    + destruct parts; simpl in *; by rewrite <- IH1.
    + apply Forall_cons. split; [|done]. intros [->|?]; [done|by apply H1].
Qed.

Definition segment (s : octets) : Prop := validSegment s = true /\ ~ In slash s.

Lemma not_in_check (l : octets) : forallb (fun x => negb (x =? slash)) l = true -> ~ In slash l.
Proof. intros H Hin. rewrite forallb_forall in H. by specialize (H _ Hin). Qed.

Lemma ParseEventName_EventName d e : segment d -> segment e -> ParseEventName (EventName d e) = inr (d, e).
Proof.
  intros [Hd Hds] [He Hes]. unfold ParseEventName.
  change (EventName d e) with (devicesCollection ++ slash :: d ++ slash :: eventsCollection ++ slash :: e).
  rewrite (Split_app devicesCollection) by (by apply not_in_check). rewrite (Split_app d) by done. rewrite (Split_app eventsCollection) by (by apply not_in_check).
  rewrite Split_none by done. by rewrite Hd, He.
Qed.

Lemma ParseEventName_inv n d e : ParseEventName n = inr (d, e) -> n = EventName d e /\ segment d /\ segment e.
Proof.
  unfold ParseEventName. destruct (Split_Join n slash) as [Hj Hp].
  destruct (Split n slash) as [|p0 [|p1 [|p2 [|p3 [|]]]]]; try done.
  destruct (bool_decide (p0 <> _)) eqn:E0; [done|]. destruct (bool_decide (p2 <> _)) eqn:E2; [done|].
  destruct (validSegment p1) eqn:E1; [|done]. destruct (validSegment p3) eqn:E3; [|done].
  intros [= -> ->]. apply bool_decide_eq_false in E0, E2. apply dec_stable in E0, E2. subst p0 p2.
  repeat (apply Forall_cons in Hp as [? Hp]). split; [by rewrite <- Hj|]. by split.
Qed.

Lemma ParseParent_inv p d : ParseParent p = inr d -> p = DeviceName d /\ ~ In slash d /\ d <> [].
Proof.
  unfold ParseParent. destruct (Split_Join p slash) as [Hj Hp].
  destruct (Split p slash) as [|p0 [|p1 [|]]]; try done.
  destruct (bool_decide (p0 <> _)) eqn:E0; [done|]. destruct (bool_decide (p1 = [])) eqn:E1; [done|].
  apply bool_decide_eq_false in E0, E1. apply dec_stable in E0. subst p0.
  cbn [orb]. destruct (_ && _); [done|]. intros [= ->]. repeat (apply Forall_cons in Hp as [? Hp]). split; [by rewrite <- Hj|done].
Qed.

Lemma ParseParent_DeviceName d : ~ In slash d -> d <> [] -> ParseParent (DeviceName d) = inr d.
Proof.
  intros Hs Hd. unfold ParseParent. change (DeviceName d) with (devicesCollection ++ slash :: d). rewrite (Split_app devicesCollection) by (by apply not_in_check).
  rewrite Split_none by done. rewrite bool_decide_false by (by intros ?). rewrite bool_decide_false by done. simpl orb.
  cbv iota. destruct (decide (d = Wildcard)) as [->|Hw]; [done|]. unfold validSegment.
  rewrite (bool_decide_true (d <> Wildcard)), (bool_decide_true (d <> [])) by done. done.
Qed.

(** ** Page tokens *)

Lemma b64_value_char x : 0 <= x < 64 -> b64_value (b64_char x) = Some x /\ b64_char x <> 10 /\ b64_char x <> 13.
Proof.
  intros Hx. assert (Hc : forallb (fun x => bool_decide (b64_value (b64_char x) = Some x /\ b64_char x <> 10 /\ b64_char x <> 13))
    (seqZ 0 64) = true) by (vm_compute; reflexivity).
  rewrite forallb_forall in Hc. eapply bool_decide_eq_true_1, Hc. apply list_elem_of_In, elem_of_seqZ. lia.
Qed.

(** The values of six bits behind the characters. *)
Fixpoint sextets (b : octets) : list Z :=
  match b with
  | x :: y :: z :: b => x / 4 :: x mod 4 * 16 + y / 16 :: y mod 16 * 4 + z / 64 :: z mod 64 :: sextets b
  | [x; y] => [x / 4; x mod 4 * 16 + y / 16; y mod 16 * 4]
  | [x] => [x / 4; x mod 4 * 16]
  | [] => []
  end.

Lemma list_triple_ind (P : octets -> Prop) : P [] -> (forall x, P [x]) -> (forall x y, P [x; y]) ->
  (forall x y z l, P l -> P (x :: y :: z :: l)) -> forall l, P l.
Proof.
  intros H0 H1 H2 H3 l. enough (P l /\ (forall x, P (x :: l)) /\ (forall x y, P (x :: y :: l))) by tauto.
  induction l as [|a l (I1 & I2 & I3)]; [auto|]. split_and!; auto.
Qed.

(** Lists of six- or eight-bit values, value by value. *)
Ltac values := repeat match goal with
  | |- ?x = ?x => reflexivity
  | |- _ :: _ = _ :: _ => apply f_equal2
  | |- b64_char _ = b64_char _ => apply f_equal
  | |- Some _ = Some _ => apply f_equal
  end; Z.to_euclidean_division_equations; lia.

Lemma land63 v : Z.land v 63 = v mod 64.
Proof. change 63 with (Z.ones 6). by rewrite Z.land_ones. Qed.

Lemma EncodeToString_sextets b : octets_ok b -> EncodeToString b = map b64_char (sextets b).
Proof.
  induction b as [|x|x y|x y z l IH] using list_triple_ind; intros Hb; cbn [EncodeToString sextets map]; cbv zeta;
    rewrite ?Z.shiftl_mul_pow2, ?Z.shiftr_div_pow2, ?land63 by done.
  - done.
  - apply Forall_cons in Hb as [Hx _]. unfold octet_ok in Hx. values.
  - apply Forall_cons in Hb as [Hx [Hy _]%Forall_cons]. unfold octet_ok in *.
    values.
  - apply Forall_cons in Hb as [Hx [Hy [Hz Hl]%Forall_cons]%Forall_cons]. unfold octet_ok in *. rewrite IH by done.
    values.
Qed.

Lemma sextets_ok b : octets_ok b -> Forall (fun x => 0 <= x < 64) (sextets b).
Proof.
  induction b as [|x|x y|x y z l IH] using list_triple_ind; intros Hb; cbn [sextets].
  - by apply Forall_nil.
  - apply Forall_cons in Hb as [Hx _]. unfold octet_ok in Hx.
    repeat (apply Forall_cons; split; [Z.to_euclidean_division_equations; lia|]). by apply Forall_nil.
  - apply Forall_cons in Hb as [Hx [Hy _]%Forall_cons]. unfold octet_ok in *.
    repeat (apply Forall_cons; split; [Z.to_euclidean_division_equations; lia|]). by apply Forall_nil.
  - apply Forall_cons in Hb as [Hx [Hy [Hz Hl]%Forall_cons]%Forall_cons]. unfold octet_ok in *.
    repeat (apply Forall_cons; split; [Z.to_euclidean_division_equations; lia|]). by apply IH.
Qed.

Lemma b64_join_sextets b : octets_ok b -> b64_join (sextets b) = Some b.
Proof.
  induction b as [|x|x y|x y z l IH] using list_triple_ind; intros Hb; cbn [sextets b64_join]; cbv zeta; unfold u8;
    rewrite ?Z.shiftl_mul_pow2, ?Z.shiftr_div_pow2 by done.
  - done.
  - apply Forall_cons in Hb as [Hx _]. unfold octet_ok in Hx. values.
  - apply Forall_cons in Hb as [Hx [Hy _]%Forall_cons]. unfold octet_ok in *.
    values.
  - apply Forall_cons in Hb as [Hx [Hy [Hz Hl]%Forall_cons]%Forall_cons]. unfold octet_ok in *. rewrite IH by done.
    cbn [mbind option_bind]. values.
Qed.

Lemma DecodeString_Encode b : octets_ok b -> DecodeString (EncodeToString b) = Some b.
Proof.
  intros Hb. rewrite EncodeToString_sextets by done. unfold DecodeString. pose proof (sextets_ok b Hb) as Hs.
  assert (Hd : mapM b64_value (filter (fun c => c <> 10 /\ c <> 13) (map b64_char (sextets b))) = Some (sextets b)).
  { induction Hs as [|x l Hx Hl IH]; [done|]. cbn [map]. destruct (b64_value_char x Hx) as (E & H1 & H2).
    rewrite filter_cons_True by done. cbn [mapM]. rewrite E. cbn. by rewrite IH. }
  rewrite Hd. cbn. by apply b64_join_sextets.
Qed.

(** [digits] writes what [parse_digits] reads. *)
Lemma parse_digits_digits fuel n acc : 0 <= n <= maxUint64 -> n < 10 ^ Z.of_nat fuel ->
  parse_digits 0 (digits fuel n acc) = parse_digits n acc.
Proof.
  revert n acc. induction fuel as [|fuel IH]; intros n acc Hn Hf.
  { simpl in Hf. assert (n = 0) as -> by lia. done. }
  cbn [digits]. case_decide as H10.
  - cbn [parse_digits]. rewrite decide_True by lia. rewrite decide_False by (intros Hx; by vm_compute in Hx). cbv zeta.
    replace (0 * 10 + (48 + n - 48)) with n by lia. by rewrite decide_False by lia.
  - rewrite IH; [|Z.to_euclidean_division_equations; lia|].
    2:{ rewrite Nat2Z.inj_succ, Z.pow_succ_r in Hf by lia. apply Z.div_lt_upper_bound; lia. }
    cbn [parse_digits]. pose proof (Z.mod_pos_bound n 10 ltac:(lia)). rewrite decide_True by lia.
    assert (Hc : n / 10 <= maxUint64 / 10) by (apply Z.div_le_mono; lia).
    rewrite decide_False by lia. cbv zeta.
    replace (n / 10 * 10 + (48 + n mod 10 - 48)) with n by (Z.to_euclidean_division_equations; lia).
    by rewrite decide_False by lia.
Qed.

Lemma digits_spec fuel n acc : 0 <= n -> Forall (fun c => 48 <= c <= 57) acc ->
  Forall (fun c => 48 <= c <= 57) (digits fuel n acc) /\ (fuel <> O -> digits fuel n acc <> []).
Proof.
  revert n acc. induction fuel as [|fuel IH]; intros n acc Hn Ha; [done|]. cbn [digits]. case_decide.
  - split; [apply Forall_cons; split; [lia|done]|done].
  - assert (Hd : Forall (fun c => 48 <= c <= 57) (48 + n mod 10 :: acc)).
    { apply Forall_cons. split; [|done]. pose proof (Z.mod_pos_bound n 10 ltac:(lia)). lia. }
    destruct (IH (n / 10) (48 + n mod 10 :: acc)) as [H1 H2]; [apply Z.div_pos; lia|done|].
    split; [done|]. intros _. destruct fuel; [done|by apply H2].
Qed.

Lemma ParseUint_FormatUint n : 0 <= n <= maxUint64 -> ParseUint (FormatUint n) = Some n.
Proof.
  intros Hn. unfold FormatUint. destruct (digits_spec 20 n []) as [_ Hne]; [lia|by apply Forall_nil|].
  unfold ParseUint. pose proof (parse_digits_digits 20 n [] Hn) as Hp.
  destruct (digits 20 n []) as [|c l]; [by destruct (Hne ltac:(done))|]. apply Hp. unfold maxUint64 in Hn. lia.
Qed.

Lemma split_last_spec l r : Forall (fun c => c <> 0) r -> split_last (l ++ 0 :: r) = Some (l, r).
Proof.
  intros Hr. assert (Hn : split_last r = None).
  { induction Hr as [|c r Hc Hr IH]; [done|]. cbn [split_last]. by rewrite IH, decide_False. }
  induction l as [|c l IH]; cbn [app split_last]; [by rewrite Hn, decide_True|by rewrite IH].
Qed.

(** A page token opens under the parent it was made for, and no other. *)
Lemma decodeCursor_encodeCursor parent parent' seq : octets_ok parent -> 0 <= seq <= maxUint64 ->
  decodeCursor (encodeCursor parent seq) parent' = if decide (parent = parent') then inr seq else inl ErrInvalidPageToken.
Proof.
  intros Hp Hs. unfold decodeCursor, encodeCursor. destruct (digits_spec 20 seq []) as [Hd _]; [lia|by apply Forall_nil|].
  rewrite DecodeString_Encode.
  2:{ apply Forall_app. split; [done|]. apply Forall_app. split; [by repeat constructor|].
      eapply Forall_impl; [exact Hd|]. intros c Hc. unfold octet_ok in *. cbv beta in *. lia. }
  change (parent ++ cursorSeparator ++ FormatUint seq) with (parent ++ 0 :: FormatUint seq).
  rewrite split_last_spec by (eapply Forall_impl; [exact Hd|]; intros c Hc; cbv beta in *; lia).
  repeat case_decide; try done. by rewrite ParseUint_FormatUint.
Qed.

Lemma encodeCursor_nonempty parent seq : encodeCursor parent seq <> [].
Proof.
  unfold encodeCursor. assert (Hne : parent ++ cursorSeparator ++ FormatUint seq <> []) by (by destruct parent).
  destruct (parent ++ _) as [|x [|y [|z l]]]; done.
Qed.

(** ** Event identifiers *)

Lemma hex_digit_inj x y : 0 <= x < 16 -> 0 <= y < 16 -> hex_digit x = hex_digit y -> x = y.
Proof. unfold hex_digit. repeat case_decide; lia. Qed.

Lemma nibble_bound x k : 0 <= Z.land (Z.shiftr x k) 15 < 16.
Proof. change 15 with (Z.ones 4). rewrite Z.land_ones by lia. apply Z.mod_pos_bound. lia. Qed.

Lemma hex16_inj a b : 0 <= a < 2 ^ 64 -> 0 <= b < 2 ^ 64 -> hex16 a = hex16 b -> a = b.
Proof.
  intros Ha Hb E. apply Z.bits_inj'. intros n Hn. destruct (decide (n < 64)) as [Hlt|Hge].
  2:{ assert (Hh : forall x, 0 <= x < 2 ^ 64 -> Z.testbit x n = false).
      { intros x Hx. rewrite <- (Z.mod_small x (2 ^ 64) Hx). apply Z.mod_pow2_bits_high. lia. }
      by rewrite !Hh. }
  set (i := Z.to_nat (15 - n / 4)).
  assert (Hi : (i < 16)%nat) by (unfold i; Z.to_euclidean_division_equations; lia).
  assert (El : forall x, hex16 x !! i = Some (hex_digit (Z.land (Z.shiftr x (4 * (n / 4))) 15))).
  { intros x. unfold hex16. rewrite list_lookup_fmap. rewrite (lookup_seq_lt 0 16 i Hi). cbn.
    do 4 f_equal. unfold i. Z.to_euclidean_division_equations; lia. }
  pose proof (f_equal (fun l => l !! i) E) as Ei. cbv beta in Ei. rewrite !El in Ei. injection Ei as Ei.
  apply hex_digit_inj in Ei; [|apply nibble_bound..]. apply (f_equal (fun v => Z.testbit v (n mod 4))) in Ei.
  pose proof (Z.mod_pos_bound n 4 ltac:(lia)).
  rewrite !Z.land_spec, !Z.shiftr_spec in Ei by lia.
  replace (n mod 4 + 4 * (n / 4)) with n in Ei by (Z.to_euclidean_division_equations; lia).
  assert (Ht : Z.testbit 15 (n mod 4) = true).
  { change 15 with (Z.ones 4). apply Z.ones_spec_low. lia. }
  by rewrite Ht, !andb_true_r in Ei.
Qed.

Lemma hex16_segment a : segment (hex16 a).
Proof.
  split. { unfold validSegment, hex16. cbn [seq map]. by rewrite !bool_decide_eq_true_2. }
  unfold hex16, slash. intros (x & E & _)%in_map_iff.
  pose proof (nibble_bound a (4 * (15 - Z.of_nat x))) as Hn. revert E Hn. unfold hex_digit. case_decide; lia.
Qed.

(** ** Binary search *)

Lemma Search_spec (f : Z -> option bool) n : 0 <= n ->
  (forall i, 0 <= i < n -> is_Some (f i)) ->
  (forall i j, 0 <= i <= j -> j < n -> f i = Some true -> f j = Some true) ->
  exists k, Search n f = Some k /\ 0 <= k <= n /\
    (forall i, 0 <= i < k -> f i = Some false) /\ (forall i, k <= i < n -> f i = Some true).
Proof.
  intros Hn Htot Hmono. unfold Search.
  enough (Hloop : forall fuel i j, 0 <= i <= j -> j <= n -> j - i <= Z.of_nat fuel ->
    (forall x, 0 <= x < i -> f x = Some false) -> (forall x, j <= x < n -> f x = Some true) ->
    exists k, Search_loop fuel f i j = Some k /\ i <= k <= j /\
      (forall x, 0 <= x < k -> f x = Some false) /\ (forall x, k <= x < n -> f x = Some true)).
  { destruct (Hloop (Z.to_nat n) 0 n) as (k & E & Hk & H1 & H2); try lia. by exists k. }
  intros fuel. induction fuel as [|fuel IH]; intros i j Hi Hj Hf Hlo Hhi; cbn [Search_loop]; case_decide as Hij.
  - lia.
  - exists i. split_and!; try done; try lia. intros x Hx. apply Hhi. lia.
  - cbv zeta. rewrite Z.shiftr_div_pow2 by done. change (2 ^ 1) with 2. set (h := (i + j) / 2).
    assert (Hh : i <= h < j) by (unfold h; Z.to_euclidean_division_equations; lia).
    destruct (Htot h) as [[] E]; [lia|..]; rewrite E.
    + destruct (IH i h) as (k & E' & Hk & H1 & H2); try lia; try done.
      { intros x Hx. apply (Hmono h x); [lia|lia|done]. }
      exists k. split_and!; try done; lia.
    + destruct (IH (h + 1) j) as (k & E' & Hk & H1 & H2); try lia; try done.
      { intros x Hx. destruct (f x) as [[]|] eqn:Ex; [|done|].
        - rewrite (Hmono x h) in E; [done|lia|lia|done].
        - destruct (Htot x) as [? ?]; [lia|congruence]. }
      exists k. split_and!; try done; lia.
  - exists i. split_and!; try done; try lia. intros x Hx. apply Hhi. lia.
Qed.

(** ** The ring *)

Lemma rem_twice a n : 0 < n -> - n <= a < n -> Z.rem (Z.rem a n + n) n = a mod n.
Proof.
  intros Hn Ha. destruct (decide (0 <= a)) as [H0|H0].
  - rewrite (Z.rem_small a n) by lia. rewrite Z.rem_mod_nonneg by lia.
    replace (a + n) with (a + 1 * n) by lia. by rewrite Z_mod_plus_full.
  - destruct (decide (a = - n)) as [->|Hne].
    + rewrite Z.rem_opp_l, Z.rem_same by lia. rewrite Z.rem_mod_nonneg by lia.
      replace (- n) with ((-1) * n) by lia. rewrite Z_mod_mult. simpl. by rewrite Z_mod_same_full.
    + rewrite <- (Z.opp_involutive a), Z.rem_opp_l, (Z.rem_small (- a) n) by lia.
      rewrite Z.rem_mod_nonneg by lia. replace (- - a) with (- - a + n + (-1) * n) at 2 by lia.
      by rewrite Z_mod_plus_full.
Qed.
