(* ===== verification/StoreLaws.v ===== *)
(** * The store against its log

    What memory.go promises, said without a ring: the log of every event ever
    appended, of which the store answers for the last [cap]. [store_refines] shows the
    ring, the index by name and the binary search give the log's answers, and
    [paging_stable] what a client following page tokens sees while the bus runs. *)

From S2P Require Import Prelude Store StoreFacts.

Section laws.
Context {R : Type}.
Implicit Types (s : MemoryStore R) (log : list (entry R)) (e : entry R).

(** ** The abstract store *)

(** The entries still held: the newest [cap]. *)
Definition held (cap : nat) log : list (entry R) := drop (length log - cap) log.

Definition stamped (device : octets) (seq now : Z) (ev : Event R) : Event R :=
  mk_Event (EventName device (hex16 seq)) (match ev_EventTime ev with None => Some now | t => t end) (Some now) (ev_Rest ev).

Definition log_append log (ctx : option store_error) (now : Z) (parent : octets) (ev : option (Event R)) :
    list (entry R) * res (Event R) :=
  match ctx, ParseParent parent, ev with
  | Some e, _, _ | None, inl e, _ => (log, inl e)
  | None, inr device, None => (log, inl (if decide (device = Wildcard) then ErrInvalidParent else ErrNilEvent))
  | None, inr device, Some ev =>
      if decide (device = Wildcard) then (log, inl ErrInvalidParent)
      else let stored := stamped device (len log) now ev in
           (log ++ [mk_entry (len log) device stored], inr stored)
  end.

Definition log_get (cap : nat) log (ctx : option store_error) (name : octets) : res (Event R) :=
  match ctx, ParseEventName name with
  | Some e, _ | None, inl e => inl e
  | None, inr _ =>
      match filter (fun e => ev_Name (en_ev e) = name) (held cap log) with
      | e :: _ => inr (en_ev e)
      | [] => inl ErrNotFound
      end
  end.

(** The events of [device] below [upper], newest first. *)
Definition below (device : octets) (upper : Z) e : Prop := en_seq e < upper /\ (device = Wildcard \/ en_device e = device).
#[export] Instance below_dec device upper e : Decision (below device upper e).
Proof. unfold below. apply _. Defined.
Definition matching (device : octets) (upper : Z) (l : list (entry R)) : list (entry R) :=
  filter (below device upper) (reverse l).

(** One page of them, and the token for the rest when there is a rest. *)
Definition cut (parent : octets) (size : nat) (l : list (entry R)) : Page R :=
  mk_Page (map en_ev (take size l))
    (if decide (size < length l)%nat then
       match last (take size l) with Some e => encodeCursor parent (en_seq e) | None => [] end
     else []).

(** The exclusive bound a token carries. *)
Definition bound_of (parent token : octets) : res Z :=
  if decide (token = []) then inr maxUint64 else decodeCursor token parent.

Definition log_list (cap : nat) log (ctx : option store_error) (q : Query) : res (Page R) :=
  match ctx, ParseParent (qu_Parent q) with
  | Some e, _ | None, inl e => inl e
  | None, inr device =>
      match bound_of (qu_Parent q) (qu_PageToken q) with
      | inl e => inl e
      | inr upper => inr (cut (qu_Parent q) (Z.to_nat (pageSizeOf q)) (matching device upper (held cap log)))
      end
  end.

(** ** The representation *)

Definition named log : Prop := forall i e, log !! i = Some e ->
  en_seq e = Z.of_nat i /\ ev_Name (en_ev e) = EventName (en_device e) (hex16 (en_seq e)) /\ segment (en_device e).

Record refines (cap : nat) s log : Prop := mk_refines {
  rf_cap : (0 < cap)%nat;
  rf_bound : len log <= maxUint64;
  rf_len : length (ms_ring s) = cap;
  rf_next : ms_next s = len log mod Z.of_nat cap;
  rf_count : ms_count s = Z.min (len log) (Z.of_nat cap);
  rf_seq : ms_seq s = len log;
  rf_ring : forall i e, (length log - cap <= i)%nat -> log !! i = Some e -> ms_ring s !! (i `mod` cap)%nat = Some (Some e);
  rf_byName : forall name e, ms_byName s !! name = Some e <->
    exists i, (length log - cap <= i)%nat /\ log !! i = Some e /\ ev_Name (en_ev e) = name;
  rf_named : named log
}.

Lemma named_inj log i j e e' : len log <= maxUint64 -> named log -> log !! i = Some e -> log !! j = Some e' ->
  ev_Name (en_ev e) = ev_Name (en_ev e') -> i = j.
Proof.
  intros Hb Hn Hi Hj E. pose proof (lookup_lt_Some _ _ _ Hi). pose proof (lookup_lt_Some _ _ _ Hj).
  destruct (Hn _ _ Hi) as (Hs & En & Hd), (Hn _ _ Hj) as (Hs' & En' & Hd').
  pose proof (f_equal ParseEventName E) as E'. rewrite En, En' in E'.
  rewrite !ParseEventName_EventName in E' by (done || apply hex16_segment).
  assert (Eh : hex16 (en_seq e) = hex16 (en_seq e')) by congruence.
  unfold len, maxUint64 in Hb. apply hex16_inj in Eh; lia.
Qed.

Lemma NewMemoryStore_refines capacity s : NewMemoryStore capacity = inr s -> refines (Z.to_nat capacity) s [].
Proof.
  unfold NewMemoryStore. case_decide; [done|]. intros [= <-].
  split; cbn; try done; try lia.
  - by rewrite length_replicate.
  - unfold len. simpl. lia.
  - intros name e. split; [by rewrite lookup_empty|]. intros (i & _ & E & _). done.
Qed.

(** Logical position [i] of those held is the log's, counted from the oldest held. *)
Lemma at_held cap s log i : refines cap s log -> 0 <= i < ms_count s -> at_ s i = held cap log !! Z.to_nat i.
Proof.
  intros H Hi. pose proof (rf_cap _ _ _ H). pose proof (rf_count _ _ _ H) as Hc. unfold len in *.
  unfold at_, held, len. rewrite (rf_len _ _ _ H), (rf_next _ _ _ H). unfold len.
  set (L := length log) in *. set (n := Z.of_nat cap) in *.
  pose proof (Z.mod_pos_bound (Z.of_nat L) n ltac:(lia)).
  rewrite rem_twice by lia. rewrite lookup_drop.
  destruct (lookup_lt_is_Some_2 log (L - cap + Z.to_nat i)%nat) as [e E]; [lia|]. rewrite E.
  replace (Z.to_nat _) with ((L - cap + Z.to_nat i) `mod` cap)%nat.
  { rewrite (rf_ring _ _ _ H (L - cap + Z.to_nat i) e); [done|unfold L; lia|done]. }
  apply Nat2Z.inj. rewrite Nat2Z.inj_mod, Z2Nat.id by (apply Z.mod_pos_bound; lia).
  replace (Z.of_nat (L - cap + Z.to_nat i)) with (Z.of_nat L + (i - ms_count s)) by lia.
  replace (_ - ms_count s + i) with (Z.of_nat L mod n + (i - ms_count s)) by lia. by rewrite Zplus_mod_idemp_l.
Qed.

Lemma length_held cap log : length (held cap log) = Nat.min (length log) cap.
Proof. unfold held. rewrite length_drop. lia. Qed.

Lemma held_lookup cap log i e : held cap log !! i = Some e -> named log -> en_seq e = Z.of_nat (length log - cap + i).
Proof. unfold held. rewrite lookup_drop. intros E Hn. apply (Hn _ _ E). Qed.

Lemma mod_ne_close (cap i j : nat) : (i < j)%nat -> (j < i + cap)%nat -> (i `mod` cap <> j `mod` cap)%nat.
Proof.
  intros H1 H2 E. assert (Hz : Z.of_nat i mod Z.of_nat cap = Z.of_nat j mod Z.of_nat cap) by (by rewrite <- !Nat2Z.inj_mod, E).
  pose proof (Z.div_mod (Z.of_nat i) (Z.of_nat cap) ltac:(lia)). pose proof (Z.div_mod (Z.of_nat j) (Z.of_nat cap) ltac:(lia)).
  rewrite Hz in *. set (q := Z.of_nat i / _) in *. set (q' := Z.of_nat j / _) in *.
  destruct (Z.lt_ge_cases q q'); nia.
Qed.

(** ** Append *)

(** The state once the entry is stored. *)
Definition put s (byName : gmap octets (entry R)) (count : Z) e : MemoryStore R :=
  mk_MemoryStore (<[Z.to_nat (ms_next s) := Some e]> (ms_ring s)) ((ms_next s + 1) mod len (ms_ring s)) count
    ((ms_seq s + 1) mod 2 ^ 64) (<[ev_Name (en_ev e) := e]> byName).

Lemma put_refines cap s log byName count e : refines cap s log -> len log < maxUint64 ->
  en_seq e = len log -> ev_Name (en_ev e) = EventName (en_device e) (hex16 (en_seq e)) -> segment (en_device e) ->
  count = Z.min (len log + 1) (Z.of_nat cap) ->
  (forall name e, byName !! name = Some e <->
     exists i, (length log + 1 - cap <= i)%nat /\ log !! i = Some e /\ ev_Name (en_ev e) = name) ->
  refines cap (put s byName count e) (log ++ [e]).
Proof.
  intros H Hb Hs En Hd Hc Hm. pose proof (rf_cap _ _ _ H). pose proof (rf_len _ _ _ H) as Hl.
  assert (Hn : named (log ++ [e])).
  { intros i x [[Hi E]|[-> ->]]%lookup_snoc_Some; [by apply (rf_named _ _ _ H)|done]. }
  assert (Hb' : len (log ++ [e]) <= maxUint64) by (unfold len in *; rewrite length_app; cbn; lia).
  assert (Hi : Z.to_nat (ms_next s) = (length log `mod` cap)%nat).
  { rewrite (rf_next _ _ _ H). unfold len. by rewrite <- Nat2Z.inj_mod, Nat2Z.id. }
  split; cbn [put ms_ring ms_next ms_count ms_seq ms_byName]; try done.
  - by rewrite length_insert.
  - rewrite (rf_next _ _ _ H). unfold len. rewrite Hl, length_app, Nat2Z.inj_add. apply Zplus_mod_idemp_l.
  - unfold len in *. rewrite length_app, Nat2Z.inj_add. done.
  - rewrite (rf_seq _ _ _ H), Z.mod_small by (unfold len, maxUint64 in *; lia). unfold len. rewrite length_app. cbn. lia.
  - intros i x Hi' E. rewrite length_app in Hi'. cbn in Hi'. rewrite Hi.
    apply lookup_snoc_Some in E as [[Hlt E]|[-> ->]].
    + rewrite list_lookup_insert_ne by (intros E'; symmetry in E'; revert E'; apply mod_ne_close; lia).
      apply (rf_ring _ _ _ H); [lia|done].
    + rewrite list_lookup_insert_eq; [done|]. rewrite Hl. apply Nat.mod_upper_bound. lia.
  - intros name x. rewrite length_app. cbn [length]. destruct (decide (ev_Name (en_ev e) = name)) as [<-|Hne].
    + rewrite lookup_insert_eq. split.
      * intros [= <-]. exists (length log). split_and!; [lia|by rewrite lookup_snoc_Some; right|done].
      * intros (i & _ & E & E').
        assert (i = length log) as ->.
        { apply (named_inj _ _ _ _ _ Hb' Hn E (proj2 (lookup_snoc_Some _ _ _ _) (or_intror (conj eq_refl eq_refl))) E'). }
        apply lookup_snoc_Some in E as [[]|[]]; [lia|congruence].
    + rewrite lookup_insert_ne by done. rewrite Hm. split; intros (i & Hi' & E & E'); exists i; split_and!; try done.
      * by apply lookup_app_l_Some.
      * apply lookup_snoc_Some in E as [[]|[_ ->]]; done.
Qed.

Lemma rf_full cap s log : refines cap s log -> bool_decide (ms_count s = len (ms_ring s)) = bool_decide (cap <= length log)%nat.
Proof.
  intros H. apply bool_decide_ext. rewrite (rf_count _ _ _ H). unfold len. rewrite (rf_len _ _ _ H). lia.
Qed.

Lemma Append_refines cap s log ctx now parent ev : refines cap s log -> len log < maxUint64 ->
  let '(s', r) := Append s ctx now parent ev in let '(log', r') := log_append log ctx now parent ev in
  r = r' /\ refines cap s' log'.
Proof.
  intros H Hb. unfold Append, log_append. destruct ctx; [done|]. destruct (ParseParent parent) as [|device] eqn:Hp; [done|].
  destruct ev as [ev|]; case_decide as Hw; try done.
  apply ParseParent_inv in Hp as (_ & Hs & Hne).
  assert (Hd : segment device) by (split; [unfold validSegment; by rewrite !bool_decide_eq_true_2|done]).
  set (stored := mk_Event _ _ _ _). set (e := mk_entry (ms_seq s) device stored).
  assert (Hst : stored = stamped device (len log) now ev) by (unfold stored, stamped; by rewrite (rf_seq _ _ _ H)).
  assert (He : e = mk_entry (len log) device (stamped device (len log) now ev)) by (unfold e; by rewrite Hst, (rf_seq _ _ _ H)).
  pose proof (rf_cap _ _ _ H). pose proof (rf_full _ _ _ H) as Hf.
  assert (Hput : forall byName count, count = Z.min (len log + 1) (Z.of_nat cap) ->
    (forall name e, byName !! name = Some e <->
       exists i, (length log + 1 - cap <= i)%nat /\ log !! i = Some e /\ ev_Name (en_ev e) = name) ->
    refines cap (put s byName count e) (log ++ [mk_entry (len log) device (stamped device (len log) now ev)])).
  { intros byName count Hc Hm. rewrite <- He. apply put_refines; try done; rewrite He; done. }
  case_decide as Hc.
  - rewrite bool_decide_eq_true_2 in Hf by done. symmetry in Hf. apply bool_decide_eq_true_1 in Hf.
    destruct (lookup_lt_is_Some_2 log (length log - cap)%nat) as [old E]; [lia|].
    assert (Hold : ms_ring s !! Z.to_nat (ms_next s) = Some (Some old)).
    { replace (Z.to_nat (ms_next s)) with ((length log - cap) `mod` cap)%nat; [by apply (rf_ring _ _ _ H)|].
      rewrite (rf_next _ _ _ H). unfold len. rewrite <- Nat2Z.inj_mod, Nat2Z.id.
      rewrite <- (Nat.Div0.mod_add (length log - cap) 1 cap). f_equal. lia. }
    rewrite Hold. split; [by rewrite Hst|]. apply Hput. { rewrite (rf_count _ _ _ H). unfold len. lia. }
    intros name x. rewrite lookup_delete_Some, (rf_byName _ _ _ H). split.
    + intros (Hne' & i & Hi & Ei & En). exists i. split_and!; try done.
      destruct (decide (i = (length log - cap)%nat)) as [->|]; [congruence|lia].
    + intros (i & Hi & Ei & En). split; [|exists i; split_and!; [lia|done..]].
      intros Eo. assert (i = (length log - cap)%nat); [|lia].
      apply (named_inj log i _ x old); [apply (rf_bound _ _ _ H)|apply (rf_named _ _ _ H)|done|done|congruence].
  - rewrite bool_decide_eq_false_2 in Hf by done. symmetry in Hf. apply bool_decide_eq_false_1 in Hf.
    split; [by rewrite Hst|]. apply Hput. { rewrite (rf_count _ _ _ H). unfold len. lia. }
    intros name x. rewrite (rf_byName _ _ _ H). split; intros (i & Hi & Ei & En); exists i; split_and!; try done; lia.
Qed.

(** ** Get *)

Lemma elem_of_held cap log e : e ∈ held cap log <-> exists i, (length log - cap <= i)%nat /\ log !! i = Some e.
Proof.
  unfold held. rewrite list_elem_of_lookup. setoid_rewrite lookup_drop. split.
  - intros [i E]. exists (length log - cap + i)%nat. split; [lia|done].
  - intros (i & Hi & E). exists (i - (length log - cap))%nat. by rewrite Nat.add_comm, Nat.sub_add.
Qed.

Lemma Get_refines cap s log ctx name : refines cap s log -> Get s ctx name = log_get cap log ctx name.
Proof.
  intros H. unfold Get, log_get. destruct ctx; [done|]. destruct (ParseEventName name); [done|].
  destruct (ms_byName s !! name) as [e|] eqn:E.
  - pose proof (proj1 (rf_byName _ _ _ H _ _) E) as (i & Hi & Ei & En).
    assert (He : e ∈ filter (fun e => ev_Name (en_ev e) = name) (held cap log)).
    { apply list_elem_of_filter. split; [done|]. apply elem_of_held. by exists i. }
    destruct (filter _ _) as [|e' l] eqn:Ef; [by apply elem_of_nil in He|].
    assert (He' : e' ∈ filter (fun e => ev_Name (en_ev e) = name) (held cap log)) by (rewrite Ef; by left).
    apply list_elem_of_filter in He' as [En' (j & Hj & Ej)%elem_of_held].
    assert (i = j) as <-; [|by rewrite Ei in Ej; injection Ej as ->].
    apply (named_inj log i j e e'); [apply (rf_bound _ _ _ H)|apply (rf_named _ _ _ H)|done|done|congruence].
  - destruct (filter _ _) as [|e l] eqn:Ef; [done|].
    assert (He : e ∈ filter (fun e => ev_Name (en_ev e) = name) (held cap log)) by (rewrite Ef; by left).
    apply list_elem_of_filter in He as [En (j & Hj & Ej)%elem_of_held].
    assert (E' : ms_byName s !! name = Some e) by (apply (rf_byName _ _ _ H); by exists j). congruence.
Qed.

(** ** List *)

Definition hit (device : octets) e : bool := bool_decide (device = Wildcard) || bool_decide (en_device e = device).

Lemma hit_iff device e : hit device e = true <-> device = Wildcard \/ en_device e = device.
Proof. unfold hit. by rewrite orb_true_iff, !bool_decide_eq_true. Qed.

(** The loop, as the filter of what lies below its start. *)
Lemma page_loop_spec cap s log device want k out : refines cap s log -> (k <= length (held cap log))%nat -> len out <= want ->
  page_loop s device want k out =
  Some (out ++ take (Z.to_nat (want - len out)) (filter (fun e => hit device e = true) (reverse (take k (held cap log))))).
Proof.
  intros H. revert out. induction k as [|k IH]; intros out Hk Hout; cbn [page_loop].
  { by rewrite take_0, reverse_nil, filter_nil, take_nil, app_nil_r. }
  case_decide as Hw.
  2:{ replace (Z.to_nat _) with 0%nat by lia. by rewrite take_0, app_nil_r. }
  destruct (lookup_lt_is_Some_2 (held cap log) k) as [e E]; [lia|].
  rewrite (at_held cap s log), Nat2Z.id, E; [|done|].
  2:{ rewrite (rf_count _ _ _ H). rewrite length_held in Hk. unfold len. lia. }
  rewrite (take_S_r _ _ _ E), reverse_app, reverse_singleton, filter_app, filter_cons, filter_nil.
  change (bool_decide (device = Wildcard) || bool_decide (en_device e = device)) with (hit device e).
  destruct (hit device e) eqn:Eh.
  - rewrite IH by (unfold len in *; rewrite ?length_app; cbn; lia). rewrite decide_True by done. rewrite <- app_assoc.
    do 2 f_equal. replace (Z.to_nat (want - len out)) with (S (Z.to_nat (want - len (out ++ [e])))); [done|].
    unfold len in *. rewrite length_app. cbn. lia.
  - rewrite IH by lia. by rewrite decide_False by done.
Qed.

Lemma page_refines cap s log device upper want : refines cap s log -> 0 <= want ->
  page s device upper want = Some (take (Z.to_nat want) (matching device upper (held cap log))).
Proof.
  intros H Hw. pose proof (rf_cap _ _ _ H). unfold page.
  assert (Hat : forall i, 0 <= i < ms_count s -> exists e, at_ s i = Some e /\ held cap log !! Z.to_nat i = Some e /\
    en_seq e = Z.of_nat (length log - cap) + i).
  { intros i Hi. rewrite (at_held cap s log) by done.
    destruct (lookup_lt_is_Some_2 (held cap log) (Z.to_nat i)) as [e E].
    { rewrite length_held. rewrite (rf_count _ _ _ H) in Hi. unfold len in Hi. lia. }
    exists e. split_and!; try done. rewrite (held_lookup _ _ _ _ E (rf_named _ _ _ H)). lia. }
  destruct (Search_spec (fun i => e ← at_ s i; Some (bool_decide (en_seq e >= upper))) (ms_count s)) as (k & E & Hk & Hlo & Hhi).
  { rewrite (rf_count _ _ _ H). unfold len. lia. }
  { intros i Hi. destruct (Hat i Hi) as (e & -> & _). by eexists. }
  { intros i j Hi Hj. destruct (Hat i) as (e & -> & _ & He); [lia|]. destruct (Hat j) as (e' & -> & _ & He'); [lia|].
    cbn. rewrite He, He'. intros [= Hd%bool_decide_eq_true_1]. f_equal. apply bool_decide_eq_true_2. lia. }
  rewrite E. assert (Hc : Z.to_nat (ms_count s) = length (held cap log)).
  { rewrite length_held, (rf_count _ _ _ H). unfold len. lia. }
  rewrite (page_loop_spec cap s log) by (done || (unfold len; cbn; lia)).
  unfold len. cbn [length app]. rewrite Z.sub_0_r. do 2 f_equal. unfold matching.
  rewrite <- (take_drop (Z.to_nat k) (held cap log)) at 2. rewrite reverse_app, filter_app.
  rewrite (filter_none (below device upper) (reverse (drop _ _))); cbn [app].
  - apply filter_agree. intros e He. rewrite elem_of_reverse, list_elem_of_lookup in He. destruct He as [i Ei]. rewrite hit_iff.
    assert (Hi : (i < Z.to_nat k)%nat) by (apply lookup_lt_Some in Ei; rewrite length_take in Ei; lia).
    rewrite lookup_take_lt in Ei by done.
    destruct (Hat (Z.of_nat i)) as (e' & Ea & Eh & _); [lia|]. rewrite Nat2Z.id in Eh. assert (e' = e) as -> by congruence.
    pose proof (Hlo (Z.of_nat i) ltac:(lia)) as Hs. rewrite Ea in Hs. cbn in Hs. injection Hs as Hs.
    apply bool_decide_eq_false_1 in Hs. unfold below. intuition lia.
  - intros e He [Hb _]. rewrite elem_of_reverse, list_elem_of_lookup in He. destruct He as [i Ei]. rewrite lookup_drop in Ei.
    pose proof (lookup_lt_Some _ _ _ Ei).
    destruct (Hat (k + Z.of_nat i)) as (e' & Ea & Eh & _); [lia|].
    replace (Z.to_nat (k + Z.of_nat i)) with (Z.to_nat k + i)%nat in Eh by lia. assert (e' = e) as -> by congruence.
    pose proof (Hhi (k + Z.of_nat i) ltac:(lia)) as Hs. rewrite Ea in Hs. cbn in Hs. injection Hs as Hs.
    apply bool_decide_eq_true_1 in Hs. lia.
Qed.

Lemma List_refines cap s log ctx q : refines cap s log -> List_ s ctx q = log_list cap log ctx q.
Proof.
  intros H. unfold List_, log_list. destruct ctx; [done|]. destruct (ParseParent (qu_Parent q)) as [|device]; [done|].
  assert (Hsz : 0 < pageSizeOf q) by (unfold pageSizeOf, DefaultPageSize, MaxPageSize; repeat case_decide; lia).
  replace (if decide (qu_PageToken q <> []) then _ else _) with
    (bound_of (qu_Parent q) (qu_PageToken q)) by (unfold bound_of; repeat case_decide; congruence).
  destruct (bound_of _ _) as [|upper]; [done|].
  rewrite (page_refines cap s log) by (done || lia). set (l := matching device upper (held cap log)).
  unfold cut. set (size := Z.to_nat (pageSizeOf q)). replace (Z.to_nat (pageSizeOf q + 1)) with (S size) by lia.
  case_decide as Hc; unfold len in Hc; rewrite length_take in Hc.
  - rewrite decide_True by lia. destruct (lookup_lt_is_Some_2 l (size - 1)%nat) as [e E]; [lia|].
    rewrite lookup_take_lt by lia. replace (Z.to_nat (pageSizeOf q - 1)) with (size - 1)%nat by lia. rewrite E.
    rewrite take_take, Nat.min_l by lia. do 2 f_equal.
    rewrite last_lookup, length_take, Nat.min_l by lia. rewrite lookup_take_lt by lia.
    replace (Init.Nat.pred size) with (size - 1)%nat by lia. by rewrite E.
  - rewrite decide_False by lia. by rewrite !take_ge by lia.
Qed.

(** ** Sequences of operations *)

Inductive op :=
  | OpAppend (ctx : option store_error) (now : Z) (parent : octets) (ev : option (Event R))
  | OpGet (ctx : option store_error) (name : octets)
  | OpList (ctx : option store_error) (q : Query).

Inductive answer :=
  | Event_answer (r : res (Event R))
  | Page_answer (r : res (Page R)).

Definition step s (o : op) : MemoryStore R * answer :=
  match o with
  | OpAppend ctx now parent ev => let '(s, r) := Append s ctx now parent ev in (s, Event_answer r)
  | OpGet ctx name => (s, Event_answer (Get s ctx name))
  | OpList ctx q => (s, Page_answer (List_ s ctx q))
  end.

Definition log_step (cap : nat) log (o : op) : list (entry R) * answer :=
  match o with
  | OpAppend ctx now parent ev => let '(log, r) := log_append log ctx now parent ev in (log, Event_answer r)
  | OpGet ctx name => (log, Event_answer (log_get cap log ctx name))
  | OpList ctx q => (log, Page_answer (log_list cap log ctx q))
  end.

Fixpoint run {A} (f : A -> op -> A * answer) (a : A) (ops : list op) : A * list answer :=
  match ops with
  | [] => (a, [])
  | o :: ops => let '(a, r) := f a o in let '(a, rs) := run f a ops in (a, r :: rs)
  end.

Lemma log_append_grows log ctx now parent ev : exists more, fst (log_append log ctx now parent ev) = log ++ more /\ len more <= 1.
Proof.
  unfold log_append, len. destruct ctx; [|destruct (ParseParent parent); [|destruct ev; [case_decide|]]]; cbn;
    (by exists []; rewrite app_nil_r) || by eexists.
Qed.

Lemma step_refines cap s log o : refines cap s log -> len log < maxUint64 ->
  snd (step s o) = snd (log_step cap log o) /\ refines cap (fst (step s o)) (fst (log_step cap log o)) /\
  exists more, fst (log_step cap log o) = log ++ more /\ len more <= 1.
Proof.
  intros H Hb. destruct o as [ctx now parent ev|ctx name|ctx q]; cbn [step log_step].
  - pose proof (Append_refines cap s log ctx now parent ev H Hb) as HA.
    pose proof (log_append_grows log ctx now parent ev) as HG.
    destruct (Append _ _ _ _ _), (log_append _ _ _ _ _). destruct HA as [-> HA]. done.
  - cbn. rewrite (Get_refines cap s log) by done. split_and!; try done. exists []. by rewrite app_nil_r.
  - cbn. rewrite (List_refines cap s log) by done. split_and!; try done. exists []. by rewrite app_nil_r.
Qed.

Lemma run_refines cap s log ops : refines cap s log -> len log + len ops <= maxUint64 ->
  snd (run step s ops) = snd (run (log_step cap) log ops) /\
  refines cap (fst (run step s ops)) (fst (run (log_step cap) log ops)) /\
  exists more, fst (run (log_step cap) log ops) = log ++ more /\ len more <= len ops.
Proof.
  revert s log. induction ops as [|o ops IH]; intros s log H Hb; cbn [run].
  { split_and!; try done. exists []. by rewrite app_nil_r. }
  destruct (step_refines cap s log o H) as (Ea & Hs & more & Em & Hm); [unfold len in *; cbn in *; lia|].
  destruct (step s o) as [s1 a], (log_step cap log o) as [log1 a']. cbn [fst snd] in *. subst a' log1.
  destruct (IH s1 (log ++ more) Hs) as (Er & Hr & more' & Em' & Hm'); [unfold len in *; rewrite length_app; cbn in *; lia|].
  destruct (run step s1 ops), (run _ (log ++ more) ops). cbn [fst snd] in *. split_and!; [by f_equal|done|].
  exists (more ++ more'). unfold len in *. rewrite length_app, app_assoc. cbn. split; [done|lia].
Qed.

(** C15. Every Append, Get and List of a store answers as the log of all appended
    events does, of which it keeps the last [capacity]: identifiers, not-found and
    page boundaries included. The ring never indexes outside itself. *)
Theorem store_refines capacity s ops : NewMemoryStore capacity = inr s -> len ops <= maxUint64 ->
  snd (run step s ops) = snd (run (log_step (Z.to_nat capacity)) [] ops).
Proof. intros H Hb. by apply run_refines; [apply NewMemoryStore_refines|]. Qed.

(** ** Following page tokens *)

Lemma matching_snoc device u log e : matching device u (log ++ [e]) =
  (if decide (below device u e) then [e] else []) ++ matching device u log.
Proof. unfold matching. rewrite reverse_snoc, filter_cons. by case_decide. Qed.

Lemma named_snoc log e : named (log ++ [e]) -> named log /\ en_seq e = len log.
Proof.
  intros Hn. split; [intros i x E; apply Hn; by apply lookup_app_l_Some|].
  apply (Hn (length log)). apply lookup_snoc_Some. by right.
Qed.

Lemma elem_of_matching device u log e : e ∈ matching device u log <-> below device u e /\ e ∈ log.
Proof. unfold matching. by rewrite list_elem_of_filter, elem_of_reverse. Qed.

Lemma named_seq log e : named log -> e ∈ log -> en_seq e < len log.
Proof.
  intros Hn (i & Ei)%list_elem_of_lookup. pose proof (lookup_lt_Some _ _ _ Ei). destruct (Hn _ _ Ei) as [-> _]. unfold len. lia.
Qed.

(** What is appended later lies above every token already cut. *)
Lemma matching_stable device u log more : named (log ++ more) -> u <= len log ->
  matching device u (log ++ more) = matching device u log.
Proof.
  induction more as [|e more IH] using rev_ind; intros Hn Hu; [by rewrite app_nil_r|].
  rewrite app_assoc in *. apply named_snoc in Hn as [Hn He]. rewrite matching_snoc, decide_False; [by apply IH|].
  unfold below, len in *. rewrite length_app in He. lia.
Qed.

(** The events below one of the list are those after it. *)
Lemma matching_after device u log a e b : named log -> matching device u log = a ++ e :: b -> matching device (en_seq e) log = b.
Proof.
  revert a. induction log as [|x log IH] using rev_ind; intros a Hn E; [by destruct a|].
  pose proof Hn as [Hn' Hx]%named_snoc.
  assert (He : e = x \/ e ∈ matching device u log).
  { assert (Hin : e ∈ matching device u (log ++ [x])) by (rewrite E; apply elem_of_app; right; by left).
    rewrite matching_snoc in Hin. case_decide; cbn in Hin; [|by right]. by apply elem_of_cons in Hin. }
  rewrite matching_snoc, decide_False.
  2:{ unfold below. destruct He as [->|[_ He]%elem_of_matching]; [lia|]. pose proof (named_seq log e Hn' He). lia. }
  cbn. rewrite matching_snoc in E. destruct (decide (below device u x)) as [Hb|Hb]; cbn in E.
  - destruct a as [|y a]; cbn in E; injection E as -> E; [|by apply (IH a)]. rewrite <- E, Hx. unfold matching.
    apply filter_agree. intros y Hy. rewrite elem_of_reverse in Hy. pose proof (named_seq log y Hn' Hy). unfold below in *. intuition lia.
  - by apply (IH a).
Qed.

Fixpoint crawl s (parent : octets) (size : Z) (token : octets) (bursts : list (list op)) : option (list (Event R) * MemoryStore R) :=
  match List_ s None (mk_Query parent size token) with
  | inl _ => None
  | inr pg =>
      if decide (pg_NextPageToken pg = []) then Some (pg_Events pg, s)
      else match bursts with
           | [] => None
           | b :: bursts =>
               '(evs, s) ← crawl (fst (run step s b)) parent size (pg_NextPageToken pg) bursts;
               Some (pg_Events pg ++ evs, s)
           end
  end.

Lemma evicted_not_found cap s log e : refines cap s log -> e ∈ take (length log - cap) log ->
  Get s None (ev_Name (en_ev e)) = inl ErrNotFound.
Proof.
  intros H (i & Ei)%list_elem_of_lookup. apply lookup_take_Some in Ei as [Ei Hi].
  rewrite (Get_refines cap s log) by done. unfold log_get. destruct (rf_named _ _ _ H i e Ei) as (_ & En & Hd).
  rewrite En, ParseEventName_EventName by (done || apply hex16_segment). rewrite <- En.
  rewrite filter_none; [done|]. intros x (j & Hj & Ej)%elem_of_held E.
  assert (i = j); [|lia]. apply (named_inj log i j e x); [apply (rf_bound _ _ _ H)|apply (rf_named _ _ _ H)|done..].
Qed.

Lemma matching_held cap device u log :
  matching device u log = matching device u (held cap log) ++ matching device u (take (length log - cap) log).
Proof.
  unfold matching, held. by rewrite <- filter_app, <- reverse_app, take_drop.
Qed.

(** A page with more below it ends at an entry, and the rest is what its token asks for. *)
Lemma cut_more cap parent device u size log : named log -> (0 < size < length (matching device u (held cap log)))%nat ->
  exists e a, cut parent size (matching device u (held cap log)) = mk_Page (map en_ev a) (encodeCursor parent (en_seq e)) /\
    a <> [] /\ en_seq e < len log /\ 0 <= en_seq e /\ matching device u log = a ++ matching device (en_seq e) log.
Proof.
  intros Hn Hs. set (l := matching device u (held cap log)) in *.
  destruct (lookup_lt_is_Some_2 l (size - 1)%nat) as [e E]; [lia|].
  assert (Et : take size l = take (size - 1) l ++ [e]).
  { rewrite <- (take_S_r _ _ _ E). f_equal. lia. }
  assert (El : matching device u log = take (size - 1) l ++ e :: (drop size l ++ matching device u (take (length log - cap) log))).
  { rewrite (matching_held cap). fold l. rewrite <- (take_drop size l) at 1. by rewrite Et, <- !app_assoc. }
  assert (He : e ∈ log) by (apply (elem_of_matching device u); rewrite El; apply elem_of_app; right; by left).
  pose proof (named_seq log e Hn He). apply list_elem_of_lookup in He as [i Ei]. destruct (Hn i e Ei) as [Hi _].
  exists e, (take size l). split_and!; try lia.
  - unfold cut. rewrite decide_True by lia. by rewrite Et, last_snoc.
  - rewrite Et. by destruct (take (size - 1) l).
  - rewrite El at 1. rewrite Et, <- app_assoc. cbn. do 2 f_equal. symmetry. by apply (matching_after device u log _ _ _ Hn El).
Qed.

(** What is held is found. *)
Lemma held_found cap s log e : refines cap s log -> e ∈ held cap log -> Get s None (ev_Name (en_ev e)) <> inl ErrNotFound.
Proof.
  intros H He. pose proof He as (i & Hi & Ei)%elem_of_held. destruct (rf_named _ _ _ H i e Ei) as (_ & En & Hd).
  rewrite (Get_refines cap s log) by done. unfold log_get. rewrite En at 1.
  rewrite ParseEventName_EventName by (done || apply hex16_segment).
  destruct (filter _ _) eqn:Ef; [|done]. exfalso. apply (not_elem_of_nil e). rewrite <- Ef. by apply list_elem_of_filter.
Qed.

Lemma crawl_spec cap parent device size : ParseParent parent = inr device -> octets_ok parent ->
  forall bursts s log token upper, refines cap s log -> bound_of parent token = inr upper ->
  len log + len (concat bursts) <= maxUint64 -> (length (matching device upper log) <= length bursts)%nat ->
  exists evs s' lost, crawl s parent size token bursts = Some (evs, s') /\
    map en_ev (matching device upper log) = evs ++ map en_ev lost /\
    Forall (fun e => Get s' None (ev_Name (en_ev e)) = inl ErrNotFound) lost.
Proof.
  intros Hp Hok bursts. induction bursts as [|b bursts IH]; intros s log token upper H Hu Hb Hf.
  all: cbn [crawl]; rewrite (List_refines cap s log) by done; unfold log_list; cbn [qu_Parent qu_PageToken].
  all: rewrite Hp, Hu; set (n := Z.to_nat (pageSizeOf _)); set (l := matching device upper (held cap log)).
  all: assert (Hn : (0 < n)%nat) by (unfold n, pageSizeOf, DefaultPageSize, MaxPageSize; cbn; repeat case_decide; lia).
  all: pose proof (matching_held cap device upper log) as Hl; fold l in Hl.
  all: assert (Hle : (length l <= length (matching device upper log))%nat) by (rewrite Hl, length_app; lia).
  all: destruct (decide (n < length l)%nat) as [Hm|Hm].
  1: cbn in Hf; lia.
  1,3: replace (cut parent n l) with (mk_Page (map en_ev l) []) by (unfold cut; by rewrite decide_False, take_ge by lia);
    cbn [pg_Events pg_NextPageToken]; rewrite decide_True by done;
    exists (map en_ev l), s, (matching device upper (take (length log - cap) log));
    (split; [done|split; [by rewrite Hl, map_app|]]); apply Forall_forall; intros e [_ He]%elem_of_matching;
    by apply (evicted_not_found cap s log).
  destruct (cut_more cap parent device upper n log (rf_named _ _ _ H)) as (e & a & Ec & Ha & He & He0 & Ea); [done|].
  fold l in Ec. rewrite Ec. cbn [pg_Events pg_NextPageToken]. rewrite decide_False by apply encodeCursor_nonempty.
  destruct (run_refines cap s log b H) as (_ & Hr & more & Em & Hmore).
  { unfold len in *. cbn in Hb. rewrite length_app in Hb. lia. }
  rewrite Em in Hr. pose proof (rf_named _ _ _ Hr) as Hn'.
  assert (Est : matching device (en_seq e) (log ++ more) = matching device (en_seq e) log) by (apply matching_stable; [done|lia]).
  destruct (IH _ _ (encodeCursor parent (en_seq e)) (en_seq e) Hr) as (evs & s' & lost & -> & Ev & Hlost).
  - unfold bound_of. rewrite decide_False by apply encodeCursor_nonempty. rewrite decodeCursor_encodeCursor; [|done|].
    + by rewrite decide_True.
    + pose proof (rf_bound _ _ _ H). lia.
  - unfold len in *. cbn in Hb. rewrite length_app in *. lia.
  - rewrite Est. rewrite Ea, length_app in Hf. destruct a; [done|]. cbn in Hf. lia.
  - exists (map en_ev a ++ evs), s', lost. cbn. split; [done|]. split; [|done].
    rewrite Ea, map_app, <- app_assoc. f_equal. by rewrite <- Est.
Qed.

(** C16. Following page tokens ends, and what is appended meanwhile disturbs nothing:
    the pages are the matching events appended before the first page, newest first, none
    twice and none missing but a tail of the oldest, every one of which the store has
    evicted by the last page. *)
Theorem paging_stable capacity s0 ops parent device size bursts :
  NewMemoryStore capacity = inr s0 -> ParseParent parent = inr device -> octets_ok parent ->
  len ops + len (concat bursts) <= maxUint64 ->
  let s := fst (run step s0 ops) in
  let log := fst (run (log_step (Z.to_nat capacity)) [] ops) in
  (length (matching device maxUint64 log) <= length bursts)%nat ->
  exists evs s' lost, crawl s parent size [] bursts = Some (evs, s') /\
    map en_ev (matching device maxUint64 log) = evs ++ map en_ev lost /\
    Forall (fun e => Get s' None (ev_Name (en_ev e)) = inl ErrNotFound) lost.
Proof.
  intros H Hp Hok Hb s log Hf. pose proof (NewMemoryStore_refines _ _ H) as Hr.
  destruct (run_refines _ _ _ ops Hr) as (_ & Hs & more & Em & Hm); [unfold len in *; cbn; lia|].
  apply (crawl_spec _ parent device size Hp Hok bursts s log [] maxUint64 Hs); [done| |done].
  unfold log. rewrite Em. unfold len in *. cbn. lia.
Qed.

(** ** The service *)

(** The two options the package makes. *)
Definition known_option (o : Store.Option) : Prop := exists n, o = WithDefaultPageSize n \/ o = WithMaxPageSize n.

Lemma settings_positive opts cfg : Forall known_option opts -> 0 < sv_default cfg -> 0 < sv_max cfg ->
  let cfg' := fold_left (fun cfg (o : Store.Option) => o cfg) opts cfg in 0 < sv_default cfg' /\ 0 < sv_max cfg'.
Proof.
  intros H. revert cfg. induction H as [|o opts [n Ho] H IH]; intros cfg H1 H2; [done|]. cbn. apply IH.
  all: destruct Ho as [-> | ->]; cbv [WithDefaultPageSize WithMaxPageSize]; case_decide; cbn; lia.
Qed.

Lemma decodeCursor_error token parent err : decodeCursor token parent = inl err -> err = ErrInvalidPageToken.
Proof. unfold decodeCursor. intros H. repeat (case_match; simplify_eq; try done). Qed.

Lemma ParseParent_error p err : ParseParent p = inl err -> err = ErrInvalidParent.
Proof. unfold ParseParent. intros H. repeat (case_match; simplify_eq; try done). Qed.

Lemma log_list_error cap log q err : log_list cap log None q = inl err -> statusError err = InvalidArgument.
Proof.
  unfold log_list, bound_of. destruct (ParseParent _) eqn:Ep; [intros [= <-]; by apply ParseParent_error in Ep as ->|].
  case_decide; [done|]. destruct (decodeCursor _ _) eqn:Ed; [|done]. intros [= <-]. by apply decodeCursor_error in Ed as ->.
Qed.

Lemma pageSizeOf_positive q : 0 < qu_PageSize q -> pageSizeOf q = Z.min (qu_PageSize q) MaxPageSize.
Proof. unfold pageSizeOf. intros. repeat case_decide; lia. Qed.

Lemma pageSize_spec (svc : EventService R) n size : pageSize R svc n = inr size -> 0 < es_defaultPageSize R svc <= es_maxPageSize R svc ->
  0 < size <= es_maxPageSize R svc /\ (n = 0 -> size = es_defaultPageSize R svc) /\ (0 < n -> size <= n).
Proof. unfold pageSize. intros H Hd. repeat case_decide; simplify_eq; lia. Qed.

Lemma log_list_length cap log q pg : log_list cap log None q = inr pg -> len (pg_Events pg) <= pageSizeOf q.
Proof.
  unfold log_list, len. destruct (ParseParent _); [done|]. destruct (bound_of _ _); [done|]. intros [= <-].
  unfold cut. cbn [pg_Events]. rewrite length_map, length_take.
  assert (0 < pageSizeOf q) by (unfold pageSizeOf, DefaultPageSize, MaxPageSize; repeat case_decide; lia). lia.
Qed.

(** C17. A listing through the service is a page within the deployment's cap, the schema's
    and the client's own, or one of the two codes that blame the request: the store
    never fails it as internal. *)
Theorem service_answers cap s log opts svc req :
  refines cap s log -> Forall known_option opts -> NewEventService R (Some s) opts = inr svc ->
  match ListEvents R svc None req with
  | inr pg =>
      len (pg_Events pg) <= Z.min (es_maxPageSize R svc) MaxPageSize /\
      (lr_PageSize req = 0 -> len (pg_Events pg) <= es_defaultPageSize R svc) /\
      (0 < lr_PageSize req -> len (pg_Events pg) <= lr_PageSize req)
  | inl c => c = InvalidArgument \/ c = Unimplemented
  end.
Proof.
  intros H Ho E.
  assert (Hsvc : es_store R svc = s /\ 0 < es_defaultPageSize R svc <= es_maxPageSize R svc).
  { destruct (settings_positive opts (mk_serviceSettings DefaultPageSize MaxPageSize) Ho) as [Hd Hm]; [done..|].
    unfold NewEventService in E. injection E as <-. cbn. split; [done|]. unfold Store.Option in *. case_decide; lia. }
  destruct Hsvc as [Hst Hd]. unfold ListEvents.
  destruct (ParseParent (lr_Parent req)) as [err|] eqn:Ep; [apply ParseParent_error in Ep as ->; by left|].
  destruct (checkUnsupported req) as [c|] eqn:Ec.
  { unfold checkUnsupported in Ec. repeat case_decide; simplify_eq; by right. }
  destruct (pageSize R svc (lr_PageSize req)) as [c|size] eqn:Es.
  { unfold pageSize in Es. repeat case_decide; simplify_eq; by left. }
  apply pageSize_spec in Es as (Hs & H0 & Hn); [|done]. rewrite Hst, (List_refines cap s log) by done.
  destruct (log_list cap log None _) as [err|pg] eqn:El; [left; by apply log_list_error in El|].
  apply log_list_length in El. rewrite pageSizeOf_positive in El by (cbn; lia). cbn [qu_PageSize] in El. lia.
Qed.

End laws.

(** ** A bench: a store of two under three events *)

Definition bench_event (t : Z) : option (Event unit) := Some (mk_Event [] (Some t) None tt).
Definition bench_ops (d : octets) : list op :=
  [OpAppend None 1 (DeviceName d) (bench_event 10); OpAppend None 2 (DeviceName d) (bench_event 20);
   OpList None (mk_Query (DeviceName Wildcard) 1 []); OpAppend None 3 (DeviceName d) (bench_event 30)].
Definition bench : MemoryStore unit := mk_MemoryStore (replicate 2 None) 0 0 0 ∅.

(** The listing of one at a time, a fourth event appended between its pages, loses the oldest only. *)
Example bench_crawl : crawl (fst (run step bench (bench_ops (str "door")))) (DeviceName Wildcard) 1 []
    [[OpAppend None 4 (DeviceName (str "gate")) (bench_event 40)]; []; []]
  = Some ([mk_Event (EventName (str "door") (hex16 2)) (Some 30) (Some 3) tt], 
          fst (run step bench (bench_ops (str "door") ++ [OpAppend None 4 (DeviceName (str "gate")) (bench_event 40)]))).
Proof. vm_compute. reflexivity. Qed.

Lemma store_refines_witness : NewMemoryStore 2 = inr bench /\ len (bench_ops (str "door")) <= maxUint64 /\
  snd (run step bench (bench_ops (str "door"))) = snd (run (log_step 2) [] (bench_ops (str "door"))).
Proof.
  split; [reflexivity|]. split; [by vm_compute|]. apply (store_refines 2 bench (bench_ops (str "door"))); [reflexivity|by vm_compute].
Defined.

Lemma paging_stable_witness : exists evs s' lost,
  crawl (fst (run step bench (bench_ops (str "door")))) (DeviceName Wildcard) 1 [] [[]; []; []] = Some (evs, s') /\
  map en_ev (matching Wildcard maxUint64 (fst (run (log_step 2) [] (bench_ops (str "door"))))) = evs ++ map en_ev lost /\
  Forall (fun e => Get s' None (ev_Name (en_ev e)) = inl ErrNotFound) lost.
Proof.
  apply (paging_stable 2 bench (bench_ops (str "door")) (DeviceName Wildcard) Wildcard 1 [[]; []; []]).
  - reflexivity.
  - by vm_compute.
  - apply octets_ok_check. by vm_compute.
  - by vm_compute.
  - apply Nat.leb_le. by vm_compute.
Defined.

Lemma service_answers_witness :
  match ListEvents unit (mk_EventService unit bench 5 5) None (mk_ListEventsRequest (DeviceName Wildcard) 0 [] [] []) with
  | inr pg => len (pg_Events pg) <= Z.min 5 MaxPageSize /\ (0 = 0 -> len (pg_Events pg) <= 5) /\ (0 < 0 -> len (pg_Events pg) <= 0)
  | inl c => c = InvalidArgument \/ c = Unimplemented
  end.
Proof.
  apply (service_answers 2 bench [] [WithMaxPageSize 5] (mk_EventService unit bench 5 5)).
  - by apply (NewMemoryStore_refines 2).
  - apply Forall_singleton. exists 5. by right.
  - reflexivity.
Defined.
