(* ===== verification/Record.v ===== *)
(** * Domain records: protobuf/record

    kind.go, options.go and event.go: what a runtime event becomes in the audit
    trail. The message is the store's [Store.Event] with the fields the store does not
    touch in [fields]. [FromEvent] reads the channel through the event's device
    pointer, so it takes the bus as it stands when it is called, which need not be
    as it stood when the event was made. *)

From S2P Require Import Prelude Errors Frame Cmd Secure Device Bus BusFacts.
From S2P Require Import Store.

(** ** kind.go *)

Inductive EventKind :=
  | EVENT_KIND_UNSPECIFIED | EVENT_KIND_CARD_READ | EVENT_KIND_KEYPAD | EVENT_KIND_STATUS_CHANGE
  | EVENT_KIND_DEVICE_ONLINE | EVENT_KIND_DEVICE_OFFLINE | EVENT_KIND_COMMAND_REFUSED | EVENT_KIND_RESYNC
  | EVENT_KIND_MANUFACTURER | EVENT_KIND_SECURITY_VIOLATION.

#[export] Instance EventKind_eq : EqDecision EventKind.
Proof. solve_decision. Defined.

Inductive StatusKind :=
  | STATUS_KIND_UNSPECIFIED | STATUS_KIND_INPUT | STATUS_KIND_OUTPUT | STATUS_KIND_TAMPER | STATUS_KIND_POWER
  | STATUS_KIND_LOCAL.

Definition kinds (k : Kind) : option EventKind :=
  match k with
  | KindCardRead => Some EVENT_KIND_CARD_READ
  | KindKeypad => Some EVENT_KIND_KEYPAD
  | KindOnline => Some EVENT_KIND_DEVICE_ONLINE
  | KindOffline => Some EVENT_KIND_DEVICE_OFFLINE
  | KindNAK => Some EVENT_KIND_COMMAND_REFUSED
  | KindResync => Some EVENT_KIND_RESYNC
  | KindManufacturer => Some EVENT_KIND_MANUFACTURER
  | KindSecureFailed => Some EVENT_KIND_SECURITY_VIOLATION
  | KindStatusChange => Some EVENT_KIND_STATUS_CHANGE
  | _ => None
  end.

Inductive record_error := ErrNotRecordable | ErrNoDevice | ErrNoContacts.

Definition Recordable (k : Kind) : bool := match kinds k with Some _ => true | None => false end.

Definition KindOf (k : Kind) : record_error + EventKind :=
  match kinds k with Some e => inr e | None => inl ErrNotRecordable end.

Definition statusKinds (k : Cmd.StatusKind) : StatusKind :=
  match k with
  | Cmd.StatusInput => STATUS_KIND_INPUT
  | Cmd.StatusOutput => STATUS_KIND_OUTPUT
  | Cmd.StatusTamper => STATUS_KIND_TAMPER
  | Cmd.StatusPower => STATUS_KIND_POWER
  | Cmd.StatusLocal => STATUS_KIND_LOCAL
  | Cmd.StatusUnspecified => STATUS_KIND_UNSPECIFIED
  end.

(** ** options.go *)

Record settings := mk_settings { credentials : bool }.
Definition Option : Type := settings -> settings.
Definition WithCredentials : Option := fun s => mk_settings true.

(** ** event.go *)

Definition int32 (x : Z) : Z := let r := x mod 2 ^ 32 in if decide (r < 2 ^ 31) then r else r - 2 ^ 32.

Record pb_CardRead := mk_pb_CardRead { pc_Reader : Z; pc_Format : Z; pc_BitCount : Z; pc_Data : octets }.
Record pb_KeypadEntry := mk_pb_KeypadEntry { pk_Reader : Z; pk_Keys : octets }.
Record pb_ManufacturerEvent := mk_pb_ManufacturerEvent { pm_Oui : Z; pm_Body : octets }.
Record pb_StatusChange := mk_pb_StatusChange { ps_Kind : StatusKind; ps_Index : Z; ps_Active : bool }.

Inductive Payload :=
  | Payload_CardRead (c : pb_CardRead)
  | Payload_Keypad (k : pb_KeypadEntry)
  | Payload_Manufacturer (m : pb_ManufacturerEvent)
  | Payload_StatusChange (s : pb_StatusChange).

(** The fields of the message the store only copies. *)
Record fields := mk_fields {
  fd_Kind : EventKind;
  fd_Secure : bool;
  fd_Payload : option Payload;
  fd_RefusalCode : Z;
  fd_RefusalReason : octets
}.

#[export] Instance fields_eta : Eta fields := fun f =>
  mk_fields (fd_Kind f) (fd_Secure f) (fd_Payload f) (fd_RefusalCode f) (fd_RefusalReason f).

Abbreviation Record_ := (Store.Event fields).

(** cmd/errors.go: [NAKReason.String]. *)
Definition NAKReason_String (r : Z) : octets :=
  if decide (r = Cmd.NAKCheckFailed) then str "error check failed"
  else if decide (r = Cmd.NAKCommandLength) then str "command length error"
  else if decide (r = Cmd.NAKUnknownCommand) then str "command not implemented"
  else if decide (r = Cmd.NAKSequenceError) then str "unexpected sequence number"
  else if decide (r = Cmd.NAKSecureRequired) then str "secure channel required"
  else if decide (r = Cmd.NAKEncryptionUnsup) then str "encryption not supported"
  else if decide (r = 7) then str "biometric type not supported"
  else if decide (r = 8) then str "biometric format not supported"
  else if decide (r = Cmd.NAKUnsupportedInput) then str "unsupported input value"
  else str "unknown NAK reason".

Definition cardRead (c : Cmd.CardRead) (cfg : settings) : pb_CardRead :=
  mk_pb_CardRead (int32 (Cmd.cr_Reader c)) (int32 (Cmd.cr_Format c)) (int32 (Cmd.cr_BitCount c))
    (if credentials cfg then Cmd.cr_Data c else []).

Definition keypad (k : Cmd.KeypadEntry) (cfg : settings) : pb_KeypadEntry :=
  mk_pb_KeypadEntry (int32 (Cmd.ke_Reader k)) (if credentials cfg then Cmd.ke_Keys k else []).

Definition manufacturer (m : Cmd.ManufacturerMessage) : pb_ManufacturerEvent :=
  mk_pb_ManufacturerEvent (int32 (Cmd.mm_OUI m)) (Cmd.mm_Body m).

Definition attachPayload (out : fields) (ev : Bus.Event) (cfg : settings) : fields :=
  match e_Kind ev with
  | KindCardRead => out <| fd_Payload := Some (Payload_CardRead (cardRead (e_Card ev) cfg)) |>
  | KindKeypad => out <| fd_Payload := Some (Payload_Keypad (keypad (e_Keypad ev) cfg)) |>
  | KindManufacturer => out <| fd_Payload := Some (Payload_Manufacturer (manufacturer (e_Manufacturer ev))) |>
  | KindNAK => out <| fd_RefusalCode := int32 (e_NAK ev) |> <| fd_RefusalReason := NAKReason_String (e_NAK ev) |>
  | _ => out
  end.

Definition statusRecords (ev : Bus.Event) (base : fields -> Record_) (out : fields) : list Record_ :=
  map (fun c => base (out <| fd_Payload := Some (Payload_StatusChange
         (mk_pb_StatusChange (statusKinds (Cmd.sc_Kind c)) (int32 (Cmd.sc_Index c)) (Cmd.sc_Active c))) |>)) (e_Status ev).

Definition FromEvent (b : Bus.Bus) (ev : Bus.Event) (name : octets) (at_ : Z) (opts : list Option) :
    record_error + list Record_ :=
  match KindOf (e_Kind ev) with
  | inl e => inl e
  | inr kind =>
      match device b (e_Device ev) with
      | None => inl ErrNoDevice
      | Some d =>
          let cfg := fold_left (fun cfg (opt : Option) => opt cfg) opts (mk_settings false) in
          let '(state, established) := SecureSession d in
          let out := mk_fields kind (established && bool_decide (state = Secure.StateEstablished)) None 0 [] in
          let base f := Store.mk_Event name (Some at_) None f in
          if decide (e_Kind ev = KindStatusChange) then
            if decide (e_Status ev = []) then inl ErrNoContacts
            else inr (statusRecords ev base out)
          else inr [base (attachPayload out ev cfg)]
      end
  end.

(** ** What a record says *)

(** The kinds that carry what a frame said. *)
Definition content (k : Kind) : bool :=
  match k with KindCardRead | KindKeypad | KindManufacturer | KindStatusChange | KindNAK => true | _ => false end.

Definition established (d : Device.Device) : bool :=
  match d_session d with Some s => bool_decide (Secure.s_state s = Secure.StateEstablished) | None => false end.

Lemma onStatus_content d i parse data d' ev : onStatus d i parse data = (d', Ok ev) ->
  d_session d' = d_session d /\ e_Device ev = i /\ (e_Kind ev = KindStatusChange -> e_Status ev <> []).
Proof.
  unfold onStatus. destruct (parse data) as [r|]; [|done]. destruct (statusChanges d r) as [d1 ch] eqn:E.
  assert (Hs : d_session d1 = d_session d).
  { unfold statusChanges in E. destruct (fold_left _ _ _). by injection E as <- _. }
  case_decide as Hc; intros [= <- <-]; split_and!; try done. cbn. intros _ Hn. by rewrite Hn in Hc.
Qed.

(** Every handler names the device it was given; those of content leave the session alone. *)
Lemma dispatch_content b d i msg d' ev : dispatch b d i msg = (d', Ok ev) ->
  e_Device ev = i /\ (e_Kind ev = KindStatusChange -> e_Status ev <> []) /\
  (content (e_Kind ev) = true -> d_session d' = d_session d).
Proof.
  unfold dispatch. repeat (destruct (decide (Cmd.m_Code msg = _))).
  all: try (intros E; apply onStatus_content in E as (-> & -> & ?); done).
  all: unfold on, onCryptogram, onInitialRMAC, secureFailure, onCommunication, onBusy, onKeyInstalled, answered.
  all: repeat case_match; intros E; simplify_eq; try done.
Qed.

Lemma openReply_state s f s' p : openReply s f = (s', Ok p) -> Secure.s_state s' = Secure.s_state s.
Proof.
  unfold openReply, Secure.Verify, Secure.commit. intros E. repeat (case_match; simplify_eq; try done).
Qed.

(** The frame [f] was opened by the device's established channel. *)
Definition opened (d : Device.Device) (f : Frame.Frame) : Prop :=
  exists s s' p, d_session d = Some s /\ Secure.Established s = true /\ openReply s f = (s', Ok p).

Lemma delivered_session d : d_session (delivered d) = d_session d.
Proof. unfold delivered. cbn. by destruct (d_inflight d). Qed.

Lemma established_some d s : d_session d = Some s -> established d = Secure.Established s.
Proof. unfold established. by intros ->. Qed.

Lemma reply_content b d i f now d' ev : reply b d i f now = (d', Ok ev) ->
  e_Device ev = i /\ (e_Kind ev = KindStatusChange -> e_Status ev <> []) /\
  (content (e_Kind ev) = true -> established d' = true <-> opened d f).
Proof.
  unfold reply. case_match; [done|]. case_decide; [done|]. case_decide.
  { intros [= <- <-]. split_and!; done. }
  set (d0 := d <| d_LastSeen := now |> <| d_misses := 0 |>).
  assert (E0 : d_session d0 = d_session d) by done. clearbody d0. rewrite E0.
  assert (Hplain : forall m, (forall s, d_session d = Some s -> Secure.Established s = false) ->
    dispatch b (delivered d0) i m = (d', Ok ev) ->
    e_Device ev = i /\ (e_Kind ev = KindStatusChange -> e_Status ev <> []) /\
    (content (e_Kind ev) = true -> established d' = true <-> opened d f)).
  { intros m Hno (Hd & Hs & Hc)%dispatch_content. split_and!; try done. intros Hk. specialize (Hc Hk).
    rewrite delivered_session, E0 in Hc. split.
    - unfold established. rewrite Hc. destruct (d_session d) as [s|] eqn:Es; [|done].
      intros He. specialize (Hno s eq_refl). unfold Secure.Established in Hno. congruence.
    - intros (s & s' & p & Es & He & _). rewrite (Hno s Es) in He. done. }
  destruct (d_session d) as [s|] eqn:Es; [|by apply Hplain].
  destruct (Secure.Established s) eqn:Ee; [|apply Hplain; by intros ? [= <-]].
  destruct (openReply s f) as [s' [p|e]] eqn:Eo; [|intros [= <- <-]; split_and!; done].
  intros (Hd & Hs & Hc)%dispatch_content. split_and!; try done. intros Hk. specialize (Hc Hk).
  rewrite delivered_session in Hc. cbn [d_session update] in Hc. rewrite (established_some _ _ Hc).
  unfold Secure.Established in *. rewrite (openReply_state _ _ _ _ Eo), Ee. split; [|done].
  intros _. by exists s, s', p.
Qed.

(** ** Theorems *)

Definition secure_of (r : Record_) : bool := fd_Secure (Store.ev_Rest r).

Lemma FromEvent_device b ev name at_ opts d : device b (e_Device ev) = Some d ->
  Recordable (e_Kind ev) = true -> (e_Kind ev = KindStatusChange -> e_Status ev <> []) ->
  exists recs, FromEvent b ev name at_ opts = inr recs /\ recs <> [] /\
    Forall (fun r => secure_of r = established d /\ Store.ev_Name r = name /\ Store.ev_EventTime r = Some at_ /\
                     kinds (e_Kind ev) = Some (fd_Kind (Store.ev_Rest r))) recs.
Proof.
  intros Ed Hr Hs. unfold FromEvent, KindOf. unfold Recordable in Hr. destruct (kinds (e_Kind ev)) as [kind|] eqn:Ek; [|done].
  rewrite Ed. destruct (SecureSession d) as [state est] eqn:Ess.
  assert (He : est && bool_decide (state = Secure.StateEstablished) = established d).
  { unfold SecureSession in Ess. unfold established. destruct (d_session d); by injection Ess as <- <-. }
  rewrite He. destruct (decide (e_Kind ev = KindStatusChange)) as [Hk|Hk].
  - specialize (Hs Hk). rewrite decide_False by done. eexists. split; [done|]. unfold statusRecords. split.
    + by destruct (e_Status ev).
    + apply Forall_map, Forall_true. done.
  - eexists. split; [done|]. split; [done|]. apply Forall_singleton. unfold attachPayload, secure_of.
    destruct (e_Kind ev); done.
Qed.

(** C18. Every event of a reply the panel's schema has a kind for becomes records, one or
    more, under the name and time asked for; and converted before the device's next
    exchange, a record of what a frame carried is marked secure exactly when the
    device's established channel opened that frame. *)
Theorem records_secure b i d f now b' ev name at_ opts :
  device b i = Some d -> Reply b i f now = (b', Ok ev) -> Recordable (e_Kind ev) = true ->
  exists recs, FromEvent b' ev name at_ opts = inr recs /\ recs <> [] /\
    Forall (fun r => Store.ev_Name r = name /\ Store.ev_EventTime r = Some at_ /\
                     kinds (e_Kind ev) = Some (fd_Kind (Store.ev_Rest r))) recs /\
    (content (e_Kind ev) = true -> Forall (fun r => secure_of r = true <-> opened d f) recs).
Proof.
  intros Ed. unfold Reply. rewrite Ed. destruct (reply b d i f now) as [d' r] eqn:Er. intros [= <- ->] Hr.
  destruct (reply_content _ _ _ _ _ _ _ Er) as (Hi & Hs & Hc).
  assert (Ed' : device (set_device b i d') (e_Device ev) = Some d').
  { rewrite Hi. unfold device, set_device in *. cbn. apply list_lookup_insert_eq. by apply lookup_lt_Some in Ed. }
  destruct (FromEvent_device _ ev name at_ opts d' Ed' Hr Hs) as (recs & E & Hne & Hall).
  exists recs. split_and!; try done.
  - eapply Forall_impl; [exact Hall|]. cbv beta. tauto.
  - intros Hk. eapply Forall_impl; [exact Hall|]. cbv beta. intros r (-> & _). by apply Hc.
Qed.

(** C19. Without [WithCredentials] no record depends on a credential: two events that differ
    in card bits and keypad digits alone convert to the same records. *)
Theorem credentials_withheld b ev name at_ data keys :
  FromEvent b (ev <| e_Card := Cmd.mk_CardRead (Cmd.cr_Reader (e_Card ev)) (Cmd.cr_Format (e_Card ev)) (Cmd.cr_BitCount (e_Card ev)) data |>
                  <| e_Keypad := Cmd.mk_KeypadEntry (Cmd.ke_Reader (e_Keypad ev)) keys |>) name at_ []
  = FromEvent b ev name at_ [].
Proof.
  unfold FromEvent. cbn [e_Kind e_Device e_Status update fold_left]. destruct (KindOf (e_Kind ev)); [done|].
  destruct (device b (e_Device ev)) as [d|]; [|done]. destruct (SecureSession d).
  destruct (decide (e_Kind ev = KindStatusChange)); [done|].
  unfold attachPayload. cbn [e_Kind update]. by destruct (e_Kind ev).
Qed.
