(* ===== verification/Trail.v ===== *)
(** * From the line to the audit trail

    What an application builds out of the panel, protobuf/record and
    protobuf/service: events observed on the bus, converted by [Record.FromEvent],
    appended to a store and read back page by page. [audit_trail] is the composition;
    the witnesses of Record.v and a case against the timing of conversion are here
    too, on the enrolled pair of Enrol.v. *)

From S2P Require Import Prelude Errors.
From S2P Require Frame Cmd Secure Device Bus BusFacts BusLaws Pd PdLaws Enrol Faults.
From S2P Require Import Store StoreFacts StoreLaws Record.

(** ** What a trail must hold

    A specification of the records of an event beside [FromEvent]: which kinds have
    one, and what it says. *)

(** The kind the schema has for an event other than a status change, the payload, and
    why a command was refused. *)
Inductive tells (cred : bool) (ev : Bus.Event) : EventKind -> option Payload -> Z * octets -> Prop :=
  | tells_card : Bus.e_Kind ev = Bus.KindCardRead ->
      let c := Bus.e_Card ev in
      tells cred ev EVENT_KIND_CARD_READ (Some (Payload_CardRead (mk_pb_CardRead (int32 (Cmd.cr_Reader c)) (int32 (Cmd.cr_Format c))
        (int32 (Cmd.cr_BitCount c)) (if cred then Cmd.cr_Data c else [])))) (0, [])
  | tells_keypad : Bus.e_Kind ev = Bus.KindKeypad ->
      let k := Bus.e_Keypad ev in
      tells cred ev EVENT_KIND_KEYPAD (Some (Payload_Keypad (mk_pb_KeypadEntry (int32 (Cmd.ke_Reader k))
        (if cred then Cmd.ke_Keys k else [])))) (0, [])
  | tells_maker : Bus.e_Kind ev = Bus.KindManufacturer ->
      let m := Bus.e_Manufacturer ev in
      tells cred ev EVENT_KIND_MANUFACTURER (Some (Payload_Manufacturer (mk_pb_ManufacturerEvent (int32 (Cmd.mm_OUI m))
        (Cmd.mm_Body m)))) (0, [])
  | tells_refusal : Bus.e_Kind ev = Bus.KindNAK ->
      tells cred ev EVENT_KIND_COMMAND_REFUSED None (int32 (Bus.e_NAK ev), NAKReason_String (Bus.e_NAK ev))
  | tells_online : Bus.e_Kind ev = Bus.KindOnline -> tells cred ev EVENT_KIND_DEVICE_ONLINE None (0, [])
  | tells_offline : Bus.e_Kind ev = Bus.KindOffline -> tells cred ev EVENT_KIND_DEVICE_OFFLINE None (0, [])
  | tells_resync : Bus.e_Kind ev = Bus.KindResync -> tells cred ev EVENT_KIND_RESYNC None (0, [])
  | tells_violation : Bus.e_Kind ev = Bus.KindSecureFailed -> tells cred ev EVENT_KIND_SECURITY_VIOLATION None (0, []).

(** A contact that moved. *)
Definition moved (c : Cmd.StatusChange) : Payload :=
  Payload_StatusChange (mk_pb_StatusChange (statusKinds (Cmd.sc_Kind c)) (int32 (Cmd.sc_Index c)) (Cmd.sc_Active c)).

(** One thing the panel observed: the event, the bus when it was converted, the time. *)
Definition observation : Type := Bus.Bus * Bus.Event * Z.

(** What the trail keeps of a record: when it was observed, and everything it says. *)
Definition entry_of (e : Event fields) : option Z * fields := (ev_EventTime e, ev_Rest e).

(** The records of one observation: of a status change one for each contact, in order;
    of another kind the schema has, one; of the rest none. *)
Inductive recorded (cred : bool) : observation -> list (option Z * fields) -> Prop :=
  | rec_one b ev t d k pl refused : Bus.device b (Bus.e_Device ev) = Some d -> tells cred ev k pl refused ->
      recorded cred (b, ev, t) [(Some t, mk_fields k (established d) pl refused.1 refused.2)]
  | rec_status b ev t d : Bus.device b (Bus.e_Device ev) = Some d -> Bus.e_Kind ev = Bus.KindStatusChange ->
      Bus.e_Status ev <> [] ->
      recorded cred (b, ev, t)
        (map (fun c => (Some t, mk_fields EVENT_KIND_STATUS_CHANGE (established d) (Some (moved c)) 0 [])) (Bus.e_Status ev))
  | rec_none b ev t : Bus.e_Kind ev ∈ [Bus.KindNone; Bus.KindIdentified; Bus.KindCapabilities; Bus.KindSecure;
      Bus.KindBusy; Bus.KindCommunication; Bus.KindKeyInstalled] -> recorded cred (b, ev, t) [].

(** What a panel observes: an event of an answer, or of a silence, on the bus it left. *)
Inductive observed : observation -> Prop :=
  | obs_reply b i d f now b' ev t : Bus.device b i = Some d -> Bus.Reply b i f now = (b', Ok ev) -> observed (b', ev, t)
  | obs_silence b i b' ev t : Bus.Timeout b i = (b', Some ev) -> observed (b', ev, t).

(** ** What the application does *)

Definition converted (opts : list Record.Option) (o : observation) : list (Event fields) :=
  let '(b, ev, t) := o in
  match FromEvent b ev [] t opts with
  | inl _ => []
  | inr recs => recs
  end.

Definition trail (opts : list Record.Option) (os : list observation) : list (Event fields) := concat (map (converted opts) os).

(** Whether credentials were asked for. *)
Definition asked (opts : list Record.Option) : bool :=
  credentials (fold_left (fun cfg (opt : Record.Option) => opt cfg) opts (mk_settings false)).

Lemma observed_device b ev t : observed (b, ev, t) -> exists d, Bus.device b (Bus.e_Device ev) = Some d /\
  (Bus.e_Kind ev = Bus.KindStatusChange -> Bus.e_Status ev <> []).
Proof.
  assert (Hset : forall (b : Bus.Bus) i d d', Bus.device b i = Some d -> Bus.device (Bus.set_device b i d') i = Some d').
  { intros b0 i d d' Hd. unfold Bus.device, Bus.set_device in *. cbn. apply list_lookup_insert_eq. by eapply lookup_lt_Some. }
  intros H. inversion H as [b0 i d f now b' ev' t' Hd E|b0 i b' ev' t' E]; subst.
  - unfold Bus.Reply in E. rewrite Hd in E. destruct (Bus.reply b0 d i f now) as [d' r] eqn:Er. injection E as <- ->.
    destruct (reply_content _ _ _ _ _ _ _ Er) as (-> & Hs & _). exists d'. split; [by eapply Hset|done].
  - unfold Bus.Timeout in E. destruct (Bus.device b0 i) as [d|] eqn:Hd; [|done].
    destruct (Bus.timeout d i) as [d' e] eqn:Et. injection E as <- <-. unfold Bus.timeout in Et.
    case_decide; injection Et as <- <-; (eexists; split; [by eapply Hset|done]).
Qed.

Lemma converted_recorded opts o : observed o -> recorded (asked opts) o (map entry_of (converted opts o)).
Proof.
  destruct o as [[b ev] t]. intros (d & Hd & Hs)%observed_device. unfold converted, FromEvent, KindOf. rewrite Hd.
  fold (asked opts). set (cfg := fold_left _ opts (mk_settings false)).
  assert (Hcfg : credentials cfg = asked opts) by done.
  destruct (Device.SecureSession d) as [state est] eqn:Ess.
  assert (He : est && bool_decide (state = Secure.StateEstablished) = established d).
  { unfold Device.SecureSession in Ess. unfold established. destruct (Device.d_session d); by injection Ess as <- <-. }
  rewrite He. clearbody cfg. destruct (Bus.e_Kind ev) eqn:Ek; cbn [kinds].
  all: try (apply rec_none; rewrite Ek; set_solver).
  all: try (rewrite decide_False by done; cbn [map]; unfold attachPayload; rewrite Ek, <- Hcfg;
    refine (rec_one _ b ev t d _ _ (_, _) Hd _); by constructor).
  rewrite decide_True, decide_False by auto. unfold statusRecords. rewrite map_map.
  exact (rec_status _ b ev t d Hd Ek (Hs eq_refl)).
Qed.

Lemma converted_timed opts o : Forall (fun r => is_Some (ev_EventTime r)) (converted opts o).
Proof.
  destruct o as [[b ev] t]. unfold converted, FromEvent. destruct (KindOf _); [by apply Forall_nil|].
  destruct (Bus.device _ _); [|by apply Forall_nil]. destruct (Device.SecureSession _). case_decide; [case_decide|].
  - by apply Forall_nil.
  - apply Forall_map, Forall_true. intros c. by eexists.
  - apply Forall_singleton. by eexists.
Qed.

Lemma trail_timed opts os : Forall (fun r => is_Some (ev_EventTime r)) (trail opts os).
Proof. apply Forall_concat, Forall_map, Forall_true. apply converted_timed. Qed.

Lemma trail_recorded opts os : Forall observed os -> exists fss, Forall2 (recorded (asked opts)) os fss /\
  map entry_of (trail opts os) = concat fss.
Proof.
  induction 1 as [|o os Ho Hos (fss & IH1 & IH2)]; [by exists []|].
  exists (map entry_of (converted opts o) :: fss). split; [constructor; [by apply converted_recorded|done]|].
  unfold trail in *. cbn [map concat]. by rewrite map_app, IH2.
Qed.

(** The application's appends, for one device. *)
Definition appends (device : octets) (now : Z) (rs : list (Event fields)) : list (op (R := fields)) :=
  map (fun r => OpAppend None now (DeviceName device) (Some r)) rs.

Lemma log_of_appends cap device now rs log : ~ In slash device -> device <> [] -> device <> Wildcard ->
  Forall (fun r => is_Some (ev_EventTime r)) rs ->
  exists es, fst (run (log_step cap) log (appends device now rs)) = log ++ es /\
    map (fun e => entry_of (en_ev e)) es = map entry_of rs /\ Forall (fun e => en_device e = device) es.
Proof.
  intros H1 H2 H3 Ht. revert log. induction Ht as [|r rs [t Ht] _ IH]; intros log; cbn [appends map run].
  { exists []. by rewrite app_nil_r. }
  unfold log_step, log_append. rewrite ParseParent_DeviceName by done. rewrite decide_False by done.
  set (e := mk_entry _ _ _). destruct (IH (log ++ [e])) as (es & E & Hr & Hd). unfold appends in E.
  destruct (run _ _ _) as [log' rest]. cbn [fst] in *. subst log'. exists (e :: es). rewrite <- app_assoc.
  split; [done|]. split; [|by apply Forall_cons]. cbn [map]. f_equal; [|done].
  unfold entry_of. cbn. by rewrite Ht.
Qed.
Lemma crawl_still (s : MemoryStore fields) parent size token n evs s' :
  crawl s parent size token (replicate n []) = Some (evs, s') -> s' = s.
Proof.
  revert token evs. induction n as [|n IH]; intros token evs; cbn [replicate crawl run fst];
    (destruct (List_ s None _) as [|pg]; [done|]); case_decide; try done; try by intros [= _ <-].
  destruct (crawl _ _ _ _ _) as [[evs' s'']|] eqn:E; [|done]. cbn. intros [= _ <-]. by apply IH in E.
Qed.

Lemma matching_all device (es : list (entry fields)) : Forall (fun e => en_device e = device) es ->
  Forall (fun e => en_seq e < maxUint64) es -> matching device maxUint64 es = reverse es.
Proof.
  rewrite !Forall_forall. intros Hd Hs. unfold matching. apply filter_every. intros e He. rewrite elem_of_reverse in He.
  split; [by apply Hs|right; by apply Hd].
Qed.

(** C20. Everything the panel observed of a device and the schema has a kind for is in the
    device's trail, and nothing else is. Let an application file what its panel observes
    (the events of answers and of silences, each converted on the bus it left) under one
    device of an empty store with room for it. Then following the page tokens, at any page
    size, yields the records of the observations, newest first: for a card, a key entry, a
    manufacturer's message, a refusal, a device on or off line, a resynchronisation and a
    failed authentication one record, for a status change one for each contact that moved,
    and none for any other; each under the time it was observed, with what it carried
    (credentials only when they were asked for), and marked secure when the device's
    channel stood established. *)
Theorem audit_trail capacity s0 device now opts os size :
  NewMemoryStore capacity = inr s0 -> segment device -> octets_ok device -> Forall observed os ->
  len (trail opts os) <= capacity -> capacity <= maxUint64 ->
  let s := fst (run step s0 (appends device now (trail opts os))) in
  exists evs fss, crawl s (DeviceName device) size [] (replicate (length (trail opts os)) []) = Some (evs, s) /\
    Forall2 (recorded (asked opts)) os fss /\ map entry_of evs = reverse (concat fss).
Proof.
  intros H0 [Hv Hs] Ho Hobs Hc Hm s. destruct (trail_recorded opts os Hobs) as (fss & Hfss & Etr).
  pose proof (trail_timed opts os) as Htimed. unfold validSegment in Hv. apply andb_prop in Hv as [Hne Hw].
  apply bool_decide_eq_true_1 in Hne, Hw. set (rs := trail opts os) in *.
  assert (Hlen : len (appends device now rs) = len rs) by (unfold appends, len; by rewrite length_map).
  pose proof (NewMemoryStore_refines _ _ H0) as Hr.
  destruct (run_refines _ _ _ (appends device now rs) Hr) as (_ & Hs' & _); [rewrite Hlen; unfold len in *; cbn; lia|].
  destruct (log_of_appends (Z.to_nat capacity) device now rs [] Hs Hne Hw Htimed) as (es & El & Er & Ed).
  rewrite El in Hs'. cbn [app] in Hs'. fold s in Hs'.
  assert (Hn : length es = length rs) by (rewrite <- (length_map entry_of rs), <- Er; by rewrite length_map).
  assert (Em : matching device maxUint64 es = reverse es).
  { apply matching_all; [done|]. apply Forall_forall. intros e He.
    pose proof (named_seq es e (rf_named _ _ _ Hs') He). unfold len in *. lia. }
  destruct (crawl_spec (R := fields) (Z.to_nat capacity) (DeviceName device) device size (ParseParent_DeviceName _ Hs Hne)) with
    (bursts := replicate (length rs) (@nil (op (R := fields)))) (s := s) (log := es) (token := @nil Z) (upper := maxUint64)
    as (evs & s' & lost & Ec & Ee & El'); try done.
  - unfold DeviceName. rewrite !Forall_app. split_and!; [|by repeat constructor|done]. apply octets_ok_check. by vm_compute.
  - assert (Hz : forall n, concat (replicate n (@nil (op (R := fields)))) = []) by (intros n; by induction n).
    rewrite Hz. unfold len in *. cbn. lia.
  - rewrite Em, length_reverse, length_replicate. lia.
  - pose proof (crawl_still _ _ _ _ _ _ _ Ec) as ->. exists evs, fss. split; [done|]. split; [done|]. rewrite <- Etr. rewrite Em in Ee.
    destruct lost as [|e lost].
    + cbn in Ee. rewrite app_nil_r in Ee. rewrite <- Ee, <- Er, map_map. apply (fmap_reverse (fun e => entry_of (en_ev e))).
    + exfalso. apply Forall_cons in El' as [El' _].
      assert (He : en_ev e ∈ map en_ev (reverse es)) by (rewrite Ee; apply elem_of_app; right; by left).
      apply list_elem_of_fmap in He as (e' & E' & He). rewrite elem_of_reverse in He. revert El'. rewrite E'.
      apply (held_found (Z.to_nat capacity) s es); [done|]. unfold held.
      replace (length es - Z.to_nat capacity)%nat with 0%nat by (unfold len in *; lia). done.
Qed.

(** ** On the demonstration lines *)

(** A poll on the line without a channel, and the reader's report of the card. *)
Definition card_poll : Bus.Bus * option Bus.Step := Bus.Next (Faults.badged Faults.plain_pair).1.
Definition card_frame : Frame.Frame :=
  match card_poll.2 with
  | Some st => match (Pd.Handle (Faults.badged Faults.plain_pair).2 (Bus.st_Frame st) 0).2 with Ok f => f | Err _ => Pd.zero_frame end
  | None => Pd.zero_frame
  end.
Definition card_event : Bus.Event := Bus.event Bus.KindCardRead 0 <| Bus.e_Card := PdLaws.kat_card |>.

Example records_secure_witness : exists d, Bus.device card_poll.1 0 = Some d /\
  exists recs, FromEvent (Bus.Reply card_poll.1 0 card_frame 0).1 card_event [] 5 [] = inr recs /\ recs <> [] /\
    Forall (fun r => ev_Name r = [] /\ ev_EventTime r = Some 5 /\
                     kinds (Bus.e_Kind card_event) = Some (fd_Kind (ev_Rest r))) recs /\
    (content (Bus.e_Kind card_event) = true -> Forall (fun r => secure_of r = true <-> opened d card_frame) recs).
Proof.
  eexists. split; [vm_compute; reflexivity|].
  apply (records_secure card_poll.1 0 _ card_frame 0 _ card_event [] 5 []); vm_compute; reflexivity.
Defined.

(** The mark is read from the live device: the same card event, off an established
    channel, is recorded as secure while the channel stands and as insecure once the
    line has been lost. *)
Definition badged_secure := Faults.after [Faults.Through] (Faults.badged Faults.secure_pair).
Definition marks (b : Bus.Bus) : list bool := map secure_of (converted [] (b, card_event, 0)).

Example mark_follows_channel :
  Faults.kinds badged_secure = [Some Bus.KindCardRead] /\
  marks badged_secure.1.1 = [true] /\
  marks (Faults.after [Faults.CommandLost; Faults.CommandLost; Faults.CommandLost] badged_secure.1).1.1 = [false].
Proof. split_and!; vm_compute; reflexivity. Qed.

(** The card, and then three silences: the device is off line. *)
Definition badged_bus : Bus.Bus := (Bus.Reply card_poll.1 0 card_frame 0).1.
Definition silences : Bus.Bus := (Bus.Timeout (Bus.Timeout badged_bus 0).1 0).1.
Definition bench_trail : list observation :=
  [(badged_bus, card_event, 7); ((Bus.Timeout silences 0).1, Bus.event Bus.KindOffline 0, 8)].

Lemma bench_observed : Forall observed bench_trail.
Proof.
  assert (Hd : is_Some (Bus.device card_poll.1 0)) by (apply lookup_lt_is_Some_2, Nat.ltb_lt; vm_compute; reflexivity).
  destruct Hd as [d Hd]. apply Forall_cons. split; [|apply Forall_singleton].
  - apply (obs_reply card_poll.1 0 d card_frame 0 _ card_event 7 Hd). vm_compute. reflexivity.
  - apply (obs_silence silences 0 _ (Bus.event Bus.KindOffline 0) 8). vm_compute. reflexivity.
Qed.

Definition bench_store : MemoryStore fields :=
  fst (run step (mk_MemoryStore (replicate 4 None) 0 0 0 ∅) (appends (str "door") 9 (trail [] bench_trail))).

Example audit_trail_witness : exists evs fss,
  crawl bench_store (DeviceName (str "door")) 1 [] (replicate (length (trail [] bench_trail)) []) = Some (evs, bench_store) /\
  Forall2 (recorded false) bench_trail fss /\ map entry_of evs = reverse (concat fss).
Proof.
  apply (audit_trail 4 _ (str "door") 9 [] bench_trail 1).
  - reflexivity.
  - split; [reflexivity|]. apply not_in_check. reflexivity.
  - apply octets_ok_check. reflexivity.
  - exact bench_observed.
  - by vm_compute.
  - by vm_compute.
Defined.

(** What the two say, in the order they are read back. *)
Example bench_says : map (fun x => (x.1, fd_Kind x.2)) (reverse (map entry_of (trail [] bench_trail))) =
  [(Some 8, EVENT_KIND_DEVICE_OFFLINE); (Some 7, EVENT_KIND_CARD_READ)].
Proof. vm_compute. reflexivity. Qed.
