(* ===== verification/Provider.v ===== *)
(** * Vendors: internal/provider

    capabilities.go, provider.go, generic.go, vendor.go and registry.go. [Provider]
    is the interface as a record of its methods; what a vendor's own decoder returns
    as an error is a parameter, [E]. [Honest] is what the rest of a panel may rely
    on of a provider, proved of the two the package has and carried through the
    registry to whatever device is resolved. *)

From S2P Require Import Prelude.
From S2P Require Import Store.
From S2P Require Cmd.

(** ** provider.go *)

Record Capabilities := mk_Capabilities {
  c_Readers : Z;
  c_LEDs : Z;
  c_Buzzers : Z;
  c_Displays : Z;
  c_Inputs : Z;
  c_Outputs : Z;
  c_SecureChannel : bool;
  c_MaxMessageSize : Z
}.

#[export] Instance Capabilities_eta : Eta Capabilities := fun c =>
  mk_Capabilities (c_Readers c) (c_LEDs c) (c_Buzzers c) (c_Displays c) (c_Inputs c) (c_Outputs c)
    (c_SecureChannel c) (c_MaxMessageSize c).

Record Extension := mk_Extension {
  x_OUI : Z;
  x_Kind : octets;
  x_Payload : octets;
  x_Recognised : bool
}.

(** ** capabilities.go *)

Definition FromReport (r : Cmd.CapabilityReport) : Capabilities :=
  let '(capable, _) := Cmd.SecureChannel r in
  mk_Capabilities (Cmd.ItemsOf r Cmd.FuncReaders) (Cmd.ItemsOf r Cmd.FuncReaderLED) (Cmd.ItemsOf r Cmd.FuncReaderAudible)
    (Cmd.ItemsOf r Cmd.FuncReaderText) (Cmd.ItemsOf r Cmd.FuncContactStatus) (Cmd.ItemsOf r Cmd.FuncOutputControl)
    capable (Cmd.ReceiveBufferSize r).

Definition UsesDefaultKey (r : Cmd.CapabilityReport) : bool :=
  let '(_, defaultKey) := Cmd.SecureChannel r in defaultKey.

Section providers.
Variable E : Type.

Record Provider := mk_Provider {
  Name : octets;
  OUI : Z;
  DecodeExtension : Cmd.ManufacturerMessage -> E + Extension;
  EncodeExtension : Extension -> E + Cmd.ManufacturerMessage;
  Reconcile : Cmd.DeviceID -> Capabilities -> Capabilities
}.

(** ** generic.go *)

Definition Generic : Provider :=
  mk_Provider (str "generic") 0
    (fun m => inr (mk_Extension (Cmd.mm_OUI m) (str "raw") (Cmd.mm_Body m) false))
    (fun e => inr (Cmd.mk_ManufacturerMessage (x_OUI e) (x_Payload e)))
    (fun _ reported => reported).

(** ** vendor.go *)

Definition QuirkNoSecureChannel : Z := 1.
Definition QuirkUnderreportsLEDs : Z := 2.
Definition QuirkSmallMessages : Z := 4.

Record Vendor := mk_Vendor {
  v_VendorName : octets;
  v_VendorOUI : Z;
  v_Quirks : Z;
  v_MaxMessageSize : Z;
  v_Decode : option (Cmd.ManufacturerMessage -> E + Extension)
}.

Definition Vendor_DecodeExtension (v : Vendor) (m : Cmd.ManufacturerMessage) : E + Extension :=
  match v_Decode v with
  | None => inr (mk_Extension (Cmd.mm_OUI m) (str "raw") (Cmd.mm_Body m) false)
  | Some decode => decode m
  end.

Definition Vendor_EncodeExtension (v : Vendor) (e : Extension) : E + Cmd.ManufacturerMessage :=
  let oui := if decide (x_OUI e = 0) then v_VendorOUI v else x_OUI e in
  inr (Cmd.mk_ManufacturerMessage oui (x_Payload e)).

Definition Vendor_Reconcile (v : Vendor) (id : Cmd.DeviceID) (reported : Capabilities) : Capabilities :=
  let out := reported in
  let out := if decide (Z.land (v_Quirks v) QuirkNoSecureChannel <> 0) then out <| c_SecureChannel := false |> else out in
  if decide (Z.land (v_Quirks v) QuirkSmallMessages <> 0 /\ v_MaxMessageSize v > 0) then
    if decide (c_MaxMessageSize out = 0 \/ c_MaxMessageSize out > v_MaxMessageSize v)
    then out <| c_MaxMessageSize := v_MaxMessageSize v |> else out
  else out.

Definition vendor_provider (v : Vendor) : Provider :=
  mk_Provider (v_VendorName v) (v_VendorOUI v) (Vendor_DecodeExtension v) (Vendor_EncodeExtension v) (Vendor_Reconcile v).

Definition OUIHID : Z := 0x00068E.
Definition HID : Vendor := mk_Vendor (str "hid") OUIHID 0 0 None.

(** ** registry.go *)

Record Registry := mk_Registry { r_byOUI : gmap Z Provider; r_generic : Provider }.

Definition NewRegistry (providers : list Provider) : Registry :=
  mk_Registry (fold_left (fun m p => <[OUI p := p]> m) providers ∅) Generic.

Definition For (r : Registry) (id : Cmd.DeviceID) : Provider :=
  match r_byOUI r !! Cmd.OUI id with
  | Some p => p
  | None => r_generic r
  end.

Definition ForOUI (r : Registry) (oui : Z) : option Provider := r_byOUI r !! oui.

(** In the order of the map's iteration, which Go leaves open. *)
Definition Names (r : Registry) : list octets := map (fun p => Name p.2) (map_to_list (r_byOUI r)).

(** ** What a provider promises *)

(** At least as cautious: the counts as claimed, no channel and no room the device
    did not offer. A size of zero is one the device did not state. *)
Record cautious (c reported : Capabilities) : Prop := mk_cautious {
  ca_counts : (c_Readers c, c_LEDs c, c_Buzzers c, c_Displays c, c_Inputs c, c_Outputs c) =
    (c_Readers reported, c_LEDs reported, c_Buzzers reported, c_Displays reported, c_Inputs reported, c_Outputs reported);
  ca_secure : c_SecureChannel c = true -> c_SecureChannel reported = true;
  ca_size : c_MaxMessageSize reported <> 0 -> c_MaxMessageSize c <> 0 /\ c_MaxMessageSize c <= c_MaxMessageSize reported
}.

Class Honest (p : Provider) : Prop := {
  honest_cautious id c : cautious (Reconcile p id c) c;
  honest_idempotent id c : Reconcile p id (Reconcile p id c) = Reconcile p id c
}.

Lemma cautious_refl c : cautious c c.
Proof. by split. Qed.

#[export] Instance Generic_honest : Honest Generic.
Proof. split; [intros id c; apply cautious_refl|done]. Qed.

#[export] Instance Vendor_honest v : Honest (vendor_provider v).
Proof.
  split; intros id c; cbn [Reconcile vendor_provider]; unfold Vendor_Reconcile;
    destruct (decide (Z.land (v_Quirks v) QuirkNoSecureChannel <> 0)), (decide (Z.land (v_Quirks v) QuirkSmallMessages <> 0 /\ v_MaxMessageSize v > 0));
    destruct c; cbn; repeat case_decide; try done; split; cbn; try done; lia.
Qed.

Lemma byOUI_spec ps (m : gmap Z Provider) oui : fold_left (fun (m : gmap Z Provider) p => <[OUI p := p]> m) ps m !! oui =
  match last (filter (fun p => OUI p = oui) ps) with Some p => Some p | None => m !! oui end.
Proof.
  revert m. induction ps as [|p ps IH]; intros m; [done|]. cbn [fold_left]. rewrite IH, filter_cons.
  case_decide as Ho; rewrite ?last_cons; destruct (last (filter _ ps)); try done.
  - by rewrite Ho, lookup_insert_eq.
  - by rewrite lookup_insert_ne.
Qed.

(** Resolution: the last provider given with the device's identifier, or the generic one. *)
Theorem For_resolves ps id :
  For (NewRegistry ps) id = default Generic (last (filter (fun p => OUI p = Cmd.OUI id) ps)).
Proof. unfold For, NewRegistry. cbn. rewrite byOUI_spec. by destruct (last _). Qed.

Lemma For_elem ps id : For (NewRegistry ps) id = Generic \/ For (NewRegistry ps) id ∈ ps.
Proof.
  unfold For, NewRegistry. cbn. rewrite byOUI_spec. destruct (last _) as [p|] eqn:Hl; [right|by left].
  apply last_Some_elem_of in Hl. by apply list_elem_of_filter in Hl as [_ Hl].
Qed.

(** Declared, and applied by nothing. *)
Lemma underreports_ignored v id c :
  Vendor_Reconcile (mk_Vendor (v_VendorName v) (v_VendorOUI v) (Z.lor (v_Quirks v) QuirkUnderreportsLEDs) (v_MaxMessageSize v) (v_Decode v)) id c
  = Vendor_Reconcile v id c.
Proof.
  unfold Vendor_Reconcile, QuirkNoSecureChannel, QuirkUnderreportsLEDs, QuirkSmallMessages. cbn [v_Quirks v_MaxMessageSize].
  rewrite !Z.land_lor_distr_l. change (Z.land 2 1) with 0. change (Z.land 2 4) with 0. by rewrite !Z.lor_0_r.
Qed.

(** A size cap without its quirk is not a cap. *)
Lemma size_needs_quirk v id c : Z.land (v_Quirks v) QuirkSmallMessages = 0 ->
  c_MaxMessageSize (Vendor_Reconcile v id c) = c_MaxMessageSize c.
Proof.
  intros H0. unfold Vendor_Reconcile. rewrite (decide_False (P := _ /\ _)) by tauto. by case_decide.
Qed.

(** A vendor message passes through the providers that do not know it. *)
Lemma extension_roundtrip v m : v_Decode v = None -> Cmd.mm_OUI m <> 0 ->
  (exists e, DecodeExtension Generic m = inr e /\ x_Recognised e = false /\ EncodeExtension Generic e = inr m) /\
  (exists e, Vendor_DecodeExtension v m = inr e /\ x_Recognised e = false /\ Vendor_EncodeExtension v e = inr m).
Proof.
  intros Hv Ho. unfold Vendor_DecodeExtension, Vendor_EncodeExtension. rewrite Hv. destruct m as [oui body]. cbn in *.
  split; (eexists; split_and!; [done|done|]); cbn; [done|]. by rewrite decide_False.
Qed.

(** Whatever vendors of its own an application registers, honest ones leave the panel
    believing no more than the device reported. *)
Lemma reconciled_cautious ps id c : Forall Honest ps ->
  let p := For (NewRegistry ps) id in
  cautious (Reconcile p id c) c /\ Reconcile p id (Reconcile p id c) = Reconcile p id c.
Proof.
  intros Hps p. assert (Hp : Honest p).
  { destruct (For_elem ps id) as [E'|Hin]; [unfold p; rewrite E'; apply _|]. by apply (proj1 (Forall_forall _ _) Hps). }
  split; [apply honest_cautious|apply honest_idempotent].
Qed.

(** ** What a report says

    Beside [Cmd.Get]: the first entry of a function, and a number it states, which is
    zero when there is no entry. *)
Definition entry (r : Cmd.CapabilityReport) (fn : Z) (e : Cmd.Capability) : Prop :=
  exists before after, r = before ++ e :: after /\ Cmd.c_Function e = fn /\ Forall (fun x => Cmd.c_Function x <> fn) before.

Definition states (r : Cmd.CapabilityReport) (fn : Z) (f : Cmd.Capability -> Z) (n : Z) : Prop :=
  (exists e, entry r fn e /\ n = f e) \/ (Forall (fun x => Cmd.c_Function x <> fn) r /\ n = 0).

(** The largest message, low octet first. *)
Definition size_of (e : Cmd.Capability) : Z := Z.lor (Z.shiftl (Cmd.c_Items e) 8) (Cmd.c_Compliance e).

Lemma Get_entry r fn : match Cmd.Get r fn with
  | Some e => entry r fn e
  | None => Forall (fun x => Cmd.c_Function x <> fn) r
  end.
Proof.
  induction r as [|x r IH]; cbn [Cmd.Get]; [by apply Forall_nil|]. case_decide as Hx.
  { exists [], r. by split_and!. }
  destruct (Cmd.Get r fn) as [e|]; [|by apply Forall_cons]. destruct IH as (l & k & -> & He & Hl).
  exists (x :: l), k. split_and!; [done|done|by apply Forall_cons].
Qed.

Lemma entry_unique r fn e e' : entry r fn e -> entry r fn e' -> e = e'.
Proof.
  intros (l & k & -> & He & Hl) (l' & k' & Eq & He' & Hl'). revert l' Eq Hl'.
  induction Hl as [|x l Hx Hl IH]; intros [|x' l'] Eq Hl'; cbn in Eq; injection Eq as E1 E2; subst.
  - done.
  - by apply Forall_cons in Hl' as [? _].
  - done.
  - apply Forall_cons in Hl' as [_ Hl']. by apply (IH l').
Qed.

Lemma ItemsOf_states r fn : states r fn Cmd.c_Items (Cmd.ItemsOf r fn).
Proof. unfold states, Cmd.ItemsOf. pose proof (Get_entry r fn). destruct (Cmd.Get r fn) as [e|]; [left; by exists e|by right]. Qed.

Lemma ReceiveBufferSize_states r : states r 0x0A size_of (Cmd.ReceiveBufferSize r).
Proof.
  unfold states, Cmd.ReceiveBufferSize. change Cmd.FuncReceiveBuffer with 0x0A. pose proof (Get_entry r 0x0A).
  destruct (Cmd.Get r 0x0A) as [e|]; [left; by exists e|by right].
Qed.

Lemma land_bit x n : 0 <= n -> Z.land x (2 ^ n) <> 0 <-> Z.testbit x n = true.
Proof.
  intros Hn. split.
  - intros Hx. destruct (Z.testbit x n) eqn:Eb; [done|]. destruct Hx. apply Z.bits_inj'. intros i Hi.
    rewrite Z.land_spec, Z.pow2_bits_eqb, Z.bits_0 by done. destruct (Z.eqb_spec n i) as [->|]; [by rewrite Eb|by rewrite andb_false_r].
  - intros Hx H0. pose proof (f_equal (fun y => Z.testbit y n) H0) as Hb. cbv beta in Hb.
    by rewrite Z.land_spec, Hx, Z.pow2_bits_true, Z.bits_0 in Hb by done.
Qed.

Lemma SecureChannel_declared r : (Cmd.SecureChannel r).1 = true <-> exists e, entry r 0x09 e /\ Z.testbit (Cmd.c_Compliance e) 0 = true.
Proof.
  unfold Cmd.SecureChannel. change Cmd.FuncCommSecurity with 0x09. pose proof (Get_entry r 0x09) as Hg.
  destruct (Cmd.Get r 0x09) as [e|]; cbn [fst].
  - rewrite bool_decide_eq_true. change Cmd.SecurityAES128 with (2 ^ 0). rewrite land_bit by done. split; [by exists e|].
    intros (e' & He & Hb). by rewrite (entry_unique r 0x09 e e' Hg He).
  - split; [done|]. intros (e & (l & k & -> & He & _) & _). by apply Forall_app in Hg as [_ [? _]%Forall_cons].
Qed.

Lemma last_filter_map vs oui : last (filter (fun p => OUI p = oui) (map vendor_provider vs)) =
  option_map vendor_provider (last (filter (fun v => v_VendorOUI v = oui) vs)).
Proof.
  induction vs as [|v vs IH]; [done|]. cbn [map]. rewrite !filter_cons. cbn [OUI vendor_provider].
  case_decide; [|done]. rewrite !last_cons, IH. by destruct (last (filter _ vs)).
Qed.

(** The vendor a device is resolved to, and the size that vendor's quirk makes of one. *)
Definition resolved (vs : list Vendor) (id : Cmd.DeviceID) : option Vendor :=
  last (filter (fun v => v_VendorOUI v = Cmd.OUI id) vs).

Definition capped (v : option Vendor) (size : Z) : Z :=
  match v with
  | Some v =>
      if Z.testbit (v_Quirks v) 2 && (0 <? v_MaxMessageSize v) && ((size =? 0) || (v_MaxMessageSize v <? size))
      then v_MaxMessageSize v else size
  | None => size
  end.

Lemma reconciled v id c :
  let p := match v with Some v => vendor_provider v | None => Generic end in
  Reconcile p id c = c <| c_MaxMessageSize := capped v (c_MaxMessageSize c) |>
    <| c_SecureChannel := c_SecureChannel c && match v with Some v => negb (Z.testbit (v_Quirks v) 0) | None => true end |>.
Proof.
  cbv zeta. destruct c as [n1 n2 n3 n4 n5 n6 s m]. destruct v as [v|]; [|cbn; by rewrite andb_true_r].
  cbn [Reconcile vendor_provider capped]. unfold Vendor_Reconcile.
  change QuirkNoSecureChannel with (2 ^ 0). change QuirkSmallMessages with (2 ^ 2).
  pose proof (land_bit (v_Quirks v) 0 ltac:(done)) as B0. pose proof (land_bit (v_Quirks v) 2 ltac:(done)) as B2.
  revert B0 B2. generalize (Z.testbit (v_Quirks v) 0) as b0, (Z.testbit (v_Quirks v) 2) as b2. intros b0 b2 B0 B2.
  destruct (decide (Z.land (v_Quirks v) (2 ^ 0) <> 0)) as [H0|H0];
    [rewrite (proj1 B0 H0)|rewrite (not_true_is_false _ (fun H => H0 (proj2 B0 H)))];
    (destruct (decide (Z.land (v_Quirks v) (2 ^ 2) <> 0 /\ v_MaxMessageSize v > 0)) as [[H2 Hm]|H2];
      [rewrite (proj1 B2 H2), (proj2 (Z.ltb_lt 0 _)) by lia; cbn|]);
    cbn; rewrite ?andb_true_r, ?andb_false_r.
  all: try (case_decide as Hc; [rewrite (proj2 (orb_true_iff _ _)) by (destruct Hc; [left|right]; lia)|
    rewrite (proj2 (orb_false_iff _ _)) by (split; lia)]; done).
  all: destruct b2; [|done]; rewrite (proj2 (Z.ltb_ge 0 _)); [done|].
  all: destruct (Z.le_gt_cases (v_MaxMessageSize v) 0); [done|]; destruct H2; split; [by apply B2|lia].
Qed.

(** C24. What the panel believes of a device is what the device reported, less what its
    vendor is known to oversell. Whatever vendors are registered, after [FromReport] and
    [Reconcile] of the provider the device's identifier resolves to, each count is the
    one the report's first entry of that function states (zero with no entry); the device
    is taken to have a secure channel exactly when the report's entry for communication
    security has the AES-128 bit and the vendor has not the quirk against it; and the
    largest message is the one the report states, lowered to (or, unstated, set to) the
    vendor's own limit when the vendor has that quirk, and else left alone. Reconciling
    again changes nothing. *)
Theorem negotiation vs id r :
  let p := For (NewRegistry (map vendor_provider vs)) id in
  let c := Reconcile p id (FromReport r) in
  states r 0x0D Cmd.c_Items (c_Readers c) /\ states r 0x04 Cmd.c_Items (c_LEDs c) /\
  states r 0x05 Cmd.c_Items (c_Buzzers c) /\ states r 0x06 Cmd.c_Items (c_Displays c) /\
  states r 0x01 Cmd.c_Items (c_Inputs c) /\ states r 0x02 Cmd.c_Items (c_Outputs c) /\
  (c_SecureChannel c = true <->
    (exists e, entry r 0x09 e /\ Z.testbit (Cmd.c_Compliance e) 0 = true) /\
    forall v, resolved vs id = Some v -> Z.testbit (v_Quirks v) 0 = false) /\
  (exists size, states r 0x0A size_of size /\ c_MaxMessageSize c = capped (resolved vs id) size) /\
  Reconcile p id c = c.
Proof.
  intros p c. assert (Hp : p = match resolved vs id with Some v => vendor_provider v | None => Generic end).
  { unfold p, For, NewRegistry, resolved. cbn [r_byOUI r_generic]. rewrite byOUI_spec, last_filter_map.
    by destruct (last (filter _ vs)). }
  assert (Hall : Reconcile p id c = c).
  { apply (proj2 (reconciled_cautious (map vendor_provider vs) id (FromReport r) ltac:(apply Forall_map, Forall_true, _))). }
  rewrite <- SecureChannel_declared. unfold c in *. clear c. rewrite Hp in *. rewrite (reconciled (resolved vs id) id (FromReport r)) in *.
  unfold FromReport in *. destruct (Cmd.SecureChannel r) as [capable dk] eqn:Es.
  cbn [c_Readers c_LEDs c_Buzzers c_Displays c_Inputs c_Outputs c_SecureChannel c_MaxMessageSize update fst] in *.
  repeat (split; [apply ItemsOf_states|]). split; [|split; [exists (Cmd.ReceiveBufferSize r); split; [apply ReceiveBufferSize_states|done]|done]].
  rewrite andb_true_iff. apply and_iff_compat_l. destruct (resolved vs id) as [v|]; [|split; [by intros _ v|done]].
  rewrite negb_true_iff. split; [by intros ? ? [= <-]|auto].
Qed.
End providers.

(** ** A vendor that oversells *)

(** testdata/vendor.hex, cap-quirked-vendor: AES-128 and 1024 octets claimed, neither believed. *)
Definition quirked : Vendor unit :=
  mk_Vendor unit (str "quirked") 0x123456 (Z.lor QuirkNoSecureChannel QuirkSmallMessages) 128 None.
Definition quirked_id : Cmd.DeviceID := Cmd.mk_DeviceID [0x12; 0x34; 0x56] 0 0 0 [0; 0; 0].
Definition quirked_report : Cmd.CapabilityReport :=
  [Cmd.mk_Capability Cmd.FuncCommSecurity 1 0; Cmd.mk_Capability Cmd.FuncReceiveBuffer 0 4].

Definition negotiated (ps : list (Provider unit)) : Capabilities :=
  Reconcile unit (For unit (NewRegistry unit ps) quirked_id) quirked_id (FromReport quirked_report).

Example negotiated_quirked :
  (c_SecureChannel (FromReport quirked_report), c_MaxMessageSize (FromReport quirked_report)) = (true, 1024) /\
  (c_SecureChannel (negotiated [vendor_provider unit quirked]), c_MaxMessageSize (negotiated [vendor_provider unit quirked])) = (false, 128) /\
  negotiated [vendor_provider unit (HID unit)] = FromReport quirked_report.
Proof. split_and!; vm_compute; reflexivity. Qed.
