(* ===== verification/Callers.v ===== *)
(** * Callers and the run loop: internal/panel/send.go and configure.go

    Send, InstallKey and SetCommunication cross from any goroutine to the run loop
    over a channel of requests, and back over each request's own [done] channel of
    one. Here the goroutines are explicit: [step] is one move of one caller, of the run
    loop or of whoever consumes the events, and an execution is any interleaving. A
    caller's two [select]s are two phases, and the branch taken when several are ready is
    left open as Go leaves it. The loop of panel.go is in one of three places: draining
    the requests, in an exchange of the cycle (any steps of the bus, one move here, since
    the bus is its own), or in [emit], which waits while the event channel is full: it
    then reads no requests. [y_log] and [y_accepted] only record: what was answered, and
    in which order the channel took requests. *)

From S2P Require Import Prelude Errors.
From S2P Require Frame Cmd Secure Device Bus BusFacts BusLaws Panel.
Import Panel (request, queue, defaultRequestQueue).

(** What a call returned: what the run loop answered, that the panel is not running, or
    the context's error. *)
Inductive outcome :=
  | Answered (e : option error)
  | NotRunning
  | Cancelled (e : error).

Inductive phase := Submitting | Waiting | Returned (o : outcome).

Record caller := mk_caller { a_req : request; a_phase : phase }.

(** Where the run loop is. *)
Inductive place :=
  | Draining
  | Cycling
  | Emitting (ev : Bus.Event).

Record system := mk_system {
  y_bus : Bus.Bus;
  y_loop : place;
  y_buffer : nat;
  y_events : list Bus.Event;
  y_cap : nat;
  y_chan : list nat;
  y_callers : gmap nat caller;
  y_done : gmap nat (option error);
  y_stopped : bool;
  y_log : list (nat * option error);
  y_accepted : list nat
}.

#[export] Instance system_eta : Eta system := fun y =>
  mk_system (y_bus y) (y_loop y) (y_buffer y) (y_events y) (y_cap y) (y_chan y) (y_callers y) (y_done y) (y_stopped y) (y_log y) (y_accepted y).

(** A panel whose event channel holds [buffer]. *)
Definition initial (b : Bus.Bus) (buffer : nat) : system :=
  mk_system b Draining buffer [] (Z.to_nat defaultRequestQueue) [] ∅ ∅ false [] [].

(** The caller [i] moves on. *)
Definition moves (i : nat) (c : caller) (ph : phase) (y : system) : system :=
  y <| y_callers := <[i := mk_caller (a_req c) ph]> (y_callers y) |>.

Definition at_phase (y : system) (i : nat) (c : caller) (ph : phase) : Prop :=
  y_callers y !! i = Some c /\ a_phase c = ph.

(** The run loop's moves: [drainRequests] answers one request, or finds none; the rest of
    [cycle] up to its event; and [emit], while there is room. *)
Inductive loop_move (y : system) : system -> Prop :=
  | l_drain i c rest b e : y_stopped y = false -> y_loop y = Draining -> y_chan y = i :: rest -> y_callers y !! i = Some c ->
      queue (y_bus y) (a_req c) = (b, e) ->
      loop_move y (y <| y_bus := b |> <| y_chan := rest |> <| y_done := <[i := e]> (y_done y) |>
                     <| y_log := y_log y ++ [(i, e)] |>)
  | l_drained : y_stopped y = false -> y_loop y = Draining -> y_chan y = [] -> loop_move y (y <| y_loop := Cycling |>)
  | l_cycle b ev : y_stopped y = false -> y_loop y = Cycling -> rtc BusFacts.bus_step (y_bus y) b ->
      loop_move y (y <| y_bus := b |>
                     <| y_loop := if decide (Bus.e_Kind ev = Bus.KindNone) then Draining else Emitting ev |>)
  | l_emit ev : y_stopped y = false -> y_loop y = Emitting ev -> (length (y_events y) < y_buffer y)%nat ->
      loop_move y (y <| y_events := y_events y ++ [ev] |> <| y_loop := Draining |>).

(** The consumer of the events receives one: the oldest, or, when none is held, the one
    the loop is waiting to hand over. *)
Inductive consumer_move (y : system) : system -> Prop :=
  | t_held ev rest : y_events y = ev :: rest -> consumer_move y (y <| y_events := rest |>)
  | t_handed ev : y_events y = [] -> y_stopped y = false -> y_loop y = Emitting ev ->
      consumer_move y (y <| y_loop := Draining |>).

(** The loop may stop anywhere: its context is cancelled, or the port fails. *)
Inductive step (y : system) : system -> Prop :=
  | s_call i req : y_callers y !! i = None ->
      step y (moves i (mk_caller req Submitting) Submitting y)
  | s_submit i c : at_phase y i c Submitting -> (length (y_chan y) < y_cap y)%nat ->
      step y (moves i c Waiting y <| y_chan := y_chan y ++ [i] |> <| y_accepted := y_accepted y ++ [i] |>)
  | s_refused i c ph : at_phase y i c ph -> ph = Submitting \/ ph = Waiting -> y_stopped y = true ->
      step y (moves i c (Returned NotRunning) y)
  | s_cancelled i c ph e : at_phase y i c ph -> ph = Submitting \/ ph = Waiting ->
      step y (moves i c (Returned (Cancelled e)) y)
  | s_answered i c e : at_phase y i c Waiting -> y_done y !! i = Some e ->
      step y (moves i c (Returned (Answered e)) y <| y_done := delete i (y_done y) |>)
  | s_loop y' : loop_move y y' -> step y y'
  | s_consume y' : consumer_move y y' -> step y y'
  | s_stop : y_stopped y = false -> step y (y <| y_stopped := true |>).

(** ** The invariant *)

Record orderly (y : system) : Prop := mk_orderly {
  oy_fifo : y_accepted y = map fst (y_log y) ++ y_chan y;
  oy_once : NoDup (y_accepted y);
  oy_known i : i ∈ y_accepted y -> exists c, y_callers y !! i = Some c /\ a_phase c <> Submitting;
  oy_done i e : y_done y !! i = Some e -> (i, e) ∈ y_log y;
  oy_waiting i c : at_phase y i c Waiting -> i ∈ y_chan y \/ is_Some (y_done y !! i);
  oy_answered i c e : at_phase y i c (Returned (Answered e)) -> (i, e) ∈ y_log y;
  oy_room : (length (y_chan y) <= y_cap y)%nat /\ (length (y_events y) <= y_buffer y)%nat
}.

Lemma at_moves i c ph y j c' ph' : at_phase (moves i c ph y) j c' ph' ->
  (j = i /\ c' = mk_caller (a_req c) ph /\ ph' = ph) \/ (j <> i /\ at_phase y j c' ph').
Proof.
  unfold at_phase, moves. cbn. destruct (decide (j = i)) as [->|Hne].
  - rewrite lookup_insert_eq. intros [[= <-] <-]. by left.
  - rewrite lookup_insert_ne by done. tauto.
Qed.

(** Moving a caller on keeps what is known of those already taken by the channel. *)
Lemma known_moves y i c ph : ph <> Submitting ->
  (forall j, j ∈ y_accepted y -> exists c, y_callers y !! j = Some c /\ a_phase c <> Submitting) ->
  forall j, j ∈ y_accepted y -> exists c', y_callers (moves i c ph y) !! j = Some c' /\ a_phase c' <> Submitting.
Proof.
  intros Hph H j Hj. unfold moves. cbn. destruct (decide (j = i)) as [->|].
  - rewrite lookup_insert_eq. by eexists.
  - rewrite lookup_insert_ne by done. by apply H.
Qed.

(** A call given up leaves everything else as it was. *)
Lemma orderly_gives_up y i c o : orderly y -> (forall e, o <> Answered e) -> orderly (moves i c (Returned o) y).
Proof.
  intros [F1 F2 F3 F4 F5 F6 [F7 F8]] Ho. split; try done.
  - intros j Hj. by apply known_moves.
  - intros j c' [(_ & _ & [=])|[_ Ha]]%at_moves. by apply (F5 j c').
  - intros j c' e [(_ & _ & [= E])|[_ Ha]]%at_moves; [by destruct (Ho e)|by apply (F6 j c')].
Qed.

Lemma orderly_submit y i c : orderly y -> at_phase y i c Submitting -> (length (y_chan y) < y_cap y)%nat ->
  orderly (moves i c Waiting y <| y_chan := y_chan y ++ [i] |> <| y_accepted := y_accepted y ++ [i] |>).
Proof.
  intros [F1 F2 F3 F4 F5 F6 [F7 F8]] [Hi Hp] Hroom. assert (Hnew : i ∉ y_accepted y).
  { intros Hin. destruct (F3 i Hin) as (c' & E & Hc). congruence. }
  split; cbn [y_accepted y_log y_chan y_callers y_done update].
  - by rewrite F1, app_assoc.
  - apply NoDup_app. split; [done|]. split; [|apply NoDup_singleton]. intros j Hj ->%list_elem_of_singleton. done.
  - intros j [Hj| ->%list_elem_of_singleton]%elem_of_app; [by apply known_moves|].
    unfold moves. cbn. rewrite lookup_insert_eq. by eexists.
  - done.
  - intros j c' Ha. apply at_moves in Ha as [(-> & _)|[_ Ha]].
    + left. apply elem_of_app. right. by left.
    + destruct (F5 j c' Ha); [left; apply elem_of_app; by left|by right].
  - intros j c' e Ha. apply at_moves in Ha as [(_ & _ & [=])|[_ Ha]]. by apply (F6 j c').
  - cbn. rewrite length_app. cbn. split; [lia|done].
Qed.

Lemma orderly_answered y i c e : orderly y -> at_phase y i c Waiting -> y_done y !! i = Some e ->
  orderly (moves i c (Returned (Answered e)) y <| y_done := delete i (y_done y) |>).
Proof.
  intros [F1 F2 F3 F4 F5 F6 [F7 F8]] Hi Hd. split; cbn [y_accepted y_log y_chan y_callers y_done update]; try done.
  - intros j Hj. by apply known_moves.
  - intros j e' [_ Hj]%lookup_delete_Some. by apply F4.
  - intros j c' Ha. apply at_moves in Ha as [(_ & _ & [=])|[Hne Ha]]. destruct (F5 j c' Ha); [by left|right].
    by rewrite lookup_delete_ne.
  - intros j c' e' Ha. apply at_moves in Ha as [(-> & _ & [= <-])|[_ Ha]]; [by apply F4|by apply (F6 j c')].
Qed.

Lemma orderly_drain y i rest b e : orderly y -> y_chan y = i :: rest ->
  orderly (y <| y_bus := b |> <| y_chan := rest |> <| y_done := <[i := e]> (y_done y) |> <| y_log := y_log y ++ [(i, e)] |>).
Proof.
  intros [F1 F2 F3 F4 F5 F6 [F7 F8]] Hc. split; cbn [y_accepted y_log y_chan y_callers y_done update]; try done.
  - rewrite F1, Hc, map_app, <- app_assoc. done.
  - intros j e' [[<- <-]|[_ Hj]]%lookup_insert_Some; apply elem_of_app; [right; by left|left; by apply F4].
  - intros j c' Ha. destruct (decide (j = i)) as [->|Hne]; [right; by rewrite lookup_insert_eq|].
    destruct (F5 j c' Ha) as [Hj|Hj]; [|right; by rewrite lookup_insert_ne].
    rewrite Hc in Hj. apply elem_of_cons in Hj as [?|?]; [done|by left].
  - intros j c' e' Ha. apply elem_of_app. left. by apply (F6 j c').
  - rewrite Hc in F7. cbn in *. split; [lia|done].
Qed.

Lemma orderly_loop y y' : orderly y -> loop_move y y' -> orderly y'.
Proof.
  intros Hy Hl. destruct Hl as [i c rest b e Hst Hp Hc Ei Hq|Hst Hp Hc|b ev Hst Hp Hb|ev Hst Hp Hr].
  - by apply orderly_drain.
  - by destruct Hy.
  - by destruct Hy.
  - destruct Hy as [F1 F2 F3 F4 F5 F6 [F7 F8]]. split; try done. split; [done|]. cbn. rewrite length_app. cbn. lia.
Qed.

Lemma orderly_consumer y y' : orderly y -> consumer_move y y' -> orderly y'.
Proof.
  intros [F1 F2 F3 F4 F5 F6 [F7 F8]] [ev rest He|ev He Hst Hp]; split; try done. split; [done|].
  rewrite He in F8. cbn in *. lia.
Qed.

Lemma orderly_step y y' : orderly y -> step y y' -> orderly y'.
Proof.
  intros Hy Hs. destruct Hs as [i req Hn|i c Ha Hl|i c ph Ha Hp Hst|i c ph e Ha Hp|i c e Ha Hd|y' Hl|y' Hl|Hst].
  - destruct Hy as [F1 F2 F3 F4 F5 F6 [F7 F8]]. split; try done.
    + intros j Hj. destruct (F3 j Hj) as (c & Ec & Hph). exists c. unfold moves. cbn.
      by rewrite lookup_insert_ne by congruence.
    + intros j c' [(_ & _ & [=])|[_ Ha]]%at_moves. by apply (F5 j c').
    + intros j c' e [(_ & _ & [=])|[_ Ha]]%at_moves. by apply (F6 j c').
  - by apply orderly_submit.
  - by apply orderly_gives_up.
  - by apply orderly_gives_up.
  - by apply orderly_answered.
  - by eapply orderly_loop.
  - by eapply orderly_consumer.
  - by destruct Hy.
Qed.

Lemma orderly_initial b buffer : orderly (initial b buffer).
Proof.
  split; cbn [initial y_accepted y_log y_chan y_callers y_done].
  - done.
  - apply NoDup_nil_2.
  - by intros i ?%elem_of_nil.
  - intros i e. by rewrite lookup_empty.
  - intros i c [E _]. cbn in E. by rewrite lookup_empty in E.
  - intros i c e [E _]. cbn in E. by rewrite lookup_empty in E.
  - cbn. lia.
Qed.

(** The queue's verdict on every drained request is what its log entry says. *)
Definition verdicts (y : system) : Prop :=
  forall i e, (i, e) ∈ y_log y -> exists c b b', y_callers y !! i = Some c /\ queue b (a_req c) = (b', e).

Lemma verdicts_moves i c ph y : y_callers y !! i = Some c \/ y_callers y !! i = None -> verdicts y -> orderly y -> verdicts (moves i c ph y).
Proof.
  intros Hc Hv Hy j e Hj. destruct (Hv j e Hj) as (c' & b & b' & Ec & Eq). unfold moves. cbn.
  destruct (decide (j = i)) as [->|].
  - rewrite lookup_insert_eq. destruct Hc; simplify_eq. by eexists _, b, b'.
  - rewrite lookup_insert_ne by done. by exists c', b, b'.
Qed.

Lemma verdicts_step y y' : verdicts y -> orderly y -> step y y' -> verdicts y'.
Proof.
  intros Hv Hy Hs. destruct Hs as [i req Hn|i c [Hi _] Hl|i c ph [Hi _] Hp Hst|i c ph e [Hi _] Hp|i c e [Hi _] Hd|y' Hl|y' Hl|Hst]; try done.
  - apply verdicts_moves; [by right|done|done].
  - apply (verdicts_moves i c Waiting y); [by left|done|done].
  - apply verdicts_moves; [by left|done|done].
  - apply verdicts_moves; [by left|done|done].
  - apply (verdicts_moves i c _ y); [by left|done|done].
  - destruct Hl as [i c rest b e Hst Hp Hc Ei Hq| | |]; try done.
    intros j e' [Hj|Hj%list_elem_of_singleton]%elem_of_app; [by apply Hv|]. injection Hj as -> ->. by exists c, (y_bus y), b.
  - by destruct Hl.
Qed.

Lemma steps_kept y y' : rtc step y y' -> orderly y -> verdicts y -> orderly y' /\ verdicts y'.
Proof.
  induction 1 as [|y0 y1 y2 Hs _ IH]; intros Hy Hv; [done|]. apply IH; [by eapply orderly_step|by eapply verdicts_step].
Qed.

Lemma reachable_kept b buffer y : rtc step (initial b buffer) y -> orderly y /\ verdicts y.
Proof. intros Hr. apply (steps_kept _ _ Hr); [apply orderly_initial|]. by intros i e ?%elem_of_nil. Qed.

Lemma moves_at i c ph y : at_phase (moves i c ph y) i (mk_caller (a_req c) ph) ph.
Proof. unfold at_phase, moves. cbn. by rewrite lookup_insert_eq. Qed.

(** C21. Whatever the interleaving, the requests the channel took reach the bus in the order
    it took them, each at most once (what the channel holds when the loop stops never
    does); a call that returns an answer returns what the bus said to
    that one request; and a call still at its first select has not touched the bus. *)
Theorem calls_accounted b buffer y : rtc step (initial b buffer) y ->
  y_accepted y = map fst (y_log y) ++ y_chan y /\ NoDup (y_accepted y) /\
  (forall i c e, at_phase y i c (Returned (Answered e)) ->
     (i, e) ∈ y_log y /\ exists b b', queue b (a_req c) = (b', e)) /\
  (forall i c, at_phase y i c Submitting -> i ∉ y_accepted y).
Proof.
  intros Hr. destruct (reachable_kept b buffer y Hr) as [Hy Hv]. split; [apply Hy|]. split; [apply Hy|]. split.
  - intros i c e Ha. pose proof (oy_answered y Hy i c e Ha) as Hl. split; [done|].
    destruct (Hv i e Hl) as (c' & b1 & b' & Ec & Eq). destruct Ha as [Ec' _].
    simplify_eq. by exists b1, b'.
  - intros i c [Ec Hp] Hin. destruct (oy_known y Hy i Hin) as (c' & Ec' & Hc). congruence.
Qed.

(** ** No call is stuck *)

(** An execution in which the loop makes [n] moves, or more. *)
Inductive run : nat -> system -> system -> Prop :=
  | run_here y : run 0 y y
  | run_loop n y1 y2 y3 : loop_move y1 y2 -> run n y2 y3 -> run (Datatypes.S n) y1 y3
  | run_step n y1 y2 y3 : step y1 y2 -> run n y2 y3 -> run n y1 y3.

(** The place of [i] in the channel, from one. *)
Fixpoint nth_of (i : nat) (l : list nat) : nat :=
  match l with
  | [] => 0
  | j :: l => if decide (j = i) then 1 else Datatypes.S (nth_of i l)
  end.

(** How many moves the loop needs, at most, before [i]'s request is answered. *)
Definition due (y : system) (i : nat) : nat :=
  match y_loop y with Draining => 0 | Emitting _ => 1 | Cycling => 2 end + nth_of i (y_chan y).

(** The call has returned, or can at once. *)
Definition settled (y : system) (i : nat) : Prop :=
  y_stopped y = true \/ is_Some (y_done y !! i) \/ exists c o, at_phase y i c (Returned o).

Lemma nth_of_app i l k : i ∈ l -> nth_of i (l ++ k) = nth_of i l.
Proof.
  induction l as [|j l IH]; [by intros ?%elem_of_nil|]. cbn [nth_of app]. case_decide as Hj; [done|].
  intros [?|Hi]%elem_of_cons; [by subst|]. by rewrite IH.
Qed.

Lemma nth_of_bounds i l : i ∈ l -> (1 <= nth_of i l <= length l)%nat.
Proof.
  induction l as [|j l IH]; [by intros ?%elem_of_nil|]. cbn [nth_of length]. case_decide as Hj; [lia|].
  intros [?|Hi]%elem_of_cons; [by subst|]. specialize (IH Hi). lia.
Qed.

Lemma returned_moves y i c ph0 ph j c' o : at_phase y i c ph0 -> (forall o', ph0 <> Returned o') -> at_phase y j c' (Returned o) ->
  at_phase (moves i c ph y) j c' (Returned o).
Proof.
  intros [Ei Hi] Hn [Ej Hj]. unfold at_phase, moves. cbn. destruct (decide (j = i)) as [->|].
  - simplify_eq. by destruct (Hn o).
  - by rewrite lookup_insert_ne.
Qed.

Lemma settled_step y y' i : step y y' -> settled y i -> settled y' i.
Proof.
  intros Hs [H|[H|(c' & o & H)]].
  - left. by destruct Hs as [| | | | |? []|? []|].
  - destruct Hs as [| | | |j c e Ha Hd|? []|? []|]; try (by right; left).
    + destruct (decide (j = i)) as [->|]; [right; right; eexists _, _; apply moves_at|].
      right. left. cbn. by rewrite lookup_delete_ne.
    + right. left. cbn. match goal with |- is_Some (<[?j := _]> _ !! _) => destruct (decide (j = i)) as [->|] end;
        [rewrite lookup_insert_eq; by eexists|by rewrite lookup_insert_ne].
  - right. right. exists c', o. destruct Hs as [j req Hn|j c Ha Hl|j c ph Ha Hp _|j c ph e Ha Hp|j c e Ha Hd|? []|? []|]; try done.
    + destruct H as [E1 E2]. unfold at_phase, moves. cbn. by rewrite lookup_insert_ne by congruence.
    + by apply (returned_moves y j c Submitting Waiting).
    + apply (returned_moves y j c ph); [done|by destruct Hp as [->| ->]|done].
    + apply (returned_moves y j c ph); [done|by destruct Hp as [->| ->]|done].
    + by apply (returned_moves y j c Waiting).
Qed.

Lemma loop_due y y' i : loop_move y y' -> i ∈ y_chan y -> settled y' i \/ (i ∈ y_chan y' /\ (due y' i < due y i)%nat).
Proof.
  intros Hl Hi. destruct Hl as [j c rest b e Hst Hp Hc Ei Hq|Hst Hp Hc|b ev Hst Hp Hb|ev Hst Hp Hr]; unfold due; cbn.
  - rewrite Hc in *. destruct (decide (j = i)) as [->|Hne]; [left; right; left; cbn; by rewrite lookup_insert_eq|].
    right. apply elem_of_cons in Hi as [?|Hi]; [by subst|]. split; [done|]. rewrite Hp. cbn. rewrite decide_False by done. lia.
  - rewrite Hc in Hi. by apply elem_of_nil in Hi.
  - right. split; [done|]. rewrite Hp. case_decide; lia.
  - right. split; [done|]. rewrite Hp. lia.
Qed.

Lemma step_due y y' i : step y y' -> i ∈ y_chan y -> settled y' i \/ (i ∈ y_chan y' /\ (due y' i <= due y i)%nat).
Proof.
  intros Hs Hi. destruct Hs as [j req Hn|j c Ha Hl|j c ph Ha Hp _|j c ph e Ha Hp|j c e Ha Hd|? Hl|? Hl|]; try (by right; split; [|unfold due; cbn; lia]).
  - right. cbn. split; [apply elem_of_app; by left|]. unfold due. cbn. rewrite nth_of_app by done. lia.
  - destruct (loop_due _ _ i Hl Hi) as [?|[? ?]]; [by left|right; split; [done|lia]].
  - right. destruct Hl as [ev rest He|ev He Hst Hp]; unfold due; cbn; (split; [done|]); [done|]. rewrite Hp. lia.
Qed.

Lemma run_keeps n y y' i : run n y y' -> settled y i -> settled y' i.
Proof.
  induction 1 as [|n0 y1 y2 y3 Hl _ IH|n0 y1 y2 y3 Hl _ IH]; [done| |]; intros Hx; apply IH;
    (eapply settled_step; [|exact Hx]); [by apply s_loop|done].
Qed.

Lemma run_settles n y y' i : run n y y' -> i ∈ y_chan y ->
  settled y' i \/ (i ∈ y_chan y' /\ (n + due y' i <= due y i)%nat).
Proof.
  induction 1 as [y|n y1 y2 y3 Hl Hr IH|n y1 y2 y3 Hl Hr IH]; intros Hx.
  - by right.
  - destruct (loop_due y1 y2 i Hl Hx) as [Hs|[Hc Hd]]; [left; by apply (run_keeps n y2 y3 i Hr)|].
    destruct (IH Hc) as [?|[? ?]]; [by left|right; split; [done|lia]].
  - destruct (step_due y1 y2 i Hl Hx) as [Hs|[Hc Hd]]; [left; by apply (run_keeps n y2 y3 i Hr)|].
    destruct (IH Hc) as [?|[? ?]]; [by left|right; split; [done|lia]].
Qed.

(** The loop waits for nobody but the consumer of its events. *)
Definition blocked (y : system) : Prop := exists ev, y_loop y = Emitting ev /\ length (y_events y) = y_buffer y.

Lemma loop_lives y : orderly y -> y_stopped y = false ->
  (exists y', loop_move y y') \/
  (blocked y /\ (forall y', ~ loop_move y y') /\ (exists y1, consumer_move y y1) /\
   forall y1, consumer_move y y1 -> exists y2, loop_move y1 y2).
Proof.
  assert (Hfree : forall y, orderly y -> y_stopped y = false -> y_loop y = Draining -> exists y', loop_move y y').
  { intros y0 Hy Hs Hp. destruct (y_chan y0) as [|i l] eqn:Hc; [eexists; by apply l_drained|].
    destruct (oy_known y0 Hy i) as (c & Ei & _).
    { rewrite (oy_fifo y0 Hy), Hc. apply elem_of_app. right. by left. }
    destruct (queue (y_bus y0) (a_req c)) as [b e] eqn:Eq. eexists. by eapply l_drain. }
  intros Hy Hs. destruct (y_loop y) as [| |ev] eqn:Hp.
  - left. by apply Hfree.
  - left. eexists. by apply (l_cycle y (y_bus y) (Bus.event Bus.KindNone 0)).
  - destruct (decide (length (y_events y) < y_buffer y)%nat) as [Hl|Hl]; [left; eexists; by eapply l_emit|]. right.
    pose proof (proj2 (oy_room y Hy)) as Hroom. split; [exists ev; split; [done|lia]|]. split.
    { intros y' [? ? ? ? ? _ Hq|_ Hq|? ? _ Hq|? _ _ ?]; [congruence..|lia]. }
    destruct (y_events y) as [|e0 rest] eqn:He; (split; [eexists; by econstructor|]).
    + intros y1 Hm. pose proof (orderly_consumer _ _ Hy Hm) as Hy1. apply Hfree; [done|by destruct Hm|].
      destruct Hm as [|ev' Hn Hq Hr]; [congruence|done].
    + intros y1 Hm. destruct Hm as [e1 rest1 Hn|ev' Hn]; [|congruence]. rewrite He in Hn. injection Hn as -> ->.
      eexists. apply (l_emit _ ev); [done|done|]. cbn in *. lia.
Qed.

(** C22. No call is stuck while the panel's events are read. A call whose request was taken
    is answered, or the loop has stopped, by the time the loop has made eighteen moves (the
    channel's sixteen and the rest of one cycle), however many others call and whatever else
    happens between those moves; a move of the loop is always open, except that it waits in
    [emit] while the event channel is full, and then the consumer's next receive lets it go
    on. (A consumer that stops reading does block the loop, and with it every call, until a
    context is cancelled.) A call whose answer is ready returns it; one not taken yet waits
    only while the channel is full; and once the loop has stopped every call can return
    ErrNotRunning at once. *)
Theorem calls_return b buffer y i c : rtc step (initial b buffer) y -> y_callers y !! i = Some c ->
  (a_phase c = Waiting -> forall n y', run n y y' -> (18 <= n)%nat -> settled y' i) /\
  (y_stopped y = false -> (exists y', loop_move y y') \/
     (blocked y /\ (forall y', ~ loop_move y y') /\ (exists y1, consumer_move y y1) /\
      forall y1, consumer_move y y1 -> exists y2, loop_move y1 y2)) /\
  (a_phase c = Waiting -> is_Some (y_done y !! i) -> exists y' e, step y y' /\
     at_phase y' i (mk_caller (a_req c) (Returned (Answered e))) (Returned (Answered e)) /\ (i, e) ∈ y_log y') /\
  (a_phase c = Submitting -> (length (y_chan y) < 16)%nat -> exists y', step y y' /\
     at_phase y' i (mk_caller (a_req c) Waiting) Waiting) /\
  (y_stopped y = true -> a_phase c = Submitting \/ a_phase c = Waiting -> exists y',
     step y y' /\ at_phase y' i (mk_caller (a_req c) (Returned NotRunning)) (Returned NotRunning)).
Proof.
  intros Hr Ei. destruct (reachable_kept b buffer y Hr) as [Hy Hv].
  assert (Hcap : y_cap y = 16%nat).
  { clear Ei Hy Hv. remember (initial b buffer) as y0 eqn:E0. assert (y_cap y0 = 16%nat) as Hc by (by rewrite E0). clear E0.
    induction Hr as [|y0 y1 y2 Hs _ IH]; [done|]. apply IH. by destruct Hs as [| | | | |? []|? []|]. }
  pose proof (proj1 (oy_room y Hy)) as Hroom. split; [|split; [by intros Hs; apply loop_lives|split; [|split]]].
  - intros Hp n y' Hrun Hn. destruct (oy_waiting y Hy i c) as [Hin|Hd]; [done|..].
    + destruct (run_settles n y y' i Hrun Hin) as [?|[Hc Hl]]; [done|]. exfalso.
      pose proof (nth_of_bounds i _ Hin). pose proof (nth_of_bounds i _ Hc). unfold due in Hl.
      destruct (y_loop y), (y_loop y'); lia.
    + apply (run_keeps n y y' i Hrun). right. by left.
  - intros Hp [e He]. eexists _, e. split; [by eapply s_answered|]. split; [apply moves_at|]. by apply (oy_done y Hy).
  - intros Hp Hl. eexists. split; [eapply (s_submit y i c); [done|lia]|]. exact (moves_at i c Waiting y).
  - intros Hs Hp. eexists. split; [by eapply (s_refused y i c (a_phase c))|apply moves_at].
Qed.

(** ** Two callers on the demonstration bus *)

Definition beep : request := Panel.mk_request 0 (Cmd.BuzzerCommand 0 2 100000000 100000000 1) None None.
Definition calling (i : nat) (req : request) : system -> system := moves i (mk_caller req Submitting) Submitting.
Definition taken (i : nat) (req : request) (y : system) : system :=
  moves i (mk_caller req Submitting) Waiting y <| y_chan := y_chan y ++ [i] |> <| y_accepted := y_accepted y ++ [i] |>.
Definition drained (i : nat) (req : request) (y : system) : system :=
  y <| y_bus := (queue (y_bus y) req).1 |> <| y_chan := tail (y_chan y) |>
    <| y_done := <[i := (queue (y_bus y) req).2]> (y_done y) |> <| y_log := y_log y ++ [(i, (queue (y_bus y) req).2)] |>.

Definition one_taken : system := taken 0 beep (calling 0 beep (initial BusLaws.demo 16)).
Definition one_drained : system := drained 0 beep one_taken.

Lemma one_drained_reachable : rtc step (initial BusLaws.demo 16) one_drained.
Proof.
  eapply rtc_l; [by apply (s_call _ 0 beep)|]. eapply rtc_l.
  { apply (s_submit _ 0 (mk_caller beep Submitting)); [done|cbn; unfold defaultRequestQueue; lia]. }
  eapply rtc_l; [|apply rtc_refl].
  apply s_loop, (l_drain _ 0 (mk_caller beep Waiting) [] (queue BusLaws.demo beep).1 (queue BusLaws.demo beep).2); done.
Qed.

(** A call its context gave up on is not a command withdrawn: the request has been
    drained, the command is in the device's queue, and the caller is told it was cancelled. *)
Example cancelled_yet_queued : exists y,
  rtc step (initial BusLaws.demo 16) y /\
  at_phase y 0 (mk_caller beep (Returned (Cancelled (EPanel ErrNotRunning)))) (Returned (Cancelled (EPanel ErrNotRunning))) /\
  map Device.d_outbox (Bus.b_devices (y_bus y)) = [[Panel.q_msg beep]].
Proof.
  eexists. split; [|split].
  - eapply rtc_r; [apply one_drained_reachable|].
    apply (s_cancelled _ 0 (mk_caller beep Waiting) Waiting (EPanel ErrNotRunning)); [done|by right].
  - apply moves_at.
  - vm_compute. reflexivity.
Qed.

Lemma calls_accounted_witness : rtc step (initial BusLaws.demo 16) one_drained /\
  y_accepted one_drained = map fst (y_log one_drained) ++ y_chan one_drained /\ NoDup (y_accepted one_drained) /\
  (forall i c e, at_phase one_drained i c (Returned (Answered e)) ->
     (i, e) ∈ y_log one_drained /\ exists b b', queue b (a_req c) = (b', e)) /\
  (forall i c, at_phase one_drained i c Submitting -> i ∉ y_accepted one_drained).
Proof. split; [exact one_drained_reachable|]. exact (calls_accounted BusLaws.demo 16 one_drained one_drained_reachable). Defined.

(** The consumer of the events stopped reading: the loop waits to hand one over an
    unbuffered channel, and a call whose request was taken waits with it. *)
Example stalled_consumer : exists y ev,
  rtc step (initial BusLaws.demo 0) y /\ y_loop y = Emitting ev /\ at_phase y 0 (mk_caller beep Waiting) Waiting /\
  y_chan y = [0%nat] /\ forall y', ~ loop_move y y'.
Proof.
  set (ev := Bus.event Bus.KindOffline 0). set (y0 := initial BusLaws.demo 0).
  set (y1 := y0 <| y_loop := Emitting ev |>). exists (taken 0 beep (calling 0 beep y1)), ev.
  split; [|split; [done|split; [done|split; [done|]]]].
  - eapply rtc_l; [by apply s_loop, (l_drained y0)|]. eapply rtc_l.
    { apply s_loop, (l_cycle _ BusLaws.demo ev); [done|done|apply rtc_refl]. }
    eapply rtc_l; [by apply (s_call _ 0 beep)|]. eapply rtc_l; [|apply rtc_refl].
    apply (s_submit _ 0 (mk_caller beep Submitting)); [done|cbn; unfold defaultRequestQueue; lia].
  - intros y' [? ? ? ? ? _ Hq|_ Hq|? ? _ Hq|? _ _ Hl]; [done..|]. cbn in Hl. lia.
Qed.

Lemma one_taken_reachable : rtc step (initial BusLaws.demo 16) one_taken.
Proof.
  eapply rtc_l; [by apply (s_call _ 0 beep)|]. eapply rtc_l; [|apply rtc_refl].
  apply (s_submit _ 0 (mk_caller beep Submitting)); [done|cbn; unfold defaultRequestQueue; lia].
Qed.

Lemma calls_return_witness : exists c, y_callers one_taken !! 0%nat = Some c /\ a_phase c = Waiting /\
  (forall n y', run n one_taken y' -> (18 <= n)%nat -> settled y' 0) /\
  exists y', loop_move one_taken y'.
Proof.
  exists (mk_caller beep Waiting). split; [reflexivity|]. split; [reflexivity|].
  destruct (calls_return BusLaws.demo 16 one_taken 0 (mk_caller beep Waiting) one_taken_reachable eq_refl) as (H1 & H2 & _).
  split; [exact (H1 eq_refl)|]. destruct (H2 eq_refl) as [H|(_ & Hn & _)]; [exact H|].
  eexists. apply (l_drain _ 0 (mk_caller beep Waiting) [] (queue BusLaws.demo beep).1 (queue BusLaws.demo beep).2); reflexivity.
Defined.
