(* ===== verification/Delivery.v ===== *)
(** * A line over time

    Any number of exchanges on an established channel, with the device's own life
    between them: contacts move, cards are presented, the application queues
    commands. [end_to_end] says what came of every report and every command,
    [line_settles] that a line left alone delivers what it holds. The exchange is
    panel/cycle.go's over the two modelled ends (Enrol.transaction); the device's
    stimuli are pd/report.go and pd/status.go (PdLaws.react). *)

From S2P Require Import Prelude Errors.
From S2P Require Frame Cmd Secure Device Bus BusFacts BusLaws Pd PdFacts PdLaws System Enrol Panel.
Import PdLaws (stimulus, react).

(** ** What a report says *)

Inductive credential := CardCred (c : Cmd.CardRead) | KeysCred (k : Cmd.KeypadEntry).

(** As the panel reads a reply. *)
Definition decode (m : Cmd.Message) : option credential :=
  if decide (Cmd.m_Code m = Cmd.Raw) then
    match Cmd.ParseCardRead (Cmd.m_Data m) with Ok c => Some (CardCred c) | Err _ => None end
  else if decide (Cmd.m_Code m = Cmd.Keypad) then
    match Cmd.ParseKeypadEntry (Cmd.m_Data m) with Ok k => Some (KeysCred k) | Err _ => None end
  else None.

(** As the application hears of it. *)
Definition heard_of (e : option Bus.Event) : option credential :=
  match e with
  | Some ev =>
      match Bus.e_Kind ev with
      | Bus.KindCardRead => Some (CardCred (Bus.e_Card ev))
      | Bus.KindKeypad => Some (KeysCred (Bus.e_Keypad ev))
      | _ => None
      end
  | None => None
  end.

(** Answers the panel can read, of those that leave the channel as it is. *)
Inductive legible (m : Cmd.Message) : Prop :=
  | lg_ack : Cmd.m_Code m = Cmd.ACK -> legible m
  | lg_nak : Cmd.m_Code m = Cmd.NAK -> 1 <= len (Cmd.m_Data m) -> legible m
  | lg_credential : is_Some (decode m) -> legible m
  | lg_contacts : Cmd.m_Code m ∈ [Cmd.IStatR; Cmd.OStatR; Cmd.RStatR] -> legible m
  | lg_local : Cmd.m_Code m = Cmd.LStatR -> 2 <= len (Cmd.m_Data m) -> legible m.

(** ** The panel's end *)

(** What an answer of that kind leaves alone. *)
Record same_line (d d' : Device.Device) : Prop := mk_same_line {
  sl_address : Device.d_Address d' = Device.d_Address d;
  sl_state : Device.d_State d' = Device.d_State d;
  sl_session : Device.d_session d' = Device.d_session d;
  sl_seq : Device.d_seq d' = Device.d_seq d;
  sl_repeat : Device.d_repeatSequence d' = Device.d_repeatSequence d;
  sl_outbox : Device.d_outbox d' = Device.d_outbox d;
  sl_defer : Device.d_deferCommands d' = Device.d_deferCommands d;
  sl_inflight : Device.d_inflight d' = Device.d_inflight d;
  sl_misses : Device.d_misses d' = Device.d_misses d
}.

Lemma same_line_refl d : same_line d d.
Proof. by split. Qed.

Lemma onStatus_line d i parse data r : parse data = Ok r ->
  exists d' ev, Bus.onStatus d i parse data = (d', Ok ev) /\ same_line d d' /\ heard_of (Some ev) = None /\ Bus.e_Device ev = i.
Proof.
  intros E. unfold Bus.onStatus. rewrite E. unfold Device.statusChanges. destruct (fold_left _ _ _) as [m ch].
  case_decide; do 2 eexists; (split; [done|]); (split; [by split|done]).
Qed.

Lemma decode_some m x : decode m = Some x ->
  (exists c, Cmd.m_Code m = Cmd.Raw /\ Cmd.ParseCardRead (Cmd.m_Data m) = Ok c /\ x = CardCred c) \/
  (exists k, Cmd.m_Code m = Cmd.Keypad /\ Cmd.ParseKeypadEntry (Cmd.m_Data m) = Ok k /\ x = KeysCred k).
Proof.
  unfold decode. case_decide; [|case_decide; [|done]].
  - destruct (Cmd.ParseCardRead _) as [c|] eqn:E; [|done]. intros [= <-]. left. by exists c.
  - destruct (Cmd.ParseKeypadEntry _) as [k|] eqn:E; [|done]. intros [= <-]. right. by exists k.
Qed.

Lemma decode_other m : Cmd.m_Code m <> Cmd.Raw -> Cmd.m_Code m <> Cmd.Keypad -> decode m = None.
Proof. intros H1 H2. unfold decode. by rewrite !decide_False by done. Qed.

(** Follow a chain of comparisons of concrete codes. *)
Ltac branch := repeat first [rewrite decide_True by done|rewrite decide_False by done].

Lemma legible_dispatch b d i m : Device.d_State d <> Device.Offline -> Device.d_acknowledged d <> Cmd.KeySet -> legible m ->
  exists d' ev, Bus.dispatch b d i m = (d', Ok ev) /\ same_line d d' /\ heard_of (Some ev) = decode m /\ Bus.e_Device ev = i.
Proof.
  intros Hst Hack Hm.
  assert (Hoff : bool_decide (Device.d_State d = Device.Offline) = false) by (by apply bool_decide_eq_false_2).
  assert (Hk : Device.awaitingKeySet d = false).
  { unfold Device.awaitingKeySet. by rewrite (bool_decide_eq_false_2 (_ = Cmd.KeySet)), andb_false_r. }
  unfold Bus.dispatch. rewrite Hoff. destruct Hm as [Hc|Hc Hl|[x Hx]|Hc|Hc Hl].
  - rewrite (decode_other m), Hc by (rewrite Hc; done). branch. rewrite Hk. by eexists d, _.
  - rewrite (decode_other m), Hc by (rewrite Hc; done). branch. unfold Cmd.ParseNAK. rewrite decide_False by lia. cbn [Bus.on].
    do 2 eexists. split; [done|]. split; [|done]. by split.
  - rewrite Hx. apply decode_some in Hx as [(c & Hc & Hp & ->)|(k & Hc & Hp & ->)]; rewrite Hc; branch; rewrite Hp; cbn [Bus.on];
      do 2 eexists; (split; [done|]); (split; [apply same_line_refl|done]).
  - assert (E : decode m = None) by (apply decode_other; intros Hn; rewrite Hn in Hc; revert Hc; by rewrite !elem_of_cons, elem_of_nil; intuition).
    rewrite E. rewrite !elem_of_cons, elem_of_nil in Hc. destruct Hc as [Hc|[Hc|[Hc|[]]]]; rewrite Hc; branch; by eapply onStatus_line.
  - rewrite (decode_other m), Hc by (rewrite Hc; done). branch. eapply onStatus_line. unfold Cmd.ParseLocalStatus.
    by rewrite decide_False by (unfold Cmd.LocalStatusSize; lia).
Qed.

(** ** The device's end *)

(** Commands that are obeyed, or refused, and change neither the channel nor the address. *)
Definition ordinary_codes : list Z :=
  [Cmd.Out; Cmd.LED; Cmd.Buz; Cmd.Text; Cmd.LStat; Cmd.IStat; Cmd.OStat; Cmd.RStat].
Definition ordinary (m : Cmd.Message) : Prop :=
  Cmd.m_IsReply m = false /\ BusFacts.msg_ok m /\ Cmd.m_Code m ∈ ordinary_codes.

(** What a command does to the relays. *)
Definition obey (outputs : list bool) (m : Cmd.Message) : list bool :=
  if decide (Cmd.m_Code m = Cmd.Out) then
    if decide (len (Cmd.m_Data m) = 0 \/ len (Cmd.m_Data m) mod Pd.outputEntrySize <> 0) then outputs
    else match Pd.outputs_check (len outputs) (Cmd.m_Data m) with
         | Some _ => outputs
         | None => Pd.outputs_apply outputs (Cmd.m_Data m)
         end
  else outputs.

Definition as_command (m : Cmd.Message) : Frame.Frame :=
  Pd.zero_frame <| Frame.f_Code := Cmd.m_Code m |> <| Frame.f_Data := Cmd.m_Data m |>.

Lemma set_outputs_same (p : Pd.Device) : p <| Pd.p_outputs := Pd.p_outputs p |> = p.
Proof. by destruct p. Qed.

Lemma nak_legible r : legible (Pd.nak r) /\ decode (Pd.nak r) = None.
Proof. split; [|done]. apply lg_nak; [done|]. unfold len. cbn. lia. Qed.

Lemma ack_legible : legible Pd.ack /\ decode Pd.ack = None.
Proof. split; [by apply lg_ack|done]. Qed.

Lemma localStatus_legible p : legible (Pd.localStatus p) /\ decode (Pd.localStatus p) = None.
Proof. split; [|done]. apply lg_local; [done|]. unfold len. cbn. lia. Qed.

Lemma contactStatus_legible c l : c ∈ [Cmd.IStatR; Cmd.OStatR; Cmd.RStatR] ->
  legible (Pd.contactStatus c l) /\ decode (Pd.contactStatus c l) = None.
Proof.
  intros Hc. split; [by apply lg_contacts|]. rewrite !elem_of_cons, elem_of_nil in Hc.
  destruct Hc as [->|[->|[->|[]]]]; done.
Qed.

Lemma readerStatus_legible p : legible (Pd.readerStatus p) /\ decode (Pd.readerStatus p) = None.
Proof. split; [|done]. apply lg_contacts. right. right. by left. Qed.

Lemma applyOutputs_obey p m : Cmd.m_Code m = Cmd.Out -> exists ans,
  Pd.applyOutputs p (Cmd.m_Data m) = (p <| Pd.p_outputs := obey (Pd.p_outputs p) m |>, ans) /\ legible ans /\ decode ans = None.
Proof.
  intros Hc. unfold Pd.applyOutputs, obey. rewrite (decide_True (P := Cmd.m_Code m = Cmd.Out)) by done. case_decide.
  { rewrite set_outputs_same. eexists. split; [done|]. apply nak_legible. }
  destruct (Pd.outputs_check _ _) as [r|]; [rewrite set_outputs_same|]; eexists; (split; [done|]).
  - apply nak_legible.
  - apply ack_legible.
Qed.

Lemma ordinary_dispatch p m : Cmd.m_Code m ∈ ordinary_codes -> exists ans,
  Pd.dispatch p (as_command m) true = (p <| Pd.p_outputs := obey (Pd.p_outputs p) m |>, ans) /\ legible ans /\ decode ans = None.
Proof.
  intros Hm. unfold Pd.dispatch.
  change (Frame.f_Code (as_command m)) with (Cmd.m_Code m). change (Frame.f_Data (as_command m)) with (Cmd.m_Data m).
  unfold ordinary_codes in Hm. rewrite !elem_of_cons, elem_of_nil in Hm.
  assert (Hn : Cmd.m_Code m <> Cmd.Out -> obey (Pd.p_outputs p) m = Pd.p_outputs p) by (intros; unfold obey; by rewrite decide_False).
  destruct Hm as [Hc|Hm]; [rewrite Hc; branch; rewrite <- Hc in *; by apply applyOutputs_obey|].
  rewrite Hn by (destruct Hm as [->|[->|[->|[->|[->|[->|[->|[]]]]]]]]; done). rewrite set_outputs_same.
  destruct Hm as [Hc|[Hc|[Hc|[Hc|[Hc|[Hc|[Hc|[]]]]]]]]; rewrite Hc; branch; eexists; (split; [done|]).
  1-3: apply ack_legible.
  - apply localStatus_legible.
  - apply contactStatus_legible. by left.
  - apply contactStatus_legible. right. by left.
  - apply readerStatus_legible.
Qed.

Lemma poll_dispatch p : Pd.dispatch p (as_command Device.pollMessage) true = Pd.pollReply p.
Proof. done. Qed.

(** What the device is after it obeyed [msg], and what its answer says. *)
Definition complied (p : Pd.Device) (msg : Cmd.Message) (p2 : Pd.Device) (ans : Cmd.Message) : Prop :=
  if decide (msg = Device.pollMessage) then
    p2 = p <| Pd.p_pending := tail (Pd.p_pending p) |> /\ decode ans = (m ← head (Pd.p_pending p); decode m)
  else p2 = p <| Pd.p_outputs := obey (Pd.p_outputs p) msg |> /\ decode ans = None.

Lemma complies p msg : msg = Device.pollMessage \/ Cmd.m_Code msg ∈ ordinary_codes -> Forall legible (Pd.p_pending p) ->
  exists p2 ans, Pd.dispatch p (as_command msg) true = (p2, ans) /\ legible ans /\ complied p msg p2 ans.
Proof.
  intros Hm Hl. unfold complied. destruct (decide (msg = Device.pollMessage)) as [->|Hne].
  - rewrite poll_dispatch. unfold Pd.pollReply. destruct (Pd.p_pending p) as [|m l] eqn:E.
    + do 2 eexists. split; [done|]. split; [apply ack_legible|]. split; [|done]. destruct p. cbn in *. by subst.
    + do 2 eexists. split; [done|]. split; [by apply Forall_cons in Hl as [? _]|done].
  - destruct Hm as [->|Hm]; [done|]. destruct (ordinary_dispatch p msg Hm) as (ans & E & H1 & H2).
    by do 2 eexists.
Qed.

(** ** One exchange *)

Section with_suite.
Context {S : Secure.CipherSuite} `{!Secure.SuiteLaws S}.

(** A device of the bus and the peripheral it speaks to over an established channel
    that has been busy with ordinary things; [t] is when the peripheral last heard it. *)
Record paired (d : Device.Device) (p : Pd.Device) (t : Z) : Prop := mk_paired {
  pr_pd : PdFacts.pd_ok (S := S) p;
  pr_step : System.in_step (S := S) d p;
  pr_commands : Forall ordinary (Device.d_outbox d);
  pr_defer : Device.d_deferCommands d = false /\ Device.d_inflight d = None;
  pr_pending : Forall legible (Pd.p_pending p);
  pr_heard : Pd.p_seen p = true /\ Pd.p_lastSeen p = t
}.

Lemma paired_quiet d p t now : paired d p t -> Enrol.prompt p t now -> PdFacts.quiet p now.
Proof.
  intros Hl Ht. destruct (pr_heard _ _ _ Hl) as [Hs Hh]. unfold PdFacts.quiet. rewrite Hs, Hh. destruct Ht as [Ht|Ht].
  - by rewrite (bool_decide_false (_ > 0)) by lia.
  - by rewrite (bool_decide_false (Pd.Sub _ _ > _)), andb_false_r by lia.
Qed.

(** A line with the one device. *)
Record linked (b : Bus.Bus) (d : Device.Device) (p : Pd.Device) (t : Z) : Prop := mk_linked {
  lk_bus : BusFacts.bus_ok (S := S) b;
  lk_alone : Enrol.alone b d;
  lk_paired : paired d p t
}.

Lemma lk_pd b d p t : linked b d p t -> PdFacts.pd_ok (S := S) p.
Proof. intros Hl. apply (pr_pd _ _ _ (lk_paired _ _ _ _ Hl)). Qed.

(** With nothing to wait for, the bus sends the oldest command, or polls. *)
Lemma commandFor_channel b d : Device.d_State d = Device.Secure -> Device.d_deferCommands d = false ->
  Device.secureEstablished d = true ->
  Bus.commandFor b d = let '(d1, m) := Device.outbound d in
    (d1, Bus.b_nonces b, Ok (m, Some (Bus.blockForCommand (len (Cmd.m_Data m))))).
Proof.
  intros Est Hdf Hse. unfold Bus.commandFor. rewrite Est. unfold Device.deferring. rewrite Hdf. cbn [negb].
  assert (Hw : Device.withholdsKeySet d = false).
  { unfold Device.withholdsKeySet. destruct (Device.d_outbox d); [done|]. by rewrite Hse, andb_false_r. }
  by rewrite Hw.
Qed.

Lemma commandFor_outbound b d : Device.d_State d = Device.Secure -> Device.d_deferCommands d = false ->
  Device.secureEstablished d = true -> forall d1 n msg block,
  Bus.commandFor b d = (d1, n, Ok (msg, block)) -> (d1, msg) = Device.outbound d.
Proof.
  intros H1 H2 H3 d1 n msg block. rewrite (commandFor_channel b d H1 H2 H3). destruct (Device.outbound d). by intros [= -> _ -> _].
Qed.

Lemma paired_established d p t : paired d p t -> Device.secureEstablished d = true.
Proof.
  intros Hl. destruct (System.is_channel _ _ (pr_step _ _ _ Hl)) as (s & sp & Es & _ & Hs).
  unfold Device.secureEstablished. rewrite Es. by destruct (Secure.synced_Established s sp Hs).
Qed.

Lemma in_step_line d d' p : System.in_step (S := S) d p -> same_line d d' -> System.in_step (S := S) d' p.
Proof. intros [] []. split; rewrite ?sl_address0, ?sl_state0, ?sl_session0, ?sl_seq0, ?sl_repeat0; done. Qed.

Lemma alone_set b d d' : Enrol.alone b d -> Enrol.alone (Bus.set_device b (Bus.b_current b) d') d'.
Proof. intros [H1 H2]. unfold Enrol.alone, Bus.set_device. cbn. by rewrite H1, H2. Qed.

(** One exchange moves one thing: the oldest command, or else the oldest report. *)
Record moved_one (d d' : Device.Device) (p p' : Pd.Device) (ev : Bus.Event) : Prop := mk_moved_one {
  mo_cfg : Pd.p_cfg p' = Pd.p_cfg p;
  mo_command m rest : Device.d_outbox d = m :: rest -> Device.d_outbox d' = rest /\
    Pd.p_outputs p' = obey (Pd.p_outputs p) m /\ Pd.p_pending p' = Pd.p_pending p /\ heard_of (Some ev) = None;
  mo_poll : Device.d_outbox d = [] -> Device.d_outbox d' = [] /\ Pd.p_outputs p' = Pd.p_outputs p /\
    Pd.p_pending p' = tail (Pd.p_pending p) /\ heard_of (Some ev) = (m ← head (Pd.p_pending p); decode m)
}.

(** The queue and the flags of a device once its exchange is over. *)
Lemma heard_settled d now s : let d2 := System.heard d now s in
  Device.d_outbox d2 = Device.d_outbox d /\ Device.d_deferCommands d2 = Device.d_deferCommands d /\
  Device.d_acknowledged d2 = (match Device.d_inflight d with Some m => Cmd.m_Code m | None => Cmd.Poll end) /\
  Device.d_inflight d2 = None.
Proof. destruct d as [? ? ? ? ? ? ? ? ? ? ? ? inflight]. by destruct inflight. Qed.

Lemma heard_outbound d d1 msg q s1 now s2 : (d1, msg) = Device.outbound d ->
  let d2 := System.heard (System.numbered d1 q s1) now s2 in
  Device.d_outbox d2 = tail (Device.d_outbox d) /\ Device.d_deferCommands d2 = Device.d_deferCommands d /\
  Device.d_acknowledged d2 = (match Device.d_inflight d1 with Some m => Cmd.m_Code m | None => Cmd.Poll end) /\
  Device.d_inflight d2 = None /\
  (Device.d_outbox d = [] -> msg = Device.pollMessage /\ Device.d_inflight d1 = Device.d_inflight d) /\
  (forall m rest, Device.d_outbox d = m :: rest -> msg = m /\ Device.d_inflight d1 = Some m).
Proof.
  intros E. cbv zeta. destruct (heard_settled (System.numbered d1 q s1) now s2) as (H1 & H2 & H3 & H4). cbv zeta in *.
  rewrite H1, H2, H3, H4. clear H1 H2 H3 H4. revert E. unfold Device.outbound, Device.dequeue.
  destruct (Device.d_outbox d) as [|m rest] eqn:Eo; intros [-> ->]%pair_equal_spec.
  - by split_and!.
  - split_and!; try done. by intros ? ? [= <- <-].
Qed.

Lemma ordinary_code m : Cmd.m_Code m ∈ ordinary_codes -> m <> Device.pollMessage /\ Cmd.m_Code m <> Cmd.KeySet.
Proof.
  unfold ordinary_codes. rewrite !elem_of_cons, elem_of_nil. intros Hc.
  split; intros X; [subst m|rewrite X in Hc]; by intuition.
Qed.

Lemma legible_answer m : legible m -> legible (m <| Cmd.m_IsReply := true |>).
Proof. intros []; [by apply lg_ack|by apply lg_nak|by apply lg_credential|by apply lg_contacts|by apply lg_local]. Qed.

(** What is in flight with a device of ordinary commands, and what it will take an
    acknowledgement for. *)
Lemma outbound_ordinary d d1 msg : (d1, msg) = Device.outbound d -> Forall ordinary (Device.d_outbox d) ->
  Device.d_inflight d = None ->
  (msg = Device.pollMessage \/ Cmd.m_Code msg ∈ ordinary_codes) /\
  (Device.d_outbox d <> [] -> msg <> Device.pollMessage) /\
  (match Device.d_inflight d1 with Some m => Cmd.m_Code m | None => Cmd.Poll end) <> Cmd.KeySet.
Proof.
  unfold Device.outbound, Device.dequeue. destruct (Device.d_outbox d) as [|m rest].
  - intros [-> ->]%pair_equal_spec _ ->. split; [by left|]. by split.
  - intros [-> ->]%pair_equal_spec [(_ & _ & Hc) _]%Forall_cons _. destruct (ordinary_code m Hc). split; [by right|]. by split.
Qed.

(** The device once its answer has gone. *)
Lemma obeyed_settled p now sp msg p2 ans sp2 q r : Forall legible (Pd.p_pending p) ->
  complied (System.hearing p now sp) msg p2 ans ->
  let p' := PdLaws.cached (p2 <| Pd.p_session := Some sp2 |>) q r in
  (Pd.p_cfg p' = Pd.p_cfg p /\ Pd.p_address p' = Pd.p_address p) /\ Forall legible (Pd.p_pending p') /\ (Pd.p_seen p' = true /\ Pd.p_lastSeen p' = now) /\
  (Pd.p_adopting p2 = Pd.p_adopting p /\ Pd.p_adoptingKey p2 = Pd.p_adoptingKey p) /\
  (msg <> Device.pollMessage ->
     Pd.p_outputs p' = obey (Pd.p_outputs p) msg /\ Pd.p_pending p' = Pd.p_pending p /\ decode ans = None) /\
  (msg = Device.pollMessage -> Pd.p_outputs p' = Pd.p_outputs p /\ Pd.p_pending p' = tail (Pd.p_pending p) /\
     decode ans = (m ← head (Pd.p_pending p); decode m)).
Proof.
  intros Hl. unfold complied. destruct (decide (msg = Device.pollMessage)); intros [-> Hd]; cbv zeta; (split; [done|]); [|by split_and!].
  split; [|by split_and!]. change (Forall legible (tail (Pd.p_pending p))).
  destruct (Pd.p_pending p); [done|]. by apply Forall_cons in Hl as [_ ?].
Qed.

(** An exchange of ordinary things: what was said is what the queue held, the answer can
    be read, and neither end has moved elsewhere. *)
Record ordinarily (d : Device.Device) (p : Pd.Device) (now now' : Z) (x : System.exchange) : Prop := mk_ordinarily {
  or_outbound : (System.x_taken x, System.x_msg x) = Device.outbound d;
  or_msg : System.x_msg x = Device.pollMessage \/ Cmd.m_Code (System.x_msg x) ∈ ordinary_codes;
  or_command : Device.d_outbox d <> [] -> System.x_msg x <> Device.pollMessage;
  or_answer : legible (System.x_ans x);
  or_obeyed : complied (System.hearing p now (System.x_sp1 x)) (System.x_msg x) (System.x_obeyed x) (System.x_ans x);
  or_acknowledged : Device.d_acknowledged (System.heard (System.x_sent x) now' (System.x_s2 x)) <> Cmd.KeySet;
  or_adopting : Pd.p_adopting (System.x_obeyed x) = None /\ Pd.p_adoptingKey (System.x_obeyed x) = None;
  or_pd : System.x_pd x =
    PdLaws.cached (System.x_obeyed x <| Pd.p_session := Some (System.x_sp2 x) |>) (System.x_seq x) (System.x_r x)
}.

Lemma speaks b d p t now now' : BusFacts.bus_ok (S := S) b -> Bus.device b (Bus.b_current b) = Some d ->
  paired d p t -> Enrol.prompt p t now ->
  exists x, System.exchanged (S := S) b d p now now' x /\ ordinarily d p now now' x.
Proof.
  intros Hb Hdev Hl Ht. pose proof Hl as [Hp Hstep Hcmds [Hdf Hin] Hpend _].
  destruct (System.channel_step b d p now now' Hb Hdev Hp Hstep (paired_quiet _ _ _ _ Hl Ht)) as [x Hx].
  { eapply Forall_impl; [exact Hcmds|]. by intros m [? _]. }
  exists x. split; [exact Hx|].
  destruct (System.tt_chosen _ _ _ _ _ _ (System.xd_turn _ _ _ _ _ _ Hx)) as (b0 & n & block & Ec).
  pose proof (commandFor_outbound b0 d (System.is_state _ _ Hstep) Hdf (paired_established _ _ _ Hl) _ _ _ _ Ec) as Eo.
  destruct (heard_outbound d _ _ (System.x_seq x) (System.x_s1 x) now' (System.x_s2 x) Eo) as (_ & _ & Ha & _).
  destruct (outbound_ordinary d _ _ Eo Hcmds Hin) as (Hord & Hcmd & Hack). rewrite <- Ha in Hack.
  destruct (complies (System.hearing p now (System.x_sp1 x)) (System.x_msg x) Hord Hpend) as (p2 & ans & Ed & Hans & Hp2).
  pose proof (System.xd_dispatch _ _ _ _ _ _ Hx) as Ed'.
  change (Pd.zero_frame <| Frame.f_Code := _ |> <| Frame.f_Data := _ |>) with (as_command (System.x_msg x)) in Ed'.
  rewrite Ed in Ed'. injection Ed' as -> ->.
  destruct (obeyed_settled p now _ _ _ _ (System.x_sp2 x) (System.x_seq x) (System.x_r x) Hpend Hp2) as (_ & _ & _ & [N1 N2] & _).
  rewrite (proj1 (proj2 Hp)) in N1. rewrite (proj2 (proj2 Hp)) in N2.
  split; try done. pose proof (System.xd_pd _ _ _ _ _ _ Hx) as Ep.
  rewrite PdLaws.not_moved in Ep by exact N1. by rewrite System.not_adopting in Ep by exact N2.
Qed.

(** The turn of one device of the line: the command that leaves, the answer of its
    peripheral, and what the bus makes of it. *)
Record turn (b : Bus.Bus) (d : Device.Device) (p : Pd.Device) (now now' : Z)
    (f r : Frame.Frame) (p' : Pd.Device) (d' : Device.Device) (ev : Bus.Event) (b' : Bus.Bus) : Prop := mk_turn {
  tn_exchange : exists b1 tmo, Bus.Next b = (b1, Some (Bus.mk_Step (Bus.b_current b) f tmo)) /\
    Bus.Reply b1 (Bus.b_current b) r now' = (b', Ok ev);
  tn_command : Frame.f_Address f = Pd.p_address p;
  tn_handled : Pd.Handle p f now = (p', Ok r);
  tn_reply : Frame.f_IsReply r = true;
  tn_event : Bus.e_Device ev = Bus.b_current b;
  tn_ok : BusFacts.bus_ok (S := S) b';
  tn_devices : Bus.b_devices b' = <[Bus.b_current b := d']> (Bus.b_devices b);
  tn_current : Bus.b_current b' = ((Bus.b_current b + 1) mod length (Bus.b_devices b))%nat;
  tn_address : Device.d_Address d' = Device.d_Address d;
  tn_paired : paired d' p' now;
  tn_moved : moved_one d d' p p' ev
}.

Lemma takes_turn b d p t now now' : BusFacts.bus_ok (S := S) b -> Bus.device b (Bus.b_current b) = Some d ->
  paired d p t -> Enrol.prompt p t now -> exists f r p' d' ev b', turn b d p now now' f r p' d' ev b'.
Proof.
  intros Hb Hdev Hl Ht. pose proof Hl as [Hp Hstep Hcmds [Hdf Hin] Hpend _].
  destruct (speaks b d p t now now' Hb Hdev Hl Ht) as (x & Hx & [Eo _ Hcmd Hans Hp2 Hack [N1 N2] Epd]).
  pose proof Hx as [En Hturn _ _ Hcar _ _ _ _ _ _ _ HH Hp' _ Hr _ HR Hstep']. specialize (Hstep' N1 N2). unfold System.x_sent in *.
  destruct x as [b1 d1 msg q s1 f sp1 s2 sp2 p2 ans r p'].
  cbn [System.x_bus System.x_taken System.x_msg System.x_seq System.x_s1 System.x_f System.x_sp1 System.x_s2
    System.x_sp2 System.x_obeyed System.x_ans System.x_r System.x_pd] in *.
  destruct (heard_outbound d d1 msg q s1 now' s2 Eo) as (Ho & Hd & _ & Hi & Hnone & Hsome). cbv zeta in *.
  destruct (obeyed_settled p now sp1 msg p2 ans sp2 q r Hpend Hp2) as ([K1 K6] & K2 & K3 & _ & K4 & K5). cbv zeta in *.
  rewrite <- Epd in *.
  set (d2 := System.heard _ now' s2) in *.
  destruct (legible_dispatch b1 d2 (Bus.b_current b) _ (ltac:(by rewrite (System.is_state _ _ Hstep'))) Hack (legible_answer _ Hans))
    as (d3 & ev & Edisp & Hline & Hev & Hdv).
  change (decode (ans <| Cmd.m_IsReply := true |>)) with (decode ans) in Hev. rewrite Edisp in HR.
  assert (Hrep : Bus.Reply b1 (Bus.b_current b) r now' = (Bus.set_device b1 (Bus.b_current b) d3, Ok ev)).
  { unfold Bus.Reply. rewrite (System.took_turn_device _ _ _ _ _ _ Hdev Hturn). by rewrite HR. }
  pose proof (in_step_line d2 d3 p' Hstep' Hline) as Hstep3.
  exists f, r, p', d3, ev, (Bus.set_device b1 (Bus.b_current b) d3).
  split; [by do 2 eexists|apply Hcar|done|apply Hr|done|..].
  - eapply BusFacts.bus_step_ok; [|eapply BusFacts.step_Reply; [apply Hr|done]]. eapply BusFacts.bus_step_ok; [exact Hb|by eapply BusFacts.step_Next].
  - unfold Bus.set_device. cbn [Bus.b_devices update]. rewrite (System.tt_devices _ _ _ _ _ _ Hturn). apply list_insert_insert_eq.
  - exact (System.tt_current _ _ _ _ _ _ Hturn).
  - rewrite (System.is_addr _ _ Hstep3), (System.is_addr _ _ Hstep). exact K6.
  - split; [done|exact Hstep3| | |done|done].
    + rewrite (sl_outbox _ _ Hline), Ho. destruct (Device.d_outbox d); [done|]. by apply Forall_cons in Hcmds as [_ ?].
    + rewrite (sl_defer _ _ Hline), (sl_inflight _ _ Hline), Hd. done.
  - split; [done| |]; rewrite (sl_outbox _ _ Hline), Ho, Hev.
    + intros m rest Eout. destruct (Hsome m rest Eout) as [-> _]. rewrite Eout in *. split; [done|]. by apply K4, Hcmd.
    + intros Eout. destruct (Hnone Eout) as [-> _]. rewrite Eout. split; [done|]. by apply K5.
Qed.

Lemma transaction_linked b d p t now now' : linked b d p t -> Enrol.prompt p t now ->
  exists b' d' p' ev, Enrol.transaction b p now now' = (b', p', Some ev) /\ linked b' d' p' now /\ moved_one d d' p p' ev.
Proof.
  intros [Hb [Hal1 Hal2] Hl] Ht.
  destruct (takes_turn b d p t now now' Hb (Enrol.alone_device b d (conj Hal1 Hal2)) Hl Ht)
    as (f & r & p' & d' & ev & b' & [(b1 & tmo & En & Er) _ HH _ _ Hb' Hds Hcur _ Hl' Hm]).
  exists b', d', p', ev. split; [|split; [|done]].
  - unfold Enrol.transaction. rewrite En. cbv beta iota. cbn [Bus.st_Frame Bus.st_Device]. rewrite HH. by rewrite Er.
  - split; [done| |done]. split; [by rewrite Hds, Hal1, Hal2|by rewrite Hcur, Hal1, Hal2].
Qed.

(** ** The device's own life *)

(** Something befell the device: not a frame, and a card of as many bits as its
    field can say. *)
Definition befalls (st : stimulus) : Prop :=
  PdLaws.stimulus_ok st /\
  match st with
  | PdLaws.Command _ _ => False
  | PdLaws.Card c => 0 <= Cmd.cr_BitCount c < 65536
  | _ => True
  end.

(** What was presented to the reader, unless it was refused. *)
Definition presented (p : Pd.Device) (st : stimulus) : list credential :=
  match st with
  | PdLaws.Card c => match (Pd.ReportCardRead p c).2 with None => [CardCred c] | Some _ => [] end
  | PdLaws.Keys k =>
      match (Pd.ReportKeypad p k).2 with
      | None => [KeysCred (Cmd.mk_KeypadEntry (Cmd.ke_Reader k) (take 255 (Cmd.ke_Keys k)))]
      | Some _ => []
      end
  | _ => []
  end.

(** What none of it touches. *)
Record aside (p p' : Pd.Device) : Prop := mk_aside {
  as_cfg : Pd.p_cfg p' = Pd.p_cfg p;
  as_address : Pd.p_address p' = Pd.p_address p;
  as_session : Pd.p_session p' = Pd.p_session p;
  as_cached : Pd.p_cachedValid p' = Pd.p_cachedValid p /\ Pd.p_cachedSeq p' = Pd.p_cachedSeq p;
  as_heard : Pd.p_seen p' = Pd.p_seen p /\ Pd.p_lastSeen p' = Pd.p_lastSeen p;
  as_outputs : Pd.p_outputs p' = Pd.p_outputs p;
  as_reply : Pd.p_cached p' = Pd.p_cached p
}.

(** The queue with [m] in it, and what it now says. *)
Record joined (p p' : Pd.Device) (more : list credential) : Prop := mk_joined {
  jo_aside : aside p p';
  jo_legible : Forall legible (Pd.p_pending p) -> Forall legible (Pd.p_pending p');
  jo_says : omap decode (Pd.p_pending p') = omap decode (Pd.p_pending p) ++ more;
  jo_length : (length (Pd.p_pending p') <= Datatypes.S (length (Pd.p_pending p)))%nat
}.

Lemma joined_none p p' : aside p p' -> Pd.p_pending p' = Pd.p_pending p -> joined p p' [].
Proof. intros Ha E. split; rewrite ?E, ?app_nil_r; done || lia. Qed.

Lemma queue_joined p m : legible m ->
  joined p (Pd.queue p m).1 (match (Pd.queue p m).2 with None => option_list (decode m) | Some _ => [] end).
Proof.
  intros Hm. unfold Pd.queue. case_decide; cbn [fst snd]; [by apply joined_none|]. split.
  - done.
  - intros Hl. apply Forall_app. split; [exact Hl|by apply Forall_singleton].
  - change (omap decode (Pd.p_pending p ++ [m]) = omap decode (Pd.p_pending p) ++ option_list (decode m)).
    by rewrite omap_app.
  - change (length (Pd.p_pending p ++ [m]) <= Datatypes.S (length (Pd.p_pending p)))%nat. rewrite length_app. simpl. lia.
Qed.

(** A snapshot goes in where the last one waits, or at the end. *)
Lemma coalesce_joined p m : legible m -> (forall x, Cmd.m_Code x = Cmd.m_Code m -> decode x = None) ->
  joined p (Pd.coalesce p m).1 [].
Proof.
  intros Hm Hd. unfold Pd.coalesce. destruct (Pd.replace_report _ m) as [l|] eqn:E.
  - apply PdLaws.replace_report_spec in E as (a & w & z & E & -> & Hw & _). cbn [fst]. split.
    + done.
    + rewrite E. intros [? [_ ?]%Forall_cons]%Forall_app. apply Forall_app. split; [done|]. by apply Forall_cons.
    + change (omap decode (a ++ m :: z) = omap decode (Pd.p_pending p) ++ []).
      rewrite E, app_nil_r, !omap_app. cbn. by rewrite !Hd.
    + change (length (a ++ m :: z) <= Datatypes.S (length (Pd.p_pending p)))%nat. rewrite E, !length_app. simpl. lia.
  - pose proof (queue_joined p m Hm) as Hj. rewrite (Hd m eq_refl) in Hj. by destruct (Pd.queue p m) as [? []].
Qed.

Lemma decode_contacts m x : Cmd.m_Code m ∈ [Cmd.IStatR; Cmd.LStatR] -> Cmd.m_Code x = Cmd.m_Code m -> decode x = None.
Proof.
  rewrite !elem_of_cons, elem_of_nil. intros [Hc|[Hc|[]]] E; apply decode_other; by rewrite E, Hc.
Qed.

Lemma aside_trans p1 p2 p3 : aside p1 p2 -> aside p2 p3 -> aside p1 p3.
Proof. intros [A1 A2 A3 [A4 A5] [A6 A7] A8 A9] [B1 B2 B3 [B4 B5] [B6 B7] B8 B9]. split; [..|split|split| |]; congruence. Qed.

Lemma joined_after p p1 p2 more : aside p p1 -> Pd.p_pending p1 = Pd.p_pending p -> joined p1 p2 more -> joined p p2 more.
Proof. intros Ha E [J1 J2 J3 J4]. rewrite E in J2, J3, J4. split; [by eapply aside_trans|done..]. Qed.

Lemma react_joined p st : befalls st -> joined p (react p st) (presented p st).
Proof.
  intros [Hok Hst]. destruct st as [f now|c|k|i b|b|b]; cbn [react presented].
  - done.
  - unfold Pd.ReportCardRead. cbv zeta. case_decide as Hn; cbn [fst snd]; [by apply joined_none|].
    assert (E : decode (Cmd.mk_Message Cmd.Raw false (Pd.appendCardRead [] c)) = Some (CardCred c)).
    { unfold decode. cbn [Cmd.m_Code Cmd.m_Data]. by rewrite decide_True, PdLaws.ParseCardRead_append by done || lia. }
    pose proof (queue_joined p _ (lg_credential _ (mk_is_Some _ _ E))) as Hj. by rewrite E in Hj.
  - unfold Pd.ReportKeypad.
    assert (E : decode (Cmd.mk_Message Cmd.Keypad false (Pd.appendKeypad [] k)) =
      Some (KeysCred (Cmd.mk_KeypadEntry (Cmd.ke_Reader k) (take 255 (Cmd.ke_Keys k))))).
    { unfold decode. cbn [Cmd.m_Code Cmd.m_Data]. by rewrite decide_False, decide_True, PdLaws.ParseKeypad_truncated by done. }
    pose proof (queue_joined p _ (lg_credential _ (mk_is_Some _ _ E))) as Hj. by rewrite E in Hj.
  - unfold Pd.SetInput. case_decide; [by apply joined_none|]. cbv zeta.
    refine (joined_after p _ _ _ _ _ (coalesce_joined _ _ _ _)); [done|done|by apply lg_contacts; left|].
    intros x. by apply decode_contacts; left.
  - unfold Pd.SetTamper, Pd.setLocal. refine (joined_after p _ _ _ _ _ (coalesce_joined _ _ _ _)); [done|done|apply localStatus_legible|].
    intros x. by apply decode_contacts; right; left.
  - unfold Pd.SetPower, Pd.setLocal. refine (joined_after p _ _ _ _ _ (coalesce_joined _ _ _ _)); [done|done|apply localStatus_legible|].
    intros x. by apply decode_contacts; right; left.
Qed.

(** ** A life *)

Inductive happening :=
  | Befell (st : stimulus)
  | Ordered (req : Panel.request)
  | Exchanged (now now' : Z).

(** What an observer of both ends writes down. *)
Record account := mk_account {
  ac_events : list (option Bus.Event);
  ac_granted : list Cmd.Message;
  ac_presented : list credential
}.

Definition happen (b : Bus.Bus) (p : Pd.Device) (h : happening) : Bus.Bus * Pd.Device * account :=
  match h with
  | Befell st => (b, react p st, mk_account [] [] (presented p st))
  | Ordered req =>
      let '(b, e) := Panel.queue b req in
      (b, p, mk_account [] (match e with None => [Panel.q_msg req] | Some _ => [] end) [])
  | Exchanged now now' => let '(b, p, e) := Enrol.transaction b p now now' in (b, p, mk_account [e] [] [])
  end.

Fixpoint live (b : Bus.Bus) (p : Pd.Device) (hs : list happening) : Bus.Bus * Pd.Device * account :=
  match hs with
  | [] => (b, p, mk_account [] [] [])
  | h :: hs =>
      let '(b, p, a) := happen b p h in
      let '(b, p, a') := live b p hs in
      (b, p, mk_account (ac_events a ++ ac_events a') (ac_granted a ++ ac_granted a') (ac_presented a ++ ac_presented a'))
  end.

(** A request of Send, and not of InstallKey or SetCommunication. *)
Definition sends (req : Panel.request) : Prop :=
  Panel.q_key req = None /\ Panel.q_comms req = None /\ ordinary (Panel.q_msg req).

(** Ordinary commands and stimuli, and exchanges within the device's own timeout of
    one another. *)
Fixpoint usual (p : Pd.Device) (t : Z) (hs : list happening) : Prop :=
  match hs with
  | [] => True
  | Befell st :: hs => befalls st /\ usual p t hs
  | Ordered req :: hs => sends req /\ usual p t hs
  | Exchanged now _ :: hs => Enrol.prompt p t now /\ usual p now hs
  end.

Lemma usual_cfg p p' t hs : Pd.p_cfg p' = Pd.p_cfg p -> usual p t hs -> usual p' t hs.
Proof.
  intros E. revert t. induction hs as [|[st|req|now now'] hs IH]; intros t; cbn [usual]; [done|intuition..].
  unfold Enrol.prompt in *. by rewrite E.
Qed.

(** The books between two moments: nothing lost, nothing made up, nothing out of
    order, on the way up and on the way down. *)
Record balanced (d : Device.Device) (p : Pd.Device) (a : account) (d' : Device.Device) (p' : Pd.Device) : Prop := mk_balanced {
  ba_cfg : Pd.p_cfg p' = Pd.p_cfg p;
  ba_events : Forall is_Some (ac_events a);
  ba_reports : omap heard_of (ac_events a) ++ omap decode (Pd.p_pending p') =
    omap decode (Pd.p_pending p) ++ ac_presented a;
  ba_commands : exists obeyed, Device.d_outbox d ++ ac_granted a = obeyed ++ Device.d_outbox d' /\
    Pd.p_outputs p' = fold_left obey obeyed (Pd.p_outputs p)
}.

(** What waits at either end. *)
Definition waiting (d : Device.Device) (p : Pd.Device) : nat :=
  (length (Device.d_outbox d) + length (Pd.p_pending p))%nat.

Lemma balanced_refl d p : balanced d p (mk_account [] [] []) d p.
Proof. split; [done|by apply Forall_nil|by rewrite app_nil_r|]. exists []. by rewrite app_nil_r. Qed.

Lemma balanced_trans d1 p1 a1 d2 p2 a2 d3 p3 : balanced d1 p1 a1 d2 p2 -> balanced d2 p2 a2 d3 p3 ->
  balanced d1 p1 (mk_account (ac_events a1 ++ ac_events a2) (ac_granted a1 ++ ac_granted a2)
    (ac_presented a1 ++ ac_presented a2)) d3 p3.
Proof.
  intros [A1 A2 A3 (o1 & A4 & A5)] [B1 B2 B3 (o2 & B4 & B5)]. split; cbn [ac_events ac_granted ac_presented].
  - by rewrite B1.
  - by apply Forall_app.
  - by rewrite omap_app, <- app_assoc, B3, app_assoc, A3, app_assoc.
  - exists (o1 ++ o2). split; [by rewrite app_assoc, A4, <- !app_assoc, B4|]. by rewrite B5, A5, fold_left_app.
Qed.

Lemma moved_one_balanced d d' p p' ev : moved_one d d' p p' ev ->
  balanced d p (mk_account [Some ev] [] []) d' p' /\ waiting d' p' = pred (waiting d p).
Proof.
  intros [Hcfg Hcmd Hpoll]. unfold waiting. destruct (Device.d_outbox d) as [|m rest] eqn:Eo.
  - destruct (Hpoll eq_refl) as (E1 & E2 & E3 & E4). rewrite E1, E3. split; [|by destruct (Pd.p_pending p)].
    split; cbn [ac_events ac_granted ac_presented omap list_omap]; [done|by apply Forall_singleton| |].
    + rewrite E4, E3, app_nil_r. destruct (Pd.p_pending p) as [|x l]; [done|]. cbn. by destruct (decode x).
    + exists []. by rewrite Eo, E1, E2.
  - destruct (Hcmd m rest eq_refl) as (E1 & E2 & E3 & E4). rewrite E1, E3. split; [|done].
    split; cbn [ac_events ac_granted ac_presented omap list_omap]; [done|by apply Forall_singleton| |].
    + by rewrite E4, E3, app_nil_r.
    + exists [m]. by rewrite Eo, E1, E2, app_nil_r.
Qed.

Lemma in_step_aside d p p' : System.in_step (S := S) d p -> aside p p' -> System.in_step (S := S) d p'.
Proof. intros [] [? Ha Hs [Hv Hq] ? ? ?]. split; rewrite ?Ha, ?Hs, ?Hv, ?Hq; done. Qed.

Lemma react_paired d p t st : paired d p t -> befalls st ->
  paired d (react p st) t /\ balanced d p (mk_account [] [] (presented p st)) d (react p st) /\
  (waiting d (react p st) <= Datatypes.S (waiting d p))%nat.
Proof.
  intros Hl Hst. destruct (react_joined p st Hst) as [Ha J1 J2 J3]. pose proof Ha as [A1 _ _ _ [A2 A3] A4 _].
  destruct Hl as [L3 L4 L5 L6 L7 [L8 L9]]. split; [|split; [|unfold waiting; lia]].
  - split; try done; [by apply PdLaws.react_ok, Hst|by eapply in_step_aside|by apply J1|]. by rewrite A2, A3.
  - split; cbn [ac_events ac_granted ac_presented]; [done|by apply Forall_nil|exact J2|].
    exists []. by rewrite A4, app_nil_r.
Qed.

Lemma enqueue_paired d p t m : paired d p t -> ordinary m ->
  paired (Device.enqueue d m) p t /\ balanced d p (mk_account [] [m] []) (Device.enqueue d m) p /\
  waiting (Device.enqueue d m) p = Datatypes.S (waiting d p).
Proof.
  intros [L3 L4 L5 L6 L7 L8] Hm. split; [|split].
  - split; try done; [by destruct L4|]. apply Forall_app. split; [done|by apply Forall_singleton].
  - split; cbn [ac_events ac_granted ac_presented]; [done|by apply Forall_nil|by rewrite app_nil_r|]. by exists [].
  - unfold waiting. change (Device.d_outbox (Device.enqueue d m)) with (Device.d_outbox d ++ [m]).
    rewrite length_app. simpl. lia.
Qed.

(** A request of Send: refused, or at the end of the queue of the first device with
    the address. *)
Lemma queue_sends b req b' e : sends req -> Panel.queue b req = (b', e) ->
  (b' = b /\ is_Some e) \/
  exists i d, Panel.addressed 0 (Bus.b_devices b) (Panel.q_addr req) = Some i /\ Bus.device b i = Some d /\ e = None /\
    b' = Bus.set_device b i (Device.enqueue d (Panel.q_msg req)).
Proof.
  intros (Hk & Hc & _). unfold Panel.queue. rewrite Hk, Hc.
  destruct (Panel.addressed _ _ _) as [i|]; [|intros [<- <-]%pair_equal_spec; by left].
  unfold Bus.Send. destruct (Bus.device b i) as [d|] eqn:Ed; [|intros [<- <-]%pair_equal_spec; by left].
  destruct (Bus.checkSize b d _) as [e0|]; intros [<- <-]%pair_equal_spec; [by left|]. right. by exists i, d.
Qed.

Lemma requested_ok b req b' e : BusFacts.bus_ok (S := S) b -> sends req -> Panel.queue b req = (b', e) ->
  BusFacts.bus_ok (S := S) b'.
Proof.
  intros Hb (Hk & Hc & _ & Hm & _). unfold Panel.queue. rewrite Hk, Hc.
  destruct (Panel.addressed _ _ _) as [i|]; [|by intros [<- <-]%pair_equal_spec].
  intros E. eapply BusFacts.bus_step_ok; [exact Hb|]. by eapply BusFacts.step_Send.
Qed.

Lemma queue_linked b d p t req b' e : linked b d p t -> sends req -> Panel.queue b req = (b', e) ->
  exists d', linked b' d' p t /\
    balanced d p (mk_account [] (match e with None => [Panel.q_msg req] | Some _ => [] end) []) d' p /\
    (waiting d' p <= Datatypes.S (waiting d p))%nat.
Proof.
  intros [L1 L2 L3] Hs E. pose proof (requested_ok b req b' e L1 Hs E) as Hb'.
  destruct (queue_sends b req b' e Hs E) as [[-> [e0 ->]]|(i & d0 & Hi & Hd0 & -> & ->)].
  { exists d. split; [done|]. split; [apply balanced_refl|lia]. }
  rewrite (proj1 L2) in Hi. cbn [Panel.addressed] in Hi. case_decide; [|done]. injection Hi as <-.
  pose proof (Enrol.alone_device b d L2) as Hdev. rewrite (proj2 L2) in Hdev. rewrite Hdev in Hd0. injection Hd0 as <-.
  destruct (enqueue_paired d p t (Panel.q_msg req) L3) as (H1 & H2 & H3); [by apply Hs|].
  exists (Device.enqueue d (Panel.q_msg req)). split; [|split; [exact H2|by rewrite H3]].
  split; [exact Hb'| |exact H1]. pose proof (alone_set b d (Device.enqueue d (Panel.q_msg req)) L2) as Ha. by rewrite (proj2 L2) in Ha.
Qed.

(** A transaction of which both ends agree on the time. *)
Definition at_once (now : Z) : happening := Exchanged now now.

(** How much can wait, at most. *)
Fixpoint backlog (n : nat) (hs : list happening) : nat :=
  match hs with
  | [] => n
  | Exchanged _ _ :: hs => backlog (pred n) hs
  | _ :: hs => backlog (Datatypes.S n) hs
  end.

Lemma lives hs : forall b d p t n b' p' a, linked b d p t -> usual p t hs -> (waiting d p <= n)%nat ->
  live b p hs = (b', p', a) ->
  exists d' t', linked b' d' p' t' /\ balanced d p a d' p' /\ (waiting d' p' <= backlog n hs)%nat.
Proof.
  induction hs as [|h hs IH]; intros b d p t n b' p' a Hl Hu Hn; cbn [live].
  { intros [= <- <- <-]. exists d, t. split; [done|]. split; [apply balanced_refl|done]. }
  assert (Hh : exists b1 d1 p1 a1 t1 n1, happen b p h = (b1, p1, a1) /\ linked b1 d1 p1 t1 /\
    balanced d p a1 d1 p1 /\ usual p t1 hs /\ (waiting d1 p1 <= n1)%nat /\ backlog n (h :: hs) = backlog n1 hs).
  { destruct h as [st|req|now now']; destruct Hu as [Hh Hu]; cbn [happen backlog].
    - destruct Hl as [L1 L2 L3]. destruct (react_paired d p t st L3 Hh) as (H1 & H2 & H3).
      do 6 eexists. split_and!; [done..|etrans; [exact H3|]|done]; lia.
    - destruct (Panel.queue b req) as [b1 e] eqn:E.
      destruct (queue_linked b d p t req b1 e Hl Hh E) as (d1 & H1 & H2 & H3).
      do 6 eexists. split_and!; [done..|etrans; [exact H3|]|done]; lia.
    - destruct (transaction_linked b d p t now now' Hl Hh) as (b1 & d1 & p1 & ev & E & H1 & H2). rewrite E.
      destruct (moved_one_balanced _ _ _ _ _ H2) as [H3 H4].
      do 6 eexists. split_and!; [done..|rewrite H4|done]; lia. }
  destruct Hh as (b1 & d1 & p1 & a1 & t1 & n1 & -> & Hl1 & Hb1 & Hu1 & Hn1 & ->).
  destruct (live b1 p1 hs) as [[b2 p2] a2] eqn:E. intros [= <- <- <-].
  destruct (IH b1 d1 p1 t1 n1 b2 p2 a2 Hl1 (usual_cfg _ _ _ _ (ba_cfg _ _ _ _ _ Hb1) Hu1) Hn1 E)
    as (d' & t' & Hl' & Hb' & Hn').
  exists d', t'. split; [done|]. split; [by eapply balanced_trans|done].
Qed.

Lemma backlog_app n hs hs' : backlog n (hs ++ hs') = backlog (backlog n hs) hs'.
Proof. revert n. induction hs as [|[] hs IH]; intros n; cbn [app backlog]; done. Qed.

Lemma backlog_length n hs : (backlog n hs <= n + length hs)%nat.
Proof. revert n. induction hs as [|[] hs IH]; intros n; cbn [length backlog]; [lia|etrans; [apply IH|lia]..]. Qed.

Lemma backlog_quiet n ts : backlog n (map at_once ts) = (n - length ts)%nat.
Proof. revert n. induction ts as [|x ts IH]; intros n; cbn [map length backlog at_once]; [lia|]. rewrite IH. lia. Qed.

(** A channel carries everything, once and in order, both ways. Over any
    interleaving of exchanges, commands asked for by the application, cards and keys
    presented to the reader and contacts moving, every exchange concludes with an
    event; the credentials the application has heard of, followed by those the
    reader still holds, are those it held followed by those it accepted; the
    commands the reader has obeyed, followed by those still queued, are those that
    were queued followed by those [Send] granted, and its relays are where obeying
    them one after the other puts them; and the channel is as it was, for whatever
    comes next. *)
Theorem end_to_end b d p t hs b' p' a : linked b d p t -> usual p t hs -> live b p hs = (b', p', a) ->
  Forall is_Some (ac_events a) /\
  exists d' t', linked b' d' p' t' /\
    omap heard_of (ac_events a) ++ omap decode (Pd.p_pending p') = omap decode (Pd.p_pending p) ++ ac_presented a /\
    exists obeyed, Device.d_outbox d ++ ac_granted a = obeyed ++ Device.d_outbox d' /\
      Pd.p_outputs p' = fold_left obey obeyed (Pd.p_outputs p).
Proof.
  intros Hl Hu E. destruct (lives hs b d p t _ b' p' a Hl Hu (le_n _) E) as (d' & t' & Hl' & [B1 B2 B3 B4] & _).
  split; [done|]. by exists d', t'.
Qed.

(** A line left to itself delivers. After any such life, as many exchanges as
    anything could be waiting leave nothing waiting at either end: the application
    has heard every credential the reader accepted, in order, and the reader has
    obeyed every command that was granted, in order. *)
Theorem line_settles b d p t hs ts b' p' a : linked b d p t -> usual p t (hs ++ map at_once ts) ->
  (waiting d p + length hs <= length ts)%nat -> live b p (hs ++ map at_once ts) = (b', p', a) ->
  exists d' t', linked b' d' p' t' /\ Device.d_outbox d' = [] /\ Pd.p_pending p' = [] /\
    omap heard_of (ac_events a) = omap decode (Pd.p_pending p) ++ ac_presented a /\
    Pd.p_outputs p' = fold_left obey (Device.d_outbox d ++ ac_granted a) (Pd.p_outputs p).
Proof.
  intros Hl Hu Hn E. destruct (lives _ b d p t _ b' p' a Hl Hu (le_n _) E) as (d' & t' & Hl' & [B1 B2 B3 (o & B4 & B5)] & Hw).
  rewrite backlog_app, backlog_quiet in Hw. pose proof (backlog_length (waiting d p) hs) as Hb.
  assert (H0 : waiting d' p' = 0%nat) by lia. unfold waiting in H0.
  assert (Hout : Device.d_outbox d' = []) by (apply length_zero_iff_nil; lia).
  assert (Hpen : Pd.p_pending p' = []) by (apply length_zero_iff_nil; lia).
  exists d', t'. rewrite Hpen in B3. rewrite Hout in B4. cbn [omap list_omap] in B3. rewrite app_nil_r in B3, B4.
  rewrite B4. by split_and!.
Qed.

End with_suite.

(** ** Witnesses *)

Abbreviation AES := Secure.AES128.suite (only parsing).

(** The pair of Enrol.v, once enrolled. *)
Definition kat_pair : Bus.Bus * Pd.Device := (Enrol.converse BusLaws.demo Enrol.kat_reader [0; 0; 0; 0]).1.

Lemma enrolled_linked key b0 d0 p0 : Enrol.meeting (S := AES) key b0 d0 p0 0 -> Device.d_State d0 = Device.Offline ->
  Device.d_session d0 = None -> Device.d_pending d0 = None -> Pd.p_session p0 = None -> Enrol.prompt p0 0 0 ->
  (let '(b, p) := (Enrol.converse b0 p0 [0; 0; 0; 0]).1 in
   (option_map (fun d => (Device.d_outbox d, Device.d_deferCommands d, Device.d_inflight d)) (Bus.device b 0),
    Pd.p_pending p, Pd.p_seen p) = (Some ([], false, None), [], true)) ->
  let '(b, p) := (Enrol.converse b0 p0 [0; 0; 0; 0]).1 in
  exists d, linked (S := AES) b d p 0 /\ Device.d_outbox d = [] /\ Pd.p_pending p = [].
Proof.
  intros Hmeet H1 H2 H3 H4 Hpr Hv.
  destruct (Enrol.enrols key b0 d0 p0 0 0 0 0 0 Hmeet H1 H2 H3 H4 Hpr Hpr Hpr Hpr)
    as (b & d & p & es & E & _ & Hb & Hp & Hal & Hstep & Hm).
  rewrite E in *. cbn [fst] in *. clear E.
  pose proof (Enrol.alone_device b d Hal) as Hdev. rewrite (proj2 Hal) in Hdev. rewrite Hdev in Hv.
  injection Hv as V1 V2 V3 V4 V5. exists d. split; [|exact (conj V1 V4)].
  split; [exact Hb|exact Hal|]. split; [exact Hp|exact Hstep| |exact (conj V2 V3)| |].
  - rewrite V1. apply Forall_nil_2.
  - rewrite V4. apply Forall_nil_2.
  - exact (conj V5 (Enrol.me_heard _ _ _ _ _ Hm V5)).
Qed.

Lemma kat_linked : exists d, linked (S := AES) kat_pair.1 d kat_pair.2 0 /\
  Device.d_outbox d = [] /\ Pd.p_pending kat_pair.2 = [].
Proof.
  pose proof (enrolled_linked Secure.DefaultBaseKey BusLaws.demo (Device.NewDevice 0) Enrol.kat_reader Enrol.kat_meeting) as Hl.
  specialize (Hl eq_refl eq_refl eq_refl ltac:(by vm_compute) Enrol.kat_prompt ltac:(vm_compute; reflexivity)).
  unfold kat_pair. by destruct (Enrol.converse BusLaws.demo Enrol.kat_reader [0; 0; 0; 0]).1.
Qed.

(** A card, a command, a contact and a key entry between exchanges. *)
Definition kat_command : Cmd.Message := Cmd.OutputCommand [Cmd.mk_Output 1 Cmd.OutputTimedOn 5000000000].
Lemma kat_ordinary a : sends (Panel.mk_request a kat_command None None).
Proof. split; [done|]. split; [done|]. split; [done|]. split; [split; [done|octets_dec]|by left]. Qed.

Definition kat_life : list happening :=
  [Befell (PdLaws.Card PdLaws.kat_card); Ordered (Panel.mk_request 0 kat_command None None); Befell (PdLaws.Tamper true);
   Exchanged 0 1;
   Befell (PdLaws.Keys (Cmd.mk_KeypadEntry 0 [1; 2; 3; 4]))].

Lemma kat_usual ts : Forall (fun t => t = 0) ts -> usual kat_pair.2 0 (kat_life ++ map at_once ts).
Proof.
  intros Hts. cbn [kat_life app usual]. split_and!.
  - split; [exact PdLaws.kat_card_ok|]. by vm_compute.
  - exact (kat_ordinary 0).
  - done.
  - right. by vm_compute.
  - split; [|done]. split; [done|octets_dec].
  - induction Hts as [|x ts -> Hts IH]; [done|]. split; [right; by vm_compute|exact IH].
Qed.

Example end_to_end_witness : exists b' p' a, live kat_pair.1 kat_pair.2 kat_life = (b', p', a) /\
  Forall is_Some (ac_events a) /\ omap heard_of (ac_events a) = [] /\
  omap decode (Pd.p_pending p') = [CardCred PdLaws.kat_card; KeysCred (Cmd.mk_KeypadEntry 0 [1; 2; 3; 4])] /\
  exists d' t', linked (S := AES) b' d' p' t' /\ Pd.p_outputs p' = [false; true].
Proof.
  destruct kat_linked as (d & Hl & _). destruct (live kat_pair.1 kat_pair.2 kat_life) as [[b' p'] a] eqn:E.
  assert (Hv : let '(b, p, a) := live kat_pair.1 kat_pair.2 kat_life in
    (omap heard_of (ac_events a), omap decode (Pd.p_pending p), Pd.p_outputs p) =
    ([], [CardCred PdLaws.kat_card; KeysCred (Cmd.mk_KeypadEntry 0 [1; 2; 3; 4])], [false; true])) by (vm_compute; reflexivity).
  rewrite E in Hv. injection Hv as H1 H2 H3.
  destruct (end_to_end kat_pair.1 d kat_pair.2 0 kat_life b' p' a Hl) as (He & d' & t' & Hl' & _).
  - rewrite <- (app_nil_r kat_life). by apply (kat_usual []).
  - exact E.
  - exists b', p', a. split; [reflexivity|]. split; [exact He|]. split; [exact H1|]. split; [exact H2|].
    exists d', t'. exact (conj Hl' H3).
Defined.

Example line_settles_witness : exists b' p' a,
  live kat_pair.1 kat_pair.2 (kat_life ++ map at_once [0; 0; 0; 0; 0]) = (b', p', a) /\
  Pd.p_pending p' = [] /\ Pd.p_outputs p' = [false; true] /\
  omap heard_of (ac_events a) = [CardCred PdLaws.kat_card; KeysCred (Cmd.mk_KeypadEntry 0 [1; 2; 3; 4])].
Proof.
  destruct kat_linked as (d & Hl & Ho & Hp).
  destruct (live kat_pair.1 kat_pair.2 (kat_life ++ map at_once [0; 0; 0; 0; 0])) as [[b' p'] a] eqn:E.
  assert (Hv : let '(_, p, a) := live kat_pair.1 kat_pair.2 (kat_life ++ map at_once [0; 0; 0; 0; 0]) in
    (ac_presented a, Pd.p_outputs p) =
    ([CardCred PdLaws.kat_card; KeysCred (Cmd.mk_KeypadEntry 0 [1; 2; 3; 4])], [false; true])) by (vm_compute; reflexivity).
  rewrite E in Hv. injection Hv as H1 H2.
  destruct (line_settles kat_pair.1 d kat_pair.2 0 kat_life [0; 0; 0; 0; 0] b' p' a Hl) as (d' & t' & _ & _ & E1 & E2 & _).
  - apply kat_usual. repeat constructor.
  - unfold waiting. rewrite Ho, Hp. cbn. lia.
  - exact E.
  - exists b', p', a. split; [reflexivity|]. split; [exact E1|]. split; [exact H2|]. rewrite E2, Hp, H1. reflexivity.
Defined.
