(* ===== verification/Multidrop.v ===== *)
(** * A line with many devices

    Every peripheral of a multidrop line hears every frame on it: the panel's
    commands, and one another's answers. The bus gives each device of its list a
    turn (bus.go, Next); a peripheral answers what is addressed to it and nothing
    else (handle.go). [one_speaks] says that two never speak at once, [end_to_end]
    that each device has the line as if it were alone on it (Delivery.v), and
    [fair] that the round leaves none of them waiting. *)

From S2P Require Import Prelude Errors.
From S2P Require Frame Cmd Secure Device Bus BusFacts BusLaws Pd PdFacts PdLaws System Enrol Panel Delivery.
Import PdLaws (stimulus, react).
Import Delivery (credential, decode, heard_of, befalls, presented, obey, sends, account, mk_account, ac_events,
  ac_granted, ac_presented, balanced, waiting).

(** ** The line *)

(** All of them hear the frame; those that answer, answer. *)
Definition answers (f : Frame.Frame) (now : Z) (ps : list Pd.Device) : list Frame.Frame :=
  omap (fun p => match (Pd.Handle p f now).2 with Ok r => Some r | Err _ => None end) ps.
Definition heard_by (f : Frame.Frame) (now : Z) (ps : list Pd.Device) : list Pd.Device :=
  map (fun p => (Pd.Handle p f now).1) ps.

(** One turn of panel.cycle. An answer goes over the same pair of wires, so the
    peripherals hear it too; of several at once nothing arrives. *)
Definition transaction (b : Bus.Bus) (ps : list Pd.Device) (now now' : Z) : Bus.Bus * list Pd.Device * option Bus.Event :=
  match Bus.Next b with
  | (b, None) => (b, ps, None)
  | (b, Some st) =>
      let rs := answers (Bus.st_Frame st) now ps in
      let ps := heard_by (Bus.st_Frame st) now ps in
      match rs with
      | [r] =>
          let ps := heard_by r now ps in
          match Bus.Reply b (Bus.st_Device st) r now' with
          | (b, Ok e) => (b, ps, Some e)
          | (b, Err _) => let '(b, e) := Bus.Timeout b (Bus.st_Device st) in (b, ps, e)
          end
      | _ => let '(b, e) := Bus.Timeout b (Bus.st_Device st) in (b, ps, e)
      end
  end.

(** Every device of the list by its place in it, with its peripheral. *)
Inductive happening :=
  | Befell (i : nat) (st : stimulus)
  | Ordered (req : Panel.request)
  | Exchanged (now now' : Z).

(** What an observer of the whole line writes down. *)
Inductive entry :=
  | Heard (e : option Bus.Event)
  | Granted (i : nat) (m : Cmd.Message)
  | Presented (i : nat) (c : credential).

Definition happen (b : Bus.Bus) (ps : list Pd.Device) (h : happening) : Bus.Bus * list Pd.Device * list entry :=
  match h with
  | Befell i st =>
      match ps !! i with
      | Some p => (b, <[i := react p st]> ps, map (Presented i) (presented p st))
      | None => (b, ps, [])
      end
  | Ordered req =>
      let '(b', e) := Panel.queue b req in
      (b', ps, match e, Panel.addressed 0 (Bus.b_devices b) (Panel.q_addr req) with
               | None, Some i => [Granted i (Panel.q_msg req)]
               | _, _ => []
               end)
  | Exchanged now now' => let '(b, ps, e) := transaction b ps now now' in (b, ps, [Heard e])
  end.

Fixpoint live (b : Bus.Bus) (ps : list Pd.Device) (hs : list happening) : Bus.Bus * list Pd.Device * list entry :=
  match hs with
  | [] => (b, ps, [])
  | h :: hs =>
      let '(b, ps, l) := happen b ps h in
      let '(b, ps, l') := live b ps hs in
      (b, ps, l ++ l')
  end.

(** The part of the log that is about device [i]. *)
Definition event_of (i : nat) (x : entry) : option (option Bus.Event) :=
  match x with
  | Heard (Some e) => if decide (Bus.e_Device e = i) then Some (Some e) else None
  | _ => None
  end.
Definition granted_to (i : nat) (x : entry) : option Cmd.Message :=
  match x with Granted j m => if decide (j = i) then Some m else None | _ => None end.
Definition presented_to (i : nat) (x : entry) : option credential :=
  match x with Presented j c => if decide (j = i) then Some c else None | _ => None end.

Definition ledger (i : nat) (log : list entry) : account :=
  mk_account (omap (event_of i) log) (omap (granted_to i) log) (omap (presented_to i) log).

(** Every exchange came to an event. *)
Definition concluded (x : entry) : Prop := match x with Heard e => is_Some e | _ => True end.

Lemma ledger_app i l l' : ledger i (l ++ l') =
  mk_account (ac_events (ledger i l) ++ ac_events (ledger i l')) (ac_granted (ledger i l) ++ ac_granted (ledger i l'))
    (ac_presented (ledger i l) ++ ac_presented (ledger i l')).
Proof. unfold ledger. cbn [ac_events ac_granted ac_presented]. by rewrite !omap_app. Qed.

Lemma ledger_presented i l : ledger i (map (Presented i) l) = mk_account [] [] l.
Proof.
  unfold ledger. f_equal; induction l as [|x l IH]; cbn; try done. unfold presented_to at 1. rewrite decide_True by done. by f_equal.
Qed.

Lemma ledger_presented_ne i j l : j <> i -> ledger i (map (Presented j) l) = mk_account [] [] [].
Proof.
  intros Hn. unfold ledger. f_equal; induction l as [|x l IH]; cbn; try done. unfold presented_to at 1. by rewrite decide_False.
Qed.

(** ** Who answers *)

Lemma deaf p f now : Frame.f_IsReply f = true \/ Pd.addressed p (Frame.f_Address f) = false ->
  exists e, Pd.Handle p f now = (p, Err e).
Proof.
  intros Hf. unfold Pd.Handle. destruct (Pd.screen f) as [e|] eqn:E; [by exists e|].
  destruct Hf as [Hf|Hf]; [unfold Pd.screen in E; by rewrite Hf in E|]. rewrite Hf. by eexists.
Qed.

Lemma answers_cons f now p ps : answers f now (p :: ps) =
  match (Pd.Handle p f now).2 with Ok r => r :: answers f now ps | Err _ => answers f now ps end.
Proof. unfold answers. cbn. by destruct (Pd.Handle p f now).2. Qed.

Lemma heard_by_cons f now p ps : heard_by f now (p :: ps) = (Pd.Handle p f now).1 :: heard_by f now ps.
Proof. done. Qed.

Lemma nobody_hears f now ps : Forall (fun p => exists e, Pd.Handle p f now = (p, Err e)) ps ->
  answers f now ps = [] /\ heard_by f now ps = ps.
Proof. induction 1 as [|p ps [e E] _ [IH1 IH2]]; [done|]. by rewrite answers_cons, heard_by_cons, E, IH1, IH2. Qed.

Lemma one_hears f now p p' r ps : forall c, ps !! c = Some p -> Pd.Handle p f now = (p', Ok r) ->
  (forall i q, ps !! i = Some q -> i <> c -> exists e, Pd.Handle q f now = (q, Err e)) ->
  answers f now ps = [r] /\ heard_by f now ps = <[c := p']> ps.
Proof.
  induction ps as [|q ps IH]; intros [|c] Hc HH Ho; [done..| |].
  - injection Hc as ->. destruct (nobody_hears f now ps) as [E1 E2].
    { apply Forall_lookup_2. intros i q Hq. by apply (Ho (Datatypes.S i) q). }
    by rewrite answers_cons, heard_by_cons, HH, E1, E2.
  - destruct (Ho 0%nat q eq_refl) as [e E]; [done|].
    destruct (IH c Hc HH) as [E1 E2]. { intros i q' Hq Hi. apply (Ho (Datatypes.S i) q' Hq). by intros [= ->]. }
    by rewrite answers_cons, heard_by_cons, E, E1, E2.
Qed.

Section with_suite.
Context {S : Secure.CipherSuite} `{!Secure.SuiteLaws S}.

(** ** The line at rest *)

(** Each device of the bus in step with its own peripheral, all of them at
    different addresses; [ts] is when each peripheral last heard its address. *)
Record multidrop (b : Bus.Bus) (ps : list Pd.Device) (ts : list Z) : Prop := mk_multidrop {
  md_bus : BusFacts.bus_ok (S := S) b;
  md_some : Bus.b_devices b <> [];
  md_length : length ps = length (Bus.b_devices b) /\ length ts = length (Bus.b_devices b);
  md_distinct : NoDup (map Device.d_Address (Bus.b_devices b));
  md_paired i d p t : Bus.b_devices b !! i = Some d -> ps !! i = Some p -> ts !! i = Some t ->
    Delivery.paired (S := S) d p t
}.

Lemma multidrop_lookup b ps ts i : multidrop b ps ts -> (i < length (Bus.b_devices b))%nat -> exists d p t,
  Bus.b_devices b !! i = Some d /\ ps !! i = Some p /\ ts !! i = Some t /\ Delivery.paired (S := S) d p t.
Proof.
  intros Hm Hi. destruct (md_length _ _ _ Hm) as [L1 L2].
  destruct (lookup_lt_is_Some_2 (Bus.b_devices b) i Hi) as [d Hd].
  destruct (lookup_lt_is_Some_2 ps i) as [p Hp]; [by rewrite L1|]. destruct (lookup_lt_is_Some_2 ts i) as [t Ht]; [by rewrite L2|].
  exists d, p, t. split_and!; try done. by eapply md_paired.
Qed.

Lemma map_insert_same {A B} (f : A -> B) (l : list A) i x y : l !! i = Some x -> f y = f x -> map f (<[i := y]> l) = map f l.
Proof.
  intros Hi Hf. change (map f) with (fmap (M := list) f). rewrite list_fmap_insert. apply list_insert_id.
  rewrite list_lookup_fmap, Hi. cbn. by rewrite Hf.
Qed.

(** One device and its peripheral, moved together. *)
Lemma multidrop_insert b b' ps ts i d d' p' t' : multidrop b ps ts -> BusFacts.bus_ok (S := S) b' ->
  Bus.b_devices b !! i = Some d -> Bus.b_devices b' = <[i := d']> (Bus.b_devices b) ->
  Device.d_Address d' = Device.d_Address d -> Delivery.paired (S := S) d' p' t' ->
  multidrop b' (<[i := p']> ps) (<[i := t']> ts).
Proof.
  intros [M1 M0 [M2 M3] M4 M5] Hb' Hd Hds Ha Hp. split; [done| | |..].
  - rewrite Hds. intros E. apply M0, length_zero_iff_nil. by rewrite <- (length_insert (Bus.b_devices b) i d'), E.
  - by rewrite Hds, !length_insert.
  - by rewrite Hds, (map_insert_same _ _ _ d).
  - rewrite Hds. intros j d0 p0 t0 H1 H2 H3. destruct (decide (i = j)) as [<-|Hn].
    + apply list_lookup_insert_Some in H1 as [(_ & <- & _)|(? & _)]; [|done].
      apply list_lookup_insert_Some in H2 as [(_ & <- & _)|(? & _)]; [|done].
      by apply list_lookup_insert_Some in H3 as [(_ & <- & _)|(? & _)].
    + rewrite list_lookup_insert_ne in H1 by done. rewrite list_lookup_insert_ne in H2 by done.
      rewrite list_lookup_insert_ne in H3 by done. by eapply M5.
Qed.

Lemma multidrop_address b ps ts i p : multidrop b ps ts -> ps !! i = Some p ->
  map Device.d_Address (Bus.b_devices b) !! i = Some (Pd.p_address p) /\ 0 <= Pd.p_address p < 127.
Proof.
  intros Hm Hp. assert (Hi : (i < length (Bus.b_devices b))%nat).
  { rewrite <- (proj1 (md_length _ _ _ Hm)). by eapply lookup_lt_Some. }
  destruct (multidrop_lookup b ps ts i Hm Hi) as (d & p' & t & Hd & Hp' & _ & Hl). rewrite Hp in Hp'. injection Hp' as <-. split.
  - change (map Device.d_Address) with (fmap (M := list) Device.d_Address). rewrite list_lookup_fmap, Hd. cbn.
    by rewrite (System.is_addr _ _ (Delivery.pr_step _ _ _ Hl)).
  - apply (PdFacts.sv_addr _ (proj1 (Delivery.pr_pd _ _ _ Hl))).
Qed.

(** A command to one of them says nothing to the others. *)
Lemma only_addressed b ps ts c p f now : multidrop b ps ts -> ps !! c = Some p -> Frame.f_Address f = Pd.p_address p ->
  forall i q, ps !! i = Some q -> i <> c -> exists e, Pd.Handle q f now = (q, Err e).
Proof.
  intros Hm Hp Hf i q Hq Hn. apply deaf. right.
  destruct (multidrop_address b ps ts c p Hm Hp) as [Hc Hr]. destruct (multidrop_address b ps ts i q Hm Hq) as [Hi _].
  unfold Pd.addressed. rewrite Hf. rewrite (bool_decide_eq_false_2 (Pd.p_address p = Pd.p_address q)).
  - rewrite (bool_decide_eq_false_2 (Pd.p_address p = Frame.BroadcastAddress)); [by rewrite andb_false_r|].
    unfold Frame.BroadcastAddress. lia.
  - intros E. rewrite E in Hc. apply Hn. exact (NoDup_lookup _ _ _ _ (md_distinct _ _ _ Hm) Hi Hc).
Qed.

(** ** One turn *)

(** The turn of the device [c]: its peripheral answered, nobody else moved. *)
Record turned (b : Bus.Bus) (ps : list Pd.Device) (ts : list Z) (now : Z) (b' : Bus.Bus) (ps' : list Pd.Device)
    (ev : Bus.Event) : Prop := mk_turned {
  td_event : Bus.e_Device ev = Bus.b_current b;
  td_current : Bus.b_current b' = (Datatypes.S (Bus.b_current b) mod length (Bus.b_devices b))%nat;
  td_ok : multidrop b' ps' (<[Bus.b_current b := now]> ts);
  td_moved : exists d d' p p', Bus.b_devices b !! Bus.b_current b = Some d /\ ps !! Bus.b_current b = Some p /\
    Bus.b_devices b' = <[Bus.b_current b := d']> (Bus.b_devices b) /\ ps' = <[Bus.b_current b := p']> ps /\
    Delivery.moved_one d d' p p' ev
}.

Lemma transaction_turned b ps ts now now' : multidrop b ps ts ->
  (forall p t, ps !! Bus.b_current b = Some p -> ts !! Bus.b_current b = Some t -> Enrol.prompt p t now) ->
  exists b' ps' ev, transaction b ps now now' = (b', ps', Some ev) /\ turned b ps ts now b' ps' ev.
Proof.
  intros Hm Ht. set (c := Bus.b_current b) in *.
  destruct (multidrop_lookup b ps ts c Hm) as (d & p & t & Hd & Hp & Hts & Hl).
  { apply (BusFacts.bo_current b (md_bus _ _ _ Hm) (md_some _ _ _ Hm)). }
  destruct (Delivery.takes_turn b d p t now now' (md_bus _ _ _ Hm) Hd Hl (Ht p t Hp Hts))
    as (f & r & p' & d' & ev & b' & [(b1 & tmo & En & Er) Hfa HH Hr Hev Hb' Hds Hcur Hda Hl' Hmv]). fold c in En, Er, Hev, Hds, Hcur.
  destruct (one_hears f now p p' r ps c Hp HH (only_addressed b ps ts c p f now Hm Hp Hfa)) as [Ha Hh].
  destruct (nobody_hears r now (<[c := p']> ps)) as [_ Hq].
  { apply Forall_forall. intros q _. apply deaf. by left. }
  exists b', (<[c := p']> ps), ev. split.
  - unfold transaction. rewrite En. cbn [Bus.st_Frame Bus.st_Device]. cbv zeta. by rewrite Ha, Hh, Hq, Er.
  - split; [done| |by eapply multidrop_insert|by exists d, d', p, p']. rewrite Hcur. by rewrite Nat.add_1_r.
Qed.

(** ** A life *)

(** Ordinary commands and stimuli, and each device given its turn within its own
    timeout of the last; [c] is whose turn comes. *)
Fixpoint usual (ps : list Pd.Device) (ts : list Z) (c : nat) (hs : list happening) : Prop :=
  match hs with
  | [] => True
  | Befell i st :: hs => befalls st /\ usual ps ts c hs
  | Ordered req :: hs => sends req /\ usual ps ts c hs
  | Exchanged now _ :: hs =>
      (forall p t, ps !! c = Some p -> ts !! c = Some t -> Enrol.prompt p t now) /\
      usual ps (<[c := now]> ts) (Datatypes.S c mod length ps) hs
  end.

Lemma usual_cfg_shared ps ps' ts c hs : map Pd.p_cfg ps' = map Pd.p_cfg ps -> usual ps ts c hs -> usual ps' ts c hs.
Proof.
  intros E. assert (El : length ps' = length ps) by (rewrite <- (length_map Pd.p_cfg ps'), E; apply length_map).
  revert ts c. induction hs as [|[i st|req|now now'] hs IH]; intros ts c; cbn [usual]; [done|intuition..|].
  rewrite El. intros [H1 H2]. split; [|by apply IH]. intros p' t Hp' Ht.
  assert (Hc : (map Pd.p_cfg ps) !! c = Some (Pd.p_cfg p')).
  { rewrite <- E. change (map Pd.p_cfg) with (fmap (M := list) Pd.p_cfg). by rewrite list_lookup_fmap, Hp'. }
  change (map Pd.p_cfg) with (fmap (M := list) Pd.p_cfg) in Hc. rewrite list_lookup_fmap in Hc.
  destruct (ps !! c) as [p|] eqn:Hp; [|done]. injection Hc as Hc. specialize (H1 p t eq_refl Ht). unfold Enrol.prompt in *. by rewrite <- Hc.
Qed.

(** Whose turn it is afterwards, and how much device [i] can then have waiting. *)
Definition cursor (n c : nat) (h : happening) : nat :=
  match h with Exchanged _ _ => Datatypes.S c mod n | _ => c end.
Definition burden (i c w : nat) (h : happening) : nat :=
  match h with Exchanged _ _ => if decide (c = i) then pred w else w | _ => Datatypes.S w end.

Fixpoint backlog (i n c w : nat) (hs : list happening) : nat :=
  match hs with
  | [] => w
  | h :: hs => backlog i n (cursor n c h) (burden i c w h) hs
  end.

Lemma burden_mono i c w w' h : (w <= w')%nat -> (burden i c w h <= burden i c w' h)%nat.
Proof. intros H0. destruct h; cbn; [lia..|]. case_decide; lia. Qed.

Lemma backlog_mono i n hs : forall c w w', (w <= w')%nat -> (backlog i n c w hs <= backlog i n c w' hs)%nat.
Proof. induction hs as [|h hs IH]; intros c w w' H0; cbn; [done|]. by apply IH, burden_mono. Qed.

(** The books of every device between two moments. *)
Definition books (b : Bus.Bus) (ps : list Pd.Device) (log : list entry) (b' : Bus.Bus) (ps' : list Pd.Device)
    (bound : nat -> nat -> nat) : Prop :=
  forall i d p, Bus.b_devices b !! i = Some d -> ps !! i = Some p ->
  exists d' p', Bus.b_devices b' !! i = Some d' /\ ps' !! i = Some p' /\
    balanced d p (ledger i log) d' p' /\ (waiting d' p' <= bound i (waiting d p))%nat.

Lemma books_at k b ps log b' ps' bound d p d' p' :
  Bus.b_devices b !! k = Some d -> ps !! k = Some p -> Bus.b_devices b' = <[k := d']> (Bus.b_devices b) -> ps' = <[k := p']> ps ->
  (forall i, i <> k -> ledger i log = mk_account [] [] []) -> (forall i w, i <> k -> w <= bound i w)%nat ->
  balanced d p (ledger k log) d' p' -> (waiting d' p' <= bound k (waiting d p))%nat -> books b ps log b' ps' bound.
Proof.
  intros Hd Hp Hds -> Hl Hb HB Hw i d0 p0 Hd0 Hp0. rewrite Hds. destruct (decide (i = k)) as [->|Hn].
  - rewrite Hd in Hd0. rewrite Hp in Hp0. injection Hd0 as <-. injection Hp0 as <-. exists d', p'.
    by rewrite !list_lookup_insert_eq by (by eapply lookup_lt_Some).
  - exists d0, p0. rewrite !list_lookup_insert_ne by done. rewrite (Hl i Hn).
    split_and!; try done; [apply Delivery.balanced_refl|by apply Hb].
Qed.

Lemma books_none b ps bound : (forall i w, w <= bound i w)%nat -> books b ps [] b ps bound.
Proof. intros Hb i d p Hd Hp. exists d, p. split_and!; try done. apply Delivery.balanced_refl. Qed.

(** One happening leaves the line fit for the next. *)
Record stepped (b : Bus.Bus) (ps : list Pd.Device) (h : happening) (b' : Bus.Bus) (ps' : list Pd.Device)
    (ts' : list Z) (log : list entry) : Prop := mk_stepped {
  st_ok : multidrop b' ps' ts';
  st_heard : Forall concluded log;
  st_cfg : map Pd.p_cfg ps' = map Pd.p_cfg ps;
  st_cursor : Bus.b_current b' = cursor (length ps) (Bus.b_current b) h;
  st_books : books b ps log b' ps' (fun i w => burden i (Bus.b_current b) w h)
}.

Lemma befell_stepped b ps ts i st b' ps' log : multidrop b ps ts -> befalls st ->
  happen b ps (Befell i st) = (b', ps', log) -> stepped b ps (Befell i st) b' ps' ts log.
Proof.
  intros Hm Hst. cbn [happen]. destruct (ps !! i) as [p|] eqn:Hp; intros [= <- <- <-].
  2: { split; [done|by apply Forall_nil_2|done|done|]. apply books_none. intros; cbn; lia. }
  assert (Hi : (i < length (Bus.b_devices b))%nat) by (rewrite <- (proj1 (md_length _ _ _ Hm)); by eapply lookup_lt_Some).
  destruct (multidrop_lookup b ps ts i Hm Hi) as (d & p0 & t & Hd & Hp0 & Ht & Hl). rewrite Hp in Hp0. injection Hp0 as <-.
  destruct (Delivery.react_paired d p t st Hl Hst) as (H1 & H2 & H3). split; [| | |done|].
  - rewrite <- (list_insert_id ts i t Ht). eapply multidrop_insert; try done; [apply (md_bus _ _ _ Hm)|].
    by rewrite list_insert_id.
  - by apply Forall_map, Forall_true.
  - apply (map_insert_same _ _ _ p); [done|]. apply (Delivery.ba_cfg _ _ _ _ _ H2).
  - eapply (books_at i); try done.
    + by rewrite list_insert_id.
    + intros j Hj. by apply ledger_presented_ne.
    + intros; cbn; lia.
    + by rewrite ledger_presented.
Qed.

Lemma ordered_stepped b ps ts req b' ps' log : multidrop b ps ts -> sends req ->
  happen b ps (Ordered req) = (b', ps', log) -> stepped b ps (Ordered req) b' ps' ts log.
Proof.
  intros Hm Hs. cbn [happen]. destruct (Panel.queue b req) as [b1 e] eqn:E. intros [= <- <- <-].
  pose proof (Delivery.requested_ok b req b1 e (md_bus _ _ _ Hm) Hs E) as Hb1.
  destruct (Delivery.queue_sends b req b1 e Hs E) as [[-> [e0 ->]]|(i & d & Hi & Hd & -> & ->)].
  { split; [done|by apply Forall_nil_2|done|done|]. apply books_none. intros; cbn; lia. }
  rewrite Hi. unfold Bus.device in Hd. destruct (multidrop_lookup b ps ts i Hm (lookup_lt_Some _ _ _ Hd)) as (d0 & p & t & Hd0 & Hp & Ht & Hl).
  rewrite Hd in Hd0. injection Hd0 as <-.
  destruct (Delivery.enqueue_paired d p t (Panel.q_msg req) Hl) as (H1 & H2 & H3); [by apply Hs|]. split; [| |done|done|].
  - rewrite <- (list_insert_id ts i t Ht), <- (list_insert_id ps i p Hp). by eapply multidrop_insert.
  - by apply Forall_singleton.
  - eapply (books_at i b ps _ _ ps _ d p _ p); try done.
    + by rewrite list_insert_id.
    + intros j Hj. unfold ledger. cbn. by rewrite decide_False by done.
    + intros; cbn; lia.
    + unfold ledger. cbn. by rewrite decide_True by done.
    + by rewrite H3.
Qed.

Lemma exchanged_stepped b ps ts now now' b' ps' log : multidrop b ps ts ->
  (forall p t, ps !! Bus.b_current b = Some p -> ts !! Bus.b_current b = Some t -> Enrol.prompt p t now) ->
  happen b ps (Exchanged now now') = (b', ps', log) ->
  stepped b ps (Exchanged now now') b' ps' (<[Bus.b_current b := now]> ts) log.
Proof.
  intros Hm Ht. destruct (transaction_turned b ps ts now now' Hm Ht)
    as (b1 & ps1 & ev & E & [He Hc Hok (d & d' & p & p' & Hd & Hp & Hds & Hps & Hmv)]).
  cbn [happen]. rewrite E. intros [= <- <- <-]. destruct (Delivery.moved_one_balanced _ _ _ _ _ Hmv) as [HB Hw]. split.
  - done.
  - apply Forall_singleton. by eexists.
  - rewrite Hps. apply (map_insert_same _ _ _ p _ Hp). apply (Delivery.ba_cfg _ _ _ _ _ HB).
  - by rewrite Hc, (proj1 (md_length _ _ _ Hm)).
  - eapply (books_at (Bus.b_current b)); try done.
    + intros j Hj. unfold ledger. cbn. by rewrite decide_False by congruence.
    + intros j w Hj. cbn. by rewrite decide_False by congruence.
    + unfold ledger. cbn. by rewrite decide_True by done.
    + rewrite Hw. cbn. by rewrite decide_True by done.
Qed.

Lemma happen_stepped b ps ts h hs b' ps' log : multidrop b ps ts -> usual ps ts (Bus.b_current b) (h :: hs) ->
  happen b ps h = (b', ps', log) ->
  exists ts', stepped b ps h b' ps' ts' log /\ usual ps' ts' (Bus.b_current b') hs.
Proof.
  intros Hm Hu E. assert (Hs : exists ts', stepped b ps h b' ps' ts' log /\ usual ps ts' (cursor (length ps) (Bus.b_current b) h) hs).
  { destruct h as [i st|req|now now']; destruct Hu as [Hh Hu]; eexists; (split; [|exact Hu]).
    - by eapply befell_stepped.
    - by eapply ordered_stepped.
    - by eapply exchanged_stepped. }
  destruct Hs as (ts' & Hs & Hu'). exists ts'. split; [done|]. rewrite (st_cursor _ _ _ _ _ _ _ Hs).
  by eapply usual_cfg_shared; [apply (st_cfg _ _ _ _ _ _ _ Hs)|].
Qed.

Lemma lives_shared hs : forall b ps ts b' ps' log, multidrop b ps ts -> usual ps ts (Bus.b_current b) hs ->
  live b ps hs = (b', ps', log) ->
  exists ts', multidrop b' ps' ts' /\ Forall concluded log /\
    books b ps log b' ps' (fun i w => backlog i (length ps) (Bus.b_current b) w hs).
Proof.
  induction hs as [|h hs IH]; intros b ps ts b' ps' log Hm Hu; cbn [live].
  { intros [= <- <- <-]. exists ts. split; [done|]. split; [by apply Forall_nil_2|]. by apply books_none. }
  destruct (happen b ps h) as [[b1 ps1] l1] eqn:E1. destruct (live b1 ps1 hs) as [[b2 ps2] l2] eqn:E2. intros [= <- <- <-].
  destruct (happen_stepped b ps ts h hs b1 ps1 l1 Hm Hu E1) as (ts1 & [S1 S2 S3 S4 S5] & Hu1).
  destruct (IH b1 ps1 ts1 b2 ps2 l2 S1 Hu1 E2) as (ts2 & H1 & H2 & H3).
  exists ts2. split; [done|]. split; [by apply Forall_app|]. intros i d p Hd Hp.
  destruct (S5 i d p Hd Hp) as (d1 & p1 & Hd1 & Hp1 & B1 & W1). destruct (H3 i d1 p1 Hd1 Hp1) as (d2 & p2 & Hd2 & Hp2 & B2 & W2).
  exists d2, p2. split; [done|]. split; [done|]. rewrite ledger_app. split; [by eapply Delivery.balanced_trans|].
  etrans; [exact W2|]. cbn [backlog]. rewrite <- S4.
  rewrite <- (length_map Pd.p_cfg ps1), S3, length_map. by apply backlog_mono.
Qed.

(** ** The round *)

(** How many of the next [m] turns are device [i]'s. *)
Fixpoint turns (i n c m : nat) : nat :=
  match m with
  | O => O
  | Datatypes.S m => ((if decide (c = i) then 1 else 0) + turns i n (Datatypes.S c mod n) m)%nat
  end.

(** How many turns until its own. *)
Definition distance (i n c : nat) : nat := if decide (c <= i)%nat then (i - c)%nat else (n - c + i)%nat.

Lemma turns_enough i n : (i < n)%nat -> forall m c, (c < n)%nat -> (m <= n * turns i n c m + distance i n c)%nat.
Proof.
  intros Hi. induction m as [|m IH]; intros c Hc; cbn [turns]; [lia|].
  pose proof (Nat.mod_upper_bound (Datatypes.S c) n ltac:(lia)) as Hc'. specialize (IH _ Hc').
  assert (Hmod : (Datatypes.S c mod n = if decide (Datatypes.S c = n) then 0 else Datatypes.S c)%nat).
  { case_decide as E; [rewrite E; apply Nat.Div0.mod_same|apply Nat.mod_small; lia]. }
  rewrite Hmod in *. revert IH. unfold distance. repeat case_decide; nia.
Qed.

Lemma turns_rounds i n c k : (i < n)%nat -> (c < n)%nat -> (k <= turns i n c (k * n))%nat.
Proof.
  intros Hi Hc. pose proof (turns_enough i n Hi (k * n) c Hc) as H0.
  assert (distance i n c < n)%nat by (unfold distance; case_decide; lia). nia.
Qed.

Definition at_once (now : Z) : happening := Exchanged now now.

Lemma backlog_app_shared i n hs hs' : forall c w,
  backlog i n c w (hs ++ hs') = backlog i n (fold_left (cursor n) hs c) (backlog i n c w hs) hs'.
Proof. induction hs as [|h hs IH]; intros c w; [done|]. apply IH. Qed.

Lemma backlog_quiet_shared i n ts : forall c w, backlog i n c w (map at_once ts) = (w - turns i n c (length ts))%nat.
Proof.
  induction ts as [|t ts IH]; intros c w; cbn [map backlog turns length at_once cursor burden]; [lia|].
  rewrite IH. case_decide; lia.
Qed.

Lemma backlog_length_shared i n hs : forall c w, (backlog i n c w hs <= w + length hs)%nat.
Proof.
  induction hs as [|h hs IH]; intros c w; cbn [backlog length]; [lia|]. etrans; [apply IH|].
  assert (burden i c w h <= Datatypes.S w)%nat by (destruct h; cbn; [lia..|]; case_decide; lia). lia.
Qed.

Lemma cursor_bound n hs : forall c, (c < n)%nat -> (fold_left (cursor n) hs c < n)%nat.
Proof.
  induction hs as [|h hs IH]; intros c Hc; [done|]. apply IH. destruct h; cbn; try done. apply Nat.mod_upper_bound. lia.
Qed.

(** C2. Every device on its channel has the line to itself. Many devices on one pair of
    wires, each at an address of its own and in step with its own reader on an
    established channel. Over any interleaving of exchanges, requests of [Send] for an
    output, an indicator, the buzzer, a text or a status (the eight codes of
    [ordinary]), and cards, keys and contacts at any of the readers, each device being
    given its turn within its own timeout of the last: every exchange comes to an event,
    and for each device, whatever befell the others, the credentials the application has
    heard of from it, followed by those it still holds, are those it held followed by
    those it accepted; the commands it has obeyed, followed by those still queued for
    it, are those that were queued followed by those [Send] granted for its address, and
    its relays are where obeying them one after the other puts them. All of them are
    then in step on their channels again. (What is lost in the clear is another matter:
    Lossy.v.) *)
Theorem line_shared b ps ts hs b' ps' log : multidrop b ps ts -> usual ps ts (Bus.b_current b) hs ->
  live b ps hs = (b', ps', log) ->
  Forall concluded log /\ (exists ts', multidrop b' ps' ts') /\
  forall i d p, Bus.b_devices b !! i = Some d -> ps !! i = Some p ->
  exists d' p', Bus.b_devices b' !! i = Some d' /\ ps' !! i = Some p' /\
    omap heard_of (omap (event_of i) log) ++ omap decode (Pd.p_pending p') =
      omap decode (Pd.p_pending p) ++ omap (presented_to i) log /\
    exists obeyed, Device.d_outbox d ++ omap (granted_to i) log = obeyed ++ Device.d_outbox d' /\
      Pd.p_outputs p' = fold_left obey obeyed (Pd.p_outputs p).
Proof.
  intros Hm Hu E. destruct (lives_shared hs b ps ts b' ps' log Hm Hu E) as (ts' & H1 & H2 & H3).
  split; [done|]. split; [by exists ts'|]. intros i d p Hd Hp.
  destruct (H3 i d p Hd Hp) as (d' & p' & Hd' & Hp' & [_ _ B3 B4] & _). by exists d', p'.
Qed.

(** What [k] rounds leave, when that is what any device could have waiting. *)
Lemma quiet_rounds b ps ts hs k quiet b' ps' log : multidrop b ps ts ->
  usual ps ts (Bus.b_current b) (hs ++ map at_once quiet) -> length quiet = (k * length ps)%nat ->
  (forall i d p, Bus.b_devices b !! i = Some d -> ps !! i = Some p -> (waiting d p + length hs <= k)%nat) ->
  live b ps (hs ++ map at_once quiet) = (b', ps', log) ->
  forall i d p, Bus.b_devices b !! i = Some d -> ps !! i = Some p ->
  exists d' p', Bus.b_devices b' !! i = Some d' /\ ps' !! i = Some p' /\
    Device.d_outbox d' = [] /\ Pd.p_pending p' = [] /\
    omap heard_of (omap (event_of i) log) = omap decode (Pd.p_pending p) ++ omap (presented_to i) log /\
    Pd.p_outputs p' = fold_left obey (Device.d_outbox d ++ omap (granted_to i) log) (Pd.p_outputs p).
Proof.
  intros Hm Hu Hq Hk E i d p Hd Hp. destruct (lives_shared _ b ps ts b' ps' log Hm Hu E) as (ts' & _ & _ & H3).
  destruct (H3 i d p Hd Hp) as (d' & p' & Hd' & Hp' & [_ _ B3 (o & B4 & B5)] & Hw). cbn [ledger ac_events ac_granted ac_presented] in *.
  pose proof (BusFacts.bo_current b (md_bus _ _ _ Hm) (md_some _ _ _ Hm)) as Hc.
  rewrite <- (proj1 (md_length _ _ _ Hm)) in Hc. pose proof (lookup_lt_Some _ _ _ Hp) as Hi.
  rewrite backlog_app_shared, backlog_quiet_shared, Hq in Hw.
  pose proof (turns_rounds i (length ps) _ k Hi (cursor_bound (length ps) hs (Bus.b_current b) Hc)) as Ht.
  pose proof (backlog_length_shared i (length ps) hs (Bus.b_current b) (waiting d p)) as Hb. specialize (Hk i d p Hd Hp).
  assert (H0 : waiting d' p' = 0%nat) by lia. unfold Delivery.waiting in H0.
  assert (Hout : Device.d_outbox d' = []) by (apply length_zero_iff_nil; lia).
  assert (Hpen : Pd.p_pending p' = []) by (apply length_zero_iff_nil; lia).
  exists d', p'. rewrite Hpen in B3. rewrite Hout in B4. cbn [omap list_omap] in B3. rewrite app_nil_r in B3, B4.
  rewrite B4. by split_and!.
Qed.

(** C3. The round is fair. On a line whose devices are each in step with their reader on
    an established channel, after any life of ordinary requests, reports and exchanges
    in which each has its turn within its timeout (that of [line_shared]), [k] rounds in
    which nothing more happens leave no device with anything waiting, where [k] is what
    any one of them could have waiting: the line's other traffic costs a device nothing
    but the wait for its turn. The application has then heard every credential each
    reader accepted, in order, and each reader has obeyed every command granted for it,
    in order. *)
Theorem round_robin_fair b ps ts hs k quiet b' ps' log : multidrop b ps ts ->
  usual ps ts (Bus.b_current b) (hs ++ map at_once quiet) -> length quiet = (k * length ps)%nat ->
  (forall i d p, Bus.b_devices b !! i = Some d -> ps !! i = Some p -> (waiting d p + length hs <= k)%nat) ->
  live b ps (hs ++ map at_once quiet) = (b', ps', log) ->
  forall i d p, Bus.b_devices b !! i = Some d -> ps !! i = Some p ->
  exists d' p', Bus.b_devices b' !! i = Some d' /\ ps' !! i = Some p' /\
    Device.d_outbox d' = [] /\ Pd.p_pending p' = [] /\
    omap heard_of (omap (event_of i) log) = omap decode (Pd.p_pending p) ++ omap (presented_to i) log /\
    Pd.p_outputs p' = fold_left obey (Device.d_outbox d ++ omap (granted_to i) log) (Pd.p_outputs p).
Proof. exact (quiet_rounds b ps ts hs k quiet b' ps' log). Qed.

End with_suite.

(** Away from the configuration address, a peripheral has one address. *)
Lemma addressed_one p f : Frame.f_Address f <> Frame.BroadcastAddress ->
  (Frame.f_Address f <> Pd.p_address p -> Pd.addressed p (Frame.f_Address f) = false) /\
  (Pd.addressed p (Frame.f_Address f) = true -> Frame.f_Address f = Pd.p_address p).
Proof.
  intros Hb. unfold Pd.addressed. rewrite (bool_decide_eq_false_2 (_ = Frame.BroadcastAddress)) by done.
  rewrite andb_false_r, orb_false_r. split; [apply bool_decide_eq_false_2|apply bool_decide_eq_true_1].
Qed.

Lemma answered_addressed p f now r : (Pd.Handle p f now).2 = Ok r -> Pd.addressed p (Frame.f_Address f) = true.
Proof. unfold Pd.Handle. destruct (Pd.screen f); [done|]. by destruct (Pd.addressed p (Frame.f_Address f)). Qed.

(** Whatever is on the line and whatever state the peripherals are in, of those with
    addresses of their own at most one answers, and to an answer none. *)
Lemma one_speaks f now ps : NoDup (map Pd.p_address ps) -> Frame.f_Address f <> Frame.BroadcastAddress ->
  (length (answers f now ps) <= 1)%nat /\ (Frame.f_IsReply f = true -> answers f now ps = [] /\ heard_by f now ps = ps).
Proof.
  intros Hd Hb. split.
  - induction ps as [|p ps IH]; [cbn; lia|]. apply NoDup_cons in Hd as [Hn Hd]. rewrite answers_cons.
    destruct (Pd.Handle p f now).2 as [r|e] eqn:E; [|by apply IH].
    destruct (nobody_hears f now ps) as [-> _]; [|cbn; lia]. apply Forall_forall. intros q Hq. apply deaf. right.
    apply (addressed_one q f Hb). intros Hx. apply Hn. rewrite list_elem_of_In. apply in_map_iff. exists q.
    split; [|by apply list_elem_of_In]. rewrite <- Hx. apply (addressed_one p f Hb). by eapply answered_addressed.
  - intros Hr. apply nobody_hears, Forall_forall. intros q _. apply deaf. by left.
Qed.

(** ** Witnesses: two readers of one line, enrolled from cold in eight exchanges *)

Section soundness.
Context {S : Secure.CipherSuite} `{!Secure.SuiteLaws S}.

Lemma answers_ok f now ps : Forall (PdFacts.pd_ok (S := S)) ps -> Frame.frame_ok f ->
  Forall (PdFacts.pd_ok (S := S)) (heard_by f now ps) /\ Forall Frame.frame_ok (answers f now ps).
Proof.
  intros Hp Hf. induction Hp as [|p ps H0 _ [IH1 IH2]]; [split; by apply Forall_nil_2|].
  rewrite answers_cons, heard_by_cons. pose proof (PdFacts.Handle_total p f now H0 Hf) as Hh. case_match.
  - destruct Hh as (p' & r & -> & K1 & K2 & _). split; by apply Forall_cons_2.
  - destruct Hh as (e & -> & _). split; [by apply Forall_cons_2|done].
Qed.

Lemma transaction_ok b ps now now' b' ps' e : BusFacts.bus_ok (S := S) b -> Forall (PdFacts.pd_ok (S := S)) ps ->
  transaction b ps now now' = (b', ps', e) -> BusFacts.bus_ok (S := S) b' /\ Forall (PdFacts.pd_ok (S := S)) ps'.
Proof.
  intros Hb Hp. unfold transaction. destruct (Bus.Next b) as [b1 [st|]] eqn:En.
  2: { intros [= <- <- <-]. split; [|done]. pose proof (BusFacts.Next_ok b Hb) as H0. by rewrite En in H0. }
  destruct (BusFacts.Next_frame b b1 st Hb En) as (Hf & _ & Hb1 & _).
  destruct (answers_ok (Bus.st_Frame st) now ps Hp Hf) as [H1 H2].
  assert (Ht : forall b2 ps2, BusFacts.bus_ok (S := S) b2 -> Forall (PdFacts.pd_ok (S := S)) ps2 ->
    (let '(b, e) := Bus.Timeout b2 (Bus.st_Device st) in (b, ps2, e)) = (b', ps', e) ->
    BusFacts.bus_ok (S := S) b' /\ Forall (PdFacts.pd_ok (S := S)) ps').
  { intros b2 ps2 H3 H4. destruct (Bus.Timeout b2 _) as [b3 e3] eqn:Et. intros [= <- <- <-]. split; [|done].
    eapply BusFacts.bus_step_ok; [exact H3|by eapply BusFacts.step_Timeout]. }
  cbv zeta. destruct (answers (Bus.st_Frame st) now ps) as [|r [|]]; [by apply Ht| |by apply Ht].
  apply Forall_cons in H2 as [H2 _]. destruct (answers_ok r now _ H1 H2) as [H3 _].
  destruct (Bus.Reply b1 (Bus.st_Device st) r now') as [b2 [ev|err]] eqn:Er.
  - intros [= <- <- <-]. split; [|done]. eapply BusFacts.bus_step_ok; [exact Hb1|by eapply BusFacts.step_Reply].
  - apply Ht; [|done]. eapply BusFacts.bus_step_ok; [exact Hb1|by eapply BusFacts.step_Reply].
Qed.

(** Silent exchanges, to bring a line up. *)
Fixpoint converse (b : Bus.Bus) (ps : list Pd.Device) (n : nat) : Bus.Bus * list Pd.Device :=
  match n with
  | O => (b, ps)
  | Datatypes.S n => let '(b, ps, _) := transaction b ps 0 0 in converse b ps n
  end.

Lemma converse_ok n : forall b ps, BusFacts.bus_ok (S := S) b -> Forall (PdFacts.pd_ok (S := S)) ps ->
  BusFacts.bus_ok (S := S) (converse b ps n).1 /\ Forall (PdFacts.pd_ok (S := S)) (converse b ps n).2.
Proof.
  induction n as [|n IH]; intros b ps Hb Hp; [done|]. cbn [converse].
  destruct (transaction b ps 0 0) as [[b1 ps1] e] eqn:E. destruct (transaction_ok b ps 0 0 b1 ps1 e Hb Hp E). by apply IH.
Qed.

(** What two ends in step have alike. *)
Definition session_view (s : Secure.Session) := (Secure.s_state s, Secure.s_keys s, Secure.s_cmac s, Secure.s_rmac s).

Lemma in_step_view b i d p s sp : BusFacts.bus_ok (S := S) b -> Bus.b_devices b !! i = Some d -> PdFacts.pd_ok (S := S) p ->
  Device.d_Address d = Pd.p_address p -> Device.d_State d = Device.Secure ->
  Device.d_session d = Some s -> Pd.p_session p = Some sp -> session_view s = session_view sp ->
  Pd.p_cachedValid p = true -> Pd.p_cachedSeq p = Device.d_seq d -> Device.d_repeatSequence d = false ->
  System.in_step (S := S) d p.
Proof.
  intros Hb Hd Hp Ha Hst Es Esp [= V1 V2 V3 V4] Hv Hq Hr. pose proof (BusFacts.bus_ok_device b i d Hb Hd) as Hdk.
  destruct (BusFacts.do_session b d Hdk s Es) as (Hs & HS & _ & _). destruct (PdFacts.sv_session p (proj1 Hp) sp Esp) as [[Hsp HSp] _].
  pose proof (BusFacts.do_secure b d Hdk Hst) as He. unfold Device.secureEstablished in He. rewrite Es in He.
  unfold Secure.Established in He. apply bool_decide_eq_true_1 in He.
  split; try done. exists s, sp. split; [done|]. split; [done|]. destruct Hs. split; try done. by rewrite <- V1.
Qed.

End soundness.

Abbreviation AES := Secure.AES128.suite (only parsing).

Lemma kat_bus_ok : BusFacts.bus_ok (S := AES) BusFacts.kat_bus.
Proof.
  apply (BusFacts.reachable_ok (Bus.mk_Line 5 200) [0; 1] Frame.SchemeCRC16 BusFacts.kat_keyFor BusFacts.kat_nonce);
    [octets_dec|apply BusFacts.kat_keyFor_ok|apply BusFacts.kat_nonce_ok|apply BusFacts.reach_secure].
Qed.

Definition kat_readers : list Pd.Device := [Enrol.kat_reader; PdFacts.kat_pd].
Definition kat_line : Bus.Bus * list Pd.Device := converse BusFacts.kat_bus kat_readers 8.

Lemma kat_line_sound : BusFacts.bus_ok (S := AES) kat_line.1 /\ Forall (PdFacts.pd_ok (S := AES)) kat_line.2.
Proof.
  apply converse_ok; [exact kat_bus_ok|]. apply Forall_cons_2; [exact Enrol.kat_reader_ok|].
  apply Forall_cons_2; [exact PdFacts.kat_pd_ok|by apply Forall_nil_2].
Qed.

(** As much of a device and its peripheral as their pairing takes. *)
Definition device_view (d : Device.Device) :=
  (Device.d_Address d, option_map session_view (Device.d_session d), Device.d_seq d, Device.d_outbox d, Device.d_inflight d,
   (Device.d_State d, Device.d_repeatSequence d, Device.d_deferCommands d), (true, @nil Cmd.Message, true, 0)).
Definition reader_view (p : Pd.Device) :=
  (Pd.p_address p, option_map session_view (Pd.p_session p), Pd.p_cachedSeq p, @nil Cmd.Message, @None Cmd.Message,
   (Device.Secure, false, false), (Pd.p_cachedValid p, Pd.p_pending p, Pd.p_seen p, Pd.p_lastSeen p)).

Lemma views_paired b i d p : BusFacts.bus_ok (S := AES) b -> Bus.b_devices b !! i = Some d -> PdFacts.pd_ok (S := AES) p ->
  device_view d = reader_view p -> Delivery.paired (S := AES) d p 0.
Proof.
  intros Hb Hd Hp [= A1 A2 A3 A4 A5 B1 B2 B3 C1 C2 C3 C4].
  pose proof (BusFacts.do_secure b d (BusFacts.bus_ok_device b i d Hb Hd) B1) as He. unfold Device.secureEstablished in He.
  destruct (Device.d_session d) as [s|] eqn:Es; [|done]. destruct (Pd.p_session p) as [sp|] eqn:Ep; [|done].
  apply (inj Some) in A2. split; try done.
  - by apply (in_step_view b i d p s sp).
  - rewrite A4. by apply Forall_nil_2.
  - rewrite <- C2. by apply Forall_nil_2.
Qed.

Lemma views_multidrop b ps : BusFacts.bus_ok (S := AES) b -> Forall (PdFacts.pd_ok (S := AES)) ps ->
  map device_view (Bus.b_devices b) = map reader_view ps -> NoDup (map Device.d_Address (Bus.b_devices b)) ->
  Bus.b_devices b <> [] -> multidrop (S := AES) b ps (map (fun _ => 0) ps).
Proof.
  intros Hb Hp Hm Hd Hne. pose proof (f_equal length Hm) as Hl. rewrite !length_map in Hl.
  split; [done|done|by rewrite length_map|done|]. intros i d p t Hdi Hpi Ht.
  change (map (fun _ : Pd.Device => 0)) with (fmap (M := list) (fun _ : Pd.Device => 0)) in Ht. rewrite list_lookup_fmap, Hpi in Ht. apply (inj Some) in Ht as <-.
  eapply views_paired; [exact Hb|exact Hdi|by eapply Forall_lookup_1|].
  apply (f_equal (fun l => l !! i)) in Hm. change (map device_view) with (fmap (M := list) device_view) in Hm.
  change (map reader_view) with (fmap (M := list) reader_view) in Hm.
  rewrite !list_lookup_fmap, Hdi, Hpi in Hm. by apply (inj Some) in Hm.
Qed.

Lemma kat_matched : map device_view (Bus.b_devices kat_line.1) = map reader_view kat_line.2 /\
  map Device.d_Address (Bus.b_devices kat_line.1) = [0; 1] /\ Bus.b_current kat_line.1 = 0%nat /\
  map (fun _ => 0) kat_line.2 = [0; 0].
Proof. by vm_compute. Qed.

Lemma kat_multidrop : multidrop (S := AES) kat_line.1 kat_line.2 [0; 0].
Proof.
  destruct kat_line_sound as [Hb Hp]. destruct kat_matched as (Hm & Ha & _ & Ht). rewrite <- Ht.
  apply (views_multidrop _ _ Hb Hp Hm).
  - rewrite Ha. by apply (bool_decide_unpack _), I.
  - intros E. rewrite E in Ha. discriminate Ha.
Qed.

(** A card at one reader and keys at the other, commands for one of them and for
    nobody, an exchange. *)
Definition kat_life : list happening :=
  [Befell 1 (PdLaws.Card PdLaws.kat_card); Ordered (Panel.mk_request 1 Delivery.kat_command None None);
   Befell 0 (PdLaws.Keys (Cmd.mk_KeypadEntry 0 [1; 2; 3; 4])); Exchanged 0 1;
   Ordered (Panel.mk_request 9 Delivery.kat_command None None)].

Lemma quiet_usual ps n : map (fun p => Pd.g_timeout (Pd.p_cfg p)) ps = [8000000000; 8000000000] ->
  forall c, usual ps [0; 0] c (map at_once (replicate n 0)).
Proof.
  intros Hp. assert (Hc : forall c p t, ps !! c = Some p -> [0; 0] !! c = Some t -> Enrol.prompt p t 0).
  { intros c p t Hpc Ht. right. apply (f_equal (fun l => l !! c)) in Hp.
    change (map ?f ps) with (fmap (M := list) f ps) in Hp. rewrite list_lookup_fmap, Hpc in Hp.
    assert (t = 0) as -> by (by destruct c as [|[|]]; simplify_eq/=).
    assert (Pd.g_timeout (Pd.p_cfg p) = 8000000000) as -> by (by destruct c as [|[|]]; simplify_eq/=). done. }
  induction n as [|n IH]; intros c; [done|]. split; [apply Hc|].
  assert (<[c := 0]> [0; 0] = [0; 0]) as -> by (by destruct c as [|[|]]). apply IH.
Qed.

Lemma life_usual ps n : map (fun p => Pd.g_timeout (Pd.p_cfg p)) ps = [8000000000; 8000000000] ->
  usual ps [0; 0] 0 (kat_life ++ map at_once (replicate n 0)).
Proof.
  intros Hp. pose proof (quiet_usual ps (Datatypes.S n) Hp 0) as [Hq1 Hq2]. split.
  { split; [exact PdLaws.kat_card_ok|]. by vm_compute. }
  split; [apply Delivery.kat_ordinary|]. split.
  { split; [|exact I]. split; [done|octets_dec]. }
  split; [exact Hq1|]. split; [apply Delivery.kat_ordinary|exact Hq2].
Qed.

Lemma kat_timeouts : map (fun p => Pd.g_timeout (Pd.p_cfg p)) kat_line.2 = [8000000000; 8000000000].
Proof. by vm_compute. Qed.

Lemma kat_usual_shared n : usual kat_line.2 [0; 0] (Bus.b_current kat_line.1) (kat_life ++ map at_once (replicate n 0)).
Proof. destruct kat_matched as (_ & _ & -> & _). exact (life_usual kat_line.2 n kat_timeouts). Qed.

(** What the application heard of each of them, and their relays. *)
Definition outcome (x : Bus.Bus * list Pd.Device * list entry) :=
  let '(_, ps, log) := x in
  (map (fun i => omap heard_of (omap (event_of i) log)) [0%nat; 1%nat], map Pd.p_outputs ps).

Example line_shared_witness : exists b' ps' log, live kat_line.1 kat_line.2 kat_life = (b', ps', log) /\
  Forall concluded log /\ (exists ts', multidrop (S := AES) b' ps' ts') /\
  outcome (b', ps', log) =
    ([[Delivery.KeysCred (Cmd.mk_KeypadEntry 0 [1; 2; 3; 4])]; []], [[false; false]; [false; false]]).
Proof.
  destruct (live kat_line.1 kat_line.2 kat_life) as [[b' ps'] log] eqn:E. exists b', ps', log. split; [reflexivity|].
  assert (Hu : usual kat_line.2 [0; 0] (Bus.b_current kat_line.1) kat_life) by (rewrite <- (app_nil_r kat_life); exact (kat_usual_shared 0)).
  destruct (line_shared kat_line.1 kat_line.2 [0; 0] kat_life b' ps' log kat_multidrop Hu E) as (H1 & H2 & _).
  split; [exact H1|]. split; [exact H2|]. rewrite <- E. by vm_compute.
Defined.

Lemma kat_waiting_shared : Forall2 (fun d p => (waiting d p + length kat_life <= 5)%nat) (Bus.b_devices kat_line.1) kat_line.2.
Proof.
  destruct kat_matched as (Hm & _). revert Hm. generalize (Bus.b_devices kat_line.1) as ds. generalize kat_line.2 as ps.
  induction ps as [|p ps IH]; intros [|d ds]; try done. intros [= A1 A2 A3 A4 A5 B1 B2 B3 C1 C2 C3 C4 Hm].
  apply Forall2_cons_2; [|by apply IH]. unfold Delivery.waiting. rewrite A4, <- C2. done.
Qed.

Example round_robin_fair_witness : exists b' ps' log,
  live kat_line.1 kat_line.2 (kat_life ++ map at_once (replicate 10 0)) = (b', ps', log) /\
  (exists p', ps' !! 1%nat = Some p' /\ Pd.p_pending p' = []) /\
  outcome (b', ps', log) =
    ([[Delivery.KeysCred (Cmd.mk_KeypadEntry 0 [1; 2; 3; 4])]; [Delivery.CardCred PdLaws.kat_card]],
     [[false; false]; [false; true]]).
Proof.
  destruct (live kat_line.1 kat_line.2 (kat_life ++ map at_once (replicate 10 0))) as [[b' ps'] log] eqn:E.
  exists b', ps', log. split; [reflexivity|]. split; [|rewrite <- E; by vm_compute].
  destruct (multidrop_lookup kat_line.1 kat_line.2 [0; 0] 1%nat kat_multidrop) as (d & p & t & Hd & Hp & _).
  { destruct kat_matched as (_ & Ha & _). rewrite <- (length_map Device.d_Address), Ha. cbn. lia. }
  destruct (round_robin_fair kat_line.1 kat_line.2 [0; 0] kat_life 5 (replicate 10 0) b' ps' log kat_multidrop (kat_usual_shared 10))
    with (i := 1%nat) (d := d) (p := p) as (d' & p' & _ & Hp' & _ & Hpen & _).
  - pose proof (md_length _ _ _ kat_multidrop) as [_ Hl]. destruct kat_matched as (_ & _ & _ & Ht).
    rewrite <- (length_map (fun _ => 0) kat_line.2), Ht. reflexivity.
  - intros j d1 p1 H1 H2. exact (Forall2_lookup_lr _ _ _ j d1 p1 kat_waiting_shared H1 H2).
  - exact E.
  - exact Hd.
  - exact Hp.
  - exists p'. split; [exact Hp'|exact Hpen].
Defined.
