(* ===== verification/Lossy.v ===== *)
(** * A line that loses frames

    Outside a channel the repetition of internal/bus (outbox.go and sequence.go,
    Device.retransmit) and the reply cache of internal/pd (cache.go) are what makes a
    command take effect once although commands and answers get lost: an
    alternating-number protocol. [exactly_once] is its correctness, for losses that do
    not take the device offline and do not hide two commands in a row;
    [lost_polls_swallow_command] is what happens when they do. The exchange with its
    losses is Faults.transact; on a channel a lost answer costs the channel
    (Faults.lost_reply_drops_channel). *)

From S2P Require Import Prelude Errors.
From S2P Require Frame Cmd Secure Device Bus BusFacts BusLaws Pd PdFacts PdLaws System Enrol Panel Delivery Faults.
Import PdLaws (stimulus, react).
Import Faults (fate, Through, ReplyLost, CommandLost).
Import Delivery (decode, heard_of, legible, ordinary, obey, befalls, presented, sends).

(** ** What is written down *)

(** The command [Handle] comes to dispatch in the clear: not one it answers from its
    cache, one that comes out of turn to a strict device, or one for the channel. *)
Definition performs (p : Pd.Device) (f : Frame.Frame) (now : Z) : option Cmd.Message :=
  match Pd.screen f with
  | Some _ => None
  | None =>
      if negb (Pd.addressed p (Frame.f_Address f)) then None
      else
        let seq := Frame.Control_Sequence (Frame.f_Control f) in
        let d := if decide (seq = 0) then Pd.restart (Pd.observe p now) else Pd.observe p now in
        if Pd.p_cachedValid d && bool_decide (seq = Pd.p_cachedSeq d) then None
        else if Pd.g_strict (Pd.p_cfg d) && Pd.p_cachedValid d && bool_decide (seq <> Pd.nextSequence (Pd.p_cachedSeq d)) then None
        else match Frame.f_Security f with
             | None => if Pd.Device_Secure d then None else Some (Cmd.Decode f)
             | Some _ => None
             end
  end.

(** Then the answer is what dispatching it says; *)
Lemma performs_dispatches p f now m : performs p f now = Some m -> m = Cmd.Decode f /\
  exists d, Pd.p_outputs d = Pd.p_outputs p /\ Pd.p_pending d = Pd.p_pending p /\
    Pd.Handle p f now = let '(d', ans) := Pd.dispatch d f false in
      Pd.emit d' f (Frame.Control_Sequence (Frame.f_Control f)) ans None.
Proof.
  unfold performs, Pd.Handle. destruct (Pd.screen f); [done|]. destruct (Pd.addressed _ _); [|done]. cbn [negb]. cbv zeta.
  assert (Ho : Pd.p_outputs (Pd.observe p now) = Pd.p_outputs p /\ Pd.p_pending (Pd.observe p now) = Pd.p_pending p)
    by (unfold Pd.observe; by destruct (_ && _)).
  assert (Hr : forall d, Pd.p_outputs (Pd.restart d) = Pd.p_outputs d /\ Pd.p_pending (Pd.restart d) = Pd.p_pending d) by done.
  unfold Pd.fresh, Pd.answerFor, Pd.answer. generalize dependent (Pd.observe p now). intros d0 Ho. case_decide.
  - destruct (Hr d0) as [R1 R2]. generalize dependent (Pd.restart d0). intros d1 R1 R2.
    destruct (_ && _); [done|]. destruct (_ && _ && _); [done|]. destruct (Frame.f_Security f); [done|].
    destruct (Pd.Device_Secure d1); [done|]. intros [= <-]. split; [done|]. exists d1.
    split; [by rewrite R1, (proj1 Ho)|]. split; [by rewrite R2, (proj2 Ho)|]. by destruct (Pd.dispatch d1 f false).
  - destruct (_ && bool_decide (_ = _)); [done|]. destruct (_ && _ && _); [done|]. destruct (Frame.f_Security f); [done|].
    destruct (Pd.Device_Secure d0); [done|]. intros [= <-]. split; [done|]. exists d0. split; [apply Ho|].
    split; [apply Ho|]. by destruct (Pd.dispatch d0 f false).
Qed.

(** otherwise no command in the clear moves a relay. *)
Lemma performs_nothing p f now : performs p f now = None -> Frame.f_Security f = None ->
  Pd.p_outputs (Pd.Handle p f now).1 = Pd.p_outputs p.
Proof.
  unfold performs, Pd.Handle. intros Hn Hsb. revert Hn. destruct (Pd.screen f); [done|]. destruct (Pd.addressed _ _); [|done].
  cbn [negb]. cbv zeta. assert (Ho : Pd.p_outputs (Pd.observe p now) = Pd.p_outputs p) by (unfold Pd.observe; by destruct (_ && _)).
  unfold Pd.fresh, Pd.answerFor, Pd.answer. rewrite Hsb. generalize dependent (Pd.observe p now). intros d0 Ho.
  assert (Hem : forall d m, Pd.p_outputs (Pd.emit d f (Frame.Control_Sequence (Frame.f_Control f)) m None).1 = Pd.p_outputs d).
  { intros d m. unfold Pd.emit, Pd.encode. cbv zeta. destruct (Cmd.Encode _ _ _ _); [|done]. cbn [fst].
    set (d2 := match Pd.p_adopting _ with Some _ => _ | None => _ end).
    assert (Pd.p_outputs d2 = Pd.p_outputs d) as <- by (subst d2; by repeat case_match).
    unfold Pd.adoptKey. destruct (Pd.p_adoptingKey d2); [|done].
    destruct (PdFacts.refreshCapabilities_fields (Pd.dropSession (d2 <| Pd.p_adoptingKey := None |> <| Pd.p_key := l |>))) as [caps ->].
    by case_match. }
  assert (Hd : forall d1, Pd.p_outputs d1 = Pd.p_outputs p ->
    (if Pd.g_strict (Pd.p_cfg d1) && Pd.p_cachedValid d1 && bool_decide (Frame.Control_Sequence (Frame.f_Control f) <> Pd.nextSequence (Pd.p_cachedSeq d1))
     then None else if Pd.Device_Secure d1 then None else Some (Cmd.Decode f)) = None ->
    Pd.p_outputs (match (if Pd.g_strict (Pd.p_cfg d1) && Pd.p_cachedValid d1 && bool_decide (Frame.Control_Sequence (Frame.f_Control f) <> Pd.nextSequence (Pd.p_cachedSeq d1))
      then Ok (d1, (Pd.nak Cmd.NAKSequenceError, None))
      else if Pd.Device_Secure d1 then Ok (Pd.dropSession d1, (Pd.nak Cmd.NAKSecureRequired, None))
           else let '(d, m) := Pd.dispatch d1 f false in Ok (d, (m, None))) with
      | Err e => (d1, Err e)
      | Ok (d, (m, block)) => Pd.emit d f (Frame.Control_Sequence (Frame.f_Control f)) m block
      end).1 = Pd.p_outputs p).
  { intros d1 <-. destruct (_ && _ && _); [intros _; apply Hem|]. destruct (Pd.Device_Secure d1); [|done]. intros _. by rewrite Hem. }
  case_decide.
  - intros Hn. apply Hd; [exact Ho|]. exact Hn.
  - destruct (_ && bool_decide (_ = _)); [done|]. by apply Hd.
Qed.

(** Of an exchange of which [f] became. *)
Definition performed (b : Bus.Bus) (p : Pd.Device) (f : fate) (now : Z) : list Cmd.Message :=
  match f with
  | CommandLost => []
  | _ => match (Bus.Next b).2 with Some st => option_list (performs p (Bus.st_Frame st) now) | None => [] end
  end.

(** All but the polls. *)
Definition commands (l : list Cmd.Message) : list Cmd.Message := filter (fun m => Cmd.m_Code m <> Cmd.Poll) l.

Record account := mk_account {
  ac_events : list (option Bus.Event);
  ac_granted : list Cmd.Message;
  ac_presented : list Delivery.credential;
  ac_performed : list Cmd.Message
}.

Section with_suite.
Context {S : Secure.CipherSuite} `{!Secure.SuiteLaws S}.

(** ** Between exchanges *)

(** How the numbers of the two ends stand: the device answered the last command;
    it did not hear the last poll, or the command that will be repeated; it obeyed
    the command that will be repeated, and has the answer. [deaf] says that the last
    frame to be lost was a command. *)
Inductive standing (d : Device.Device) (p : Pd.Device) : bool -> Prop :=
  | level deaf : Device.d_repeatSequence d = false -> Pd.p_cachedSeq p = Device.d_seq d -> standing d p deaf
  | skipped : Device.d_repeatSequence d = false -> Device.d_seq d = Pd.nextSequence (Pd.p_cachedSeq p) -> standing d p true
  | unheard : Device.d_outbox d <> [] -> Device.d_repeatSequence d = true ->
      Device.d_seq d = Pd.nextSequence (Pd.p_cachedSeq p) -> standing d p true
  | unanswered deaf ans scheme : Device.d_outbox d <> [] -> Device.d_repeatSequence d = true ->
      Pd.p_cachedSeq p = Device.d_seq d ->
      PdFacts.reply_ok (Pd.p_address p) (Device.d_seq d) scheme (Cmd.m_Code ans) None (Pd.p_cached p) ->
      Frame.f_Data (Pd.p_cached p) = Cmd.m_Data ans -> legible ans -> decode ans = None -> standing d p deaf.

(** The queue, less the command that was obeyed and will be sent again. *)
Definition unobeyed (d : Device.Device) (p : Pd.Device) : list Cmd.Message :=
  if Device.d_repeatSequence d && bool_decide (Pd.p_cachedSeq p = Device.d_seq d) then tail (Device.d_outbox d)
  else Device.d_outbox d.

(** A device online in the clear, after [n] silences in a row. *)
Record apart (b : Bus.Bus) (d : Device.Device) (p : Pd.Device) (t : Z) (n : nat) (deaf : bool) : Prop := mk_apart {
  ap_bus : BusFacts.bus_ok (S := S) b;
  ap_alone : Enrol.alone b d;
  ap_pd : PdFacts.pd_ok (S := S) p;
  ap_addr : Device.d_Address d = Pd.p_address p;
  ap_state : Device.d_State d = Device.Online;
  ap_clear : Device.secureEstablished d = false /\ Pd.Device_Secure p = false;
  ap_lenient : Pd.g_strict (Pd.p_cfg p) = false;
  ap_misses : Device.d_misses d = Z.of_nat n;
  ap_commands : Forall ordinary (Device.d_outbox d);
  ap_defer : Device.d_deferCommands d = false /\ Device.d_inflight d = None;
  ap_pending : Forall legible (Pd.p_pending p);
  ap_heard : Pd.p_seen p = true /\ Pd.p_lastSeen p = t;
  ap_cached : Pd.p_cachedValid p = true;
  ap_standing : standing d p deaf
}.

Lemma apart_quiet b d p t n deaf now : apart b d p t n deaf -> Enrol.prompt p t now -> PdFacts.quiet p now.
Proof.
  intros Ha Ht. destruct (ap_heard _ _ _ _ _ _ Ha) as [Hs Hh]. unfold PdFacts.quiet. rewrite Hs, Hh. destruct Ht as [Ht|Ht].
  - by rewrite (bool_decide_false (_ > 0)) by lia.
  - by rewrite (bool_decide_false (Pd.Sub _ _ > _)), andb_false_r by lia.
Qed.

(** The number of the next command: new to the device, unless it is the repeat of
    the command it obeyed. *)
Lemma next_number b d p t n deaf : apart b d p t n deaf -> let q := (Device.nextSequence d).2 in
  1 <= q <= 3 /\ 1 <= Pd.p_cachedSeq p <= 3 /\
  (unobeyed d p = Device.d_outbox d /\ q <> Pd.p_cachedSeq p /\
     (deaf = false -> q = Pd.nextSequence (Pd.p_cachedSeq p) /\ Device.d_repeatSequence d = false) \/
   q = Pd.p_cachedSeq p /\ unobeyed d p = tail (Device.d_outbox d) /\ Device.d_outbox d <> [] /\
     exists ans scheme, PdFacts.reply_ok (Pd.p_address p) q scheme (Cmd.m_Code ans) None (Pd.p_cached p) /\
       Frame.f_Data (Pd.p_cached p) = Cmd.m_Data ans /\ legible ans /\ decode ans = None).
Proof.
  intros Ha q. pose proof (BusFacts.bus_ok_device b _ d (ap_bus _ _ _ _ _ _ Ha) (Enrol.alone_device _ _ (ap_alone _ _ _ _ _ _ Ha))) as Hd.
  destruct (PdFacts.sv_cached p (proj1 (ap_pd _ _ _ _ _ _ Ha)) (ap_cached _ _ _ _ _ _ Ha)) as (_ & _ & _ & _ & Hc).
  destruct (BusFacts.nextSequence_spec d (BusFacts.do_seq b d Hd) (BusFacts.do_repeat b d Hd)) as (q' & E & Hq & Hq').
  unfold q. rewrite E. cbn [snd]. clear q E. split; [done|]. split; [done|].
  assert (Hn : forall s, 1 <= s <= 3 -> Pd.nextSequence s = s mod 3 + 1 /\ Pd.nextSequence s <> s /\
    1 <= Pd.nextSequence s <= 3 /\ Pd.nextSequence s mod 3 + 1 <> s).
  { intros s Hs. assert (s = 1 \/ s = 2 \/ s = 3) as [->|[->| ->]] by lia; by vm_compute. }
  destruct (Hn _ Hc) as (N1 & N2 & N3 & N4). unfold unobeyed.
  destruct (ap_standing _ _ _ _ _ _ Ha) as [deaf' Hr Hs|Hr Hs|Ho Hr Hs|deaf' ans scheme Ho Hr Hs R1 R2 R3 R4]; rewrite Hr in *; cbv iota in Hq'; cbn [andb].
  - left. rewrite <- Hs in Hq'. split; [done|]. split; [congruence|]. intros _. split; [congruence|done].
  - left. rewrite Hs in Hq'. split; [done|]. split; [congruence|done].
  - left. rewrite Hs in *. rewrite bool_decide_eq_false_2 by congruence. split; [done|]. split; [congruence|done].
  - right. rewrite bool_decide_eq_true_2 by done. split; [congruence|]. split; [done|]. split; [done|]. exists ans, scheme. by subst q'.
Qed.

(** ** The three ends of an exchange *)

(** The bus's device once the frame has left. *)
Definition sent (d1 : Device.Device) (q : Z) : Device.Device :=
  d1 <| Device.d_seq := q |> <| Device.d_repeatSequence := false |>.

(** What leaves: the head of the queue, or a poll. *)
Record asked (b : Bus.Bus) (d d1 : Device.Device) (msg : Cmd.Message) (q : Z) (b1 : Bus.Bus) (f : Frame.Frame) : Prop := mk_asked {
  ak_outbound : (d1, msg) = Device.outbound d;
  ak_next : exists tmo, Bus.Next b = (b1, Some (Bus.mk_Step 0 f tmo));
  ak_alone : Enrol.alone b1 (sent d1 q);
  ak_ok : BusFacts.bus_ok (S := S) b1 /\ Frame.frame_ok f;
  ak_command : Frame.f_IsReply f = false /\ Frame.CheckOK f = true /\ Frame.f_Address f = Device.d_Address d;
  ak_seq : Frame.Control_Sequence (Frame.f_Control f) = q;
  ak_decode : Cmd.Decode f = msg;
  ak_says : Frame.f_Code f = Cmd.m_Code msg /\ Frame.f_Data f = Cmd.m_Data msg /\ Frame.f_Security f = None;
  ak_ordinary : (msg = Device.pollMessage \/ Cmd.m_Code msg ∈ Delivery.ordinary_codes) /\
    (Device.d_outbox d <> [] -> msg <> Device.pollMessage)
}.

Lemma commandFor_clear b d : Device.d_State d = Device.Online -> Device.d_deferCommands d = false ->
  Forall ordinary (Device.d_outbox d) ->
  Bus.commandFor b d = ((Device.outbound d).1, Bus.b_nonces b, Ok ((Device.outbound d).2, None)).
Proof.
  intros Hst Hdf Ho. unfold Bus.commandFor. rewrite Hst. unfold Device.deferring. rewrite Hdf. cbn [negb orb].
  assert (Hw : Device.withholdsKeySet d = false).
  { unfold Device.withholdsKeySet. destruct (Device.d_outbox d) as [|m rest]; [done|]. apply Forall_cons in Ho as [(_ & _ & Hc) _].
    by rewrite bool_decide_eq_false_2 by (by apply Delivery.ordinary_code). }
  rewrite Hw. by destruct (Device.outbound d).
Qed.

Lemma asks b d p t n deaf : apart b d p t n deaf -> exists d1 msg b1 f, asked b d d1 msg (Device.nextSequence d).2 b1 f.
Proof.
  intros Ha. pose proof Ha as [Hb Hal Hp Had Hst _ _ _ Ho [Hdf Hin] _ _ _ _]. pose proof (PdFacts.sv_addr p (proj1 Hp)) as Hpa.
  pose proof (commandFor_clear b d Hst Hdf Ho) as Ec. destruct (Device.outbound d) as [d1 msg] eqn:Eo. cbn [fst snd] in Ec.
  destruct (Enrol.asked_frame b d d1 _ msg None Hb Hal ltac:(lia) Ec (or_introl eq_refl))
    as (f & q & tmo & En & Hq & Ca & (F1 & F2 & F3 & F4) & F5 & F6 & F7 & F8). cbv zeta in En. subst q.
  destruct (Delivery.outbound_ordinary d d1 msg (eq_sym Eo) Ho Hin) as (Hm & Hm' & _).
  assert (Hreply : Cmd.m_IsReply msg = false).
  { revert Eo. unfold Device.outbound, Device.dequeue. destruct (Device.d_outbox d) as [|m rest].
    - by intros [_ <-]%pair_equal_spec.
    - intros [_ <-]%pair_equal_spec. by apply Forall_cons in Ho as [[? _] _]. }
  eexists d1, msg, _, f. split; [done|by eexists|..].
  - split; [|apply Hal]. unfold Bus.set_device. cbn [Bus.b_devices update]. by rewrite (proj1 Hal).
  - split; [|done]. pose proof (BusFacts.Next_ok b Hb) as Hb1. by rewrite En in Hb1.
  - by rewrite F2.
  - done.
  - unfold Cmd.Decode. rewrite F2, F6, F7. by destruct msg.
  - by split_and!.
  - done.
Qed.

(** The device again, after a silence or an answer. *)
Record settled (d d3 : Device.Device) (q : Z) (n : nat) : Prop := mk_settled {
  se_addr : Device.d_Address d3 = Device.d_Address d;
  se_state : Device.d_State d3 = Device.d_State d;
  se_clear : Device.secureEstablished d3 = Device.secureEstablished d;
  se_seq : Device.d_seq d3 = q;
  se_defer : Device.d_deferCommands d3 = Device.d_deferCommands d;
  se_inflight : Device.d_inflight d3 = None;
  se_misses : Device.d_misses d3 = Z.of_nat n
}.

Lemma alone_device0 b d : Enrol.alone b d -> Bus.device b 0 = Some d.
Proof. intros Ha. pose proof (Enrol.alone_device b d Ha) as H0. by rewrite (proj2 Ha) in H0. Qed.

Lemma alone_set0 b d d' : Enrol.alone b d -> Enrol.alone (Bus.set_device b 0 d') d'.
Proof. intros Ha. pose proof (Delivery.alone_set b d d' Ha) as H0. by rewrite (proj2 Ha) in H0. Qed.

(** A silence, unless it is the third in a row: what was in flight goes back to the
    head of the queue, to be sent again under its number. *)
Lemma timeout_poll d i : Device.d_inflight d = None -> Device.d_misses d < 2 ->
  Bus.timeout d i = (d <| Device.d_misses := Device.d_misses d + 1 |>, Bus.event Bus.KindNone i).
Proof.
  intros Hi Hm. unfold Bus.timeout, Device.retransmit. change (Device.d_inflight (d <| Device.d_misses := _ |>)) with (Device.d_inflight d).
  rewrite Hi. cbv zeta. rewrite decide_True; [done|]. left. unfold Bus.OfflineThreshold. cbn. lia.
Qed.

Lemma timeout_command d i m : Device.d_inflight d = Some m -> Device.d_misses d < 2 ->
  Bus.timeout d i = (d <| Device.d_misses := Device.d_misses d + 1 |> <| Device.d_outbox := m :: Device.d_outbox d |>
    <| Device.d_inflight := None |> <| Device.d_repeatSequence := true |>, Bus.event Bus.KindNone i).
Proof.
  intros Hi Hm. unfold Bus.timeout, Device.retransmit, Device.requeue.
  change (Device.d_inflight (d <| Device.d_misses := _ |>)) with (Device.d_inflight d).
  rewrite Hi. cbv zeta. rewrite decide_True; [done|]. left. unfold Bus.OfflineThreshold. cbn. lia.
Qed.

Lemma timeout_settled d d1 msg q n : (d1, msg) = Device.outbound d -> Device.d_inflight d = None ->
  Device.d_misses d = Z.of_nat n -> (n < 2)%nat -> exists d3,
  Bus.timeout (sent d1 q) 0 = (d3, Bus.event Bus.KindNone 0) /\ settled d d3 q (Datatypes.S n) /\
  Device.d_outbox d3 = Device.d_outbox d /\ (Device.d_outbox d = [] -> Device.d_repeatSequence d3 = false) /\
  (Device.d_outbox d <> [] -> Device.d_repeatSequence d3 = true).
Proof.
  intros Eo Hin Hm Hn. revert Eo. unfold Device.outbound, Device.dequeue.
  assert (Hm2 : Device.d_misses d < 2) by lia. assert (Hm3 : Device.d_misses d + 1 = Z.of_nat (Datatypes.S n)) by lia.
  destruct (Device.d_outbox d) as [|m rest] eqn:E; intros [-> ->]%pair_equal_spec; eexists; (split; [|split; [|split]]).
  - by apply timeout_poll.
  - split; [reflexivity..|exact Hin|exact Hm3].
  - exact E.
  - by split.
  - by apply (timeout_command _ _ m).
  - split; [reflexivity..|exact Hm3].
  - reflexivity.
  - by split.
Qed.

Lemma silent b d p t n deaf d1 msg q b1 f : apart b d p t n deaf -> asked b d d1 msg q b1 f -> (n < 2)%nat -> exists b3 d3,
  Bus.Timeout b1 0 = (b3, Some (Bus.event Bus.KindNone 0)) /\ BusFacts.bus_ok (S := S) b3 /\ Enrol.alone b3 d3 /\
  settled d d3 q (Datatypes.S n) /\ Device.d_outbox d3 = Device.d_outbox d /\
  (Device.d_outbox d = [] -> Device.d_repeatSequence d3 = false) /\ (Device.d_outbox d <> [] -> Device.d_repeatSequence d3 = true).
Proof.
  intros Ha [Eo _ Hal [Hb _] _ _ _ _ _] Hn.
  destruct (timeout_settled d d1 msg q n Eo (proj2 (ap_defer _ _ _ _ _ _ Ha)) (ap_misses _ _ _ _ _ _ Ha) Hn) as (d3 & Et & H1 & H2).
  assert (E : Bus.Timeout b1 0 = (Bus.set_device b1 0 d3, Some (Bus.event Bus.KindNone 0))).
  { unfold Bus.Timeout. by rewrite (alone_device0 _ _ Hal), Et. }
  exists (Bus.set_device b1 0 d3), d3. split; [done|]. split; [|split; [by eapply alone_set0|done]].
  eapply BusFacts.bus_step_ok; [exact Hb|by eapply BusFacts.step_Timeout].
Qed.

(** What the device is when it has attended to an answer. *)
Lemma attended_settled d d1 msg q now : (d1, msg) = Device.outbound d -> Device.d_inflight d = None ->
  let d2 := Enrol.attended (sent d1 q) now in
  settled d d2 q 0 /\ Device.d_outbox d2 = tail (Device.d_outbox d) /\ Device.d_repeatSequence d2 = false /\
  Device.d_acknowledged d2 = (match Device.d_inflight d1 with Some m => Cmd.m_Code m | None => Cmd.Poll end).
Proof.
  unfold Device.outbound, Device.dequeue, Enrol.attended, Device.delivered. intros Eo Hin. revert Eo.
  destruct (Device.d_outbox d) as [|m rest] eqn:E; intros [-> ->]%pair_equal_spec; cbv zeta.
  - change (Device.d_inflight (sent d q <| Device.d_LastSeen := now |> <| Device.d_misses := 0 |>
      <| Device.d_acknowledged := Cmd.Poll |> <| Device.d_released := None |>)) with (Device.d_inflight d).
    rewrite Hin. split; [split; [reflexivity..|exact Hin|reflexivity]|]. split; [exact E|]. by split.
  - split; [by split|]. by split_and!.
Qed.

Lemma reply_attended b1 d d1 msg q r ans scheme now : (d1, msg) = Device.outbound d -> Device.secureEstablished d = false -> 1 <= q ->
  PdFacts.reply_ok (Device.d_Address d) q scheme (Cmd.m_Code ans) None r -> Frame.f_Data r = Cmd.m_Data ans ->
  Bus.reply b1 (sent d1 q) 0 r now = Bus.dispatch b1 (Enrol.attended (sent d1 q) now) 0 (ans <| Cmd.m_IsReply := true |>).
Proof.
  intros Eo Hs Hq Hr Hd.
  assert (H1 : Device.d_Address (sent d1 q) = Device.d_Address d /\ Device.d_session (sent d1 q) = Device.d_session d).
  { revert Eo. unfold Device.outbound, Device.dequeue. destruct (Device.d_outbox d); by intros [-> _]%pair_equal_spec. }
  destruct H1 as [S1 S2]. generalize dependent (sent d1 q). intros x S1 S2. rewrite <- S1 in Hr.
  eapply Enrol.reply_plain; [exact Hr|exact Hd|lia|]. unfold Device.secureEstablished. by rewrite S2.
Qed.

Lemma dispatch_settled b1 d d2 q ans : settled d d2 q 0 -> Device.d_State d = Device.Online -> Device.d_acknowledged d2 <> Cmd.KeySet ->
  legible ans -> exists d3 ev, Bus.dispatch b1 d2 0 (ans <| Cmd.m_IsReply := true |>) = (d3, Ok ev) /\ settled d d3 q 0 /\
  Device.d_outbox d3 = Device.d_outbox d2 /\ Device.d_repeatSequence d3 = Device.d_repeatSequence d2 /\ heard_of (Some ev) = decode ans.
Proof.
  intros [A1 A2 A3 A4 A5 A6 A7] Hst Hack Hl.
  destruct (Delivery.legible_dispatch b1 d2 0 _ (ltac:(by rewrite A2, Hst)) Hack (Delivery.legible_answer _ Hl))
    as (d3 & ev & Ed & [L1 L2 L3 L4 L5 L6 L7 L8 L9] & Hev & _).
  exists d3, ev. split; [done|]. split; [|split_and!; done].
  split; [congruence|congruence| |congruence..]. unfold Device.secureEstablished in *. by rewrite L3.
Qed.

(** An answer to what was asked. *)
Lemma answered b d p t n deaf d1 msg q b1 f r ans scheme now : apart b d p t n deaf -> asked b d d1 msg q b1 f -> 1 <= q ->
  PdFacts.reply_ok (Pd.p_address p) q scheme (Cmd.m_Code ans) None r -> Frame.f_Data r = Cmd.m_Data ans -> legible ans -> exists b3 d3 ev,
  Bus.Reply b1 0 r now = (b3, Ok ev) /\ BusFacts.bus_ok (S := S) b3 /\ Enrol.alone b3 d3 /\
  settled d d3 q 0 /\ Device.d_outbox d3 = tail (Device.d_outbox d) /\ Device.d_repeatSequence d3 = false /\
  heard_of (Some ev) = decode ans.
Proof.
  intros Ha [Eo _ Hal [Hb _] _ _ _ _ _] Hq Hr Hd Hl. pose proof (proj2 (ap_defer _ _ _ _ _ _ Ha)) as Hin.
  destruct (Delivery.outbound_ordinary d d1 msg Eo (ap_commands _ _ _ _ _ _ Ha) Hin) as (_ & _ & Hack).
  rewrite <- (ap_addr _ _ _ _ _ _ Ha) in Hr.
  pose proof (reply_attended b1 d d1 msg q r ans scheme now Eo (proj1 (ap_clear _ _ _ _ _ _ Ha)) Hq Hr Hd) as E.
  destruct (attended_settled d d1 msg q now Eo Hin) as (A & B1 & B2 & B3). rewrite <- B3 in Hack. clear B3.
  destruct (dispatch_settled b1 d _ q ans A (ap_state _ _ _ _ _ _ Ha) Hack Hl) as (d3 & ev & Ed & C1 & C2 & C3 & C4).
  rewrite Ed in E. rewrite B1 in C2. rewrite B2 in C3.
  assert (Er : Bus.Reply b1 0 r now = (Bus.set_device b1 0 d3, Ok ev)) by (unfold Bus.Reply; by rewrite (alone_device0 _ _ Hal), E).
  exists (Bus.set_device b1 0 d3), d3, ev. split; [done|]. split; [|split; [by eapply alone_set0|done]].
  eapply BusFacts.bus_step_ok; [exact Hb|]. eapply BusFacts.step_Reply; [apply Hr|exact Er].
Qed.

(** ** The peripheral *)

(** A command in the clear is dispatched as it would be on a channel. *)
Lemma clear_dispatch p f msg : Frame.f_Code f = Cmd.m_Code msg -> Frame.f_Data f = Cmd.m_Data msg ->
  msg = Device.pollMessage \/ Cmd.m_Code msg ∈ Delivery.ordinary_codes ->
  Pd.dispatch p f false = Pd.dispatch p (Delivery.as_command msg) true.
Proof.
  intros Hc Hd Hm. unfold Pd.dispatch. rewrite Hc, Hd.
  change (Frame.f_Code (Delivery.as_command msg)) with (Cmd.m_Code msg). change (Frame.f_Data (Delivery.as_command msg)) with (Cmd.m_Data msg).
  assert (Hm' : Cmd.m_Code msg ∈ Cmd.Poll :: Delivery.ordinary_codes) by (destruct Hm as [->|Hm]; [by left|by right]).
  unfold Delivery.ordinary_codes in Hm'. rewrite !elem_of_cons, elem_of_nil in Hm'.
  destruct Hm' as [E|[E|[E|[E|[E|[E|[E|[E|[E|[]]]]]]]]]]; rewrite E; Delivery.branch; reflexivity.
Qed.

(** The peripheral once it has answered [msg], numbered [q]. *)
Record obliged (p : Pd.Device) (msg : Cmd.Message) (q now : Z) (p' : Pd.Device) (r : Frame.Frame) (ans : Cmd.Message) : Prop := mk_obliged {
  og_ok : PdFacts.pd_ok (S := S) p';
  og_cfg : Pd.p_cfg p' = Pd.p_cfg p /\ Pd.p_address p' = Pd.p_address p;
  og_clear : Pd.Device_Secure p' = false;
  og_cached : Pd.p_cachedValid p' = true /\ Pd.p_cachedSeq p' = q /\ Pd.p_cached p' = r;
  og_heard : Pd.p_seen p' = true /\ Pd.p_lastSeen p' = now;
  og_pending : Forall legible (Pd.p_pending p');
  og_reply : exists scheme, PdFacts.reply_ok (Pd.p_address p) q scheme (Cmd.m_Code ans) None r;
  og_says : Frame.f_Data r = Cmd.m_Data ans /\ legible ans;
  og_command : msg <> Device.pollMessage -> Pd.p_outputs p' = obey (Pd.p_outputs p) msg /\
    Pd.p_pending p' = Pd.p_pending p /\ decode ans = None;
  og_poll : msg = Device.pollMessage -> Pd.p_outputs p' = Pd.p_outputs p /\
    Pd.p_pending p' = tail (Pd.p_pending p) /\ decode ans = (m ← head (Pd.p_pending p); decode m)
}.

Lemma complied_obliged p0 p msg q now p2 ans r scheme : p = PdFacts.noted p0 now -> Delivery.complied p msg p2 ans -> legible ans ->
  Forall legible (Pd.p_pending p) -> Pd.Device_Secure p = false -> PdFacts.pd_ok (S := S) (PdLaws.cached p2 q r) ->
  PdFacts.reply_ok (Pd.p_address p) q scheme (Cmd.m_Code ans) None r -> Frame.f_Data r = Cmd.m_Data ans ->
  obliged p0 msg q now (PdLaws.cached p2 q r) r ans.
Proof.
  intros -> Hc Hl Hp Hs Hok Hr Hd. unfold Delivery.complied in Hc.
  destruct (decide (msg = Device.pollMessage)) as [Hm|Hm]; destruct Hc as [-> Hc]; split; try done; try by exists scheme.
  change (Forall legible (tail (Pd.p_pending p0))). change (Forall legible (Pd.p_pending p0)) in Hp. by destruct Hp.
Qed.

Lemma performs_new p f now : PdLaws.new_command p f now -> System.in_order p (Frame.Control_Sequence (Frame.f_Control f)) ->
  Frame.f_Security f = None -> Pd.Device_Secure p = false -> performs p f now = Some (Cmd.Decode f).
Proof.
  intros [H1 H2 H3 H4 H5] Ho Hsb Hse. unfold performs. rewrite H1, H2. cbn [negb]. cbv zeta. rewrite (PdFacts.observe_quiet p now H3), decide_False by done.
  rewrite (System.in_order_strict p now _ Ho), Hsb. change (Pd.Device_Secure (PdFacts.noted p now)) with (Pd.Device_Secure p). rewrite Hse.
  change (Pd.p_cachedValid (PdFacts.noted p now)) with (Pd.p_cachedValid p). change (Pd.p_cachedSeq (PdFacts.noted p now)) with (Pd.p_cachedSeq p).
  destruct (Pd.p_cachedValid p); [|done]. by rewrite bool_decide_eq_false_2 by (by apply H5).
Qed.

(** A new number: obeyed. *)
Lemma obeys b d p t n deaf d1 msg b1 f now : apart b d p t n deaf -> let q := (Device.nextSequence d).2 in
  asked b d d1 msg q b1 f -> q <> Pd.p_cachedSeq p -> Enrol.prompt p t now ->
  exists p' r ans, Pd.Handle p f now = (p', Ok r) /\ performs p f now = Some msg /\ obliged p msg q now p' r ans.
Proof.
  intros Ha q [_ _ _ [_ Hf] (F1 & F2 & F3) F4 Hdec (F5 & F6 & F7) [Hm _]] Hq Ht.
  destruct (next_number _ _ _ _ _ _ Ha) as (Hq13 & _). fold q in Hq13. pose proof (ap_pd _ _ _ _ _ _ Ha) as Hp.
  destruct (ap_clear _ _ _ _ _ _ Ha) as [_ Hsec].
  assert (Hnew : PdLaws.new_command p f now).
  { split; [..|by eapply apart_quiet| |by rewrite F4].
    - unfold Pd.screen. by rewrite F1, F2.
    - unfold Pd.addressed. rewrite F3, (ap_addr _ _ _ _ _ _ Ha). by rewrite bool_decide_true.
    - rewrite F4. lia. }
  destruct (Delivery.complies (PdFacts.noted p now) msg Hm (ap_pending _ _ _ _ _ _ Ha)) as (p2 & ans & Ed & Hl & Hc).
  assert (Hans : Pd.answer (PdFacts.noted p now) f = Ok (p2, (ans, None))).
  { unfold Pd.answer. rewrite F7. change (Pd.Device_Secure (PdFacts.noted p now)) with (Pd.Device_Secure p). rewrite Hsec.
    by rewrite (clear_dispatch _ f msg F5 F6 Hm), Ed. }
  assert (Had : Pd.p_adopting p2 = None /\ Pd.p_adoptingKey p2 = None).
  { unfold Delivery.complied in Hc. destruct (decide (msg = _)); destruct Hc as [-> _]; apply Hp. }
  assert (Ho : System.in_order p q) by (intros Hs; by rewrite (ap_lenient _ _ _ _ _ _ Ha) in Hs).
  destruct (Enrol.answered_plain p f now q p2 ans None Hp Hf Hnew Ho F4 Hq13 Hans (or_introl eq_refl) (proj1 Had) (proj2 Had))
    as (r & HH & Hok & Hr & Hd).
  exists (PdLaws.cached p2 q r), r, ans. split; [done|]. split; [rewrite (performs_new p f now Hnew); [by rewrite Hdec| |done|done]; intros X; by rewrite (ap_lenient _ _ _ _ _ _ Ha) in X|]. eapply complied_obliged; try done; apply (ap_pending _ _ _ _ _ _ Ha).
Qed.

(** The number it answered last: answered again, and nothing else. *)
Lemma repeats b d p t n deaf d1 msg b1 f now : apart b d p t n deaf -> let q := (Device.nextSequence d).2 in
  asked b d d1 msg q b1 f -> q = Pd.p_cachedSeq p -> Enrol.prompt p t now ->
  Pd.Handle p f now = (PdFacts.noted p now, Ok (Pd.p_cached p)) /\ performs p f now = None.
Proof.
  intros Ha q [_ _ _ _ (F1 & F2 & F3) F4 _ _ _] Hq Ht. destruct (next_number _ _ _ _ _ _ Ha) as (Hq13 & _). fold q in Hq13.
  unfold performs, Pd.Handle, Pd.screen, Pd.addressed. rewrite F1, F2, F3, (ap_addr _ _ _ _ _ _ Ha), bool_decide_true by done. cbn [negb orb]. cbv zeta.
  rewrite (PdFacts.observe_quiet p now) by (by eapply apart_quiet). rewrite !decide_False by (rewrite F4; lia).
  change (Pd.p_cachedValid (PdFacts.noted p now)) with (Pd.p_cachedValid p). change (Pd.p_cachedSeq (PdFacts.noted p now)) with (Pd.p_cachedSeq p).
  rewrite (ap_cached _ _ _ _ _ _ Ha), F4, Hq. by rewrite bool_decide_true.
Qed.

(** ** One exchange *)

(** The books: each command obeyed once, in order, of each report at most one
    hearing, in order. *)
Record kept (d : Device.Device) (p : Pd.Device) (a : account) (d' : Device.Device) (p' : Pd.Device) : Prop := mk_kept {
  ke_cfg : Pd.p_cfg p' = Pd.p_cfg p;
  ke_events : Forall is_Some (ac_events a);
  ke_commands : unobeyed d p ++ ac_granted a = commands (ac_performed a) ++ unobeyed d' p' /\
    Pd.p_outputs p' = fold_left obey (commands (ac_performed a)) (Pd.p_outputs p);
  ke_reports : sublist (omap heard_of (ac_events a) ++ omap decode (Pd.p_pending p'))
    (omap decode (Pd.p_pending p) ++ ac_presented a)
}.

Lemma kept_refl d p : kept d p (mk_account [] [] [] []) d p.
Proof. split; cbn; [done|by apply Forall_nil_2|by rewrite app_nil_r|by rewrite app_nil_r]. Qed.

Lemma kept_trans d1 p1 a1 d2 p2 a2 d3 p3 : kept d1 p1 a1 d2 p2 -> kept d2 p2 a2 d3 p3 ->
  kept d1 p1 (mk_account (ac_events a1 ++ ac_events a2) (ac_granted a1 ++ ac_granted a2) (ac_presented a1 ++ ac_presented a2)
    (ac_performed a1 ++ ac_performed a2)) d3 p3.
Proof.
  intros [A1 A2 (A3 & A4) A5] [B1 B2 (B3 & B4) B5]. split; cbn [ac_events ac_granted ac_presented ac_performed].
  - by rewrite B1.
  - by apply Forall_app.
  - unfold commands in *. rewrite filter_app. split; [by rewrite app_assoc, A3, <- !app_assoc, B3|]. by rewrite B4, A4, fold_left_app.
  - rewrite omap_app, <- app_assoc. etrans; [by apply sublist_app; [reflexivity|exact B5]|].
    rewrite !app_assoc. by apply sublist_app.
Qed.

Lemma outbound_says d d1 msg : (d1, msg) = Device.outbound d -> Forall ordinary (Device.d_outbox d) ->
  Device.d_outbox d = commands [msg] ++ tail (Device.d_outbox d) /\
  (commands [msg] = [] /\ msg = Device.pollMessage \/ commands [msg] = [msg]).
Proof.
  unfold Device.outbound, Device.dequeue. destruct (Device.d_outbox d) as [|m rest]; intros [_ ->]%pair_equal_spec Ho.
  - split; [done|by left].
  - apply Forall_cons in Ho as [(_ & _ & Hc) _]. assert (E : commands [m] = [m]); [|rewrite E; by split; [|right]].
    unfold commands. rewrite filter_cons_True; [done|]. intros X. rewrite X in Hc. unfold Delivery.ordinary_codes in Hc. rewrite !elem_of_cons, elem_of_nil in Hc. by intuition.
Qed.

(** What the peripheral did with a new command. *)
Lemma obliged_books d d1 msg p q now p' r ans : (d1, msg) = Device.outbound d -> Forall ordinary (Device.d_outbox d) ->
  obliged p msg q now p' r ans -> (Device.d_outbox d <> [] -> msg <> Device.pollMessage) ->
  (Device.d_outbox d = commands [msg] ++ tail (Device.d_outbox d) /\ Pd.p_outputs p' = fold_left obey (commands [msg]) (Pd.p_outputs p)) /\
  option_list (decode ans) ++ omap decode (Pd.p_pending p') = omap decode (Pd.p_pending p) /\
  (Device.d_outbox d <> [] -> decode ans = None).
Proof.
  intros Eo Hord Ho Hne. destruct (outbound_says d d1 msg Eo Hord) as (E & [[Ec Hm]|Ec]); rewrite Ec in *.
  - destruct (og_poll _ _ _ _ _ _ _ Ho Hm) as (-> & -> & ->). split; [done|]. split.
    + destruct (Pd.p_pending p) as [|x l]; [done|]. cbn. by destruct (decode x).
    + intros H0. by apply Hne in H0.
  - destruct (og_command _ _ _ _ _ _ _ Ho) as (-> & -> & ->); [apply Hne; by rewrite E|]. by split.
Qed.

(** Both ends ready for the next one. *)
Lemma apart_again b d p t n deaf b3 d3 p3 q t3 n3 deaf3 : apart b d p t n deaf ->
  BusFacts.bus_ok (S := S) b3 -> Enrol.alone b3 d3 -> settled d d3 q n3 ->
  Device.d_outbox d3 = Device.d_outbox d \/ Device.d_outbox d3 = tail (Device.d_outbox d) ->
  PdFacts.pd_ok (S := S) p3 -> Pd.p_cfg p3 = Pd.p_cfg p /\ Pd.p_address p3 = Pd.p_address p -> Pd.Device_Secure p3 = false ->
  Pd.p_cachedValid p3 = true -> Pd.p_seen p3 = true /\ Pd.p_lastSeen p3 = t3 -> Forall legible (Pd.p_pending p3) ->
  standing d3 p3 deaf3 -> apart b3 d3 p3 t3 n3 deaf3.
Proof.
  intros Ha H1 H2 [A1 A2 A3 A4 A5 A6 A7] Ho H3 [H4 H5] H6 H7 H8 H9 H10. split; try done.
  - by rewrite A1, H5, (ap_addr _ _ _ _ _ _ Ha).
  - by rewrite A2, (ap_state _ _ _ _ _ _ Ha).
  - split; [by rewrite A3; apply (ap_clear _ _ _ _ _ _ Ha)|done].
  - by rewrite H4, (ap_lenient _ _ _ _ _ _ Ha).
  - pose proof (ap_commands _ _ _ _ _ _ Ha) as Hc. destruct Ho as [-> | ->]; [done|by destruct Hc].
  - split; [by rewrite A5; apply (ap_defer _ _ _ _ _ _ Ha)|done].
Qed.

(** When it was heard, how many silences there have been, and what was lost. *)
Definition heard_at (f : fate) (t now : Z) : Z := match f with CommandLost => t | _ => now end.
Definition silences (f : fate) (n : nat) : nat := match f with Through => 0%nat | _ => Datatypes.S n end.
Definition deafened (f : fate) : bool := match f with CommandLost => true | _ => false end.

(** Losses the protocol bears: two in a row, of which one a command. *)
Definition borne (f : fate) (n : nat) (deaf : bool) : Prop :=
  (f <> Through -> n < 2)%nat /\ (f = CommandLost -> deaf = false).

(** What an exchange did. *)
Record exchanged (b : Bus.Bus) (d : Device.Device) (p : Pd.Device) (t : Z) (n : nat) (f : fate) (now : Z)
    (b' : Bus.Bus) (d' : Device.Device) (p' : Pd.Device) (ev : Bus.Event) : Prop := mk_exchanged {
  ex_apart : apart b' d' p' (heard_at f t now) (silences f n) (deafened f);
  ex_kept : kept d p (mk_account [Some ev] [] [] (performed b p f now)) d' p';
  ex_outbox : Device.d_outbox d' = match f with Through => tail (Device.d_outbox d) | _ => Device.d_outbox d end;
  ex_done : f = Through -> unobeyed d' p' = Device.d_outbox d'
}.

Lemma kept_event d p ev d' p' l : Pd.p_cfg p' = Pd.p_cfg p -> unobeyed d p = commands l ++ unobeyed d' p' ->
  Pd.p_outputs p' = fold_left obey (commands l) (Pd.p_outputs p) ->
  sublist (option_list (heard_of (Some ev)) ++ omap decode (Pd.p_pending p')) (omap decode (Pd.p_pending p)) ->
  kept d p (mk_account [Some ev] [] [] l) d' p'.
Proof.
  intros Hc Ho Hr Hs. split; cbn [ac_events ac_granted ac_presented ac_performed].
  - done.
  - by apply Forall_singleton.
  - by rewrite app_nil_r.
  - rewrite app_nil_r. cbn [omap list_omap]. revert Hs. by destruct (heard_of (Some ev)).
Qed.

Lemma performed_asked b b1 i fr tmo p f now : Bus.Next b = (b1, Some (Bus.mk_Step i fr tmo)) ->
  performed b p f now = match f with CommandLost => [] | _ => option_list (performs p fr now) end.
Proof. unfold performed. by intros ->. Qed.

Lemma unobeyed_level d p : Device.d_repeatSequence d = false -> unobeyed d p = Device.d_outbox d.
Proof. unfold unobeyed. by intros ->. Qed.

(** The repeat of a command is under the same number, and finds the same answer. *)
Lemma unanswered_again d d3 p p3 q ans scheme deaf : Device.d_outbox d <> [] -> Device.d_outbox d3 = Device.d_outbox d ->
  Device.d_repeatSequence d3 = true -> Device.d_seq d3 = q -> Pd.p_cachedSeq p3 = q -> Pd.p_address p3 = Pd.p_address p ->
  PdFacts.reply_ok (Pd.p_address p) q scheme (Cmd.m_Code ans) None (Pd.p_cached p3) -> Frame.f_Data (Pd.p_cached p3) = Cmd.m_Data ans ->
  legible ans -> decode ans = None ->
  standing d3 p3 deaf /\ unobeyed d3 p3 = tail (Device.d_outbox d).
Proof.
  intros Hne Ho Hr Hq Hc Ha Hok Hd Hl Hn. split; [|unfold unobeyed; by rewrite Hr, bool_decide_true, Ho by congruence].
  eapply (unanswered d3 p3 deaf ans scheme); try done; [congruence|congruence|]. by rewrite Ha, Hq.
Qed.

(** *** A command that is new to the peripheral *)

Section new_command.
Context (b : Bus.Bus) (d : Device.Device) (p : Pd.Device) (t : Z) (n : nat) (deaf : bool).
Context (d1 : Device.Device) (msg : Cmd.Message) (b1 : Bus.Bus) (fr : Frame.Frame) (q : Z) (now : Z).
Hypothesis Ha : apart b d p t n deaf.
Hypothesis Hask : asked b d d1 msg q b1 fr.
Hypothesis Hq : 1 <= q /\ q <> Pd.p_cachedSeq p.
Hypothesis Hun : unobeyed d p = Device.d_outbox d.
Context (p' : Pd.Device) (r : Frame.Frame) (ans : Cmd.Message).
Hypothesis HH : Pd.Handle p fr now = (p', Ok r).
Hypothesis Hpf : performs p fr now = Some msg.
Hypothesis Hob : obliged p msg q now p' r ans.

Lemma new_through : exists b' d' ev,
  Faults.transact b p Through now = (b', p', Some ev) /\ exchanged b d p t n Through now b' d' p' ev.
Proof using All.
  pose proof Hask as [Eo (tmo & En) _ _ _ _ _ _ [_ Hne]].
  destruct (obliged_books d d1 msg p q now p' r ans Eo (ap_commands _ _ _ _ _ _ Ha) Hob Hne) as ((O1 & O2) & Hrep & _).
  pose proof Hob as [G1 G2 G3 (G4 & G5 & G6) G7 G8 (scheme & G9) [G10 G11] _ _].
  destruct (answered b d p t n deaf d1 msg q b1 fr r ans scheme now Ha Hask (proj1 Hq) G9 G10 G11)
    as (b3 & d3 & ev & Er & B1 & B2 & B3 & B4 & B5 & B6). pose proof (unobeyed_level d3 p' B5) as Hun'.
  exists b3, d3, ev. split.
  { unfold Faults.transact, Enrol.exchange. rewrite En. cbn [Bus.st_Frame Bus.st_Device]. by rewrite HH, Er. }
  split; [|rewrite (performed_asked _ _ _ _ _ _ _ _ En), Hpf; apply kept_event|done|done].
  - apply (apart_again b d p t n deaf b3 d3 p' q now 0 false); try done; [by right|].
    apply level; [done|]. by rewrite G5, (se_seq _ _ _ _ B3).
  - apply G2.
  - by rewrite Hun, Hun', B4.
  - done.
  - by rewrite B6, Hrep.
Qed.

Lemma new_reply_lost : (n < 2)%nat -> exists b' d' ev,
  Faults.transact b p ReplyLost now = (b', p', Some ev) /\ exchanged b d p t n ReplyLost now b' d' p' ev.
Proof using All.
  intros Hn. pose proof Hask as [Eo (tmo & En) _ _ _ _ _ _ [_ Hne]].
  destruct (obliged_books d d1 msg p q now p' r ans Eo (ap_commands _ _ _ _ _ _ Ha) Hob Hne) as ((O1 & O2) & Hrep & Hnone).
  pose proof Hob as [G1 G2 G3 (G4 & G5 & G6) G7 G8 (scheme & G9) [G10 G11] _ _].
  destruct (silent b d p t n deaf d1 msg q b1 fr Ha Hask Hn) as (b3 & d3 & Et & B1 & B2 & B3 & B4 & B5 & B6).
  assert (Hs : standing d3 p' false /\ unobeyed d3 p' = tail (Device.d_outbox d)).
  { destruct (decide (Device.d_outbox d = [])) as [E|E].
    - split; [apply level; [by apply B5|by rewrite G5, (se_seq _ _ _ _ B3)]|]. rewrite unobeyed_level by (by apply B5). by rewrite B4, E.
    - rewrite <- G6 in G9, G10.
      eapply (unanswered_again d d3 p p' q ans scheme); try done; [by apply B6|apply B3|apply G2|by apply Hnone]. }
  exists b3, d3, (Bus.event Bus.KindNone 0). split.
  { unfold Faults.transact. rewrite En. cbn [Bus.st_Frame Bus.st_Device]. by rewrite HH, Et. }
  split; [|rewrite (performed_asked _ _ _ _ _ _ _ _ En), Hpf; apply kept_event|done|done].
  - apply (apart_again b d p t n deaf b3 d3 p' q now (Datatypes.S n) false); try done; [by left|apply Hs].
  - apply G2.
  - by rewrite Hun, (proj2 Hs).
  - done.
  - rewrite <- Hrep. cbn [heard_of Bus.e_Kind Bus.event option_list app]. apply sublist_inserts_l. reflexivity.
Qed.

Lemma new_command_lost : (n < 2)%nat -> q = Pd.nextSequence (Pd.p_cachedSeq p) -> exists b' d' ev,
  Faults.transact b p CommandLost now = (b', p, Some ev) /\ exchanged b d p t n CommandLost now b' d' p ev.
Proof using H Ha Hask Hq Hun.
  intros Hn Hnext. pose proof Hask as [_ (tmo & En) _ _ _ _ _ _ _].
  destruct (silent b d p t n deaf d1 msg q b1 fr Ha Hask Hn) as (b3 & d3 & Et & B1 & B2 & B3 & B4 & B5 & B6).
  pose proof (se_seq _ _ _ _ B3) as Hseq.
  assert (Hun' : unobeyed d3 p = Device.d_outbox d).
  { unfold unobeyed. rewrite (bool_decide_eq_false_2 (_ = _)) by (rewrite Hseq; intros X; by apply Hq). by rewrite andb_false_r. }
  exists b3, d3, (Bus.event Bus.KindNone 0). split.
  { unfold Faults.transact. rewrite En. cbn [Bus.st_Frame Bus.st_Device]. by rewrite Et. }
  split; [|rewrite (performed_asked _ _ _ _ _ _ _ _ En); apply kept_event|done|done].
  - apply (apart_again b d p t n deaf b3 d3 p q t (Datatypes.S n) true); try done; [by left|apply Ha..|].
    destruct (decide (Device.d_outbox d = [])) as [E|E]; [apply skipped; [by apply B5|congruence]|].
    apply unheard; [by rewrite B4|by apply B6|congruence].
  - done.
  - by rewrite Hun, Hun'.
  - done.
  - reflexivity.
Qed.

End new_command.

Lemma exchange_new b d p t n deaf f now : apart b d p t n deaf -> Enrol.prompt p t now -> borne f n deaf ->
  let q := (Device.nextSequence d).2 in unobeyed d p = Device.d_outbox d -> q <> Pd.p_cachedSeq p ->
  (deaf = false -> q = Pd.nextSequence (Pd.p_cachedSeq p)) ->
  exists b' d' p' ev, Faults.transact b p f now = (b', p', Some ev) /\ exchanged b d p t n f now b' d' p' ev.
Proof.
  intros Ha Ht [Hn Hdeaf] q Hun Hq Hnext. destruct (next_number _ _ _ _ _ _ Ha) as ((Hq1 & _) & _).
  destruct (asks b d p t n deaf Ha) as (d1 & msg & b1 & fr & Hask).
  destruct (obeys b d p t n deaf d1 msg b1 fr now Ha Hask Hq Ht) as (p' & r & ans & HH & Hpf & Hob). fold q in Hq1, Hask, Hob. destruct f.
  - destruct (new_through b d p t n deaf d1 msg b1 fr q now Ha Hask (conj Hq1 Hq) Hun p' r ans HH Hpf Hob) as (b3 & d3 & ev & H1).
    by exists b3, d3, p', ev.
  - destruct (new_reply_lost b d p t n deaf d1 msg b1 fr q now Ha Hask (conj Hq1 Hq) Hun p' r ans HH Hpf Hob (Hn ltac:(done)))
      as (b3 & d3 & ev & H1). by exists b3, d3, p', ev.
  - destruct (new_command_lost b d p t n deaf d1 msg b1 fr q now Ha Hask (conj Hq1 Hq) Hun (Hn ltac:(done)) (Hnext (Hdeaf eq_refl)))
      as (b3 & d3 & ev & H1). by exists b3, d3, p, ev.
Qed.

(** *** The repeat of one it has obeyed *)

Lemma exchange_again b d p t n deaf f now ans scheme : apart b d p t n deaf -> Enrol.prompt p t now -> borne f n deaf ->
  let q := (Device.nextSequence d).2 in q = Pd.p_cachedSeq p -> unobeyed d p = tail (Device.d_outbox d) -> Device.d_outbox d <> [] ->
  PdFacts.reply_ok (Pd.p_address p) q scheme (Cmd.m_Code ans) None (Pd.p_cached p) ->
  Frame.f_Data (Pd.p_cached p) = Cmd.m_Data ans -> legible ans -> decode ans = None ->
  exists b' d' p' ev, Faults.transact b p f now = (b', p', Some ev) /\ exchanged b d p t n f now b' d' p' ev.
Proof.
  intros Ha Ht [Hn _] q Hq Hun Hne R1 R2 R3 R4. destruct (next_number _ _ _ _ _ _ Ha) as ((Hq1 & _) & _).
  destruct (asks b d p t n deaf Ha) as (d1 & msg & b1 & fr & Hask). pose proof Hask as [_ (tmo & En) _ _ _ _ _ _ _].
  destruct (repeats b d p t n deaf d1 msg b1 fr now Ha Hask Hq Ht) as [HH Hpf].
  assert (Hpd : performed b p f now = []) by (rewrite (performed_asked _ _ _ _ _ _ _ _ En), Hpf; by destruct f). fold q in Hq1, Hask.
  pose proof (PdLaws.noted_ok p now (ap_pd _ _ _ _ _ _ Ha)) as Hpn.
  assert (Hf : f = Through \/ f <> Through) by (destruct f; by auto). destruct Hf as [->|Hf].
  - destruct (answered b d p t n deaf d1 msg q b1 fr _ ans scheme now Ha Hask Hq1 R1 R2 R3)
      as (b3 & d3 & ev & Er & B1 & B2 & B3 & B4 & B5 & B6).
    exists b3, d3, (PdFacts.noted p now), ev. split.
    { unfold Faults.transact, Enrol.exchange. rewrite En. cbn [Bus.st_Frame Bus.st_Device]. by rewrite HH, Er. }
    pose proof (unobeyed_level d3 (PdFacts.noted p now) B5) as Hun'.
    split; [|rewrite Hpd; apply kept_event; [done|by rewrite Hun, Hun', B4|done|by rewrite B6, R4]|done|done].
    apply (apart_again b d p t n deaf b3 d3 _ q now 0 false); try done; [by right|apply Ha..|].
    apply level; [done|]. by rewrite (se_seq _ _ _ _ B3).
  - destruct (silent b d p t n deaf d1 msg q b1 fr Ha Hask (Hn Hf)) as (b3 & d3 & Et & B1 & B2 & B3 & B4 & B5 & B6).
    assert (Hp3 : exists p3, Faults.transact b p f now = (b3, p3, Some (Bus.event Bus.KindNone 0)) /\
      PdFacts.pd_ok (S := S) p3 /\ (Pd.p_cfg p3 = Pd.p_cfg p /\ Pd.p_address p3 = Pd.p_address p) /\
      (Pd.p_session p3 = Pd.p_session p /\ Pd.p_cachedValid p3 = Pd.p_cachedValid p /\ Pd.p_cachedSeq p3 = Pd.p_cachedSeq p /\
       Pd.p_cached p3 = Pd.p_cached p) /\
      (Pd.p_seen p3 = true /\ Pd.p_lastSeen p3 = heard_at f t now) /\ Pd.p_pending p3 = Pd.p_pending p /\ Pd.p_outputs p3 = Pd.p_outputs p).
    { unfold Faults.transact. rewrite En. cbn [Bus.st_Frame Bus.st_Device]. destruct f; [done|rewrite HH, Et|rewrite Et].
      - exists (PdFacts.noted p now). by split_and!.
      - exists p. split_and!; try done; apply Ha. }
    destruct Hp3 as (p3 & Etr & H1 & H2 & (K1 & K2 & K3 & K4) & H3 & K5 & K6). exists b3, d3, p3, (Bus.event Bus.KindNone 0).
    split; [exact Etr|]. rewrite <- K4 in R1, R2.
    destruct (unanswered_again d d3 p p3 q ans scheme (deafened f) Hne B4 (B6 Hne) (se_seq _ _ _ _ B3) (eq_trans K3 (eq_sym Hq)) (proj2 H2) R1 R2 R3 R4)
      as [Hs Hun'].
    split; [|rewrite Hpd; apply kept_event; [apply H2|by rewrite Hun, Hun'|done|by rewrite K5]|by destruct f|done].
    apply (apart_again b d p t n deaf b3 d3 p3 q (heard_at f t now) (silences f n) (deafened f)); try done.
    + by destruct f.
    + by left.
    + unfold Pd.Device_Secure. rewrite K1. apply Ha.
    + rewrite K2. apply Ha.
    + rewrite K5. apply Ha.
Qed.

Lemma exchange_apart b d p t n deaf f now : apart b d p t n deaf -> Enrol.prompt p t now -> borne f n deaf ->
  exists b' d' p' ev, Faults.transact b p f now = (b', p', Some ev) /\ exchanged b d p t n f now b' d' p' ev.
Proof.
  intros Ha Ht Hf. destruct (next_number _ _ _ _ _ _ Ha) as (_ & _ & [(H1 & H2 & H3)|(H1 & H2 & H3 & ans & scheme & R1 & R2 & R3 & R4)]).
  - apply (exchange_new b d p t n deaf); try done. intros Hd. by apply H3.
  - by apply (exchange_again b d p t n deaf f now ans scheme).
Qed.

(** ** A life *)

Inductive happening :=
  | Befell (st : stimulus)
  | Ordered (req : Panel.request)
  | Exchanged (f : fate) (now : Z).

Definition happen (b : Bus.Bus) (p : Pd.Device) (h : happening) : Bus.Bus * Pd.Device * account :=
  match h with
  | Befell st => (b, react p st, mk_account [] [] (presented p st) [])
  | Ordered req =>
      let '(b, e) := Panel.queue b req in
      (b, p, mk_account [] (match e with None => [Panel.q_msg req] | Some _ => [] end) [] [])
  | Exchanged f now => let l := performed b p f now in let '(b, p, e) := Faults.transact b p f now in (b, p, mk_account [e] [] [] l)
  end.

Fixpoint live (b : Bus.Bus) (p : Pd.Device) (hs : list happening) : Bus.Bus * Pd.Device * account :=
  match hs with
  | [] => (b, p, mk_account [] [] [] [])
  | h :: hs =>
      let '(b, p, a) := happen b p h in
      let '(b, p, a') := live b p hs in
      (b, p, mk_account (ac_events a ++ ac_events a') (ac_granted a ++ ac_granted a') (ac_presented a ++ ac_presented a')
        (ac_performed a ++ ac_performed a'))
  end.

(** Ordinary commands and stimuli, and no more losses in a row than the protocol
    bears. *)
Fixpoint bearable (p : Pd.Device) (t : Z) (n : nat) (deaf : bool) (hs : list happening) : Prop :=
  match hs with
  | [] => True
  | Befell st :: hs => befalls st /\ bearable p t n deaf hs
  | Ordered req :: hs => sends req /\ bearable p t n deaf hs
  | Exchanged f now :: hs => Enrol.prompt p t now /\ borne f n deaf /\
      bearable p (heard_at f t now) (silences f n) (deafened f) hs
  end.

Lemma bearable_cfg p p' hs : Pd.p_cfg p' = Pd.p_cfg p -> forall t n deaf, bearable p t n deaf hs -> bearable p' t n deaf hs.
Proof.
  intros E. induction hs as [|[st|req|f now] hs IH]; intros t n deaf; cbn [bearable]; [done|intuition..].
  unfold Enrol.prompt in *. by rewrite E.
Qed.

Lemma standing_enqueue d p deaf m : standing d p deaf -> standing (Device.enqueue d m) p deaf.
Proof.
  assert (Hne : Device.d_outbox (Device.enqueue d m) <> []) by (intros E; by apply app_eq_nil in E as [_ ?]).
  intros []; [by apply level|by apply skipped|by apply unheard|by eapply unanswered].
Qed.

Lemma unobeyed_enqueue d p deaf m : standing d p deaf -> unobeyed (Device.enqueue d m) p = unobeyed d p ++ [m].
Proof.
  unfold unobeyed. change (Device.d_repeatSequence (Device.enqueue d m)) with (Device.d_repeatSequence d).
  change (Device.d_seq (Device.enqueue d m)) with (Device.d_seq d).
  change (Device.d_outbox (Device.enqueue d m)) with (Device.d_outbox d ++ [m]).
  intros [? Hr _|Hr _|Ho _ _|? ? ? Ho _ _ _ _ _ _]; [by rewrite Hr..| |]; case_match; try done; by destruct (Device.d_outbox d).
Qed.

Lemma standing_aside d p p' deaf : standing d p deaf -> Delivery.aside p p' -> standing d p' deaf.
Proof.
  intros Hs [_ A1 _ [_ A2] _ _ A3]. destruct Hs.
  - apply level; [done|congruence].
  - apply skipped; [done|congruence].
  - apply unheard; [done..|congruence].
  - eapply unanswered; rewrite ?A1, ?A2, ?A3; done.
Qed.

Lemma react_apart b d p t n deaf st : apart b d p t n deaf -> befalls st ->
  apart b d (react p st) t n deaf /\ kept d p (mk_account [] [] (presented p st) []) d (react p st).
Proof.
  intros Ha Hst. destruct (Delivery.react_joined p st Hst) as [Hs J1 J2 _]. pose proof Hs as [A1 A2 A3 [A4 A5] [A6 A7] A8 A9]. split.
  - pose proof Ha as [L1 L2 L3 L4 L5 [L6 L7] L8 L9 L10 L11 L12 [L13 L14] L15 L16]. split; try done.
    + by apply PdLaws.react_ok, Hst.
    + congruence.
    + split; [done|]. unfold Pd.Device_Secure. by rewrite A3.
    + congruence.
    + by apply J1.
    + split; congruence.
    + congruence.
    + by eapply standing_aside.
  - split; cbn [ac_events ac_granted ac_presented]; [done|by apply Forall_nil_2| |by rewrite J2].
    split; [|done]. rewrite app_nil_r. unfold unobeyed. by rewrite A5.
Qed.

Lemma queue_apart b d p t n deaf req b' e : apart b d p t n deaf -> sends req -> Panel.queue b req = (b', e) ->
  exists d', apart b' d' p t n deaf /\
    kept d p (mk_account [] (match e with None => [Panel.q_msg req] | Some _ => [] end) [] []) d' p /\
    (length (Device.d_outbox d') <= Datatypes.S (length (Device.d_outbox d)))%nat.
Proof.
  intros Ha Hs E. pose proof (Delivery.requested_ok b req b' e (ap_bus _ _ _ _ _ _ Ha) Hs E) as Hb'.
  pose proof (ap_alone _ _ _ _ _ _ Ha) as Hal.
  destruct (Delivery.queue_sends b req b' e Hs E) as [[-> [e0 ->]]|(i & d0 & Hi & Hd0 & -> & ->)].
  { exists d. split; [done|]. split; [apply kept_refl|lia]. }
  rewrite (proj1 Hal) in Hi. cbn [Panel.addressed] in Hi. case_decide; [|done]. injection Hi as <-.
  rewrite (alone_device0 _ _ Hal) in Hd0. injection Hd0 as <-. set (m := Panel.q_msg req) in *.
  exists (Device.enqueue d m). split; [|split].
  - destruct Ha as [L1 L2 L3 L4 L5 L6 L7 L8 L9 L10 L11 L12 L13 L14]. split; try done.
    + by eapply alone_set0.
    + apply Forall_app. split; [done|]. apply Forall_singleton, Hs.
    + by apply standing_enqueue.
  - split; cbn [ac_events ac_granted ac_presented]; [done|by apply Forall_nil_2| |by rewrite app_nil_r].
    by rewrite (unobeyed_enqueue d p deaf) by apply Ha.
  - change (Device.d_outbox (Device.enqueue d m)) with (Device.d_outbox d ++ [m]). rewrite length_app. cbn. lia.
Qed.

(** How many commands can be queued, at most. *)
Fixpoint backlog (w : nat) (hs : list happening) : nat :=
  match hs with
  | [] => w
  | Exchanged Through _ :: hs => backlog (pred w) hs
  | Ordered _ :: hs => backlog (Datatypes.S w) hs
  | _ :: hs => backlog w hs
  end.

Lemma happen_apart b d p t n deaf w h hs b1 p1 a1 : apart b d p t n deaf -> bearable p t n deaf (h :: hs) ->
  (length (Device.d_outbox d) <= w)%nat -> happen b p h = (b1, p1, a1) ->
  exists d1 t1 n1 deaf1 w1, apart b1 d1 p1 t1 n1 deaf1 /\ kept d p a1 d1 p1 /\ bearable p1 t1 n1 deaf1 hs /\
    (length (Device.d_outbox d1) <= w1)%nat /\ backlog w (h :: hs) = backlog w1 hs.
Proof.
  intros Ha Hu Hw E. assert (Hcfg : forall d1 t1 n1 deaf1, kept d p a1 d1 p1 -> bearable p t1 n1 deaf1 hs -> bearable p1 t1 n1 deaf1 hs).
  { intros d1 t1 n1 deaf1 Hk. apply bearable_cfg, (ke_cfg _ _ _ _ _ Hk). }
  destruct h as [st|req|f now]; cbn [happen bearable] in *.
  - injection E as <- <- <-. destruct Hu as [Hst Hu]. destruct (react_apart b d p t n deaf st Ha Hst) as [H1 H2].
    exists d, t, n, deaf, w. split_and!; try done. by eapply Hcfg.
  - destruct (Panel.queue b req) as [b2 e] eqn:Eq. injection E as <- <- <-. destruct Hu as [Hs Hu].
    destruct (queue_apart b d p t n deaf req b2 e Ha Hs Eq) as (d' & H1 & H2 & H3).
    exists d', t, n, deaf, (Datatypes.S w). split_and!; try done. lia.
  - destruct Hu as (Ht & Hf & Hu). destruct (exchange_apart b d p t n deaf f now Ha Ht Hf) as (b2 & d2 & p2 & ev & Et & [H1 H2 H3 _]).
    rewrite Et in E. injection E as <- <- <-.
    exists d2, (heard_at f t now), (silences f n), (deafened f), (match f with Through => pred w | _ => w end).
    split; [done|]. split; [done|]. split; [by eapply Hcfg|]. rewrite H3. split; [|by destruct f].
    destruct f; [|done|done]. destruct (Device.d_outbox d); cbn in *; lia.
Qed.

Lemma lives_lossy hs : forall b d p t n deaf w b' p' a, apart b d p t n deaf -> bearable p t n deaf hs ->
  (length (Device.d_outbox d) <= w)%nat -> live b p hs = (b', p', a) ->
  exists d' t' n' deaf', apart b' d' p' t' n' deaf' /\ kept d p a d' p' /\ (length (Device.d_outbox d') <= backlog w hs)%nat.
Proof.
  induction hs as [|h hs IH]; intros b d p t n deaf w b' p' a Ha Hu Hw; cbn [live].
  { intros [= <- <- <-]. exists d, t, n, deaf. split; [done|]. split; [apply kept_refl|done]. }
  destruct (happen b p h) as [[b1 p1] a1] eqn:E1. destruct (live b1 p1 hs) as [[b2 p2] a2] eqn:E2. intros [= <- <- <-].
  destruct (happen_apart b d p t n deaf w h hs b1 p1 a1 Ha Hu Hw E1) as (d1 & t1 & n1 & deaf1 & w1 & H1 & H2 & H3 & H4 & ->).
  destruct (IH b1 d1 p1 t1 n1 deaf1 w1 b2 p2 a2 H1 H3 H4 E2) as (d2 & t2 & n2 & deaf2 & K1 & K2 & K3).
  exists d2, t2, n2, deaf2. split; [done|]. split; [by eapply kept_trans|done].
Qed.

Lemma backlog_length_lossy w hs : (backlog w hs <= w + length hs)%nat.
Proof. revert w. induction hs as [|[st|req|[] now] hs IH]; intros w; cbn [backlog length]; [lia|etrans; [apply IH|lia]..]. Qed.

(** C4. What a line that loses frames delivers in the clear. One device on its line,
    online, with no channel up at either end, that takes any sequence number (the
    default: not built with WithStrictSequence) and answers ordinary reports; any
    interleaving of its reports, of requests of [Send] for an output, an indicator, the
    buzzer, a text or a status (the eight codes of [ordinary]), and of exchanges within
    the device's timeout of which the command or the answer is lost, two losses in a row
    at most and of these one of a command. Then every exchange comes to an event; the
    commands the device has performed, followed by those it has still to perform, are
    those it had still to perform followed by those [Send] granted, so that none is
    performed twice, skipped or overtaken, although commands are sent again and answers
    given again; its relays are where that puts them; and once as many exchanges have
    gone through as commands could be queued, each granted command has been performed,
    exactly once and in order. Of reports, which are not sent again, each is heard at
    most once and in order. ([lost_polls_swallow_command] is what two lost polls do, and
    [strict_reader_refuses] what one does to a strict device.) *)
Theorem exactly_once b d p t n deaf hs b' p' a : apart b d p t n deaf -> bearable p t n deaf hs -> live b p hs = (b', p', a) ->
  Forall is_Some (ac_events a) /\
  sublist (omap heard_of (ac_events a)) (omap decode (Pd.p_pending p) ++ ac_presented a) /\
  (exists d' t' n' deaf', apart b' d' p' t' n' deaf' /\
    unobeyed d p ++ ac_granted a = commands (ac_performed a) ++ unobeyed d' p') /\
  Pd.p_outputs p' = fold_left obey (commands (ac_performed a)) (Pd.p_outputs p) /\
  (backlog (length (Device.d_outbox d)) hs = 0%nat -> commands (ac_performed a) = unobeyed d p ++ ac_granted a).
Proof.
  intros Ha Hu E. destruct (lives_lossy hs b d p t n deaf _ b' p' a Ha Hu (le_n _) E) as (d' & t' & n' & deaf' & H1 & [_ K1 (K2 & K3) K4] & H2).
  split; [done|]. split; [|split].
  - etrans; [|exact K4]. apply sublist_inserts_r. reflexivity.
  - by exists d', t', n', deaf'.
  - split; [done|]. intros H0. rewrite K2. assert (Hn : unobeyed d' p' = []); [|by rewrite Hn, app_nil_r].
    rewrite H0 in H2. unfold unobeyed. destruct (Device.d_outbox d'); [by case_match|cbn in H2; lia].
Qed.

(** Whatever is lost leaves both ends sound. *)
Lemma transact_ok b p f now b' p' e : BusFacts.bus_ok (S := S) b -> PdFacts.pd_ok (S := S) p ->
  Faults.transact b p f now = (b', p', e) -> BusFacts.bus_ok (S := S) b' /\ PdFacts.pd_ok (S := S) p'.
Proof.
  intros Hb Hp. pose proof (BusFacts.Next_ok b Hb) as Hn. unfold Faults.transact, Enrol.exchange.
  destruct (Bus.Next b) as [b1 [st|]] eqn:En; cbn [fst] in Hn; [|by destruct f; intros [= <- <- <-]].
  destruct (BusFacts.Next_frame b b1 st Hb En) as (Hf & _). pose proof (PdFacts.Handle_total p (Bus.st_Frame st) now Hp Hf) as Hh.
  assert (Hp1 : PdFacts.pd_ok (S := S) (Pd.Handle p (Bus.st_Frame st) now).1 /\
    forall r, (Pd.Handle p (Bus.st_Frame st) now).2 = Ok r -> Frame.frame_ok r).
  { case_match; [destruct Hh as (p1 & r & -> & ? & ? & _); by split; [|intros ? [= <-]]|destruct Hh as (e0 & -> & _); by split]. }
  destruct Hp1 as [Hp1 Hr]. clear Hh.
  assert (Ht : forall b2 p2, BusFacts.bus_ok (S := S) b2 -> PdFacts.pd_ok (S := S) p2 ->
    (let '(b, e) := Bus.Timeout b2 (Bus.st_Device st) in (b, p2, e)) = (b', p', e) ->
    BusFacts.bus_ok (S := S) b' /\ PdFacts.pd_ok (S := S) p').
  { intros b2 p2 H3 H4. destruct (Bus.Timeout b2 _) as [b3 e3] eqn:Et. intros [= <- <- <-]. split; [|done].
    eapply BusFacts.bus_step_ok; [exact H3|by eapply BusFacts.step_Timeout]. }
  destruct f; [|by apply Ht..]. destruct (Pd.Handle p (Bus.st_Frame st) now) as [p1 [r|e1]]; cbn [fst snd] in *; [|by apply Ht].
  destruct (Bus.Reply b1 (Bus.st_Device st) r now) as [b2 [ev|e2]] eqn:Er.
  - intros [= <- <- <-]. split; [|done]. eapply BusFacts.bus_step_ok; [exact Hn|eapply BusFacts.step_Reply; [by apply Hr|exact Er]].
  - apply Ht; [|done]. eapply BusFacts.bus_step_ok; [exact Hn|eapply BusFacts.step_Reply; [by apply Hr|exact Er]].
Qed.

Lemma transacts_ok fs : forall b p now, BusFacts.bus_ok (S := S) b -> PdFacts.pd_ok (S := S) p ->
  BusFacts.bus_ok (S := S) (Faults.transacts b p fs now).1.1 /\ PdFacts.pd_ok (S := S) (Faults.transacts b p fs now).1.2.
Proof.
  induction fs as [|f fs IH]; intros b p now Hb Hp; [done|]. cbn [Faults.transacts].
  destruct (Faults.transact b p f now) as [[b1 p1] e] eqn:E. destruct (transact_ok b p f now b1 p1 e Hb Hp E) as [H1 H2].
  specialize (IH b1 p1 now H1 H2). by destruct (Faults.transacts b1 p1 fs now) as [[b2 p2] es].
Qed.

(** As much of the two ends as their being level takes. *)
Definition bus_view (b : Bus.Bus) :=
  (map (fun d => (Device.d_Address d, Device.d_State d, Device.d_session d, Device.d_misses d, Device.d_outbox d,
     Device.d_deferCommands d, Device.d_inflight d, Device.d_repeatSequence d, Device.d_seq d)) (Bus.b_devices b), Bus.b_current b).
Definition reader_view (p : Pd.Device) :=
  (Pd.p_address p, Pd.p_session p, Pd.g_strict (Pd.p_cfg p), Pd.p_pending p, Pd.p_seen p, Pd.p_lastSeen p, Pd.p_cachedValid p, Pd.p_cachedSeq p).

Lemma views_apart b p a q : BusFacts.bus_ok (S := S) b -> PdFacts.pd_ok (S := S) p ->
  bus_view b = ([(a, Device.Online, None, 0, [], false, None, false, q)], 0%nat) ->
  reader_view p = (a, None, false, [], true, 0, true, q) -> exists d, apart b d p 0 0 false /\ Device.d_outbox d = [].
Proof.
  intros Hb Hp [Hd Hc]%pair_equal_spec Hr. unfold reader_view in Hr. injection Hr as P1 P2 P3 P4 P5 P6 P7 P8.
  destruct (Bus.b_devices b) as [|d [|]] eqn:Ed; [discriminate Hd| |discriminate Hd].
  injection Hd as D1 D2 D3 D4 D5 D6 D7 D8 D9. exists d. split; [|exact D5]. split; try done.
  - by rewrite D1, P1.
  - unfold Device.secureEstablished, Pd.Device_Secure. by rewrite D3, P2.
  - rewrite D5. by apply Forall_nil_2.
  - rewrite P4. by apply Forall_nil_2.
  - apply level; [done|]. by rewrite P8, D9.
Qed.

End with_suite.

(** ** Witnesses: the plain line of Faults.v *)

Abbreviation AES := Secure.AES128.suite (only parsing).

Definition kat_level := Faults.transacts Faults.plain_line Faults.plain_reader [Through; Through; Through] 0.

Lemma kat_plain_ok : BusFacts.bus_ok (S := AES) Faults.plain_line /\ PdFacts.pd_ok (S := AES) Faults.plain_reader.
Proof.
  split; [by apply BusFacts.New_ok; octets_dec|]. unfold Faults.plain_reader.
  destruct (Pd.New 0 [Pd.WithContacts 2 2 1]) as [d|e] eqn:E; [|exact Enrol.kat_reader_ok].
  apply (PdFacts.pd_New_ok 0 [Pd.WithContacts 2 2 1] d); [done| |exact E].
  split; simpl; try done; [by split; simpl; try (split; [done|octets_dec])|split; [done|octets_dec]].
Qed.

Lemma kat_apart : exists d, apart (S := AES) kat_level.1.1 d kat_level.1.2 0 0 false /\ Device.d_outbox d = [].
Proof.
  destruct kat_plain_ok as [Hb Hp]. destruct (transacts_ok (S := AES) [Through; Through; Through] _ _ 0 Hb Hp) as [Hb' Hp'].
  eapply (views_apart _ _ 0 3 Hb' Hp'); [vm_compute; reflexivity|vm_compute; reflexivity].
Qed.
Definition kat_life : list happening :=
  [Ordered (Panel.mk_request 0 Delivery.kat_command None None); Exchanged CommandLost 0; Exchanged ReplyLost 0; Exchanged Through 0;
   Befell (PdLaws.Card PdLaws.kat_card); Exchanged CommandLost 0; Exchanged Through 0].

Lemma kat_bearable p : Pd.g_timeout (Pd.p_cfg p) = 0 -> bearable p 0 0 false kat_life.
Proof.
  intros Ht. assert (Hp : forall t now, Enrol.prompt p t now) by (intros; left; by rewrite Ht).
  assert (Hf : forall f n deaf, (n < 2)%nat -> deaf = false -> borne f n deaf) by (by split).
  split; [exact (Delivery.kat_ordinary 0)|]. split; [apply Hp|]. split; [by apply Hf; [lia|]|].
  split; [apply Hp|]. split; [split; [cbn; lia|discriminate]|]. split; [apply Hp|]. split; [by split|].
  split; [split; [exact PdLaws.kat_card_ok|by vm_compute]|]. split; [apply Hp|]. split; [by apply Hf; [cbn; lia|]|].
  split; [apply Hp|]. split; [by split|exact I].
Qed.

Lemma kat_outcome : let '(_, p, a) := live kat_level.1.1 kat_level.1.2 kat_life in
  (ac_granted a = [Delivery.kat_command] /\ ac_presented a = [Delivery.CardCred PdLaws.kat_card] /\ Pd.p_outputs p = [false; true]) /\
  Pd.p_pending kat_level.1.2 = [] /\ Pd.g_timeout (Pd.p_cfg kat_level.1.2) = 0 /\
  Device.d_repeatSequence <$> Bus.device kat_level.1.1 0 = Some false.
Proof. vm_compute. by split_and!. Qed.

Example exactly_once_witness : exists b' p' a, live kat_level.1.1 kat_level.1.2 kat_life = (b', p', a) /\
  commands (ac_performed a) = [Delivery.kat_command] /\ Pd.p_outputs p' = [false; true] /\
  sublist (omap heard_of (ac_events a)) [Delivery.CardCred PdLaws.kat_card].
Proof.
  destruct kat_apart as (d & Ha & Ho). pose proof kat_outcome as Hv.
  destruct (live kat_level.1.1 kat_level.1.2 kat_life) as [[b' p'] a] eqn:E. destruct Hv as ((H1 & H2 & H3) & H4 & H5 & H6).
  rewrite (alone_device0 _ _ (ap_alone _ _ _ _ _ _ Ha)) in H6. apply (inj Some) in H6.
  destruct (exactly_once kat_level.1.1 d kat_level.1.2 0 0 false kat_life b' p' a Ha (kat_bearable _ H5) E) as (_ & K1 & _ & _ & K2).
  exists b', p', a. split; [reflexivity|]. split; [|split; [exact H3|]].
  - rewrite K2 by (rewrite Ho; reflexivity). rewrite (unobeyed_level _ _ H6), Ho, H1. reflexivity.
  - rewrite H4, H2 in K1. exact K1.
Defined.

(** Two polls in a row that do not arrive, and the next command is taken for a repeat
    of the one before them: the number has come round. The device answers from its
    cache, the bus takes that for the answer to the command, and the command, granted
    and acknowledged, is never performed. *)
Definition kat_swallowed : list happening :=
  [Exchanged CommandLost 0; Exchanged CommandLost 0; Ordered (Panel.mk_request 0 Delivery.kat_command None None);
   Exchanged Through 0; Exchanged Through 0].

Example lost_polls_swallow_command : let '(b, p, a) := live kat_level.1.1 kat_level.1.2 kat_swallowed in
  map (option_map Bus.e_Kind) (ac_events a) = replicate 4 (Some Bus.KindNone) /\ ac_granted a = [Delivery.kat_command] /\
  commands (ac_performed a) = [] /\ map Device.d_outbox (Bus.b_devices b) = [[]] /\ Pd.p_outputs p = [false; false].
Proof. vm_compute. by split_and!. Qed.

(** A reader that insists on its numbers. One poll does not arrive and is not sent again,
    so the next command is one number further than the reader expects: it is answered
    with osdp_NAK, which the bus takes for the command's answer, and not performed. *)
Definition strict_reader : Pd.Device :=
  match Pd.New 0 [Pd.WithContacts 2 2 1; Pd.WithStrictSequence] with Ok d => d | Err _ => Faults.plain_reader end.

Example strict_reader_refuses :
  let x := Faults.transacts Faults.plain_line strict_reader [Through; Through; Through] 0 in
  let '(b, p, a) := live x.1.1 x.1.2
    [Exchanged CommandLost 0; Ordered (Panel.mk_request 0 Delivery.kat_command None None); Exchanged Through 0] in
  map (option_map Bus.e_Kind) (ac_events a) = [Some Bus.KindNone; Some Bus.KindNAK] /\ ac_granted a = [Delivery.kat_command] /\
  commands (ac_performed a) = [] /\ map Device.d_outbox (Bus.b_devices b) = [[]] /\ Pd.p_outputs p = [false; false].
Proof. vm_compute. by split_and!. Qed.
