(* ===== verification/Access.v ===== *)
(** * Releasing a door

    commands.go of the public package, the one function of it that computes
    something: [Unlock], the pair of commands an application sends when it grants
    access. [unlock_opens] follows the pair from the two calls of [Send] through the
    line all the readers share to the relay of the door. *)

From S2P Require Import Prelude Errors.
From S2P Require Frame Cmd Secure Device Bus BusFacts Pd PdLaws Enrol Panel Delivery Multidrop.
Import Multidrop (multidrop, usual, live, happen, at_once, ledger, granted_to, entry, Granted, Heard, Ordered, Exchanged).

Definition Unlock (output reader led hold : Z) : Cmd.Message * Cmd.Message :=
  let strike := Cmd.OutputCommand [Cmd.mk_Output output Cmd.OutputTimedOn hold] in
  let indicator := Cmd.LEDCommand reader led
      (Cmd.mk_LEDState Cmd.LEDSet 0 0 Cmd.ColourGreen Cmd.ColourGreen) hold
      (Cmd.mk_LEDState Cmd.LEDNOP 0 0 0 0) in
  (strike, indicator).

(** [Panel.Send]. *)
Definition send (addr : Z) (m : Cmd.Message) : Panel.request := Panel.mk_request addr m None None.

(** ** The two commands *)

Lemma strike_data output reader led hold : Cmd.m_Data (Unlock output reader led hold).1 =
  [output; Cmd.OutputTimedOn; u8 (Cmd.ticks hold 0xFFFF); u8 (Z.shiftr (Cmd.ticks hold 0xFFFF) 8)].
Proof. done. Qed.

Lemma unlock_octets output reader led hold : octet_ok output -> octet_ok reader -> octet_ok led ->
  octets_ok (Cmd.m_Data (Unlock output reader led hold).1) /\ octets_ok (Cmd.m_Data (Unlock output reader led hold).2).
Proof.
  intros Ho Hr Hl. split; cbn [Unlock fst snd Cmd.LEDCommand Cmd.m_Data Cmd.OutputCommand fold_left app];
    repeat (apply Forall_cons_2; [first [done|apply u8_ok|by (unfold octet_ok; cbn; lia)]|]); by apply Forall_nil_2.
Qed.

(** The strike and the light are held for the same time: [hold] in tenths of a
    second, rounded down, as much of it as two octets say. *)
Lemma unlock_agrees output reader led hold :
  let '(strike, indicator) := Unlock output reader led hold in
  le16 (idx (Cmd.m_Data strike) 2) (idx (Cmd.m_Data strike) 3) = Z.min 0xFFFF (Z.max 0 hold / Cmd.tick) /\
  le16 (idx (Cmd.m_Data indicator) 7) (idx (Cmd.m_Data indicator) 8) = Z.min 0xFFFF (Z.max 0 hold / Cmd.tick).
Proof.
  pose proof (Cmd.ticks_bound hold 0xFFFF ltac:(lia)) as Ht. pose proof (Cmd.ticks_eq hold 0xFFFF ltac:(lia)) as E.
  assert (Hp : le16 (u8 (Cmd.ticks hold 0xFFFF)) (u8 (Z.shiftr (Cmd.ticks hold 0xFFFF) 8)) = Cmd.ticks hold 0xFFFF) by (apply le16_put; lia).
  cbn [Unlock]. rewrite <- E. by split.
Qed.

Lemma unlock_sends addr output reader led hold : octet_ok output -> octet_ok reader -> octet_ok led ->
  Delivery.sends (send addr (Unlock output reader led hold).1) /\ Delivery.sends (send addr (Unlock output reader led hold).2).
Proof.
  intros Ho Hr Hl. destruct (unlock_octets output reader led hold Ho Hr Hl) as [H1 H2].
  split; (split; [done|]); (split; [done|]); (split; [done|]).
  - split; [split; [done|exact H1]|by left].
  - split; [split; [done|exact H2]|right; by left].
Qed.

(** What obeying them does: the one relay is energised, if there is one. *)
Lemma obey_unlock outputs output reader led hold : octet_ok output ->
  fold_left Delivery.obey [(Unlock output reader led hold).1; (Unlock output reader led hold).2] outputs =
  <[Z.to_nat output := true]> outputs.
Proof.
  intros Ho. cbn [fold_left]. unfold Delivery.obey at 1. rewrite decide_False by done.
  unfold Delivery.obey. rewrite decide_True by done. rewrite strike_data. unfold Pd.outputEntrySize.
  assert (Hl : forall a b c d : Z, len [a; b; c; d] = 4) by done. rewrite Hl.
  rewrite decide_False by (intros [X|X]; [done|by apply X]). cbn [Pd.outputs_check]. case_decide as Hn.
  - symmetry. apply list_insert_ge. unfold len in Hn. unfold octet_ok in Ho. lia.
  - rewrite decide_False by done. done.
Qed.

(** ** On the line *)

Lemma ordered_log b ps req b' ps' l : happen b ps (Ordered req) = (b', ps', l) ->
  l = [] \/ exists i, l = [Granted i (Panel.q_msg req)].
Proof.
  cbn [happen]. destruct (Panel.queue b req) as [b1 e]. intros [= _ _ <-].
  destruct e; [by left|]. destruct (Panel.addressed _ _ _) as [i|]; [right; by exists i|by left].
Qed.

Lemma quiet_log quiet : forall b ps b' ps' log, live b ps (map at_once quiet) = (b', ps', log) ->
  forall i, omap (granted_to i) log = [].
Proof.
  induction quiet as [|t quiet IH]; intros b ps b' ps' log; cbn [map live]; [by intros [= _ _ <-]|].
  cbn [at_once happen]. destruct (Multidrop.transaction b ps t t) as [[b1 ps1] e].
  destruct (live b1 ps1 (map at_once quiet)) as [[b2 ps2] l2] eqn:E. intros [= _ _ <-] i. exact (IH _ _ _ _ _ E i).
Qed.

(** Two requests granted to one device were granted to no other. *)
Lemma granted_once b ps r1 r2 quiet b' ps' log i :
  live b ps (Ordered r1 :: Ordered r2 :: map at_once quiet) = (b', ps', log) ->
  omap (granted_to i) log = [Panel.q_msg r1; Panel.q_msg r2] -> forall j, j <> i -> omap (granted_to j) log = [].
Proof.
  cbn [live]. destruct (happen b ps (Ordered r1)) as [[b1 ps1] l1] eqn:E1.
  destruct (happen b1 ps1 (Ordered r2)) as [[b2 ps2] l2] eqn:E2.
  destruct (live b2 ps2 (map at_once quiet)) as [[b3 ps3] l3] eqn:E3. intros [= _ _ <-]. pose proof (quiet_log quiet _ _ _ _ _ E3) as Hq.
  assert (Ho : forall k r, omap (granted_to i) [Granted k (Panel.q_msg r)] <> [] -> k = i).
  { intros k r. cbn. by case_decide. }
  assert (Hg : forall k j r, k = i -> j <> i -> omap (granted_to j) [Granted k (Panel.q_msg r)] = []).
  { intros k j r -> Hj. cbn. by rewrite decide_False. }
  destruct (ordered_log _ _ _ _ _ _ E1) as [->|[i1 ->]]; destruct (ordered_log _ _ _ _ _ _ E2) as [->|[i2 ->]];
    rewrite !omap_app, Hq; intros Hi j Hj; rewrite !omap_app, Hq; try (cbn in Hi; repeat case_decide; discriminate Hi); [].
  rewrite (Hg i1 j r1), (Hg i2 j r2); try done.
  - apply (Ho i2 r2). intros X. rewrite X in Hi. cbn in Hi. by case_decide.
  - apply (Ho i1 r1). intros X. rewrite X in Hi. cbn in Hi. by case_decide.
Qed.

Section with_suite.
Context {S : Secure.CipherSuite} `{!Secure.SuiteLaws S}.

(** C6. Granting access opens the one door, on a line whose devices are each in step with
    their reader on an established channel, with nothing queued, each having its turn
    within its timeout. An application calls [Send] with the two commands of [Unlock] for
    the address of one of the readers, and both are accepted: after as many rounds of
    polling as any reader had reports waiting, and two, that reader has energised that
    output, if it has it, no other output of any reader has changed, and the strike and
    the light were told the same time, the hold asked for in tenths of a second or the
    longest the field holds. (On a line in the clear that loses two polls the strike can
    be acknowledged and not obeyed: [Lossy.lost_polls_swallow_command].) *)
Theorem unlock_opens b ps ts i addr output reader led hold k quiet b' ps' log :
  multidrop (S := S) b ps ts -> octet_ok output -> octet_ok reader -> octet_ok led ->
  Forall (fun d => Device.d_outbox d = []) (Bus.b_devices b) ->
  Forall (fun p => (length (Pd.p_pending p) + 2 <= k)%nat) ps -> length quiet = (k * length ps)%nat ->
  usual ps ts (Bus.b_current b) (map at_once quiet) ->
  let '(strike, indicator) := Unlock output reader led hold in
  live b ps (Ordered (send addr strike) :: Ordered (send addr indicator) :: map at_once quiet) = (b', ps', log) ->
  omap (granted_to i) log = [strike; indicator] ->
  (forall j p, ps !! j = Some p -> exists p', ps' !! j = Some p' /\
    Pd.p_outputs p' = if decide (j = i) then <[Z.to_nat output := true]> (Pd.p_outputs p) else Pd.p_outputs p) /\
  le16 (idx (Cmd.m_Data strike) 2) (idx (Cmd.m_Data strike) 3) = Z.min 0xFFFF (Z.max 0 hold / Cmd.tick) /\
  le16 (idx (Cmd.m_Data indicator) 7) (idx (Cmd.m_Data indicator) 8) = Z.min 0xFFFF (Z.max 0 hold / Cmd.tick).
Proof.
  intros Hm Ho Hr Hl Hout Hk Hq Hu. destruct (unlock_sends addr output reader led hold Ho Hr Hl) as [S1 S2].
  pose proof (unlock_agrees output reader led hold) as Hagree. pose proof (fun l => obey_unlock l output reader led hold Ho) as Hobey.
  destruct (Unlock output reader led hold) as [strike indicator]. cbn [fst snd] in *. intros E Hi. split; [|exact Hagree].
  intros j p Hp. pose proof (lookup_lt_Some _ _ _ Hp) as Hj. rewrite (proj1 (Multidrop.md_length _ _ _ Hm)) in Hj.
  destruct (lookup_lt_is_Some_2 (Bus.b_devices b) j Hj) as [d Hd].
  destruct (Multidrop.quiet_rounds b ps ts [Ordered (send addr strike); Ordered (send addr indicator)] k quiet b' ps' log Hm)
    with (i := j) (d := d) (p := p) as (d' & p' & _ & Hp' & _ & _ & _ & Hres); [|exact Hq| |exact E|exact Hd|exact Hp|].
  - split; [exact S1|]. split; [exact S2|exact Hu].
  - intros i0 d0 p0 Hd0 Hp0. unfold Delivery.waiting. rewrite (Forall_lookup_1 _ _ _ _ Hout Hd0).
    pose proof (Forall_lookup_1 _ _ _ _ Hk Hp0). cbn in *. lia.
  - exists p'. split; [exact Hp'|]. rewrite Hres, (Forall_lookup_1 _ _ _ _ Hout Hd). cbn [app]. case_decide as Hji.
    + rewrite Hji, Hi. apply Hobey.
    + by rewrite (granted_once b ps _ _ quiet b' ps' log i E Hi j Hji).
Qed.

End with_suite.

(** The second reader of Multidrop's line, five seconds, its second output. *)
Definition kat_grant : list Multidrop.happening :=
  Ordered (send 1 (Unlock 1 0 0 5000000000).1) :: Ordered (send 1 (Unlock 1 0 0 5000000000).2) :: map at_once (replicate 4 0).

Lemma map_all {A B} (f : A -> B) (y : B) l n : map f l = replicate n y -> Forall (fun x => f x = y) l.
Proof. intros E. apply (Forall_fmap f (fun z => z = y)). change (f <$> l) with (map f l). rewrite E. by apply Forall_replicate. Qed.

Lemma kat_quiescent : map Device.d_outbox (Bus.b_devices Multidrop.kat_line.1) = replicate 2 [] /\
  map Pd.p_pending Multidrop.kat_line.2 = replicate 2 [] /\ map Pd.p_outputs Multidrop.kat_line.2 = replicate 2 [false; false].
Proof. by vm_compute. Qed.

Lemma kat_granted : let '(_, _, log) := live Multidrop.kat_line.1 Multidrop.kat_line.2 kat_grant in
  omap (granted_to 1) log = [(Unlock 1 0 0 5000000000).1; (Unlock 1 0 0 5000000000).2].
Proof. vm_compute. reflexivity. Qed.

Lemma kat_rounds : length (replicate 4 0) = (2 * length Multidrop.kat_line.2)%nat.
Proof. by vm_compute. Qed.

Lemma kat_octets : octet_ok 0 /\ octet_ok 1.
Proof. unfold octet_ok. lia. Qed.

Lemma kat_second : exists p, Multidrop.kat_line.2 !! 1%nat = Some p.
Proof. apply lookup_lt_is_Some_2. destruct kat_quiescent as (_ & H2 & _). apply (f_equal length) in H2. rewrite length_map in H2. rewrite H2. cbn. lia. Qed.

Example unlock_opens_witness : exists b' ps' log p', live Multidrop.kat_line.1 Multidrop.kat_line.2 kat_grant = (b', ps', log) /\
  ps' !! 1%nat = Some p' /\ Pd.p_outputs p' = [false; true].
Proof.
  destruct kat_quiescent as (H1 & H2 & H3). pose proof kat_granted as Hg.
  destruct (live Multidrop.kat_line.1 Multidrop.kat_line.2 kat_grant) as [[b' ps'] log] eqn:E.
  destruct kat_second as [p Hp].
  destruct (unlock_opens (S := Multidrop.AES) Multidrop.kat_line.1 Multidrop.kat_line.2 [0; 0] 1 1 1 0 0 5000000000 2 (replicate 4 0) b' ps' log)
    as [Hres _].
  - exact Multidrop.kat_multidrop.
  - exact (proj2 kat_octets).
  - exact (proj1 kat_octets).
  - exact (proj1 kat_octets).
  - exact (map_all _ _ _ _ H1).
  - eapply Forall_impl; [exact (map_all _ _ _ _ H2)|]. intros x Hx. rewrite Hx. cbn. lia.
  - exact kat_rounds.
  - destruct Multidrop.kat_matched as (_ & _ & Hc & _). rewrite Hc. exact (Multidrop.quiet_usual _ 4 Multidrop.kat_timeouts 0).
  - exact E.
  - exact Hg.
  - destruct (Hres 1%nat p Hp) as (p' & Hp' & Ho). exists b', ps', log, p'. split; [reflexivity|]. split; [exact Hp'|].
    rewrite Ho, (Forall_lookup_1 _ _ _ _ (map_all _ _ _ _ H3) Hp). reflexivity.
Defined.
