(* ===== verification/Telemetry.v ===== *)
(** * What a tracer is told

    telemetry: the seam between the library and whatever records its spans. A
    tracer is outside the repository; what the library does to it is a sequence of
    [call]s, the same whatever it is. This file has the seam itself (tracer.go,
    bind.go, tags.go, attributes.go) and [Apply] (apply.go), the walk over a value
    that turns the tagged fields of a struct into attributes. What each layer tells
    it is in Spans.v, what that cannot give away in Untraced.v. *)

From Stdlib Require Import Ascii String.
From S2P Require Import Prelude Errors.

Local Open Scope string_scope.
Local Open Scope list_scope.

(** ** A value as package reflect sees it

    A pointer is nil or the number of a place in the heap. [Opaque] is every kind
    [Apply] does not look into: slices, maps, functions, interfaces. *)

Inductive value :=
  | Int (n : Z)
  | Str (s : string)
  | Bool (b : bool)
  | Opaque
  | Pointer (to : option nat)
  | Struct (fields : list field)
with field := mk_field (fd_name : string) (fd_exported : bool) (fd_tag : list (string * string)) (fd_value : value).

Definition fd_exported (f : field) : bool := let 'mk_field _ e _ _ := f in e.
Definition fd_tag (f : field) : list (string * string) := let 'mk_field _ _ t _ := f in t.
Definition fd_value (f : field) : value := let 'mk_field _ _ _ v := f in v.

Abbreviation heap := (gmap nat value) (only parsing).

(** ** tags.go *)

Definition TagKey : string := "telemetry".
Definition TracePrefix : string := "trace:".

(** [reflect.StructTag.Get], of a tag in the conventional form. *)
Definition tag_get (tag : list (string * string)) (key : string) : string :=
  match list_find (fun kv => kv.1 = key) tag with
  | Some (_, (_, v)) => v
  | None => ""
  end.

(** [strings.Fields] and [strings.CutPrefix], of ASCII text. *)
Definition is_space (c : ascii) : bool :=
  let n := N_of_ascii c in (n =? 32)%N || ((9 <=? n)%N && (n <=? 13)%N).

Fixpoint words (s word : string) : list string :=
  let ended := if decide (word = "") then [] else [word] in
  match s with
  | EmptyString => ended
  | String c s => if is_space c then ended ++ words s "" else words s (String.append word (String c ""))
  end.

Definition Fields (s : string) : list string := words s "".

Fixpoint CutPrefix (s prefix : string) : option string :=
  match prefix with
  | EmptyString => Some s
  | String p prefix =>
      match s with
      | String c s => if decide (c = p) then CutPrefix s prefix else None
      | EmptyString => None
      end
  end.

(** The attributes a field is recorded under. *)
Definition names (f : field) : list string :=
  omap (fun part => CutPrefix part TracePrefix) (Fields (tag_get (fd_tag f) TagKey)).

(** ** attributes.go *)

Definition AttrDeviceAddress : string := "osdp.device.address".
Definition AttrIsReply : string := "osdp.frame.is_reply".
Definition AttrSequence : string := "osdp.frame.sequence".
Definition AttrFrameLength : string := "osdp.frame.length".
Definition AttrCheckScheme : string := "osdp.frame.check_scheme".
Definition AttrSecureBlockType : string := "osdp.secure.block_type".
Definition AttrCommand : string := "osdp.command.code".
Definition AttrCardFormat : string := "osdp.card.format".
Definition AttrCardBitCount : string := "osdp.card.bit_count".

(** ** apply.go *)

Definition maxDepth : nat := 8.

(** The loop through pointers: [None] while it runs, [Some None] at a nil pointer. *)
Fixpoint deref (fuel : nat) (h : heap) (v : value) : option (option value) :=
  match v with
  | Pointer None => Some None
  | Pointer (Some a) =>
      match fuel with
      | O => None
      | S fuel => match h !! a with Some w => deref fuel h w | None => Some None end
      end
  | _ => Some (Some v)
  end.

(** The second switch: what of a field is walked as well. *)
Definition walked (h : heap) (v : value) : bool :=
  match v with
  | Struct _ => true
  | Pointer (Some a) => match h !! a with Some (Struct _) => true | _ => false end
  | _ => false
  end.

Abbreviation attribute := (string * value)%type (only parsing).

(** One turn of the loop over the fields, given the walk of what lies below. *)
Definition apply_field (below : value -> option (list attribute)) (h : heap) (f : field) : option (list attribute) :=
  if negb (fd_exported f) then Some []
  else
    rest ← (if walked h (fd_value f) then below (fd_value f) else Some []);
    Some (map (fun name => (name, fd_value f)) (names f) ++ rest).

(** [levels] is how many levels are left: [apply] is entered with depth zero and
    returns above [maxDepth]. *)
Fixpoint apply (levels fuel : nat) (h : heap) (v : value) : option (list attribute) :=
  match levels with
  | O => Some []
  | S levels =>
      match deref fuel h v with
      | None => None
      | Some (Some (Struct fields)) => mjoin <$> mapM (apply_field (apply levels fuel h) h) fields
      | Some _ => Some []
      end
  end.

(** What [Apply] sets on the span, if it returns; [None] is a nil [v]. *)
Definition Apply (fuel : nat) (h : heap) (v : option value) : option (list attribute) :=
  match v with
  | None => Some []
  | Some v => apply (S maxDepth) fuel h v
  end.

(** ** tracer.go: what a tracer is called with *)

Inductive call :=
  | Started (name : string) (data : list value)
  | SetAttribute (key : string) (v : value)
  | RecordError (err : option error)
  | Ended.

Definition ScopeName : string := "github.com/regalium-os/osdp-go".

Inductive Tracer (T : Type) := Nop | Given (t : T).
Arguments Nop {T}.
Arguments Given {T} t.

(** A context, of which the tracer is all that is looked at. *)
Definition ContextWithTracer {T} (ctx : option (Tracer T)) (t : option (Tracer T)) : option (Tracer T) :=
  match t with
  | None => ctx
  | Some t => Some t
  end.

Definition FromContext {T} (ctx : option (Tracer T)) : Tracer T :=
  match ctx with
  | Some t => t
  | None => Nop
  end.

(** ** bind.go: a call, as the SDK's span sees it *)

Inductive sdk_call :=
  | sdk_start (name : string) (data : list value)
  | sdk_SetAttribute (key : string) (v : value)
  | sdk_SetError (err : error)
  | sdk_End.

Definition bound (c : call) : list sdk_call :=
  match c with
  | Started name data => [sdk_start name data]
  | SetAttribute key v => [sdk_SetAttribute key v]
  | RecordError None => []
  | RecordError (Some err) => [sdk_SetError err]
  | Ended => [sdk_End]
  end.

(** ** The walk ends *)

(** A pointer that leads somewhere. *)
Definition lands (fuel : nat) (h : heap) (v : value) : Prop := is_Some (deref fuel h v).

Lemma mapM_some {A B} (f : A -> option B) l : (forall x, x ∈ l -> is_Some (f x)) -> is_Some (mapM f l).
Proof. intros H. apply mapM_is_Some. by apply Forall_forall. Qed.

Lemma walked_lands h v fuel : walked h v = true -> lands (S fuel) h v.
Proof.
  unfold lands. destruct v as [| | | |[a|]|]; cbn [walked deref]; intros Hw; try done.
  destruct (h !! a) as [[]|]; try done. destruct fuel; by eexists.
Qed.

Lemma apply_returns levels fuel h v : lands (S fuel) h v -> is_Some (apply levels (S fuel) h v).
Proof.
  revert v. induction levels as [|levels IH]; intros v Hv; [by eexists|]. cbn [apply].
  destruct Hv as [w ->]. destruct w as [[| | | | |fields]|]; try by eexists.
  apply fmap_is_Some, mapM_some. intros f _. unfold apply_field. destruct (negb _); [by eexists|].
  destruct (walked h (fd_value f)) eqn:Ew; [|by eexists].
  destruct (IH (fd_value f)) as [l ->]; [by apply walked_lands|by eexists].
Qed.

(** ** What it sets *)

(** The field is met on the way down from a value, at most [n] levels below it. *)
Inductive meets (fuel : nat) (h : heap) : nat -> value -> field -> Prop :=
  | meets_here n v fields f : deref fuel h v = Some (Some (Struct fields)) -> f ∈ fields ->
      fd_exported f = true -> meets fuel h (S n) v f
  | meets_below n v fields g f : deref fuel h v = Some (Some (Struct fields)) -> g ∈ fields ->
      fd_exported g = true -> walked h (fd_value g) = true -> meets fuel h n (fd_value g) f ->
      meets fuel h (S n) v f.

Lemma apply_meets levels fuel h : forall v sets, apply levels fuel h v = Some sets ->
  forall k x, (k, x) ∈ sets <-> exists f, meets fuel h levels v f /\ k ∈ names f /\ x = fd_value f.
Proof.
  induction levels as [|levels IH]; intros v sets; cbn [apply].
  { intros [= <-] k x. split; [by intros ?%elem_of_nil|]. intros (f & Hm & _). inversion Hm. }
  destruct (deref fuel h v) as [[[| | | | |fields]|]|] eqn:Ed; try done.
  all: try (intros [= <-] k x; split; [by intros ?%elem_of_nil|]; intros (f & Hm & _); inversion Hm; congruence).
  rewrite fmap_Some. intros (ls & Hls & ->) k x. apply mapM_Some_1 in Hls.
  assert (Hf : forall f l, apply_field (apply levels fuel h) h f = Some l -> (k, x) ∈ l <->
    fd_exported f = true /\ (k ∈ names f /\ x = fd_value f \/
      walked h (fd_value f) = true /\ exists g, meets fuel h levels (fd_value f) g /\ k ∈ names g /\ x = fd_value g)).
  { intros f l. unfold apply_field. destruct (fd_exported f); cbn [negb];
      [|intros [= <-]; split; [by intros ?%elem_of_nil|by intros [? _]]].
    assert (Hmap : (k, x) ∈ map (fun name => (name, fd_value f)) (names f) <-> k ∈ names f /\ x = fd_value f).
    { change (map ?g ?m) with (g <$> m). rewrite list_elem_of_fmap. split.
      - by intros (n & [= -> ->] & Hn).
      - intros [Hn ->]. by exists k. }
    destruct (walked h (fd_value f)).
    - destruct (apply levels fuel h (fd_value f)) as [r|] eqn:Er; [|done]. intros [= <-].
      rewrite elem_of_app, Hmap, (IH _ _ Er k x). intuition.
    - intros [= <-]. rewrite app_nil_r, Hmap. intuition discriminate. }
  rewrite list_elem_of_join. split.
  - intros (l & Hl & Hin). apply list_elem_of_lookup in Hin as [i Hi].
    destruct (Forall2_lookup_r _ _ _ _ _ Hls Hi) as (f & Hfi & El).
    apply list_elem_of_lookup_2 in Hfi. apply (Hf f l El) in Hl as (He & [[Hk ->]|(Hw & g & Hg & Hk & ->)]).
    + exists f. split; [by eapply meets_here|done].
    + exists g. split; [by eapply meets_below|done].
  - intros (f & Hm & Hk & ->).
    assert (Hx : exists g, g ∈ fields /\ fd_exported g = true /\ (k ∈ names g /\ fd_value f = fd_value g \/
      walked h (fd_value g) = true /\ exists f', meets fuel h levels (fd_value g) f' /\ k ∈ names f' /\ fd_value f = fd_value f')).
    { inversion Hm as [n v' fs f' Ed' Hin He|n v' fs g f' Ed' Hin He Hw Hb]; subst; rewrite Ed in Ed'; injection Ed' as <-.
      - exists f. split; [done|]. split; [done|by left].
      - exists g. split; [done|]. split; [done|]. right. split; [done|by exists f]. }
    destruct Hx as (g & Hg & He & Hor). apply list_elem_of_lookup in Hg as [i Hi].
    destruct (Forall2_lookup_l _ _ _ _ _ Hls Hi) as (l & Hli & El).
    exists l. split; [|by eapply list_elem_of_lookup_2]. by apply (Hf g l El).
Qed.

(** C23. What is recorded is what is tagged. [Apply] returns on any value whose
    outermost pointers lead somewhere, however its fields refer to one another, and
    the attributes it sets are exactly these: for every exported field met on the way
    down, through structs and pointers to structs and no more than eight levels below
    the top, its value under each name its telemetry tag gives after trace:. A field
    without the tag is not recorded, nor anything below an unexported one. *)
Theorem apply_exact fuel h v : lands (S fuel) h v -> exists sets, Apply (S fuel) h (Some v) = Some sets /\
  forall k x, (k, x) ∈ sets <-> exists f, meets (S fuel) h (S maxDepth) v f /\ k ∈ names f /\ x = fd_value f.
Proof.
  intros Hv. destruct (apply_returns (S maxDepth) fuel h v Hv) as [sets E]. exists sets. split; [exact E|].
  by apply apply_meets.
Qed.

(** A record that holds a key next to its number and refers to itself. *)
Definition kat_record : value := Struct
  [mk_field "ID" true [("json", "id"); ("telemetry", "trace:record.id other trace:id")] (Int 7);
   mk_field "Key" true [("json", "key")] (Str "00112233");
   mk_field "pin" false [("telemetry", "trace:record.pin")] (Str "1234");
   mk_field "Next" true [] (Pointer (Some 0%nat))].

Lemma kat_lands : lands 1 {[0%nat := kat_record]} (Pointer (Some 0%nat)).
Proof. by eexists. Qed.

Example apply_exact_witness : exists sets, Apply 1 {[0%nat := kat_record]} (Some (Pointer (Some 0%nat))) = Some sets /\
  length sets = 18%nat /\ forall x, ("record.pin", x) ∉ sets.
Proof.
  destruct (apply_exact 0 {[0%nat := kat_record]} (Pointer (Some 0%nat)) kat_lands) as (sets & E & _).
  exists sets. split; [exact E|]. vm_compute in E. injection E as <-. split; [reflexivity|].
  intros x X. repeat (apply elem_of_cons in X as [X|X]; [discriminate X|]). by apply elem_of_nil in X.
Defined.

(** What the bound on depth does not bound: a pointer that points to itself is
    followed for ever. *)
Lemma self_pointer_hangs fuel : Apply fuel {[0%nat := Pointer (Some 0%nat)]} (Some (Pointer (Some 0%nat))) = None.
Proof.
  unfold Apply, apply. replace (deref fuel _ _) with (@None (option value)); [done|].
  induction fuel as [|fuel IH]; [done|]. cbn [deref]. by rewrite lookup_singleton_eq.
Qed.

(** ** The views of the library

    Each is a struct of tagged fields of ordinary types. *)

Definition view (fields : list (string * string * value)) : value :=
  Struct (map (fun '(name, attr, v) => mk_field name true [(TagKey, String.append TracePrefix attr)] v) fields).

(** What [Apply] does to the span with one of them. *)
Definition applied (v : value) : list call :=
  map (fun '(k, x) => SetAttribute k x) (default [] (Apply 0 ∅ (Some v))).
