(* ===== verification/Spans.v ===== *)
(** * What each layer tells the tracer

    The views a frame, a message, a device, an event and an exchange may appear in a
    span as (the [Trace] methods and the names they use), and for each operation that
    opens spans the calls it makes, in order. The operations themselves are those of
    Frame.v, Cmd.v, Bus.v and Pd.v; each definition here follows the same branches. *)

From Stdlib Require Import String.
From S2P Require Import Prelude Errors Telemetry.
From S2P Require Frame Cmd Secure Device Bus Pd PdLaws Enrol.

Local Open Scope string_scope.
Local Open Scope list_scope.

(** ** Names: cmd/names.go, codes.go, frame/check.go, bus/device.go, bus/event.go *)

Definition commandNames : list (Z * string) :=
  [(Cmd.Poll, "osdp_POLL"); (Cmd.ID, "osdp_ID"); (Cmd.Cap, "osdp_CAP");
   (Cmd.LStat, "osdp_LSTAT"); (Cmd.IStat, "osdp_ISTAT"); (Cmd.OStat, "osdp_OSTAT");
   (Cmd.RStat, "osdp_RSTAT"); (Cmd.Out, "osdp_OUT"); (Cmd.LED, "osdp_LED");
   (Cmd.Buz, "osdp_BUZ"); (Cmd.Text, "osdp_TEXT"); (Cmd.ComSet, "osdp_COMSET");
   (Cmd.BioRead, "osdp_BIOREAD"); (Cmd.BioMatch, "osdp_BIOMATCH"); (Cmd.KeySet, "osdp_KEYSET");
   (Cmd.Chlng, "osdp_CHLNG"); (Cmd.SCrypt, "osdp_SCRYPT"); (Cmd.ACURxSize, "osdp_ACURXSIZE");
   (Cmd.FileTransfer, "osdp_FILETRANSFER"); (Cmd.MFG, "osdp_MFG"); (Cmd.AbortCode, "osdp_ABORT");
   (Cmd.PIVData, "osdp_PIVDATA"); (Cmd.GenAuth, "osdp_GENAUTH"); (Cmd.CRAuth, "osdp_CRAUTH");
   (Cmd.KeepActive, "osdp_KEEPACTIVE")].

Definition replyNames : list (Z * string) :=
  [(Cmd.ACK, "osdp_ACK"); (Cmd.NAK, "osdp_NAK"); (Cmd.PDID, "osdp_PDID");
   (Cmd.PDCap, "osdp_PDCAP"); (Cmd.LStatR, "osdp_LSTATR"); (Cmd.IStatR, "osdp_ISTATR");
   (Cmd.OStatR, "osdp_OSTATR"); (Cmd.RStatR, "osdp_RSTATR"); (Cmd.Raw, "osdp_RAW");
   (Cmd.Keypad, "osdp_KEYPAD"); (Cmd.Com, "osdp_COM"); (Cmd.BioReadR, "osdp_BIOREADR");
   (Cmd.CCrypt, "osdp_CCRYPT"); (Cmd.RMACI, "osdp_RMAC_I"); (Cmd.MFGReply, "osdp_MFGREP");
   (Cmd.Busy, "osdp_BUSY")].

Definition named (table : list (Z * string)) (c : Z) : option string := snd ∘ snd <$> list_find (fun e => e.1 = c) table.

Definition Code_Name (c : Z) (isReply : bool) : string :=
  if isReply then
    match named replyNames c with Some n => n | None => "osdp_UNKNOWN_REPLY" end
  else
    match named commandNames c with Some n => n | None => "osdp_UNKNOWN_CMD" end.

Definition Scheme_String (s : Frame.Scheme) : string :=
  match s with
  | Frame.SchemeCRC16 => "crc16"
  | Frame.SchemeChecksum => "checksum"
  end.

Definition State_String (s : Device.State) : string :=
  match s with
  | Device.Offline => "offline"
  | Device.Identifying => "identifying"
  | Device.Online => "online"
  | Device.SecureHandshake => "secure_handshake"
  | Device.Secure => "secure"
  end.

Definition Kind_String (k : Bus.Kind) : string :=
  match k with
  | Bus.KindOnline => "online"
  | Bus.KindOffline => "offline"
  | Bus.KindIdentified => "identified"
  | Bus.KindCardRead => "card_read"
  | Bus.KindKeypad => "keypad"
  | Bus.KindNAK => "nak"
  | Bus.KindResync => "resync"
  | Bus.KindManufacturer => "manufacturer"
  | Bus.KindCapabilities => "capabilities"
  | Bus.KindSecure => "secure"
  | Bus.KindStatusChange => "status_change"
  | Bus.KindBusy => "busy"
  | Bus.KindCommunication => "communication"
  | Bus.KindKeyInstalled => "key_installed"
  | Bus.KindSecureFailed => "secure_failed"
  | Bus.KindNone => "none"
  end.

(** ** The views *)

Definition is_some {A} (o : option A) : bool := bool_decide (is_Some o).

Definition Frame_Trace (f : Frame.Frame) : value := view
  [("Address", "osdp.device.address", Int (Frame.f_Address f));
   ("IsReply", "osdp.frame.is_reply", Bool (Frame.f_IsReply f));
   ("Sequence", "osdp.frame.sequence", Int (Frame.Control_Sequence (Frame.f_Control f)));
   ("Scheme", "osdp.frame.check_scheme", Str (Scheme_String (Frame.Control_Scheme (Frame.f_Control f))));
   ("Length", "osdp.frame.length", Int (Frame.Len f));
   ("Code", "osdp.command.code", Int (Frame.f_Code f));
   ("Secure", "osdp.secure.present", Bool (match Frame.f_Security f with Some _ => true | None => false end))].

Definition Message_Trace (m : Cmd.Message) : value := view
  [("Code", "osdp.command.code", Int (Cmd.m_Code m));
   ("Name", "osdp.command.name", Str (Code_Name (Cmd.m_Code m) (Cmd.m_IsReply m)));
   ("IsReply", "osdp.frame.is_reply", Bool (Cmd.m_IsReply m));
   ("Length", "osdp.command.payload_length", Int (len (Cmd.m_Data m)))].

Definition Device_Trace (d : Device.Device) : value := view
  [("Address", "osdp.device.address", Int (Device.d_Address d));
   ("State", "osdp.device.state", Str (State_String (Device.d_State d)));
   ("Misses", "osdp.device.missed_polls", Int (Device.d_misses d))].

(** Of the event, its device as it is by then. *)
Definition Event_Trace (d : Device.Device) (e : Bus.Event) : value :=
  let card := bool_decide (Bus.e_Kind e = Bus.KindCardRead) in view
  [("Kind", "osdp.event.kind", Str (Kind_String (Bus.e_Kind e)));
   ("Address", "osdp.device.address", Int (Device.d_Address d));
   ("CardFormat", "osdp.card.format", Int (if card then Cmd.cr_Format (Bus.e_Card e) else 0));
   ("CardBitCount", "osdp.card.bit_count", Int (if card then Cmd.cr_BitCount (Bus.e_Card e) else 0))].

Definition exchangeView (address sequence : Z) (command reply : string) (secure replayed : bool) : value := view
  [("Address", "osdp.device.address", Int address);
   ("Sequence", "osdp.frame.sequence", Int sequence);
   ("Command", "osdp.command.name", Str command);
   ("Reply", "osdp.pd.reply", Str reply);
   ("Secure", "osdp.secure.present", Bool secure);
   ("Replayed", "osdp.pd.replayed", Bool replayed)].

(** ** internal/frame, internal/cmd *)

Definition failed (e : option error) : list call :=
  match e with
  | Some e => [RecordError (Some e)]
  | None => []
  end.

Definition Append_calls (f : Frame.Frame) : list call :=
  [Started "osdp.frame.encode" [Frame_Trace f]] ++ failed (EFrame <$> Frame.representable f) ++ [Ended].

Definition Decode_calls (buf : octets) : list call :=
  let '(f, err) := Frame.Decode buf in
  [Started "osdp.frame.decode" []] ++
  (if decide (Frame.Len f >= Frame.HeaderSize) then applied (Frame_Trace f) else []) ++
  [RecordError err; Ended].

Definition DecodeMessage_calls (m : Cmd.Message) : list call := [Started "osdp.cmd.decode" [Message_Trace m]; Ended].

(** Of [Encode] and of [EncodeSecure]. *)
Definition Encode_calls (m : Cmd.Message) (addr : Z) : list call :=
  [Started "osdp.cmd.encode" [Message_Trace m]] ++
  (if Frame.Address_Valid addr then [] else [RecordError (Some (EFrame ErrInvalidAddress))]) ++ [Ended].

(** ** internal/bus *)

Definition event_calls (d : Device.Device) (e : Bus.Event) : list call :=
  [Started "osdp.bus.event" [Event_Trace d e]; Ended].

Definition compose_calls (d : Device.Device) (msg : Cmd.Message) (block : option Frame.SecurityBlock) : list call :=
  match block with
  | None => Encode_calls msg (Device.d_Address d)
  | Some block =>
      if Secure.BlockType_Encrypted (Frame.sb_Type block) then
        match Device.d_session d with
        | None => []
        | Some s =>
            match Secure.Seal s (Cmd.m_Data msg) true with
            | Err _ => []
            | Ok ciphertext => Encode_calls (msg <| Cmd.m_Data := ciphertext |>) (Device.d_Address d)
            end
        end
      else Encode_calls msg (Device.d_Address d)
  end.

Definition outcome_error {A} (r : result A) : option error :=
  match r with
  | Ok _ => None
  | Err e => Some e
  end.

Definition Next_calls (b : Bus.Bus) : list call :=
  match Bus.device b (Bus.b_current b) with
  | None => []
  | Some d =>
      let b := b <| Bus.b_current := (S (Bus.b_current b) mod length (Bus.b_devices b))%nat |> in
      let '(d1, n, c) := Bus.commandFor b d in
      [Started "osdp.bus.transaction" [Device_Trace d]] ++
      match c with
      | Err _ => []
      | Ok (msg, block) => compose_calls d1 msg block ++ failed (outcome_error (Bus.compose b d1 msg block).2)
      end ++ [Ended]
  end.

(** Why a handshake could not proceed, for the one span that says so. *)
Definition handshake_failure (d : Device.Device) (msg : Cmd.Message) : option error :=
  if decide (Cmd.m_Code msg = Cmd.CCrypt) then
    match Device.d_session d with
    | None => Some (EBus errNoSession)
    | Some s => outcome_error (Secure.AnswerCryptogram s (Cmd.m_Data msg)).2
    end
  else if decide (Cmd.m_Code msg = Cmd.RMACI) then
    match Device.d_session d with
    | None => Some (EBus errNoSession)
    | Some s => (Secure.CompleteHandshake s (Cmd.m_Data msg)).2
    end
  else None.

(** Every answer [dispatch] makes something of ends in the span of its event. *)
Definition dispatch_calls (b : Bus.Bus) (d : Device.Device) (i : nat) (msg : Cmd.Message) : list call :=
  let last :=
    match Bus.dispatch b d i msg with
    | (d', Ok e) => event_calls d' e
    | (_, Err _) => []
    end in
  match handshake_failure d msg with
  | Some cause => [Started "osdp.secure.failed" [Device_Trace d]; RecordError (Some cause)] ++ last ++ [Ended]
  | None => last
  end.

Definition reply_calls (b : Bus.Bus) (d : Device.Device) (i : nat) (f : Frame.Frame) (now : Z) : list call :=
  [Started "osdp.bus.reply" [Device_Trace d]] ++
  (if negb (Frame.f_IsReply f) then failed (Some (EBus ErrNotAReply))
   else if decide (Frame.f_Address f <> Device.d_Address d) then failed (Some (EBus ErrWrongAddress))
   else
     let d := d <| Device.d_LastSeen := now |> <| Device.d_misses := 0 |> in
     let answered d msg := DecodeMessage_calls msg ++ dispatch_calls b d i msg in
     if decide (Frame.Control_Sequence (Frame.f_Control f) = 0) then
       event_calls (Device.resync d) (Bus.event Bus.KindResync i)
     else
       match Device.d_session d with
       | Some s =>
           if Secure.Established s then
             match Bus.openReply s f with
             | (s, Err e) => failed (Some e) ++
                 event_calls (Device.resync (d <| Device.d_session := Some s |>)) (Bus.event Bus.KindSecureFailed i)
             | (s, Ok payload) =>
                 answered (Device.delivered (d <| Device.d_session := Some s |>)) (Cmd.Decode (f <| Frame.f_Data := payload |>))
             end
           else answered (Device.delivered d) (Cmd.Decode f)
       | None => answered (Device.delivered d) (Cmd.Decode f)
       end) ++ [Ended].

Definition timeout_calls (d : Device.Device) (i : nat) : list call :=
  [Started "osdp.bus.timeout" [Device_Trace d]] ++
  (let '(d', e) := Bus.timeout d i in
   if decide (Bus.e_Kind e = Bus.KindNone) then [] else event_calls d' e) ++ [Ended].

(** ** internal/pd *)

Definition encode_calls (p : Pd.Device) (m : Cmd.Message) (block : option Frame.SecurityBlock) : list call :=
  match block with
  | None => Encode_calls m (Pd.p_address p)
  | Some block =>
      if Secure.BlockType_Handshake (Frame.sb_Type block) then Encode_calls m (Pd.p_address p)
      else
        match Pd.p_session p with
        | None => []
        | Some s =>
            match (if Secure.BlockType_Encrypted (Frame.sb_Type block) then Secure.Seal s (Cmd.m_Data m) false
                   else Ok (Cmd.m_Data m)) with
            | Err _ => []
            | Ok payload =>
                Encode_calls (Cmd.mk_Message (Cmd.m_Code m) true (payload ++ replicate (Z.to_nat Secure.MACTagSize) 0%Z))
                  (Pd.p_address p)
            end
        end
  end.

(** [seen] is the view of the exchange, less the name of the reply. *)
Definition fresh_calls (p : Pd.Device) (command : Frame.Frame) (seq : Z) (seen : string -> bool -> value) : list call :=
  match Pd.answerFor p command seq with
  | Err _ => []
  | Ok (p1, (m, block)) =>
      encode_calls p1 (m <| Cmd.m_IsReply := true |>) block ++
      match (Pd.emit p1 command seq m block).2 with
      | Err e => failed (Some e)
      | Ok reply => applied (seen (Code_Name (Frame.f_Code reply) true) false)
      end
  end.

Definition Handle_calls (p : Pd.Device) (command : Frame.Frame) (now : Z) : list call :=
  [Started "osdp.pd.exchange" [Frame_Trace command]] ++
  match Pd.screen command with
  | Some e => failed (Some e)
  | None =>
      if negb (Pd.addressed p (Frame.f_Address command)) then failed (Some (EPd ErrNotAddressed))
      else
        let p := Pd.observe p now in
        let seq := Frame.Control_Sequence (Frame.f_Control command) in
        let seen reply replayed :=
          exchangeView (Pd.p_address p) seq (Code_Name (Frame.f_Code command) false) reply
            (match Frame.f_Security command with Some _ => true | None => false end) replayed in
        if decide (seq = 0) then fresh_calls (Pd.restart p) command seq seen
        else if Pd.p_cachedValid p && bool_decide (seq = Pd.p_cachedSeq p)
        then applied (seen (Code_Name (Frame.f_Code (Pd.p_cached p)) true) true)
        else fresh_calls p command seq seen
  end ++ [Ended].

(** What befalls the device between commands. *)
Definition react_calls (p : Pd.Device) (st : PdLaws.stimulus) : list call :=
  match st with
  | PdLaws.Command f now => Handle_calls p f now
  | PdLaws.Card c =>
      [Started "osdp.pd.card" []; SetAttribute AttrCardFormat (Int (Cmd.cr_Format c));
       SetAttribute AttrCardBitCount (Int (Cmd.cr_BitCount c)); RecordError (Pd.ReportCardRead p c).2; Ended]
  | PdLaws.Keys k => [Started "osdp.pd.keypad" []; RecordError (Pd.ReportKeypad p k).2; Ended]
  | PdLaws.Input i active => [Started "osdp.pd.input" []; RecordError (Pd.SetInput p i active).2; Ended]
  | PdLaws.Tamper active => [Started "osdp.pd.tamper" []; RecordError (Pd.SetTamper p active).2; Ended]
  | PdLaws.Power failure => [Started "osdp.pd.power" []; RecordError (Pd.SetPower p failure).2; Ended]
  end.

(** ** One exchange, on a line that carries both frames whole

    The two tracers: the panel's, and the reader's. Each end encodes what it sends
    and decodes what it hears. *)

Definition wire (f : Frame.Frame) : octets :=
  match Frame.Append f [] with
  | Ok w => w
  | Err _ => []
  end.

Record logs := mk_logs { lg_panel : list call; lg_reader : list call }.

Definition heard_calls (b : Bus.Bus) (i : nat) (answer : result Frame.Frame) (now : Z) : list call :=
  match Bus.device b i with
  | None => []
  | Some d =>
      match answer with
      | Err _ => timeout_calls d i
      | Ok r =>
          Decode_calls (wire r) ++ reply_calls b d i r now ++
          match Bus.reply b d i r now with
          | (_, Ok _) => []
          | (d', Err e) => [Started "osdp.panel.unattributed" [Device_Trace d']; RecordError (Some e)] ++ timeout_calls d' i ++ [Ended]
          end
      end
  end.

Definition transaction_calls (b : Bus.Bus) (p : Pd.Device) (t t' : Z) : logs :=
  let opened := [Started "osdp.panel.cycle" []] ++ Next_calls b in
  match Bus.Next b with
  | (_, None) => mk_logs (opened ++ [Ended]) []
  | (b, Some st) =>
      let f := Bus.st_Frame st in
      let answer := (Pd.Handle p f t).2 in
      mk_logs (opened ++ Append_calls f ++ heard_calls b (Bus.st_Device st) answer t' ++ [Ended])
        (Decode_calls (wire f) ++ Handle_calls p f t ++
         match answer with Ok r => Append_calls r | Err _ => [] end)
  end.

(** ** Every span is closed

    A [defer span.End()] follows each [Start]: whatever branch an operation takes, the
    spans it opened are closed when it returns, inner before outer. *)

Inductive nested : list call -> Prop :=
  | nested_none : nested []
  | nested_attribute k v l : nested l -> nested (SetAttribute k v :: l)
  | nested_error e l : nested l -> nested (RecordError e :: l)
  | nested_span name data l l' : nested l -> nested l' -> nested (Started name data :: l ++ Ended :: l').

Create HintDb spans.
#[export] Hint Constructors nested : spans.

Lemma nested_app l l' : nested l -> nested l' -> nested (l ++ l').
Proof.
  induction 1; intros Hl'; cbn [app]; eauto with spans.
  rewrite <- app_assoc. cbn [app]. eauto with spans.
Qed.
#[export] Hint Resolve nested_app : spans.

Lemma nested_one name data l : nested l -> nested ([Started name data] ++ l ++ [Ended]).
Proof. intros Hl. cbn [app]. eauto with spans. Qed.
#[export] Hint Resolve nested_one : spans.

Lemma nested_leaf name data : nested [Started name data; Ended].
Proof. apply (nested_one name data []). constructor. Qed.

Lemma nested_told name data l e : nested l -> nested ([Started name data] ++ l ++ [RecordError e; Ended]).
Proof.
  intros Hl. change (nested ([Started name data] ++ l ++ [RecordError e] ++ [Ended])).
  rewrite (app_assoc l). eauto with spans.
Qed.
#[export] Hint Resolve nested_leaf nested_told : spans.

Lemma failed_nested e : nested (failed e).
Proof. destruct e; cbn [failed]; eauto with spans. Qed.

Lemma applied_nested v : nested (applied v).
Proof. unfold applied. induction (default [] _) as [|[k x] l IH]; cbn [map]; eauto with spans. Qed.
#[export] Hint Resolve failed_nested applied_nested : spans.

(** Follow every branch; each is a span, or spans one after the other. *)
Ltac follow := repeat case_match; cbv zeta; eauto 8 with spans.

Lemma Append_nested f : nested (Append_calls f).
Proof. unfold Append_calls. follow. Qed.

Lemma Decode_nested buf : nested (Decode_calls buf).
Proof. unfold Decode_calls. follow. Qed.

Lemma Encode_nested m addr : nested (Encode_calls m addr).
Proof. unfold Encode_calls. follow. Qed.

Lemma event_nested d e : nested (event_calls d e).
Proof. unfold event_calls. follow. Qed.
#[export] Hint Resolve Append_nested Decode_nested Encode_nested event_nested : spans.

Lemma DecodeMessage_nested m : nested (DecodeMessage_calls m).
Proof. unfold DecodeMessage_calls. follow. Qed.

Lemma compose_nested d m block : nested (compose_calls d m block).
Proof. unfold compose_calls. follow. Qed.
#[export] Hint Resolve DecodeMessage_nested compose_nested : spans.

Lemma Next_nested b : nested (Next_calls b).
Proof. unfold Next_calls. follow. Qed.

Lemma dispatch_nested b d i m : nested (dispatch_calls b d i m).
Proof.
  unfold dispatch_calls. cbv zeta. assert (Hlast : nested (match Bus.dispatch b d i m with (d', Ok e) => event_calls d' e | (_, Err _) => [] end)) by follow.
  destruct (handshake_failure d m) as [e|]; [|exact Hlast].
  apply (nested_one _ _ (RecordError (Some e) :: _)). eauto with spans.
Qed.
#[export] Hint Resolve Next_nested dispatch_nested : spans.

Lemma reply_nested b d i f now : nested (reply_calls b d i f now).
Proof. unfold reply_calls. apply nested_one. cbv zeta. follow. Qed.

Lemma timeout_nested d i : nested (timeout_calls d i).
Proof. unfold timeout_calls. follow. Qed.
#[export] Hint Resolve reply_nested timeout_nested : spans.

Lemma encode_nested p m block : nested (encode_calls p m block).
Proof. unfold encode_calls. follow. Qed.
#[export] Hint Resolve encode_nested : spans.

Lemma fresh_nested p f q seen : nested (fresh_calls p f q seen).
Proof. unfold fresh_calls. follow. Qed.
#[export] Hint Resolve fresh_nested : spans.

Lemma Handle_nested p f now : nested (Handle_calls p f now).
Proof. unfold Handle_calls. apply nested_one. cbv zeta. follow. Qed.
#[export] Hint Resolve Handle_nested : spans.

Lemma heard_nested b i r now : nested (heard_calls b i r now).
Proof.
  unfold heard_calls. destruct (Bus.device b i) as [d|]; [|constructor]. destruct r as [r|e]; [|eauto with spans].
  apply nested_app; [eauto with spans|]. apply nested_app; [eauto with spans|].
  destruct (Bus.reply b d i r now) as [d' [ev|e]]; [constructor|].
  apply (nested_one _ _ (RecordError (Some e) :: _)). eauto with spans.
Qed.
#[export] Hint Resolve heard_nested : spans.

(** Of an exchange, whatever comes of it, and of what befalls the reader. *)
Theorem spans_closed b p t t' st : nested (lg_panel (transaction_calls b p t t')) /\
  nested (lg_reader (transaction_calls b p t t')) /\ nested (react_calls p st).
Proof.
  unfold transaction_calls. cbv zeta. split; [|split].
  - destruct (Bus.Next b) as [b1 [step|]]; cbn [lg_panel]; rewrite <- !app_assoc.
    + rewrite (app_assoc (Append_calls _)), (app_assoc (Next_calls b)). eauto 8 with spans.
    + eauto with spans.
  - destruct (Bus.Next b) as [b1 [step|]]; cbn [lg_reader]; [follow|constructor].
  - destruct st; cbn [react_calls]; [eauto with spans| |apply (nested_told _ _ []); constructor..].
    apply (nested_told _ _ [_; _]). eauto with spans.
Qed.
