(* ===== verification/Untraced.v ===== *)
(** * What a trace cannot give away

    Two lines alike in everything but their secrets (the keys and the sessions at both
    ends, the credentials presented to the reader and those it still holds) tell their
    tracers the same, call for call, over any life of the line: [secrets_untraced]. The
    line is Delivery.v's, on an established channel; the calls are Spans.v's. *)

From Stdlib Require Import String.
From S2P Require Import Prelude Errors Channel Telemetry Spans.
From S2P Require Frame Cmd Secure Device Bus BusFacts Pd PdFacts PdLaws System Enrol Panel Delivery.
Import Delivery (decode, credential, CardCred, KeysCred, legible, ordinary_codes, as_command, paired, linked, happening,
  Befell, Ordered, Exchanged, befalls).
Import System (carried, exchange, exchanged, hearing, heard, sealed_length).
Import PdLaws (react, stimulus).

(** ** What two frames have to agree on *)

Lemma Encode_calls_shape m n addr : Cmd.m_Code m = Cmd.m_Code n -> Cmd.m_IsReply m = Cmd.m_IsReply n ->
  len (Cmd.m_Data m) = len (Cmd.m_Data n) -> Encode_calls m addr = Encode_calls n addr.
Proof. intros E1 E2 E3. unfold Encode_calls, Message_Trace. by rewrite E1, E2, E3. Qed.

Lemma carried_shape f g reply addr q scheme m n : carried f reply addr q scheme m -> carried g reply addr q scheme n ->
  Cmd.m_Code m = Cmd.m_Code n -> len (Cmd.m_Data m) = len (Cmd.m_Data n) ->
  Frame_Trace f = Frame_Trace g /\ Frame.representable f = Frame.representable g.
Proof.
  intros [F1 F2 F3 F4 F5 F6 F7 [tf F8] F9] [G1 G2 G3 G4 G5 G6 G7 [tg G8] G9] Ec El.
  assert (E : Frame.Len f = Frame.Len g) by (unfold Frame.Len; by rewrite F6, F8, F9, G6, G8, G9, El).
  split; [unfold Frame_Trace|unfold Frame.representable]; rewrite F4, F8, G4, G8, E; [|done].
  by rewrite F3, F5, F6, F7, G3, G5, G6, G7, Ec.
Qed.

Lemma Len_header f : Frame.Len f >= Frame.HeaderSize.
Proof.
  assert (0 <= Frame.wireLen (Frame.f_Security f)).
  { unfold Frame.wireLen. destruct (Frame.f_Security f) as [sb|]; [|done]. pose proof (len_nonneg (Frame.sb_Data sb)). lia. }
  assert (0 < Frame.Scheme_Size (Frame.Control_Scheme (Frame.f_Control f))) by (by destruct (Frame.Control_Scheme _)).
  unfold Frame.Len. pose proof (len_nonneg (Frame.f_Data f)). lia.
Qed.

Lemma decoded_calls f : Frame.frame_ok f -> Frame.CheckOK f = true -> Frame.representable f = None ->
  Decode_calls (wire f) = [Started "osdp.frame.decode" []] ++ applied (Frame_Trace f) ++ [RecordError None; Ended].
Proof.
  intros Hf Hc Hr. unfold Decode_calls, wire. destruct (Frame.Append f []) as [w|e] eqn:Ea.
  - destruct (Frame.Append_inv _ _ Ea) as [_ ->]. pose proof (Frame.Decode_wire f [] Hf Hr) as Ed.
    rewrite app_nil_r in Ed. rewrite Ed, Hc. by rewrite decide_True by apply Len_header.
  - unfold Frame.Append in Ea. rewrite Hr in Ea. by destruct (Frame.Control_Scheme _).
Qed.

Lemma carried_told f g reply addr q scheme m n : carried f reply addr q scheme m -> carried g reply addr q scheme n ->
  Cmd.m_Code m = Cmd.m_Code n -> len (Cmd.m_Data m) = len (Cmd.m_Data n) ->
  Append_calls f = Append_calls g /\ Decode_calls (wire f) = Decode_calls (wire g).
Proof.
  intros Hf Hg Ec El. destruct (carried_shape _ _ _ _ _ _ _ _ Hf Hg Ec El) as [Et Er]. split; [unfold Append_calls; by rewrite Et, Er|].
  destruct (Frame.representable f) as [e|] eqn:E.
  - unfold wire, Frame.Append. by rewrite E, <- Er.
  - by rewrite !decoded_calls, Et; try apply Hf; try apply Hg.
Qed.

Section with_suite.
Context {S : Secure.CipherSuite} `{!Secure.SuiteLaws S}.

(** ** What an exchange on the channel tells, as a function of what is not secret *)

(** A message with as many octets, and no others. *)
Definition blank (m : Cmd.Message) (n : Z) : Cmd.Message := m <| Cmd.m_Data := replicate (Z.to_nat n) 0 |>.

Lemma len_blank n : 0 <= n -> len (replicate (Z.to_nat n) 0) = n.
Proof. intros. unfold len. rewrite length_replicate. lia. Qed.

Lemma sealed_length_nonneg n : 0 <= n -> 0 <= sealed_length n.
Proof. intros. unfold sealed_length. case_decide; [|lia]. rewrite Secure.AES128_facts.paddedLen_eq by lia. pose proof (Z.div_pos n 16). lia. Qed.

Lemma Seal_shape s data way : Secure.session_ok s -> Secure.s_suite s = S -> Secure.Established s = true ->
  octets_ok data -> len data > 0 -> exists c, Secure.Seal s data way = Ok c /\ len c = sealed_length (len data).
Proof.
  intros Hs HS He Hd Hl. destruct (enciphered_total (S := S) s way data Hs Hd) as (c & Hc & _ & El). exists c.
  unfold enciphered in Hc. rewrite decide_True in Hc by done. split; [|exact El].
  unfold Secure.Seal. by rewrite He, HS.
Qed.

Definition command_calls (d : Device.Device) (m : Cmd.Message) : list call :=
  [Started "osdp.bus.transaction" [Device_Trace d]] ++
  Encode_calls (blank m (sealed_length (len (Cmd.m_Data m)))) (Device.d_Address d) ++ [Ended].

Lemma outbound_kept d d1 m : Device.outbound d = (d1, m) ->
  Device.d_session d1 = Device.d_session d /\ Device.d_Address d1 = Device.d_Address d.
Proof. unfold Device.outbound, Device.dequeue. destruct (Device.d_outbox d); by intros [= <- _]. Qed.

Lemma taken_outbound b d p t now now' x : paired (S := S) d p t -> exchanged (S := S) b d p now now' x ->
  Device.outbound d = (System.x_taken x, System.x_msg x).
Proof.
  intros Hl Hx. destruct (System.tt_chosen _ _ _ _ _ _ (System.xd_turn _ _ _ _ _ _ Hx)) as (b0 & n & block & Ec).
  symmetry. eapply Delivery.commandFor_outbound; [..|exact Ec].
  - exact (System.is_state _ _ (Delivery.pr_step _ _ _ Hl)).
  - apply Hl.
  - by eapply Delivery.paired_established.
Qed.

Lemma Next_told b d p t now now' x : BusFacts.bus_ok (S := S) b -> Bus.device b (Bus.b_current b) = Some d ->
  paired (S := S) d p t -> exchanged (S := S) b d p now now' x -> octets_ok (Cmd.m_Data (System.x_msg x)) ->
  Next_calls b = command_calls d (System.x_msg x).
Proof.
  intros Hb Hdev Hl Hx Hm. pose proof (taken_outbound _ _ _ _ _ _ _ Hl Hx) as Eo.
  destruct (outbound_kept _ _ _ Eo) as [Es Ea].
  destruct (System.is_channel _ _ (Delivery.pr_step _ _ _ Hl)) as (s & sp & Ess & _ & Hs).
  destruct (Secure.synced_Established s sp Hs) as [He _].
  destruct (BusFacts.do_session b d (BusFacts.bus_ok_device b _ d Hb Hdev) s Ess) as (Hs1 & HS & _).
  unfold Next_calls. rewrite Hdev. cbv zeta. rewrite <- Nat.add_1_r.
  pose proof (BusFacts.Next_unfold b d Hdev) as Hnext. cbv zeta in Hnext.
  set (b0 := b <| Bus.b_current := _ |>) in *.
  pose proof (Delivery.commandFor_channel b0 d (System.is_state _ _ (Delivery.pr_step _ _ _ Hl))
    (proj1 (Delivery.pr_defer _ _ _ Hl)) (Delivery.paired_established _ _ _ Hl)) as Ec.
  rewrite Eo in Ec. rewrite Ec. set (n := len (Cmd.m_Data (System.x_msg x))) in *.
  destruct (Bus.compose b0 (System.x_taken x) (System.x_msg x) (Some (Bus.blockForCommand n))) as [d2 fr] eqn:Ecomp.
  specialize (Hnext _ _ _ _ _ _ Ec Ecomp). rewrite (System.xd_next _ _ _ _ _ _ Hx) in Hnext.
  destruct fr as [f|e]; [|done]. cbn [outcome_error failed snd]. rewrite app_nil_r.
  enough (E : compose_calls (System.x_taken x) (System.x_msg x) (Some (Bus.blockForCommand n)) =
    Encode_calls (blank (System.x_msg x) (sealed_length n)) (Device.d_Address d)) by (unfold command_calls; fold n; by rewrite E).
  pose proof (len_nonneg (Cmd.m_Data (System.x_msg x)) : 0 <= n) as Hn. unfold compose_calls.
  destruct (BusFacts.blockForCommand_kind n Hn) as (_ & _ & _ & ->). rewrite Es, Ess, Ea.
  case_bool_decide as Hpos.
  - destruct (Seal_shape s (Cmd.m_Data (System.x_msg x)) true Hs1 HS He Hm Hpos) as (c & -> & El).
    apply Encode_calls_shape; [done|done|]. unfold blank. cbn [Cmd.m_Data update].
    rewrite len_blank by (apply sealed_length_nonneg; lia). exact El.
  - apply Encode_calls_shape; [done|done|]. unfold blank. cbn [Cmd.m_Data update]. fold n.
    unfold sealed_length. rewrite decide_False by done. change (len (replicate _ 0)) with 0. lia.
Qed.

Definition answer_calls (p : Pd.Device) (f : Frame.Frame) (q : Z) (ans : Cmd.Message) : list call :=
  [Started "osdp.pd.exchange" [Frame_Trace f]] ++
  (Encode_calls (blank (ans <| Cmd.m_IsReply := true |>) (sealed_length (len (Cmd.m_Data ans)) + 4)) (Pd.p_address p) ++
   applied (exchangeView (Pd.p_address p) q (Code_Name (Frame.f_Code f) false) (Code_Name (Cmd.m_Code ans) true) true false)) ++
  [Ended].

Lemma Handle_told b d p now now' x : exchanged (S := S) b d p now now' x ->
  Handle_calls p (System.x_f x) now = answer_calls p (System.x_f x) (System.x_seq x) (System.x_ans x).
Proof.
  intros Hx. pose proof (System.xd_hears _ _ _ _ _ _ Hx) as [N1 N2 N3 N4 N5].
  destruct (System.xd_session _ _ _ _ _ _ Hx) as (Es & Hs1 & HS & He).
  destruct (System.xd_ans _ _ _ _ _ _ Hx) as [[_ Hans] _].
  pose proof (System.xd_command _ _ _ _ _ _ Hx) as [_ _ _ _ Eq _ _ [t Esec] _].
  unfold Handle_calls, answer_calls. f_equal. f_equal. rewrite N1, N2, (PdFacts.observe_quiet p now N3). cbn [negb]. cbv zeta.
  rewrite Eq in *. rewrite decide_False by done.
  change (Pd.p_cachedValid (PdFacts.noted p now)) with (Pd.p_cachedValid p).
  change (Pd.p_cachedSeq (PdFacts.noted p now)) with (Pd.p_cachedSeq p).
  change (Pd.p_address (PdFacts.noted p now)) with (Pd.p_address p).
  assert (Hfresh : Pd.p_cachedValid p && bool_decide (System.x_seq x = Pd.p_cachedSeq p) = false).
  { destruct (Pd.p_cachedValid p); [|done]. cbn [andb]. by apply bool_decide_eq_false, N5. }
  rewrite Hfresh, Esec. unfold fresh_calls.
  rewrite (System.xd_answer _ _ _ _ _ _ Hx), (System.xd_emit _ _ _ _ _ _ Hx). cbn [snd].
  rewrite (System.ca_code _ _ _ _ _ _ (System.xd_reply _ _ _ _ _ _ Hx)). f_equal.
  set (n := len (Cmd.m_Data (System.x_ans x))) in *. pose proof (len_nonneg (Cmd.m_Data (System.x_ans x)) : 0 <= n) as Hn.
  destruct (PdFacts.replyBlock_kind n Hn) as (t' & -> & _ & Hh & Henc). cbn [encode_calls Frame.sb_Type Pd.SB].
  rewrite Hh, Es, Henc, (System.xd_address _ _ _ _ _ _ Hx).
  change (Cmd.m_Data (System.x_ans x <| Cmd.m_IsReply := true |>)) with (Cmd.m_Data (System.x_ans x)).
  assert (Hlen : forall c, len c = sealed_length n -> len (c ++ replicate (Z.to_nat Secure.MACTagSize) 0) =
    len (replicate (Z.to_nat (sealed_length n + 4)) 0)).
  { intros c El. pose proof (sealed_length_nonneg n Hn). rewrite len_blank, len_app by lia. rewrite El. done. }
  case_bool_decide as Hpos.
  - destruct (Seal_shape (System.x_sp1 x) _ false Hs1 HS He Hans Hpos) as (c & -> & El).
    apply Encode_calls_shape; [done|done|]. apply Hlen. exact El.
  - apply Encode_calls_shape; [done|done|]. apply Hlen. unfold sealed_length. rewrite decide_False by done. fold n. lia.
Qed.

Definition event_heard (d : Device.Device) (ans : Cmd.Message) (d' : Device.Device) (ev : Bus.Event) : list call :=
  [Started "osdp.bus.reply" [Device_Trace d]] ++ (DecodeMessage_calls (ans <| Cmd.m_IsReply := true |>) ++ event_calls d' ev) ++ [Ended].

Lemma reply_told b d i r now s s' ans d' ev : Frame.f_IsReply r = true -> Frame.f_Address r = Device.d_Address d ->
  Frame.Control_Sequence (Frame.f_Control r) <> 0 -> Device.d_session d = Some s -> Secure.Established s = true ->
  Bus.openReply s r = (s', Ok (Cmd.m_Data ans)) -> Frame.f_Code r = Cmd.m_Code ans ->
  Cmd.m_Code ans <> Cmd.CCrypt -> Cmd.m_Code ans <> Cmd.RMACI ->
  Bus.dispatch b (heard d now s') i (ans <| Cmd.m_IsReply := true |>) = (d', Ok ev) ->
  reply_calls b d i r now = event_heard d ans d' ev.
Proof.
  intros R3 R4 R5 Es He Ho R7 Hc1 Hc2 Hd. unfold reply_calls, event_heard. do 2 f_equal. rewrite R3. cbn [negb].
  rewrite decide_False by (rewrite R4; by intros X; apply X). cbv zeta. rewrite decide_False by done.
  assert (Ess : Device.d_session (d <| Device.d_LastSeen := now |> <| Device.d_misses := 0 |>) = Some s) by exact Es.
  rewrite Ess, He, Ho.
  assert (Em : Cmd.Decode (r <| Frame.f_Data := Cmd.m_Data ans |>) = ans <| Cmd.m_IsReply := true |>).
  { unfold Cmd.Decode. cbn [Frame.f_Code Frame.f_IsReply Frame.f_Data update]. rewrite R3, R7. by destruct ans. }
  rewrite Em. f_equal. unfold dispatch_calls. unfold heard in Hd. rewrite Hd.
  assert (Ecode : Cmd.m_Code (ans <| Cmd.m_IsReply := true |>) = Cmd.m_Code ans) by reflexivity.
  unfold handshake_failure. by rewrite Ecode, !decide_False by done.
Qed.

Lemma heard_told b d p now now' x d' ev : Bus.device b (Bus.b_current b) = Some d -> Device.d_Address d = Pd.p_address p ->
  Device.outbound d = (System.x_taken x, System.x_msg x) -> exchanged (S := S) b d p now now' x ->
  Cmd.m_Code (System.x_ans x) <> Cmd.CCrypt -> Cmd.m_Code (System.x_ans x) <> Cmd.RMACI ->
  Bus.dispatch (System.x_bus x) (heard (System.x_sent x) now' (System.x_s2 x)) (Bus.b_current b)
    (System.x_ans x <| Cmd.m_IsReply := true |>) = (d', Ok ev) ->
  heard_calls (System.x_bus x) (Bus.b_current b) (Ok (System.x_r x)) now' =
    Decode_calls (wire (System.x_r x)) ++ event_heard (System.x_sent x) (System.x_ans x) d' ev.
Proof.
  intros Hdev Ha Eo Hx Hc1 Hc2 Hd. destruct (outbound_kept _ _ _ Eo) as [_ Ea].
  pose proof (System.xd_reply _ _ _ _ _ _ Hx) as [_ _ R3 R4 R5 _ R7 _ _].
  destruct (System.xd_opened _ _ _ _ _ _ Hx) as [He Hopen]. destruct (System.xd_seq _ _ _ _ _ _ Hx) as [Hq _].
  unfold heard_calls. rewrite (System.took_turn_device _ _ _ _ _ _ Hdev (System.xd_turn _ _ _ _ _ _ Hx)).
  rewrite (System.xd_heard _ _ _ _ _ _ Hx), Hd, app_nil_r. f_equal.
  apply (reply_told _ _ _ _ _ (System.x_s1 x) (System.x_s2 x)); try done; [|by rewrite R5; lia].
  rewrite R4, <- Ha, <- Ea. reflexivity.
Qed.

(** ** Twins *)

(** Of a card, its format, its reader and its bits are no secret, nor how many octets
    carry it; of keys, how many there were. *)
Inductive similar : credential -> credential -> Prop :=
  | similar_card c c' : Cmd.cr_Format c = Cmd.cr_Format c' -> Cmd.cr_BitCount c = Cmd.cr_BitCount c' ->
      similar (CardCred c) (CardCred c')
  | similar_keys k k' : similar (KeysCred k) (KeysCred k').

(** The same message, or the same report of another credential. *)
Inductive alike (m n : Cmd.Message) : Prop :=
  | alike_same : m = n -> alike m n
  | alike_secret x y : Cmd.m_Code m = Cmd.m_Code n -> Cmd.m_IsReply m = Cmd.m_IsReply n ->
      len (Cmd.m_Data m) = len (Cmd.m_Data n) -> decode m = Some x -> decode n = Some y -> similar x y -> alike m n.

Lemma alike_shape m n : alike m n -> Cmd.m_Code m = Cmd.m_Code n /\ Cmd.m_IsReply m = Cmd.m_IsReply n /\
  len (Cmd.m_Data m) = len (Cmd.m_Data n).
Proof. by intros [->|]. Qed.

Lemma alike_answer m n : alike m n -> alike (m <| Cmd.m_IsReply := true |>) (n <| Cmd.m_IsReply := true |>).
Proof. intros [->|x y]; [by left|by eapply alike_secret]. Qed.

(** Either end, its secrets put aside. *)
Definition veil_device (d : Device.Device) : Device.Device :=
  d <| Device.d_session := None |> <| Device.d_installedKey := None |>.

Definition veil_pd (p : Pd.Device) : Pd.Device :=
  p <| Pd.p_cfg := Pd.p_cfg p <| Pd.g_key := [] |> <| Pd.g_nonce := None |> |> <| Pd.p_key := [] |> <| Pd.p_session := None |>
    <| Pd.p_pending := [] |> <| Pd.p_cached := Pd.zero_frame |> <| Pd.p_installed := [] |> <| Pd.p_capabilities := [] |>
    <| Pd.p_nonces := 0%nat |>.

Definition twin_device (d d' : Device.Device) : Prop := veil_device d = veil_device d'.

Record twin_pd (p p' : Pd.Device) : Prop := mk_twin_pd {
  tw_same : veil_pd p = veil_pd p';
  tw_pending : Forall2 alike (Pd.p_pending p) (Pd.p_pending p')
}.

(** A field of two twins. *)
Ltac twins H f := let E := fresh "E" in pose proof (f_equal f H) as E; simpl in E.

(** *** At the panel *)

Lemma outbound_twin d d' : twin_device d d' -> exists e e' m,
  Device.outbound d = (e, m) /\ Device.outbound d' = (e', m) /\ twin_device e e'.
Proof.
  intros Ht. unfold Device.outbound, Device.dequeue. twins Ht Device.d_outbox. rewrite <- E.
  destruct (Device.d_outbox d) as [|m rest]; do 3 eexists; (split; [done|]); (split; [done|]); [done|].
  exact (f_equal (fun e => e <| Device.d_outbox := rest |> <| Device.d_inflight := Some m |>) Ht).
Qed.

Lemma sent_twin e e' q s s' : twin_device e e' -> twin_device (System.numbered e q s) (System.numbered e' q s').
Proof. intros Ht. exact (f_equal (fun e => e <| Device.d_seq := q |> <| Device.d_repeatSequence := false |>) Ht). Qed.

Lemma heard_twin e e' now s s' : twin_device e e' -> twin_device (heard e now s) (heard e' now s').
Proof.
  intros Ht. unfold heard. set (f := fun d s => d <| Device.d_LastSeen := now |> <| Device.d_misses := 0 |> <| Device.d_session := s |>).
  assert (Hf : twin_device (f e (Some s)) (f e' (Some s')))
    by exact (f_equal (fun e => e <| Device.d_LastSeen := now |> <| Device.d_misses := 0 |>) Ht).
  fold (f e (Some s)) (f e' (Some s')). revert Hf. generalize (f e (Some s)) (f e' (Some s')). clear. intros d d' Ht.
  unfold Device.delivered. twins Ht Device.d_inflight. destruct d as [? ? ? ? ? ? ? ? ? ? ? ? i], d' as [? ? ? ? ? ? ? ? ? ? ? ? i'].
  simpl in E. subst i'. destruct i as [m|]; cbn.
  - exact (f_equal (fun e => e <| Device.d_acknowledged := Cmd.m_Code m |> <| Device.d_released := Some m |> <| Device.d_inflight := None |>) Ht).
  - exact (f_equal (fun e => e <| Device.d_acknowledged := Cmd.Poll |> <| Device.d_released := None |>) Ht).
Qed.

Lemma Event_Trace_same d d' e e' : Device.d_Address d = Device.d_Address d' -> Bus.e_Kind e = Bus.e_Kind e' ->
  (Bus.e_Kind e = Bus.KindCardRead -> Cmd.cr_Format (Bus.e_Card e) = Cmd.cr_Format (Bus.e_Card e') /\
     Cmd.cr_BitCount (Bus.e_Card e) = Cmd.cr_BitCount (Bus.e_Card e')) ->
  Event_Trace d e = Event_Trace d' e'.
Proof.
  intros Ha Hk Hc. unfold Event_Trace. cbv zeta. rewrite Ha, <- Hk. case_bool_decide as X; [|done].
  by destruct (Hc X) as [-> ->].
Qed.

(** What the bus makes of an answer, and what of it the tracer hears. *)
Definition twin_results (r r' : Device.Device * result Bus.Event) : Prop := exists d ev d' ev',
  r = (d, Ok ev) /\ r' = (d', Ok ev') /\ twin_device d d' /\ Event_Trace d ev = Event_Trace d' ev'.

Lemma twin_results_plain d d' ev ev' : twin_device d d' -> Bus.e_Kind ev = Bus.e_Kind ev' -> Bus.e_Kind ev <> Bus.KindCardRead ->
  twin_results (d, Ok ev) (d', Ok ev').
Proof.
  intros Ht Hk Hn. exists d, ev, d', ev'. split; [done|]. split; [done|]. split; [done|].
  apply Event_Trace_same; [exact (f_equal Device.d_Address Ht)|done|done].
Qed.

Lemma onStatus_twin d d' i parse data r : twin_device d d' -> parse data = Ok r ->
  twin_results (Bus.onStatus d i parse data) (Bus.onStatus d' i parse data).
Proof.
  intros Ht Hp. unfold Bus.onStatus. rewrite Hp. unfold Device.statusChanges.
  assert (Es : Device.d_status d' = Device.d_status d) by (symmetry; exact (f_equal Device.d_status Ht)). rewrite Es.
  destruct (fold_left _ r _) as [m ch]. cbv zeta. set (m' := fold_left _ r m).
  assert (Ht' : twin_device (d <| Device.d_status := m' |>) (d' <| Device.d_status := m' |>))
    by exact (f_equal (fun e => e <| Device.d_status := m' |>) Ht).
  case_decide; by apply twin_results_plain.
Qed.

(** An answer, the codes it may have, and what the panel does with each. *)
Definition plain_codes : list Z := [Cmd.ACK; Cmd.NAK; Cmd.Raw; Cmd.Keypad; Cmd.IStatR; Cmd.OStatR; Cmd.RStatR; Cmd.LStatR].

Lemma legible_code m : legible m -> Cmd.m_Code m ∈ plain_codes.
Proof.
  intros [Hc|Hc _|[x Hx]|Hc|Hc _]; unfold plain_codes.
  - rewrite Hc. by left.
  - rewrite Hc. right. by left.
  - apply Delivery.decode_some in Hx as [(c & -> & _)|(k & -> & _)]; [do 2 right; by left|do 3 right; by left].
  - do 4 right. rewrite !elem_of_cons in *. intuition.
  - rewrite Hc. do 7 right. by left.
Qed.

Lemma plain_not c z : c ∈ plain_codes -> bool_decide (z ∈ plain_codes) = false -> c <> z.
Proof. intros Hc Hz%bool_decide_eq_false ->. by apply Hz. Qed.

Lemma dispatch_twin b b' d d' i m n : twin_device d d' -> Device.d_State d = Device.Secure ->
  Device.d_acknowledged d <> Cmd.KeySet -> legible m -> alike m n ->
  twin_results (Bus.dispatch b d i m) (Bus.dispatch b' d' i n).
Proof.
  intros Ht Hst Hack Hm Ha. destruct (alike_shape m n Ha) as (Hc & _ & _).
  assert (Hst' : Device.d_State d' = Device.Secure) by (rewrite <- Hst; symmetry; exact (f_equal Device.d_State Ht)).
  assert (Hack' : Device.d_acknowledged d' <> Cmd.KeySet)
    by (pose proof (f_equal Device.d_acknowledged Ht : Device.d_acknowledged d = Device.d_acknowledged d'); congruence).
  assert (Hk : forall e, Device.d_acknowledged e <> Cmd.KeySet -> Device.awaitingKeySet e = false).
  { intros e He. unfold Device.awaitingKeySet. by rewrite (bool_decide_eq_false_2 (_ = Cmd.KeySet)), andb_false_r. }
  unfold Bus.dispatch. rewrite Hst, Hst', <- Hc, (Hk d Hack), (Hk d' Hack').
  change (bool_decide (Device.Secure = Device.Offline)) with false.
  destruct Ha as [<-|x y _ _ _ Hx Hy Hs].
  - destruct Hm as [E|E Hl|[x Hx]|E|E Hl].
    + rewrite E. Delivery.branch. by apply twin_results_plain.
    + rewrite E. Delivery.branch. unfold Cmd.ParseNAK. rewrite decide_False by lia. cbn [Bus.on].
      apply twin_results_plain; [|done|done]. exact (f_equal (fun e => e <| Device.d_pendingKey := None |>) Ht).
    + apply Delivery.decode_some in Hx as [(c & E & Hp & ->)|(k & E & Hp & ->)]; rewrite E; Delivery.branch; rewrite Hp; cbn [Bus.on].
      * do 4 eexists. do 3 (split; [done|]). apply Event_Trace_same; [exact (f_equal Device.d_Address Ht)|done|done].
      * by apply twin_results_plain.
    + rewrite !elem_of_cons, elem_of_nil in E. destruct E as [E|[E|[E|[]]]]; rewrite E; Delivery.branch; by eapply onStatus_twin.
    + rewrite E. Delivery.branch. eapply onStatus_twin; [done|]. unfold Cmd.ParseLocalStatus.
      by rewrite decide_False by (unfold Cmd.LocalStatusSize; lia).
  - apply Delivery.decode_some in Hx as [(c & E & Hp & ->)|(k & E & Hp & ->)];
      apply Delivery.decode_some in Hy as [(c' & E' & Hp' & ->)|(k' & E' & Hp' & ->)]; try (by inversion Hs).
    + inversion Hs. rewrite E. Delivery.branch. rewrite Hp, Hp'. cbn [Bus.on]. do 4 eexists. do 3 (split; [done|]).
      apply Event_Trace_same; [exact (f_equal Device.d_Address Ht)|done|done].
    + rewrite E. Delivery.branch. rewrite Hp, Hp'. cbn [Bus.on]. by apply twin_results_plain.
Qed.

(** *** At the reader *)

Lemma twin_pd_update p p' (f : Pd.Device -> Pd.Device) : (forall x, veil_pd (f x) = f (veil_pd x)) ->
  (forall x, Pd.p_pending (f x) = Pd.p_pending x) -> twin_pd p p' -> twin_pd (f p) (f p').
Proof. intros Hv Hp [H1 H2]. split; rewrite ?Hv, ?Hp; [by f_equal|done]. Qed.

Lemma twin_pd_ends p p' q q' : veil_pd q = veil_pd p -> veil_pd q' = veil_pd p' -> Pd.p_pending q = Pd.p_pending p ->
  Pd.p_pending q' = Pd.p_pending p' -> twin_pd p p' -> twin_pd q q'.
Proof. intros E1 E2 E3 E4 [H1 H2]. split; congruence. Qed.

Lemma hearing_twin p p' now s s' : twin_pd p p' -> twin_pd (hearing p now s) (hearing p' now s').
Proof.
  intros Ht. apply (twin_pd_ends (PdFacts.noted p now) (PdFacts.noted p' now)); try done.
  by apply (twin_pd_update p p' (fun p => PdFacts.noted p now)).
Qed.

Lemma settled_twin p p' q r r' s s' : twin_pd p p' ->
  twin_pd (PdLaws.cached (p <| Pd.p_session := s |>) q r) (PdLaws.cached (p' <| Pd.p_session := s' |>) q r').
Proof.
  intros Ht. apply (twin_pd_ends (p <| Pd.p_cachedSeq := q |> <| Pd.p_cachedValid := true |>)
    (p' <| Pd.p_cachedSeq := q |> <| Pd.p_cachedValid := true |>)); try done.
  by apply (twin_pd_update p p' (fun p => p <| Pd.p_cachedSeq := q |> <| Pd.p_cachedValid := true |>)).
Qed.

Definition twin_answers (r r' : Pd.Device * Cmd.Message) : Prop := twin_pd r.1 r'.1 /\ alike r.2 r'.2.

Lemma pollReply_twin p p' : twin_pd p p' -> twin_answers (Pd.pollReply p) (Pd.pollReply p').
Proof.
  intros [Hv Hp]. unfold Pd.pollReply. inversion Hp as [E E'|m n l l' Ha Hl E E']; split; try (by left); done.
Qed.

Lemma applyOutputs_twin p p' data : twin_pd p p' -> twin_answers (Pd.applyOutputs p data) (Pd.applyOutputs p' data).
Proof.
  intros Ht. unfold Pd.applyOutputs. case_decide; [by split; [|left]|].
  assert (E : Pd.p_outputs p' = Pd.p_outputs p) by (symmetry; exact (f_equal Pd.p_outputs (tw_same _ _ Ht))). rewrite E.
  destruct (Pd.outputs_check _ _); (split; [|by left]); [done|]. cbn [fst].
  by apply (twin_pd_update p p' (fun p => p <| Pd.p_outputs := Pd.outputs_apply (Pd.p_outputs p) data |>)) in Ht; rewrite ?E in *.
Qed.

Lemma obeys_twin p p' msg : twin_pd p p' -> msg = Device.pollMessage \/ Cmd.m_Code msg ∈ ordinary_codes ->
  twin_answers (Pd.dispatch p (as_command msg) true) (Pd.dispatch p' (as_command msg) true).
Proof.
  intros Ht [->|Hm]; [by apply pollReply_twin|]. unfold Pd.dispatch.
  change (Frame.f_Code (as_command msg)) with (Cmd.m_Code msg). change (Frame.f_Data (as_command msg)) with (Cmd.m_Data msg).
  pose proof (tw_same _ _ Ht) as Hv. unfold ordinary_codes in Hm. rewrite !elem_of_cons, elem_of_nil in Hm.
  destruct Hm as [E|[E|[E|[E|[E|[E|[E|[E|[]]]]]]]]]; rewrite E; Delivery.branch; try (by split; [|left]).
  - by apply applyOutputs_twin.
  - split; [done|left]. unfold Pd.localStatus. cbn [snd]. f_equal. f_equal; [|f_equal].
    + exact (f_equal (fun p => Pd.boolOctet (Pd.p_tamper p)) Hv).
    + exact (f_equal (fun p => Pd.boolOctet (Pd.p_powerFailure p)) Hv).
  - split; [done|left]. exact (f_equal (fun p => Pd.contactStatus Cmd.IStatR (Pd.p_inputs p)) Hv).
  - split; [done|left]. exact (f_equal (fun p => Pd.contactStatus Cmd.OStatR (Pd.p_outputs p)) Hv).
  - split; [done|left]. exact (f_equal (fun p => Pd.readerStatus p) Hv).
Qed.

(** The same thing befell both, or the like of it with another credential. *)
Inductive similar_stimulus : stimulus -> stimulus -> Prop :=
  | similar_same st : similar_stimulus st st
  | similar_shown c c' : Cmd.cr_Format c = Cmd.cr_Format c' -> Cmd.cr_BitCount c = Cmd.cr_BitCount c' ->
      len (Cmd.cr_Data c) = len (Cmd.cr_Data c') -> similar_stimulus (PdLaws.Card c) (PdLaws.Card c')
  | similar_typed k k' : len (Cmd.ke_Keys k) = len (Cmd.ke_Keys k') -> similar_stimulus (PdLaws.Keys k) (PdLaws.Keys k').

Definition twin_reports (r r' : Pd.Device * option error) : Prop := twin_pd r.1 r'.1 /\ r.2 = r'.2.

Lemma queue_twin p p' m n : twin_pd p p' -> alike m n -> twin_reports (Pd.queue p m) (Pd.queue p' n).
Proof.
  intros [Hv Hp] Ha. unfold Pd.queue, Pd.Pending, len. rewrite <- (Forall2_length _ _ _ Hp).
  assert (E : Pd.g_queue (Pd.p_cfg p') = Pd.g_queue (Pd.p_cfg p)) by (symmetry; exact (f_equal (fun p => Pd.g_queue (Pd.p_cfg p)) Hv)).
  rewrite E. case_decide; [by split|]. split; [|done]. split; [exact Hv|]. cbn [fst].
  change (Forall2 alike (Pd.p_pending p ++ [m]) (Pd.p_pending p' ++ [n])). apply Forall2_app; [done|]. constructor; [done|constructor].
Qed.

Lemma replace_twin l l' m : Forall2 alike l l' ->
  option_Forall2 (Forall2 alike) (Pd.replace_report l m) (Pd.replace_report l' m).
Proof.
  induction 1 as [|x y l l' Hxy Hl IH]; cbn [Pd.replace_report]; [constructor|].
  destruct (alike_shape x y Hxy) as [Ec _]. rewrite <- Ec. case_decide.
  - constructor. constructor; [by left|done].
  - destruct IH as [r r' Hr|]; constructor. by constructor.
Qed.

Lemma coalesce_twin p p' m : twin_pd p p' -> twin_reports (Pd.coalesce p m) (Pd.coalesce p' m).
Proof.
  intros Ht. unfold Pd.coalesce. destruct (replace_twin _ _ m (tw_pending _ _ Ht)) as [r r' Hr|].
  - split; [|done]. split; [exact (tw_same _ _ Ht)|done].
  - apply queue_twin; [done|by left].
Qed.

Lemma shown_alike c c' : Cmd.cr_Format c = Cmd.cr_Format c' -> Cmd.cr_BitCount c = Cmd.cr_BitCount c' ->
  len (Cmd.cr_Data c) = len (Cmd.cr_Data c') -> 0 <= Cmd.cr_BitCount c < 65536 -> (Cmd.cr_BitCount c + 7) / 8 <= len (Cmd.cr_Data c) ->
  alike (Cmd.mk_Message Cmd.Raw false (Pd.appendCardRead [] c)) (Cmd.mk_Message Cmd.Raw false (Pd.appendCardRead [] c')).
Proof.
  intros Hf Hb Hl Hr Hn. apply (alike_secret _ _ (CardCred c) (CardCred c')); [done|done|..|by constructor].
  - cbn [Cmd.m_Data]. unfold Pd.appendCardRead. by rewrite !len_app, Hb, Hl.
  - unfold decode. cbn [Cmd.m_Code Cmd.m_Data]. by rewrite decide_True, PdLaws.ParseCardRead_append.
  - rewrite Hb, Hl in Hn. rewrite Hb in Hr. unfold decode. cbn [Cmd.m_Code Cmd.m_Data]. by rewrite decide_True, PdLaws.ParseCardRead_append.
Qed.

Lemma typed_alike k k' : len (Cmd.ke_Keys k) = len (Cmd.ke_Keys k') ->
  alike (Cmd.mk_Message Cmd.Keypad false (Pd.appendKeypad [] k)) (Cmd.mk_Message Cmd.Keypad false (Pd.appendKeypad [] k')).
Proof.
  intros Hl. apply (alike_secret _ _ (KeysCred (Cmd.mk_KeypadEntry (Cmd.ke_Reader k) (take 255 (Cmd.ke_Keys k))))
    (KeysCred (Cmd.mk_KeypadEntry (Cmd.ke_Reader k') (take 255 (Cmd.ke_Keys k'))))); [done|done|..|by constructor].
  - cbn [Cmd.m_Data]. unfold Pd.appendKeypad. rewrite <- Hl. rewrite !len_app. case_decide; [|by rewrite Hl].
    by rewrite !len_slice by lia.
  - unfold decode. cbn [Cmd.m_Code Cmd.m_Data]. by rewrite decide_False, decide_True, PdLaws.ParseKeypad_truncated by done.
  - unfold decode. cbn [Cmd.m_Code Cmd.m_Data]. by rewrite decide_False, decide_True, PdLaws.ParseKeypad_truncated by done.
Qed.

Lemma react_told p p' st st' : twin_pd p p' -> similar_stimulus st st' -> befalls st -> befalls st' ->
  react_calls p st = react_calls p' st' /\ twin_pd (react p st) (react p' st').
Proof.
  intros Ht Hs Hb Hb'.
  assert (Hlocal : forall f, (forall x, veil_pd (f x) = f (veil_pd x)) -> (forall x, Pd.p_pending (f x) = Pd.p_pending x) ->
    twin_reports (Pd.setLocal (f p)) (Pd.setLocal (f p'))).
  { intros f Hv Hp. pose proof (twin_pd_update p p' f Hv Hp Ht) as Hf. unfold Pd.setLocal.
    assert (E : Pd.localStatus (f p') = Pd.localStatus (f p)) by (symmetry; exact (f_equal Pd.localStatus (tw_same _ _ Hf))).
    rewrite E. by apply coalesce_twin. }
  assert (Hqueue : forall m l, l ++ [RecordError (Pd.queue p m).2; Ended] = l ++ [RecordError (Pd.queue p' m).2; Ended] /\
    twin_pd (Pd.queue p m).1 (Pd.queue p' m).1).
  { intros m l. by destruct (queue_twin p p' m m Ht (alike_same _ _ eq_refl)) as [? ->]. }
  destruct Hs as [[f now|c|k|i a|a|a]|c c' Hf Hbits Hl|k k' Hl]; cbn [react_calls react].
  - by destruct Hb.
  - unfold Pd.ReportCardRead. cbv zeta. case_decide; [done|]. apply (Hqueue _ [_; _; _]).
  - unfold Pd.ReportKeypad. apply (Hqueue _ [_]).
  - unfold Pd.SetInput. assert (Ei : Pd.p_inputs p' = Pd.p_inputs p) by (symmetry; exact (f_equal Pd.p_inputs (tw_same _ _ Ht))).
    rewrite Ei. case_decide; [done|]. cbv zeta.
    set (l := <[Z.to_nat i := a]> (Pd.p_inputs p)). set (f := fun p : Pd.Device => p <| Pd.p_inputs := l |>).
    destruct (coalesce_twin (f p) (f p') (Pd.contactStatus Cmd.IStatR l)) as [Hp E]; [by apply twin_pd_update|].
    split; [exact (f_equal (fun e => [Started _ []; RecordError e; Ended]) E)|exact Hp].
  - destruct (Hlocal (fun p => p <| Pd.p_tamper := a |>)) as [Hp E]; [done|done|].
    split; [exact (f_equal (fun e => [Started _ []; RecordError e; Ended]) E)|exact Hp].
  - destruct (Hlocal (fun p => p <| Pd.p_powerFailure := a |>)) as [Hp E]; [done|done|].
    split; [exact (f_equal (fun e => [Started _ []; RecordError e; Ended]) E)|exact Hp].
  - unfold Pd.ReportCardRead. cbv zeta. rewrite <- Hf, <- Hbits, <- Hl. case_decide; [done|].
    destruct Hb as [_ Hb]. pose proof (shown_alike c c' Hf Hbits Hl Hb ltac:(lia)) as Ha.
    by destruct (queue_twin p p' _ _ Ht Ha) as [? ->].
  - unfold Pd.ReportKeypad. by destruct (queue_twin p p' _ _ Ht (typed_alike k k' Hl)) as [? ->].
Qed.

(** ** The two lines *)

Lemma Next_scheme b : Bus.b_scheme (Bus.Next b).1 = Bus.b_scheme b.
Proof.
  unfold Bus.Next. case_decide; [done|]. cbv zeta. destruct (Bus.device _ _) as [d|]; [|done].
  destruct (Bus.commandFor _ d) as [[d1 n] [[msg block]|e]]; [|done]. by destruct (Bus.compose _ d1 msg block) as [d2 []].
Qed.

Lemma Reply_scheme b i f now : Bus.b_scheme (Bus.Reply b i f now).1 = Bus.b_scheme b.
Proof. unfold Bus.Reply. destruct (Bus.device b i) as [d|]; [|done]. by destruct (Bus.reply b d i f now). Qed.

(** One exchange: what both ends come to, and what both tracers were told. *)
Lemma exchange_unfold b d p t now now' x d3 ev : linked (S := S) b d p t -> exchanged (S := S) b d p now now' x ->
  legible (System.x_ans x) ->
  Bus.dispatch (System.x_bus x) (heard (System.x_sent x) now' (System.x_s2 x)) (Bus.b_current b)
    (System.x_ans x <| Cmd.m_IsReply := true |>) = (d3, Ok ev) ->
  Enrol.transaction b p now now' = (Bus.set_device (System.x_bus x) (Bus.b_current b) d3, System.x_pd x, Some ev) /\
  transaction_calls b p now now' = mk_logs
    (([Started "osdp.panel.cycle" []] ++ command_calls d (System.x_msg x)) ++ Append_calls (System.x_f x) ++
     (Decode_calls (wire (System.x_r x)) ++ event_heard (System.x_sent x) (System.x_ans x) d3 ev) ++ [Ended])
    (Decode_calls (wire (System.x_f x)) ++ answer_calls p (System.x_f x) (System.x_seq x) (System.x_ans x) ++
     Append_calls (System.x_r x)).
Proof.
  intros Hl Hx Hleg Hd. pose proof Hl as [Hb Hal Hp]. pose proof (Enrol.alone_device b d Hal) as Hdev.
  pose proof (taken_outbound _ _ _ _ _ _ _ Hp Hx) as Eo.
  destruct (System.xd_ans _ _ _ _ _ _ Hx) as [_ [_ Hm]].
  pose proof (legible_code _ Hleg) as Hc.
  pose proof (heard_told b d p now now' x d3 ev Hdev (System.is_addr _ _ (Delivery.pr_step _ _ _ Hp)) Eo Hx) as Hheard.
  specialize (Hheard (plain_not _ Cmd.CCrypt Hc eq_refl) (plain_not _ Cmd.RMACI Hc eq_refl) Hd).
  split.
  - unfold Enrol.transaction. rewrite (System.xd_next _ _ _ _ _ _ Hx). cbn [Bus.st_Frame Bus.st_Device].
    rewrite (System.xd_handle _ _ _ _ _ _ Hx). unfold Bus.Reply.
    rewrite (System.took_turn_device _ _ _ _ _ _ Hdev (System.xd_turn _ _ _ _ _ _ Hx)).
    by rewrite (System.xd_heard _ _ _ _ _ _ Hx), Hd.
  - unfold transaction_calls. rewrite (System.xd_next _ _ _ _ _ _ Hx). cbn [Bus.st_Frame Bus.st_Device]. cbv zeta.
    rewrite (System.xd_handle _ _ _ _ _ _ Hx). cbn [snd]. rewrite Hheard.
    by rewrite (Next_told b d p t now now' x Hb Hdev Hp Hx Hm), (Handle_told b d p now now' x Hx).
Qed.

Record twin_lines (b : Bus.Bus) (d : Device.Device) (p : Pd.Device) (b' : Bus.Bus) (d' : Device.Device) (p' : Pd.Device) : Prop :=
  mk_twin_lines {
  tl_scheme : Bus.b_scheme b = Bus.b_scheme b';
  tl_device : twin_device d d';
  tl_pd : twin_pd p p'
}.

Lemma carried_twin f g reply addr addr' q q' scheme scheme' m n : carried f reply addr q scheme m ->
  carried g reply addr' q' scheme' n -> addr' = addr -> q' = q -> scheme' = scheme ->
  Cmd.m_Code m = Cmd.m_Code n -> len (Cmd.m_Data m) = len (Cmd.m_Data n) ->
  Append_calls f = Append_calls g /\ Decode_calls (wire f) = Decode_calls (wire g) /\ Frame_Trace f = Frame_Trace g.
Proof.
  intros Hf Hg -> -> -> Ec El. destruct (carried_told _ _ _ _ _ _ _ _ Hf Hg Ec El) as [-> ->].
  by destruct (carried_shape _ _ _ _ _ _ _ _ Hf Hg Ec El) as [-> _].
Qed.

Lemma answer_calls_twin p p' f f' q m n : Pd.p_address p' = Pd.p_address p -> Frame_Trace f = Frame_Trace f' ->
  Frame.f_Code f = Frame.f_Code f' -> Cmd.m_Code m = Cmd.m_Code n -> len (Cmd.m_Data m) = len (Cmd.m_Data n) ->
  answer_calls p f q m = answer_calls p' f' q n.
Proof.
  intros Ea Ef Efc Ec El. unfold answer_calls. rewrite Ea, Ef, Efc, Ec, El. do 3 f_equal.
  by apply Encode_calls_shape.
Qed.

Lemma command_calls_twin d d' m : twin_device d d' -> command_calls d m = command_calls d' m.
Proof. intros Ht. exact (f_equal (fun d => command_calls d m) Ht). Qed.

Lemma event_heard_twin d d' m n e e' ev ev' : twin_device d d' -> alike m n -> Event_Trace e ev = Event_Trace e' ev' ->
  event_heard d m e ev = event_heard d' n e' ev'.
Proof.
  intros Ht Ha Hev. destruct (alike_shape m n Ha) as (Ec & _ & El). unfold event_heard, DecodeMessage_calls, event_calls.
  assert (Et : Device_Trace d = Device_Trace d') by exact (f_equal Device_Trace Ht). rewrite Et, Hev.
  assert (Em : Message_Trace (m <| Cmd.m_IsReply := true |>) = Message_Trace (n <| Cmd.m_IsReply := true |>))
    by (unfold Message_Trace; cbn [Cmd.m_Code Cmd.m_IsReply Cmd.m_Data update]; by rewrite Ec, El).
  by rewrite Em.
Qed.

(** Two exchanges of twins: the same said, and the same told. *)
Record twin_exchanges (x y : exchange) (now' : Z) : Prop := mk_twin_exchanges {
  te_msg : System.x_msg y = System.x_msg x;
  te_seq : System.x_seq y = System.x_seq x;
  te_sent : twin_device (System.x_sent x) (System.x_sent y);
  te_obeyed : twin_pd (System.x_obeyed x) (System.x_obeyed y);
  te_ans : alike (System.x_ans x) (System.x_ans y);
  te_results : twin_results
    (Bus.dispatch (System.x_bus x) (heard (System.x_sent x) now' (System.x_s2 x)) 0%nat (System.x_ans x <| Cmd.m_IsReply := true |>))
    (Bus.dispatch (System.x_bus y) (heard (System.x_sent y) now' (System.x_s2 y)) 0%nat (System.x_ans y <| Cmd.m_IsReply := true |>))
}.

Lemma exchanges_twin b d p b' d' p' t now now' x y : linked (S := S) b d p t -> linked (S := S) b' d' p' t ->
  twin_lines b d p b' d' p' ->
  exchanged (S := S) b d p now now' x -> Delivery.ordinarily d p now now' x ->
  exchanged (S := S) b' d' p' now now' y -> Delivery.ordinarily d' p' now now' y ->
  twin_exchanges x y now'.
Proof.
  intros Hl Hl' [Hsch Hd Hp] Hx [O1 O2 _ O3 _ O4 [N1 N2] O5] Hy [Q1 _ _ _ _ _ _ _].
  destruct (outbound_twin d d' Hd) as (e & e' & m & Eo & Eo' & He).
  rewrite Eo in O1. rewrite Eo' in Q1. injection O1 as Et Em. injection Q1 as Et' Em'.
  pose proof (tw_same _ _ Hp) as Hv.
  pose proof (obeys_twin _ _ (System.x_msg x) (hearing_twin p p' now (System.x_sp1 x) (System.x_sp1 y) Hp) O2) as Hans.
  pose proof (System.xd_dispatch _ _ _ _ _ _ Hx) as Dx. pose proof (System.xd_dispatch _ _ _ _ _ _ Hy) as Dy.
  rewrite Em', <- Em in Dy. unfold as_command in Hans. rewrite Dx, Dy in Hans. destruct Hans as [Hobeyed Halike]. cbn [fst snd] in *.
  assert (Eq : System.x_seq y = System.x_seq x).
  { destruct (System.xd_seq _ _ _ _ _ _ Hx) as [_ ->]. destruct (System.xd_seq _ _ _ _ _ _ Hy) as [_ ->].
    symmetry. exact (f_equal (fun p => Pd.nextSequence (Pd.p_cachedSeq p)) Hv). }
  assert (Hsent : twin_device (System.x_sent x) (System.x_sent y))
    by (unfold System.x_sent; rewrite Et, Et', Eq; by apply sent_twin).
  split; try done; [by rewrite Em', <- Em|].
  apply dispatch_twin; [by apply heard_twin| |done|by apply Delivery.legible_answer|by apply alike_answer].
  exact (System.is_state _ _ (System.xd_step _ _ _ _ _ _ Hx N1 N2)).
Qed.

(** What of an exchange is in the line afterwards. *)
Lemma settled b d p t now now' x d3 ev b1 d1 p1 e1 : linked (S := S) b d p t -> exchanged (S := S) b d p now now' x ->
  Enrol.transaction b p now now' = (Bus.set_device (System.x_bus x) (Bus.b_current b) d3, System.x_pd x, Some ev) ->
  Enrol.transaction b p now now' = (b1, p1, e1) -> linked (S := S) b1 d1 p1 now ->
  d1 = d3 /\ p1 = System.x_pd x /\ Bus.b_scheme b1 = Bus.b_scheme b.
Proof.
  intros [_ [Hal1 Hal2] _] Hx E E1 L1. rewrite E in E1. injection E1 as <- <- _.
  pose proof (System.tt_devices _ _ _ _ _ _ (System.xd_turn _ _ _ _ _ _ Hx)) as Eds.
  destruct (Delivery.lk_alone _ _ _ _ L1) as [Ha _]. rewrite Hal2 in *.
  unfold Bus.set_device in Ha. cbn [Bus.b_devices update] in Ha. rewrite Eds, Hal1 in Ha. injection Ha as <-.
  split; [done|]. split; [done|]. pose proof (Next_scheme b) as Es. rewrite (System.xd_next _ _ _ _ _ _ Hx) in Es. exact Es.
Qed.

Lemma exchange_told b d p b' d' p' t now now' : linked (S := S) b d p t -> linked (S := S) b' d' p' t ->
  twin_lines b d p b' d' p' -> Enrol.prompt p t now -> Enrol.prompt p' t now ->
  transaction_calls b p now now' = transaction_calls b' p' now now' /\
  exists b1 d1 p1 e1 b2 d2 p2 e2,
    Enrol.transaction b p now now' = (b1, p1, e1) /\ Enrol.transaction b' p' now now' = (b2, p2, e2) /\
    linked (S := S) b1 d1 p1 now /\ linked (S := S) b2 d2 p2 now /\ twin_lines b1 d1 p1 b2 d2 p2 /\
    Pd.p_cfg p1 = Pd.p_cfg p /\ Pd.p_cfg p2 = Pd.p_cfg p'.
Proof.
  intros Hl Hl' Htw Ht Ht'. pose proof Htw as [Hsch Hd Hp]. pose proof Hl as [Hb Hal Hpr]. pose proof Hl' as [Hb' Hal' Hpr'].
  destruct (Delivery.transaction_linked b d p t now now' Hl Ht) as (b1 & d1 & p1 & ev1 & E1 & L1 & M1).
  destruct (Delivery.transaction_linked b' d' p' t now now' Hl' Ht') as (b2 & d2 & p2 & ev2 & E2 & L2 & M2).
  destruct (Delivery.speaks b d p t now now' Hb (Enrol.alone_device b d Hal) Hpr Ht) as (x & Hx & Ox).
  destruct (Delivery.speaks b' d' p' t now now' Hb' (Enrol.alone_device b' d' Hal') Hpr' Ht') as (y & Hy & Oy).
  destruct (exchanges_twin b d p b' d' p' t now now' x y Hl Hl' Htw Hx Ox Hy Oy) as [Em Eq Hsent Hob Hans Hres].
  destruct Hres as (d3 & ev & d3' & ev' & Dx & Dy & Hd3 & Hev).
  rewrite <- (proj2 Hal) in Dx. rewrite <- (proj2 Hal') in Dy.
  destruct (exchange_unfold b d p t now now' x d3 ev Hl Hx (Delivery.or_answer _ _ _ _ _ Ox) Dx) as [Ex Cx].
  destruct (exchange_unfold b' d' p' t now now' y d3' ev' Hl' Hy (Delivery.or_answer _ _ _ _ _ Oy) Dy) as [Ey Cy].
  destruct (settled b d p t now now' x d3 ev b1 d1 p1 _ Hl Hx Ex E1 L1) as (Ed1 & Ep1 & Es1).
  destruct (settled b' d' p' t now now' y d3' ev' b2 d2 p2 _ Hl' Hy Ey E2 L2) as (Ed2 & Ep2 & Es2).
  destruct (alike_shape _ _ Hans) as (Ec & _ & El).
  assert (Ea : Pd.p_address p' = Pd.p_address p) by (symmetry; exact (f_equal Pd.p_address (tw_same _ _ Hp))).
  pose proof (System.xd_command _ _ _ _ _ _ Hx) as Fx. pose proof (System.xd_command _ _ _ _ _ _ Hy) as Fy. rewrite Em in Fy.
  destruct (carried_twin _ _ _ _ _ _ _ _ _ _ _ Fx Fy Ea Eq (eq_sym Hsch) eq_refl eq_refl) as (A1 & A2 & A3).
  destruct (carried_twin _ _ _ _ _ _ _ _ _ _ _ (System.xd_reply _ _ _ _ _ _ Hx) (System.xd_reply _ _ _ _ _ _ Hy) Ea Eq (eq_sym Hsch) Ec El)
    as (B1 & B2 & _).
  split.
  - rewrite Cx, Cy, Em, Eq. rewrite (command_calls_twin d d' _ Hd), A1, A2, B1, B2.
    rewrite (event_heard_twin _ _ _ _ _ _ _ _ Hsent Hans Hev).
    rewrite (answer_calls_twin p p' _ (System.x_f y) _ _ (System.x_ans y) Ea A3); [done| |done|done].
    by rewrite (System.ca_code _ _ _ _ _ _ Fx), (System.ca_code _ _ _ _ _ _ Fy).
  - exists b1, d1, p1, (Some ev1), b2, d2, p2, (Some ev2). do 4 (split; [done|]). split; [|by split; [apply M1|apply M2]].
    split; [by rewrite Es1, Es2|by rewrite Ed1, Ed2|].
    rewrite Ep1, Ep2, (Delivery.or_pd _ _ _ _ _ Ox), (Delivery.or_pd _ _ _ _ _ Oy), Eq. by apply settled_twin.
Qed.

(** *** What the application asks for *)

Lemma secure_size b b' d d' m : Bus.b_scheme b = Bus.b_scheme b' -> twin_device d d' -> Device.secureEstablished d = true ->
  Device.secureEstablished d' = true -> Bus.checkSize b d m = Bus.checkSize b' d' m.
Proof.
  intros Hs Ht He He'. unfold Bus.checkSize, Bus.wireLength. rewrite Hs, He, He'.
  assert (Ec : Device.d_Caps d' = Device.d_Caps d) by (symmetry; exact (f_equal Device.d_Caps Ht)). by rewrite Ec.
Qed.

Lemma requested_told b d p b' d' p' t req : linked (S := S) b d p t -> linked (S := S) b' d' p' t ->
  twin_lines b d p b' d' p' -> Delivery.sends req ->
  exists d1 d2, linked (S := S) (Panel.queue b req).1 d1 p t /\ linked (S := S) (Panel.queue b' req).1 d2 p' t /\
    twin_lines (Panel.queue b req).1 d1 p (Panel.queue b' req).1 d2 p'.
Proof.
  intros Hl Hl' [Hsch Hd Hp] Hs.
  destruct (Panel.queue b req) as [b1 e1] eqn:E1. destruct (Panel.queue b' req) as [b2 e2] eqn:E2. cbn [fst].
  destruct (Delivery.queue_linked b d p t req b1 e1 Hl Hs E1) as (d1 & L1 & _).
  destruct (Delivery.queue_linked b' d' p' t req b2 e2 Hl' Hs E2) as (d2 & L2 & _).
  exists d1, d2. split; [exact L1|]. split; [exact L2|].
  destruct Hs as (Hk & Hc & _). revert E1 E2. unfold Panel.queue. rewrite Hk, Hc.
  pose proof Hl as [_ [A1 A2] Hpr]. pose proof Hl' as [_ [A1' A2'] Hpr']. rewrite A1, A1'. cbn [Panel.addressed].
  assert (Ea : Device.d_Address d' = Device.d_Address d) by (symmetry; exact (f_equal Device.d_Address Hd)). rewrite Ea.
  assert (Hsame : forall x y : Bus.Bus, linked (S := S) x d1 p t -> linked (S := S) y d2 p' t -> x = b -> y = b' ->
    twin_lines x d1 p y d2 p').
  { intros x y [_ [X1 _] _] [_ [Y1 _] _] -> ->. rewrite A1 in X1. rewrite A1' in Y1. injection X1 as <-. by injection Y1 as <-. }
  case_decide; [|intros [= <- _] [= <- _]; by apply Hsame].
  unfold Bus.Send, Bus.device. rewrite A1, A1'. cbn [lookup list_lookup].
  rewrite (secure_size b' b d' d _ (eq_sym Hsch) (eq_sym Hd) (Delivery.paired_established _ _ _ Hpr') (Delivery.paired_established _ _ _ Hpr)).
  destruct (Bus.checkSize b d _) as [e|]; intros [= <- _] [= <- _]; [by apply Hsame|].
  destruct L1 as [_ [X1 _] _]. destruct L2 as [_ [Y1 _] _]. unfold Bus.set_device in *. cbn [Bus.b_devices update] in X1, Y1.
  rewrite A1 in X1. rewrite A1' in Y1. injection X1 as <-. injection Y1 as <-. split; [exact Hsch| |exact Hp].
  assert (Eo : Device.d_outbox d' = Device.d_outbox d) by (symmetry; exact (f_equal Device.d_outbox Hd)).
  unfold Device.enqueue. rewrite Eo. set (l := Device.d_outbox d ++ [_]).
  exact (f_equal (fun e => e <| Device.d_outbox := l |>) Hd).
Qed.

(** ** A life, as both tracers hear it *)

Definition join (a c : logs) : logs := mk_logs (lg_panel a ++ lg_panel c) (lg_reader a ++ lg_reader c).

Definition happen_calls (b : Bus.Bus) (p : Pd.Device) (h : happening) : logs :=
  match h with
  | Befell st => mk_logs [] (react_calls p st)
  | Ordered _ => mk_logs [] []
  | Exchanged now now' => transaction_calls b p now now'
  end.

Fixpoint told (b : Bus.Bus) (p : Pd.Device) (hs : list happening) : logs :=
  match hs with
  | [] => mk_logs [] []
  | h :: hs => let '(b1, p1, _) := Delivery.happen b p h in join (happen_calls b p h) (told b1 p1 hs)
  end.

Inductive similar_happening : happening -> happening -> Prop :=
  | similar_befell st st' : similar_stimulus st st' -> similar_happening (Befell st) (Befell st')
  | similar_ordered req : similar_happening (Ordered req) (Ordered req)
  | similar_exchanged now now' : similar_happening (Exchanged now now') (Exchanged now now').

Lemma reacted_linked b d p t st : linked (S := S) b d p t -> befalls st -> linked (S := S) b d (react p st) t.
Proof. intros [L1 L2 L3] Hst. split; [done|done|]. by apply Delivery.react_paired. Qed.

(** The same was told, and the lines are twins still. *)
Lemma lives_told hs hs' : Forall2 similar_happening hs hs' -> forall b d p b' d' p' t,
  linked (S := S) b d p t -> linked (S := S) b' d' p' t -> twin_lines b d p b' d' p' ->
  Delivery.usual p t hs -> Delivery.usual p' t hs' ->
  told b p hs = told b' p' hs' /\
  exists b1 d1 p1 a1 b2 d2 p2 a2 t', Delivery.live b p hs = (b1, p1, a1) /\ Delivery.live b' p' hs' = (b2, p2, a2) /\
    linked (S := S) b1 d1 p1 t' /\ linked (S := S) b2 d2 p2 t' /\ twin_lines b1 d1 p1 b2 d2 p2.
Proof.
  induction 1 as [|h h' hs hs' Hh _ IH]; intros b d p b' d' p' t Hl Hl' Htw Hu Hu'.
  { split; [done|]. eexists b, d, p, _, b', d', p', _, t. by split_and!. }
  assert (Hstep : happen_calls b p h = happen_calls b' p' h' /\
    exists b1 d1 p1 a1 b2 d2 p2 a2 t', Delivery.happen b p h = (b1, p1, a1) /\ Delivery.happen b' p' h' = (b2, p2, a2) /\
      linked (S := S) b1 d1 p1 t' /\ linked (S := S) b2 d2 p2 t' /\ twin_lines b1 d1 p1 b2 d2 p2 /\
      Delivery.usual p1 t' hs /\ Delivery.usual p2 t' hs').
  { destruct Hh as [st st' Hst|req|now now']; destruct Hu as [Hh Hu], Hu' as [Hh' Hu']; cbn [happen_calls Delivery.happen].
    - destruct Htw as [T1 T2 T3]. destruct (react_told p p' st st' T3 Hst Hh Hh') as [-> Hr]. split; [done|].
      destruct (Delivery.react_joined p st Hh) as [[C _ _ _ _ _ _] _ _ _].
      destruct (Delivery.react_joined p' st' Hh') as [[C' _ _ _ _ _ _] _ _ _].
      eexists b, d, (react p st), _, b', d', (react p' st'), _, t. split; [done|]. split; [done|].
      split; [by apply reacted_linked|]. split; [by apply reacted_linked|]. split; [by split|].
      split; [exact (Delivery.usual_cfg _ _ _ _ C Hu)|exact (Delivery.usual_cfg _ _ _ _ C' Hu')].
    - split; [done|]. destruct (requested_told b d p b' d' p' t req Hl Hl' Htw Hh) as (d1 & d2 & L1 & L2 & T).
      destruct (Panel.queue b req) as [b1 e1], (Panel.queue b' req) as [b2 e2]. cbn [fst] in *.
      eexists b1, d1, p, _, b2, d2, p', _, t. by split_and!.
    - destruct (exchange_told b d p b' d' p' t now now' Hl Hl' Htw Hh Hh')
        as (Ec & b1 & d1 & p1 & e1 & b2 & d2 & p2 & e2 & E1 & E2 & L1 & L2 & T & C1 & C2).
      split; [exact Ec|]. rewrite E1, E2. eexists b1, d1, p1, _, b2, d2, p2, _, now. split; [done|]. split; [done|].
      split; [exact L1|]. split; [exact L2|]. split; [exact T|].
      split; [exact (Delivery.usual_cfg _ _ _ _ C1 Hu)|exact (Delivery.usual_cfg _ _ _ _ C2 Hu')]. }
  destruct Hstep as (Ec & b1 & d1 & p1 & a1 & b2 & d2 & p2 & a2 & t' & E1 & E2 & L1 & L2 & T & U1 & U2).
  destruct (IH b1 d1 p1 b2 d2 p2 t' L1 L2 T U1 U2) as (Et & c1 & f1 & q1 & l1 & c2 & f2 & q2 & l2 & s & F1 & F2 & M1 & M2 & T2).
  cbn [told Delivery.live]. rewrite E1, E2, F1, F2, Ec, Et. split; [done|].
  eexists c1, f1, q1, _, c2, f2, q2, _, s. by split_and!.
Qed.


End with_suite.

(** ** Witnesses *)

Abbreviation AES := Secure.AES128.suite (only parsing).

(** A line whose two ends hold [key]. *)
Definition kat_keyed (key : list Z) : Bus.Bus :=
  Bus.WithSecureChannel AES (fun _ => Some key) BusFacts.kat_nonce (Bus.New BusLaws.demo_line [0] Frame.SchemeCRC16).

Definition kat_holder_options (key : list Z) : list Pd.Option :=
  [Pd.WithContacts 2 2 1; Pd.WithCommunicationTimeout 8000000000; Pd.WithKeyInstalled;
   Pd.WithSecureChannel AES key PdFacts.kat_rndB_nonce].

Definition kat_holder (key : list Z) : Pd.Device :=
  match Pd.New 0 (kat_holder_options key) with
  | Ok p => p
  | Err _ => Enrol.kat_reader
  end.

Definition kat_enrolled_line (key : list Z) : Bus.Bus * Pd.Device := (Enrol.converse (kat_keyed key) (kat_holder key) [0; 0; 0; 0]).1.

Lemma kat_keyed_ok key : Aes.block_ok key -> BusFacts.bus_ok (S := AES) (kat_keyed key).
Proof.
  intros Hk. apply (BusFacts.reachable_ok BusLaws.demo_line [0] Frame.SchemeCRC16 (fun _ => Some key) BusFacts.kat_nonce);
    [octets_dec|by intros a k [= <-]|apply BusFacts.kat_nonce_ok|apply BusFacts.reach_secure].
Qed.

Lemma kat_holder_ok key : Aes.block_ok key -> PdFacts.pd_ok (S := AES) (kat_holder key).
Proof.
  intros Hk. unfold kat_holder. destruct (Pd.New 0 (kat_holder_options key)) as [p|e] eqn:E; [|exact Enrol.kat_reader_ok].
  apply (PdFacts.pd_New_ok 0 (kat_holder_options key) p); [done| |exact E]. split; simpl; try done.
  - by split; simpl; try (split; [done|octets_dec]).
  - intros _. split; [done|]. exists PdFacts.kat_rndB_nonce. split; [done|]. intros n. apply Secure.kat_rndB_ok.
Qed.

Abbreviation kat_keys := [BusLaws.demo_key; BusLaws.demo_key2] (only parsing).

Lemma kat_keyed_meeting key : key ∈ kat_keys -> Enrol.meeting (S := AES) key (kat_keyed key) (Device.NewDevice 0) (kat_holder key) 0.
Proof.
  intros Hk. assert (Hok : Aes.block_ok key).
  { rewrite !elem_of_cons, elem_of_nil in Hk. destruct Hk as [->|[->|[]]]; [apply BusLaws.demo_key_ok|apply BusLaws.demo_key2_ok]. }
  split; [by apply kat_keyed_ok|by apply kat_holder_ok|done|done|done|done| |..].
  2-6: rewrite !elem_of_cons, elem_of_nil in Hk; destruct Hk as [->|[->|[]]]; by vm_compute.
  split; [done|]. intros Hv. assert (Hx : Pd.p_cachedValid (kat_holder key) = false); [|congruence].
  rewrite !elem_of_cons, elem_of_nil in Hk. destruct Hk as [->|[->|[]]]; by vm_compute.
Qed.

Lemma kat_keyed_linked key : key ∈ kat_keys -> exists d, linked (S := AES) (kat_enrolled_line key).1 d (kat_enrolled_line key).2 0 /\
  Device.d_outbox d = [] /\ Pd.p_pending (kat_enrolled_line key).2 = [].
Proof.
  intros Hk. pose proof (Delivery.enrolled_linked key _ _ _ (kat_keyed_meeting key Hk) eq_refl eq_refl eq_refl) as Hl.
  assert (Hs : Pd.p_session (kat_holder key) = None /\ Enrol.prompt (kat_holder key) 0 0).
  { rewrite !elem_of_cons, elem_of_nil in Hk.
    destruct Hk as [->|[->|[]]]; (split; [vm_compute; reflexivity|right; vm_compute; discriminate]). }
  specialize (Hl (proj1 Hs) (proj2 Hs)). clear Hs.
  unfold kat_enrolled_line. assert (Hv : let '(b, p) := (Enrol.converse (kat_keyed key) (kat_holder key) [0; 0; 0; 0]).1 in
    (option_map (fun d => (Device.d_outbox d, Device.d_deferCommands d, Device.d_inflight d)) (Bus.device b 0),
     Pd.p_pending p, Pd.p_seen p) = (Some ([], false, None), [], true)).
  { rewrite !elem_of_cons, elem_of_nil in Hk. destruct Hk as [->|[->|[]]]; vm_compute; reflexivity. }
  specialize (Hl Hv). clear Hv. revert Hl. generalize (Enrol.converse (kat_keyed key) (kat_holder key) [0; 0; 0; 0]).1.
  by intros [b p].
Qed.

(** The fields of a reader that are data and not secret. *)
Definition plain_fields (p : Pd.Device) :=
  let g := Pd.p_cfg p in
  ((Pd.g_identity g, Pd.g_capabilities g, Pd.g_inputs g, Pd.g_outputs g, Pd.g_readers g, Pd.g_queue g, Pd.g_timeout g,
    Pd.g_configAddr g, Pd.g_strict g, Pd.g_secure g, Pd.g_keyInstalled g, is_some (Pd.g_handler g)),
   (Pd.p_address p, Pd.p_inputs p, Pd.p_outputs p, Pd.p_tamper p, Pd.p_powerFailure p, Pd.p_seen p, Pd.p_lastSeen p,
    Pd.p_cachedSeq p, Pd.p_cachedValid p, Pd.p_adopting p, Pd.p_adoptingKey p, Pd.p_calls p)).

Lemma veil_fields p p' : PdFacts.pd_ok (S := AES) p -> PdFacts.pd_ok (S := AES) p' -> plain_fields p = plain_fields p' ->
  is_some (Pd.g_handler (Pd.p_cfg p)) = false -> Pd.g_secure (Pd.p_cfg p) = true -> veil_pd p = veil_pd p'.
Proof.
  intros Hp Hp' E Hh Hg. assert (Hh' : is_some (Pd.g_handler (Pd.p_cfg p')) = false) by (injection E; congruence).
  assert (Hg' : Pd.g_secure (Pd.p_cfg p') = true) by (injection E; congruence).
  pose proof (proj1 (PdFacts.so_secure _ (PdFacts.sv_cfg _ (proj1 Hp)) Hg)) as Es.
  pose proof (proj1 (PdFacts.so_secure _ (PdFacts.sv_cfg _ (proj1 Hp')) Hg')) as Es'. clear Hp Hp'.
  apply bool_decide_eq_false, eq_None_not_Some in Hh. apply bool_decide_eq_false, eq_None_not_Some in Hh'.
  destruct p as [[] ? ? ?], p' as [[] ? ? ?]. cbn in *. injection E as. by subst.
Qed.

Lemma kat_veils : option_map veil_device (Bus.device (kat_enrolled_line BusLaws.demo_key).1 0) =
    option_map veil_device (Bus.device (kat_enrolled_line BusLaws.demo_key2).1 0) /\
  plain_fields (kat_enrolled_line BusLaws.demo_key).2 = plain_fields (kat_enrolled_line BusLaws.demo_key2).2 /\
  Bus.b_scheme (kat_enrolled_line BusLaws.demo_key).1 = Bus.b_scheme (kat_enrolled_line BusLaws.demo_key2).1.
Proof. split; [|split]; vm_compute; reflexivity. Qed.

(** A card and a PIN, and others; and the polls that carry them. *)
Definition kat_day (number pin : octets) : list happening :=
  [Befell (PdLaws.Card (Cmd.mk_CardRead 0 1 26 number)); Exchanged 0 0; Befell (PdLaws.Keys (Cmd.mk_KeypadEntry 0 pin));
   Exchanged 0 0; Exchanged 0 0].

Lemma kat_plain : is_some (Pd.g_handler (Pd.p_cfg (kat_enrolled_line BusLaws.demo_key).2)) = false /\
  Pd.g_secure (Pd.p_cfg (kat_enrolled_line BusLaws.demo_key).2) = true /\
  Pd.g_timeout (Pd.p_cfg (kat_enrolled_line BusLaws.demo_key).2) = 8000000000 /\
  Pd.g_timeout (Pd.p_cfg (kat_enrolled_line BusLaws.demo_key2).2) = 8000000000.
Proof. split; [|split; [|split]]; vm_compute; reflexivity. Qed.

Lemma kat_twins d d' : linked (S := AES) (kat_enrolled_line BusLaws.demo_key).1 d (kat_enrolled_line BusLaws.demo_key).2 0 ->
  linked (S := AES) (kat_enrolled_line BusLaws.demo_key2).1 d' (kat_enrolled_line BusLaws.demo_key2).2 0 ->
  Pd.p_pending (kat_enrolled_line BusLaws.demo_key).2 = [] -> Pd.p_pending (kat_enrolled_line BusLaws.demo_key2).2 = [] ->
  twin_lines (kat_enrolled_line BusLaws.demo_key).1 d (kat_enrolled_line BusLaws.demo_key).2
    (kat_enrolled_line BusLaws.demo_key2).1 d' (kat_enrolled_line BusLaws.demo_key2).2.
Proof.
  intros Hl Hl' P P'. destruct kat_veils as (V1 & V2 & V3). destruct kat_plain as (K1 & K2 & _). split; [exact V3| |].
  - pose proof (Enrol.alone_device _ _ (Delivery.lk_alone _ _ _ _ Hl)) as D. rewrite (proj2 (Delivery.lk_alone _ _ _ _ Hl)) in D.
    pose proof (Enrol.alone_device _ _ (Delivery.lk_alone _ _ _ _ Hl')) as D'. rewrite (proj2 (Delivery.lk_alone _ _ _ _ Hl')) in D'.
    rewrite D, D' in V1. exact (f_equal (default (veil_device d)) V1).
  - split; [|rewrite P, P'; constructor]. exact (veil_fields _ _ (Delivery.lk_pd _ _ _ _ Hl) (Delivery.lk_pd _ _ _ _ Hl') V2 K1 K2).
Qed.

Lemma kat_day_usual p number pin : Pd.g_timeout (Pd.p_cfg p) = 8000000000 -> octets_ok number -> octets_ok pin ->
  Delivery.usual p 0 (kat_day number pin).
Proof.
  intros Ht Hn Hk. assert (Hp : Enrol.prompt p 0 0) by (right; rewrite Ht; vm_compute; discriminate).
  assert (Ho : octet_ok 0 /\ octet_ok 1) by (unfold octet_ok; lia). cbn [kat_day Delivery.usual]. unfold befalls. cbn.
  by split_and!; try apply Ho; try lia.
Qed.


(** ** What is traced all the same *)

Definition payload_lengths (l : list call) : list Z :=
  omap (fun c => match c with
    | Started "osdp.cmd.decode" [Struct [_; _; _; mk_field _ _ _ (Int n)]] => Some n
    | _ => None
    end) l.

(** pd/report.go keeps even the count of the keys of a PIN from the reader's own span
    of the event; the span the panel opens to decode the report has it. *)
Example pin_length_traced :
  let traced pin := payload_lengths (lg_panel (told Delivery.kat_pair.1 Delivery.kat_pair.2
    [Befell (PdLaws.Keys (Cmd.mk_KeypadEntry 0 pin)); Exchanged 0 0])) in
  traced [49; 50] = [4] /\ traced [49; 50; 51; 52] = [6].
Proof. vm_compute. by split. Qed.

(** frame/decode.go describes a frame only if it is long enough to be one; every frame
    is, the empty one of a decode that failed included. *)
Example failed_decode_described : Decode_calls [0x53; 0x05] =
  [Started "osdp.frame.decode" []] ++ applied (Frame_Trace Frame.Frame_zero) ++
  [RecordError (Some (EFrame ErrShortBuffer)); Ended].
Proof. by vm_compute. Qed.
