(* ===== verification/Journey.v ===== *)
(** * From one application to the other

    The two loops of panel.go and serve.go over a line: [rounds] runs both, and
    [conveyed] says that the line carries what they say for as long, each round of it
    what Link.v asks of a line. Such a run goes on to its end and is a life in the sense
    of Delivery.v, so what that file shows of the two models is shown here of the loops,
    the octets and the buffers included: [loops_deliver]. *)

From S2P Require Import Prelude Errors.
From S2P Require Frame Cmd Secure Device Bus BusFacts BusLaws Reader Port Pd PdFacts PdLaws System Enrol Server Panel PanelLaws Link Delivery.
Import Delivery (happening, account, live, ac_events, ac_granted, ac_presented).

(** ** A life in parts *)

Definition joint (a a' : account) : account :=
  Delivery.mk_account (ac_events a ++ ac_events a') (ac_granted a ++ ac_granted a') (ac_presented a ++ ac_presented a').

Lemma live_app hs hs' b p : live b p (hs ++ hs') =
  let '(b, p, a) := live b p hs in let '(b, p, a') := live b p hs' in (b, p, joint a a').
Proof.
  revert b p. induction hs as [|h hs IH]; intros b p; cbn [live app].
  - destruct (live b p hs') as [[b' p'] []]. done.
  - destruct (Delivery.happen b p h) as [[b1 p1] a1]. rewrite IH.
    destruct (live b1 p1 hs) as [[b2 p2] a2]. destruct (live b2 p2 hs') as [[b3 p3] a3].
    unfold joint. cbn [ac_events ac_granted ac_presented]. by rewrite !app_assoc.
Qed.

(** The requests a panel drains. *)
Lemma live_requests reqs b d : exists granted,
  live b d (map Delivery.Ordered reqs) =
    (fold_left (fun b req => (Panel.queue b req).1) reqs b, d, Delivery.mk_account [] granted []).
Proof.
  revert b. induction reqs as [|req reqs IH]; intros b; cbn [map live fold_left]; [by eexists|].
  cbn [Delivery.happen]. destruct (Panel.queue b req) as [b1 e]. destruct (IH b1) as [g ->]. by eexists.
Qed.

Lemma drained_bus w p : Panel.p_bus (Panel.drainRequests w p) =
  fold_left (fun b req => (Panel.queue b req).1) (Panel.w_requests w (Panel.p_round p)) (Panel.p_bus p).
Proof.
  unfold Panel.drainRequests. generalize (Panel.w_requests w (Panel.p_round p)) as reqs. intros reqs. revert p.
  induction reqs as [|req reqs IH]; intros p; [done|]. cbn [fold_left]. rewrite IH. f_equal.
  unfold Panel.answer. by destruct (Panel.queue (Panel.p_bus p) req).
Qed.

(** What befalls a device. *)
Lemma live_stimuli sts b d : exists shown,
  live b d (map Delivery.Befell sts) = (b, fold_left PdLaws.react sts d, Delivery.mk_account [] [] shown).
Proof.
  revert d. induction sts as [|st sts IH]; intros d; cbn [map live fold_left]; [by eexists|].
  cbn [Delivery.happen]. destruct (IH (PdLaws.react d st)) as [g ->]. by eexists.
Qed.

(** ** Two loops *)

Section line.
Context {S : Secure.CipherSuite} `{!Secure.SuiteLaws S}.
Variables (wp : Panel.world) (ws : Server.world) (fuel : nat).

(** What happens in one round of both. *)
Definition history (p : Panel.Panel) (s : Server.Server) : list happening :=
  map Delivery.Ordered (Panel.w_requests wp (Panel.p_round p)) ++
  map Delivery.Befell (Server.w_application ws (Server.s_round s)) ++
  [Delivery.Exchanged (Server.w_deviceClock ws (Server.s_round s)) (Link.replyTime wp p)].

(** The line carries what both will say in this round, in any pieces, behind noise on
    the way to the device; a device that has nothing to say is heard to be silent. *)
Record carried (p : Panel.Panel) (s : Server.Server) : Prop := mk_carried {
  ca_panel : Link.calm wp (Panel.p_round p);
  ca_server : Server.healthy ws (Server.s_round s) 1;
  ca_line : exists b st noise down wire d r,
    Bus.Next (Panel.p_bus (Panel.drainRequests wp p)) = (b, Some st) /\ Frame.Append (Bus.st_Frame st) [] = Ok wire /\
    Server.arrives fuel (Server.mk_arrival (Bus.st_Frame st) noise down) /\
    (forall dl, Reader.delivers (Port.pt_Read (Server.w_port ws) dl) (Reader.r_reads (Server.s_scan s)) down) /\
    Pd.Handle (fold_left PdLaws.react (Server.w_application ws (Server.s_round s)) (Server.s_device s)) (Bus.st_Frame st)
      (Server.w_deviceClock ws (Server.s_round s)) = (d, r) /\
    Link.answer_arrives wp fuel (Reader.r_reads (Panel.p_reader p)) r
}.

(** Rounds of both loops, for as long as both go on, and their history. *)
Fixpoint rounds (n : nat) (p : Panel.Panel) (s : Server.Server) : option (Panel.Panel * Server.Server * list happening) :=
  match n with
  | O => Some (p, s, [])
  | Datatypes.S n =>
      match Panel.round wp fuel p, Server.round ws fuel s with
      | Some (p1, None), Some (s1, None) =>
          match rounds n p1 s1 with
          | Some (p2, s2, hs) => Some (p2, s2, history p s ++ hs)
          | None => None
          end
      | _, _ => None
      end
  end.

(** The line carries so many rounds, and what is asked of the panel and befalls the
    reader is ordinary. *)
Fixpoint conveyed (n : nat) (p : Panel.Panel) (s : Server.Server) : Prop :=
  match n with
  | O => True
  | Datatypes.S n =>
      carried p s /\
      Delivery.usual (Server.s_device s) (Pd.p_lastSeen (Server.s_device s)) (history p s) /\
      forall p1 s1, Panel.round wp fuel p = Some (p1, None) -> Server.round ws fuel s = Some (s1, None) -> conveyed n p1 s1
  end.

Lemma round_lives p s : Panel.world_ok wp -> Server.world_ok ws ->
  Link.waiting (S := S) p -> Server.idle (S := S) s -> carried p s -> exists p' s' a,
    Panel.round wp fuel p = Some (p', None) /\ Server.round ws fuel s = Some (s', None) /\
    live (Panel.p_bus p) (Server.s_device s) (history p s) = (Panel.p_bus p', Server.s_device s', a) /\
    Panel.p_events p' = Panel.p_events p ++ flat_map Link.published (ac_events a) /\
    Link.waiting (S := S) p' /\ Server.idle (S := S) s'.
Proof.
  intros Hwp Hws Hp Hs [Hc Hh (b & st & noise & down & wire & d & r & En & EA & Har & Hdel & EH & Hans)].
  destruct (Link.runtimes_exchange (S := S) wp ws fuel p s b st noise down wire d r Hwp Hws Hp Hs Hc Hh En EA Har Hdel EH Hans)
    as (p' & s' & ev & H1 & H2 & H3 & H4 & _ & _ & H5 & H6).
  destruct (live_requests (Panel.w_requests wp (Panel.p_round p)) (Panel.p_bus p) (Server.s_device s)) as [granted E1].
  destruct (live_stimuli (Server.w_application ws (Server.s_round s)) (Panel.p_bus (Panel.drainRequests wp p)) (Server.s_device s))
    as [shown E2].
  exists p', s', (Delivery.mk_account [ev] granted shown). split; [done|]. split; [done|].
  rewrite H4. cbn [ac_events flat_map]. rewrite app_nil_r. split; [|done].
  unfold history. rewrite live_app, E1, <- drained_bus, live_app, E2. cbn [live Delivery.happen]. rewrite H3.
  unfold joint. cbn [ac_events ac_granted ac_presented app]. by rewrite !app_nil_r.
Qed.

(** Both loops go on and do what the two models do, and the panel publishes what the
    bus says. *)
Lemma rounds_live n : forall p s d t, Panel.world_ok wp -> Server.world_ok ws ->
  Link.waiting (S := S) p -> Server.idle (S := S) s -> conveyed n p s ->
  Delivery.linked (S := S) (Panel.p_bus p) d (Server.s_device s) t -> exists p' s' hs a d' t',
    rounds n p s = Some (p', s', hs) /\
    live (Panel.p_bus p) (Server.s_device s) hs = (Panel.p_bus p', Server.s_device s', a) /\
    Panel.p_events p' = Panel.p_events p ++ flat_map Link.published (ac_events a) /\
    Delivery.linked (S := S) (Panel.p_bus p') d' (Server.s_device s') t' /\
    Delivery.balanced d (Server.s_device s) a d' (Server.s_device s') /\
    Link.waiting (S := S) p' /\ Server.idle (S := S) s'.
Proof.
  induction n as [|n IH]; intros p s d t Hwp Hws Hp Hs Hc Hl; cbn [rounds].
  { exists p, s, [], (Delivery.mk_account [] [] []), d, t. cbn [live ac_events flat_map]. rewrite app_nil_r.
    split_and!; try done. apply Delivery.balanced_refl. }
  destruct Hc as (Hc & Hu & Hn). destruct (round_lives p s Hwp Hws Hp Hs Hc) as (p1 & s1 & a1 & Ep & Es & E1 & Ee1 & Hp1 & Hs1).
  rewrite (proj2 (Delivery.pr_heard _ _ _ (Delivery.lk_paired _ _ _ _ Hl))) in Hu.
  destruct (Delivery.lives _ _ d _ t _ _ _ a1 Hl Hu (le_n _) E1) as (d1 & t1 & Hl1 & Hb1 & _).
  destruct (IH p1 s1 d1 t1 Hwp Hws Hp1 Hs1 (Hn p1 s1 Ep Es) Hl1) as (p2 & s2 & hs & a2 & d2 & t2 & Er & E2 & Ee2 & Hl2 & Hb2 & Hp2 & Hs2).
  rewrite Ep, Es, Er. exists p2, s2, (history p s ++ hs), (joint a1 a2), d2, t2. split; [done|].
  rewrite live_app, E1, E2. split; [done|]. split.
  { rewrite Ee2, Ee1. unfold joint. cbn [ac_events]. by rewrite flat_map_app, app_assoc. }
  split; [done|]. split; [by eapply Delivery.balanced_trans|done].
Qed.

(** Publication leaves out what says nothing. *)
Lemma published_heard es : omap (fun e => Delivery.heard_of (Some e)) (flat_map Link.published es) = omap Delivery.heard_of es.
Proof.
  induction es as [|e es IH]; [done|]. cbn [flat_map]. rewrite omap_app, IH. clear IH.
  change (omap Delivery.heard_of (e :: es)) with
    (match Delivery.heard_of e with Some y => y :: omap Delivery.heard_of es | None => omap Delivery.heard_of es end).
  destruct e as [ev|]; [|done]. unfold Link.published. case_decide as Hk.
  - unfold Delivery.heard_of at 3. by rewrite Hk.
  - change (omap (fun e => Delivery.heard_of (Some e)) [ev]) with
      (match Delivery.heard_of (Some ev) with Some y => [y] | None => [] end).
    by destruct (Delivery.heard_of (Some ev)).
Qed.

(** C1. What is presented at the reader reaches the panel's application, and what that
    application asks of the reader is done, once and in order. A panel with the one
    reader on its line, the two in step on an established channel; for a number of rounds
    of the two real loops neither is told to stop, their ports have no faults, the events
    are taken, and the line carries their octets, in any pieces, to the reader behind noise
    that cannot start a frame; each command comes within the reader's
    timeout of the one before; the application calls [Send] for an output, an indicator,
    the buzzer, a text or a status (the eight codes of [ordinary]), and cards, keys and
    contacts befall the reader. Then both loops go on through all these rounds; the
    credentials published on the event channel, followed by those the reader holds, are
    those it held followed by those it accepted; the commands obeyed, followed by those
    queued, are those that were queued followed by those the panel granted, and the
    relays are where obeying them in turn puts them; and both ends are still in step on
    the same channel. *)
Theorem loops_deliver n p s d t : Panel.world_ok wp -> Server.world_ok ws ->
  Link.waiting (S := S) p -> Server.idle (S := S) s -> conveyed n p s ->
  Delivery.linked (S := S) (Panel.p_bus p) d (Server.s_device s) t ->
  exists p' s' hs a events d' t' obeyed,
    rounds n p s = Some (p', s', hs) /\
    live (Panel.p_bus p) (Server.s_device s) hs = (Panel.p_bus p', Server.s_device s', a) /\
    Panel.p_events p' = Panel.p_events p ++ events /\
    omap (fun e => Delivery.heard_of (Some e)) events ++ omap Delivery.decode (Pd.p_pending (Server.s_device s')) =
      omap Delivery.decode (Pd.p_pending (Server.s_device s)) ++ ac_presented a /\
    Device.d_outbox d ++ ac_granted a = obeyed ++ Device.d_outbox d' /\
    Pd.p_outputs (Server.s_device s') = fold_left Delivery.obey obeyed (Pd.p_outputs (Server.s_device s)) /\
    Delivery.linked (S := S) (Panel.p_bus p') d' (Server.s_device s') t' /\
    Link.waiting (S := S) p' /\ Server.idle (S := S) s'.
Proof.
  intros Hwp Hws Hp Hs Hc Hl.
  destruct (rounds_live n p s d t Hwp Hws Hp Hs Hc Hl) as (p' & s' & hs & a & d' & t' & Er & E & Ee & Hl' & [_ _ B3 (o & B4 & B5)] & Hp' & Hs').
  exists p', s', hs, a, (flat_map Link.published (ac_events a)), d', t', o. rewrite published_heard. by split_and!.
Qed.

End line.

(** ** Witnesses

    The pair of Delivery.v, each end behind its loop. A card is presented and an
    output is switched in the first of two rounds: the first carries the command, the
    second the card. *)
Abbreviation AES := Secure.AES128.suite (only parsing).

Definition kat_request : Panel.request := Panel.mk_request 0 Delivery.kat_command None None.
Definition kat_card : PdLaws.stimulus := PdLaws.Card PdLaws.kat_card.

(** What is said, computed on the models. *)
Definition kat_wires : list (Frame.Frame * result Frame.Frame) :=
  Link.wires (Panel.queue Delivery.kat_pair.1 kat_request).1 (PdLaws.react Delivery.kat_pair.2 kat_card) 2.
Definition kat_downs : list (list octets) := map (fun x => Link.cut [0x11] (Frame.wire_octets x.1)) kat_wires.
Definition kat_ups : list (list octets) :=
  map (fun x => match x.2 with Ok r => Link.cut [] (Frame.wire_octets r) | Err _ => [] end) kat_wires.

Definition kat_wp : Panel.world :=
  Panel.mk_world (Link.kat_port (concat kat_ups)) (fun _ => false) (fun _ => false) (fun _ => 0) (fun _ _ => None)
    (fun t => if decide (t = 0%nat) then [kat_request] else []) (fun _ => None).
Definition kat_ws : Server.world :=
  Server.mk_world (fun _ => false) (fun _ => false) (fun _ => 0) (fun _ => 0) (Link.kat_port (concat kat_downs))
    (fun t => if decide (t = 0%nat) then [kat_card] else []).
Definition kat_p0 : Panel.Panel := Panel.New Delivery.kat_pair.1 [].
Definition kat_s0 : Server.Server := Server.NewServer Delivery.kat_pair.2 [].
Definition after {A} (x : A) (o : option (A * option (option error))) : A := match o with Some (y, None) => y | _ => x end.
Definition kat_p1 : Panel.Panel := after kat_p0 (Panel.round kat_wp 12 kat_p0).
Definition kat_s1 : Server.Server := after kat_s0 (Server.round kat_ws 12 kat_s0).
Definition kat_p2 : Panel.Panel := after kat_p1 (Panel.round kat_wp 12 kat_p1).
Definition kat_s2 : Server.Server := after kat_s1 (Server.round kat_ws 12 kat_s1).

Definition continues {A} (o : option (A * option (option error))) : bool := match o with Some (_, None) => true | _ => false end.

Lemma after_continues {A} (x : A) o : continues o = true -> o = Some (after x o, None).
Proof. by destruct o as [[y [|]]|]. Qed.

Definition step_of (b : Bus.Bus) : Bus.Step := default (Bus.mk_Step 0 Frame.Frame_zero 0) (Bus.Next b).2.
Definition reply_of (x : Pd.Device * result Frame.Frame) : Frame.Frame := match x.2 with Ok r => r | Err _ => Frame.Frame_zero end.
Definition replied (x : Pd.Device * result Frame.Frame) : bool := match x.2 with Ok _ => true | Err _ => false end.

Lemma step_of_eq b : bool_decide (is_Some (Bus.Next b).2) = true -> Bus.Next b = ((Bus.Next b).1, Some (step_of b)).
Proof.
  intros H%bool_decide_eq_true_1. unfold step_of. destruct (Bus.Next b) as [b' [st|]]; [done|by destruct H].
Qed.

Lemma reply_of_eq x : replied x = true -> x = (x.1, Ok (reply_of x)).
Proof. by destruct x as [d [r|e]]. Qed.

Lemma scripted_at pre chunks post all i : all = pre ++ chunks ++ post -> i = length pre ->
  Reader.delivers (Reader.scripted all) i chunks.
Proof.
  intros -> ->. destruct (Port.delivers_app _ 0 pre (chunks ++ post) (Reader.scripted_delivers _)) as [_ Hd].
  by destruct (Port.delivers_app _ _ chunks post Hd).
Qed.

(** What a line must have in its scripts for the [k]th exchange. *)
Record scripted_for (k : nat) (p : Panel.Panel) (s : Server.Server) (f r : Frame.Frame) : Prop := mk_scripted_for {
  sf_reps : Frame.representable f = None /\ Frame.representable r = None;
  sf_lens : 1 + Frame.WireLen f <= 1536 /\ Frame.WireLen r <= 1536;
  sf_pieces : forallb (fun c => bool_decide (c <> [])) (Link.cut [0x11] (Frame.wire_octets f)) = true /\
    forallb (fun c => bool_decide (c <> [])) (Link.cut [] (Frame.wire_octets r)) = true;
  sf_down : concat (Link.cut [0x11] (Frame.wire_octets f)) = [0x11] ++ Frame.wire_octets f;
  sf_up : concat (Link.cut [] (Frame.wire_octets r)) = Frame.wire_octets r;
  sf_reads : Reader.r_reads (Server.s_scan s) = length (concat (take k kat_downs)) /\
    Reader.r_reads (Panel.p_reader p) = length (concat (take k kat_ups));
  sf_downs : concat kat_downs = concat (take k kat_downs) ++ Link.cut [0x11] (Frame.wire_octets f) ++ concat (drop (Datatypes.S k) kat_downs);
  sf_ups : concat kat_ups = concat (take k kat_ups) ++ Link.cut [] (Frame.wire_octets r) ++ concat (drop (Datatypes.S k) kat_ups)
}.

Lemma noise_11 : Reader.noise [0x11].
Proof. apply Forall_cons; split; [by vm_compute|by apply Forall_nil]. Qed.

Lemma carries k p s f x st b : Bus.Next (Panel.p_bus (Panel.drainRequests kat_wp p)) = (b, Some st) -> Bus.st_Frame st = f ->
  Pd.Handle (fold_left PdLaws.react (Server.w_application kat_ws (Server.s_round s)) (Server.s_device s)) f 0 = x ->
  replied x = true -> Frame.Append f [] = Ok (Frame.wire_octets f) -> Frame.frame_ok f ->
  scripted_for k p s f (reply_of x) -> carried kat_wp kat_ws 12 p s.
Proof.
  intros En Ef Ex C2 C3 Hf [[R1 R2] [L1 L2] [P1 P2] D U [I1 I2] Ds Us].
  assert (Hne : forall l : list octets, forallb (fun c => bool_decide (c <> [])) l = true -> Forall (fun c => c <> []) l).
  { intros l. apply forallb_Forall. intros c. apply bool_decide_eq_true_1. }
  split; [by repeat split|by repeat split|].
  exists b, st, [0x11], (Link.cut [0x11] (Frame.wire_octets f)), (Frame.wire_octets f), x.1, (Ok (reply_of x)).
  split; [exact En|]. rewrite Ef. split; [exact C3|]. split; [|split; [|split]].
  - split; [exact Hf|exact R1|exact noise_11|exact L1|exact D|by apply Hne|apply Nat.ltb_lt; reflexivity].
  - intros dl. exact (scripted_at _ _ _ _ _ Ds I1).
  - rewrite <- (reply_of_eq x C2). exact Ex.
  - exists (Link.cut [] (Frame.wire_octets (reply_of x))). split; [exact U|]. split; [by apply Hne|].
    split; [intros dl; exact (scripted_at _ _ _ _ _ Us I2)|]. split; [apply Nat.ltb_lt; reflexivity|by split].
Qed.

Definition kat_f0 : Frame.Frame := Bus.st_Frame (step_of (Panel.p_bus (Panel.drainRequests kat_wp kat_p0))).
Definition kat_f1 : Frame.Frame := Bus.st_Frame (step_of (Panel.p_bus (Panel.drainRequests kat_wp kat_p1))).

Ltac script :=
  split; repeat match goal with
  | |- _ /\ _ => split
  | |- _ = _ => vm_compute; reflexivity
  | |- _ <= _ => vm_compute; discriminate
  end.

Lemma kat_carried0 : carried kat_wp kat_ws 12 kat_p0 kat_s0.
Proof.
  refine (carries 0 _ _ kat_f0 _ _ _ (step_of_eq _ _) eq_refl eq_refl _ _ _ _).
  - vm_compute. reflexivity.
  - vm_compute. reflexivity.
  - vm_compute. reflexivity.
  - apply Frame.frame_check_ok. vm_compute. reflexivity.
  - script.
Qed.

Lemma kat_carried1 : carried kat_wp kat_ws 12 kat_p1 kat_s1.
Proof.
  refine (carries 1 _ _ kat_f1 _ _ _ (step_of_eq _ _) eq_refl eq_refl _ _ _ _).
  - vm_compute. reflexivity.
  - vm_compute. reflexivity.
  - vm_compute. reflexivity.
  - apply Frame.frame_check_ok. vm_compute. reflexivity.
  - script.
Qed.

Lemma kat_panel0 : Panel.round kat_wp 12 kat_p0 = Some (kat_p1, None).
Proof. apply after_continues. vm_compute. reflexivity. Qed.
Lemma kat_server0 : Server.round kat_ws 12 kat_s0 = Some (kat_s1, None).
Proof. apply after_continues. vm_compute. reflexivity. Qed.
Lemma kat_panel1 : Panel.round kat_wp 12 kat_p1 = Some (kat_p2, None).
Proof. apply after_continues. vm_compute. reflexivity. Qed.
Lemma kat_server1 : Server.round kat_ws 12 kat_s1 = Some (kat_s2, None).
Proof. apply after_continues. vm_compute. reflexivity. Qed.

Lemma kat_wp_ok : Panel.world_ok kat_wp.
Proof.
  split; [intros dl; apply Reader.scripted_sane; by vm_compute|]. intros t. cbn [Panel.w_requests kat_wp].
  case_decide; [|by apply Forall_nil]. apply Forall_cons. split; [|by apply Forall_nil].
  split; [split; [done|octets_dec]|by split].
Qed.

Lemma kat_ws_ok : Server.world_ok kat_ws.
Proof.
  split; [intros dl; apply Reader.scripted_sane; by vm_compute|]. intros t. cbn [Server.w_application kat_ws].
  case_decide; [|by apply Forall_nil]. apply Forall_cons. split; [exact PdLaws.kat_card_ok|by apply Forall_nil].
Qed.

Lemma kat_sends : Delivery.sends kat_request.
Proof. split; [reflexivity|]. split; [reflexivity|]. split; [reflexivity|]. split; [split; [done|octets_dec]|by left]. Qed.

Lemma kat_befalls : Delivery.befalls kat_card.
Proof. split; [exact PdLaws.kat_card_ok|by vm_compute]. Qed.

Lemma kat_usual0 : Delivery.usual (Server.s_device kat_s0) (Pd.p_lastSeen (Server.s_device kat_s0)) (history kat_wp kat_ws kat_p0 kat_s0).
Proof.
  assert (E : history kat_wp kat_ws kat_p0 kat_s0 = [Delivery.Ordered kat_request; Delivery.Befell kat_card; Delivery.Exchanged 0 0])
    by (vm_compute; reflexivity).
  rewrite E. cbn [Delivery.usual]. split; [exact kat_sends|]. split; [exact kat_befalls|]. split; [right; by vm_compute|exact I].
Qed.

Lemma kat_usual1 : Delivery.usual (Server.s_device kat_s1) (Pd.p_lastSeen (Server.s_device kat_s1)) (history kat_wp kat_ws kat_p1 kat_s1).
Proof.
  assert (E : history kat_wp kat_ws kat_p1 kat_s1 = [Delivery.Exchanged 0 0]) by (vm_compute; reflexivity).
  rewrite E. cbn [Delivery.usual]. split; [right; by vm_compute|exact I].
Qed.

Lemma same_round {A} (x y : A) : Some (x, @None (option error)) = Some (y, None) -> y = x.
Proof. by intros [= ->]. Qed.

Lemma kat_conveyed : conveyed kat_wp kat_ws 12 2 kat_p0 kat_s0.
Proof.
  split; [exact kat_carried0|]. split; [exact kat_usual0|]. intros p1 s1. rewrite kat_panel0, kat_server0.
  intros Ep%same_round Es%same_round. rewrite Ep, Es. split; [exact kat_carried1|]. split; [exact kat_usual1|]. intros; exact I.
Qed.

Lemma kat_both_rounds : exists hs, rounds kat_wp kat_ws 12 2 kat_p0 kat_s0 = Some (kat_p2, kat_s2, hs).
Proof. cbn [rounds]. rewrite kat_panel0, kat_server0, kat_panel1, kat_server1. by eexists. Qed.

Lemma kat_outputs : Pd.p_outputs (Server.s_device kat_s2) = [false; true].
Proof. vm_compute. reflexivity. Qed.
Lemma kat_silent : Panel.p_events kat_p0 = [].
Proof. reflexivity. Qed.
Lemma kat_published : omap (fun e => Delivery.heard_of (Some e)) (Panel.p_events kat_p2) = [Delivery.CardCred PdLaws.kat_card].
Proof. vm_compute. reflexivity. Qed.

Lemma same_outcome {A B C} (x x' : A) (y y' : B) (z z' : C) : Some (x, y, z) = Some (x', y', z') -> x = x' /\ y = y'.
Proof. by intros [= -> -> _]. Qed.

Example loops_deliver_witness : exists p' s' hs events d' t',
  rounds kat_wp kat_ws 12 2 kat_p0 kat_s0 = Some (p', s', hs) /\
  Panel.p_events p' = Panel.p_events kat_p0 ++ events /\
  omap (fun e => Delivery.heard_of (Some e)) events = [Delivery.CardCred PdLaws.kat_card] /\
  Pd.p_outputs (Server.s_device s') = [false; true] /\
  Delivery.linked (S := AES) (Panel.p_bus p') d' (Server.s_device s') t'.
Proof.
  destruct Delivery.kat_linked as (d & Hl & Ho & Hp).
  destruct (loops_deliver (S := AES) kat_wp kat_ws 12 2 kat_p0 kat_s0 d 0 kat_wp_ok kat_ws_ok)
    as (p' & s' & hs & a & events & d' & t' & obeyed & Er & _ & Ee & _ & _ & _ & Hl' & _).
  - split; [|reflexivity]. split; [exact (Delivery.lk_bus _ _ _ _ Hl)|exact Reader.well_new].
  - split; [|reflexivity]. split; [exact (Delivery.lk_pd _ _ _ _ Hl)|exact Reader.well_new].
  - exact kat_conveyed.
  - exact Hl.
  - exists p', s', hs, events, d', t'. split; [exact Er|]. split; [exact Ee|].
    destruct kat_both_rounds as [hs' Er']. rewrite Er in Er'. destruct (same_outcome _ _ _ _ _ _ Er') as [E1 E2]. rewrite E1 in *. rewrite E2 in *.
    split; [|split; [exact kat_outputs|exact Hl']].
    rewrite kat_silent in Ee. rewrite <- kat_published, Ee. reflexivity.
Defined.

(** The same two rounds of the panel's loop, and then its context is cancelled: the
    command asked for in the first was answered for in it. *)
Definition kat_wp_ended : Panel.world :=
  Panel.mk_world (Link.kat_port (concat kat_ups)) (fun t => bool_decide (2 <= t)%nat) (fun _ => false) (fun _ => 0) (fun _ _ => None)
    (fun t => if decide (t = 0%nat) then [kat_request] else []) (fun _ => None).

Lemma kat_ended_ok : Panel.world_ok kat_wp_ended.
Proof. split; apply kat_wp_ok. Qed.

Lemma kat_drive : exists p', Panel.drive kat_wp_ended 3 12 kat_p0 = Some (p', None).
Proof.
  assert (Hk : option_map snd (Panel.drive kat_wp_ended 3 12 kat_p0) = Some None) by (vm_compute; reflexivity).
  destruct (Panel.drive kat_wp_ended 3 12 kat_p0) as [[p' e]|]; [|discriminate Hk].
  exists p'. injection Hk as ->. reflexivity.
Qed.

Lemma all_rested b : forallb (fun d => match Device.d_inflight d with None => true | _ => false end) (Bus.b_devices b) = true ->
  Panel.rested b.
Proof. apply forallb_Forall. intros d. by destruct (Device.d_inflight d). Qed.

Lemma kat_rested : Panel.rested (Panel.p_bus kat_p0).
Proof. apply all_rested. vm_compute. reflexivity. Qed.

Lemma kat_answered : PanelLaws.answered kat_wp_ended 0 3 12 kat_p0 = [Delivery.kat_command].
Proof. vm_compute. reflexivity. Qed.

Example commands_in_order_witness : exists p' d d', Bus.device (Panel.p_bus kat_p0) 0 = Some d /\
  Bus.device (Panel.p_bus p') 0 = Some d' /\
  [Delivery.kat_command] ++ BusFacts.owed d' = BusFacts.owed d ++ PanelLaws.promised kat_wp_ended 0 3 12 kat_p0.
Proof.
  destruct kat_drive as [p' E]. destruct Delivery.kat_linked as (d & Hl & _).
  assert (Hp : Panel.panel_ok (S := AES) kat_p0) by (split; [exact (Delivery.lk_bus _ _ _ _ Hl)|exact Reader.well_new]).
  assert (Hd : is_Some (Bus.device (Panel.p_bus kat_p0) 0)) by (apply lookup_lt_is_Some_2, Nat.ltb_lt; vm_compute; reflexivity).
  destruct Hd as [d0 Hd0].
  destruct (PanelLaws.commands_in_order (S := AES) kat_wp_ended 3 12 kat_p0 p' None 0 d0 kat_ended_ok Hp kat_rested E Hd0)
    as (d' & H1 & H2).
  exists p', d0, d'. split; [exact Hd0|]. split; [exact H1|]. rewrite kat_answered in H2. exact H2.
Defined.
