(* ===== verification/Driver.v ===== *)
(** * The drivers: internal/driver

    conn.go (the body of the TCP and in-memory ports) and serial_port.go adapt a
    net.Conn and an *os.File to transport.Port; serial.go, serial_unix.go and
    termios_linux.go open a serial line. The stream underneath is a parameter, a
    record of its methods; of an error it returns, what [errors.Is] and [errors.As]
    find in it. [port_contract] is what transport/port.go asks of an implementation:
    both adapters keep it, and Server.v's loop is stated on it. Dialling and
    accepting TCP, and the ioctl itself, are calls of the system. *)

From S2P Require Import Prelude Errors.
From S2P Require Frame Secure Reader Port Pd PdFacts PdLaws Server.

(** ** What is underneath *)

(** An error of the standard library, as far as the drivers look into it:
    net.ErrClosed, io.ErrClosedPipe, os.ErrClosed, os.ErrDeadlineExceeded, io.EOF, and
    whether it is a net.Error whose Timeout() is true. *)
Record os_error := mk_os_error {
  oe_netClosed : bool;
  oe_pipeClosed : bool;
  oe_osClosed : bool;
  oe_expired : bool;
  oe_EOF : bool;
  oe_timeout : bool;
  oe_id : Z
}.

(** The methods of net.Conn and of *os.File that are called; Read and Write may
    both count octets and return an error, and are given the deadline in force. A
    write with nothing to stop it may never return ([None]). *)
Record stream := mk_stream {
  st_Read : option Z -> nat -> Z -> octets * option os_error;
  st_Write : option Z -> nat -> octets -> option (Z * option os_error);
  st_SetReadDeadline : nat -> Z -> option os_error;
  st_SetWriteDeadline : nat -> Z -> option os_error;
  st_Close : option os_error
}.

(** A reader of a port looks at the count only when there is no error. *)
Definition counted (x : octets * option error) : result octets :=
  match x with
  | (_, Some e) => Err e
  | (bs, None) => Ok bs
  end.

(** ** conn.go *)

Definition translate (e : os_error) : error :=
  if oe_netClosed e || oe_pipeClosed e then ETransport ErrClosed
  else if oe_timeout e then ETransport ErrTimeout
  else EOther (oe_id e).

Definition conn_Read (c : stream) (deadline : option Z) (i : nat) (room : Z) : octets * option error :=
  let '(bs, err) := st_Read c deadline i room in (bs, translate <$> err).

Definition conn_Write (c : stream) (deadline : option Z) (i : nat) (b : octets) : option (Z * option error) :=
  match st_Write c deadline i b with
  | Some (n, Some err) => Some (n, Some (translate err))
  | Some (n, None) => if decide (n <> len b) then Some (n, Some (ETransport ErrShortWrite)) else Some (n, None)
  | None => None
  end.

Definition conn_SetReadDeadline (c : stream) (i : nat) (t : Z) : option error := translate <$> st_SetReadDeadline c i t.
Definition conn_SetWriteDeadline (c : stream) (i : nat) (t : Z) : option error := translate <$> st_SetWriteDeadline c i t.

Definition conn_Close (c : stream) : option error :=
  match st_Close c with
  | Some err => if oe_netClosed err || oe_pipeClosed err then None else Some (EOther (oe_id err))
  | None => None
  end.

Definition conn (c : stream) : Port.Port :=
  Port.mk_Port (fun t i room => counted (conn_Read c t i room)) (conn_Write c) (conn_SetReadDeadline c)
    (Some (conn_SetWriteDeadline c)) (conn_Close c).

(** ** serial_port.go *)

Definition translateSerial (e : os_error) : error :=
  if oe_expired e then ETransport ErrTimeout
  else if oe_osClosed e then ETransport ErrClosed
  else if oe_EOF e then ETransport ErrClosed
  else EOther (oe_id e).

Definition serialPort_Read (p : stream) (deadline : option Z) (i : nat) (room : Z) : octets * option error :=
  let '(bs, err) := st_Read p deadline i room in (bs, translateSerial <$> err).

Definition serialPort_Write (p : stream) (deadline : option Z) (i : nat) (b : octets) : option (Z * option error) :=
  match st_Write p deadline i b with
  | Some (n, Some err) => Some (n, Some (translateSerial err))
  | Some (n, None) => if decide (n <> len b) then Some (n, Some (ETransport ErrShortWrite)) else Some (n, None)
  | None => None
  end.

Definition serialPort_SetReadDeadline (p : stream) (i : nat) (t : Z) : option error :=
  translateSerial <$> st_SetReadDeadline p i t.
Definition serialPort_SetWriteDeadline (p : stream) (i : nat) (t : Z) : option error :=
  translateSerial <$> st_SetWriteDeadline p i t.

Definition serialPort_Close (p : stream) : option error :=
  match st_Close p with
  | Some err => if oe_osClosed err then None else Some (EOther (oe_id err))
  | None => None
  end.

Definition serialPort (p : stream) : Port.Port :=
  Port.mk_Port (fun t i room => counted (serialPort_Read p t i room)) (serialPort_Write p) (serialPort_SetReadDeadline p)
    (Some (serialPort_SetWriteDeadline p)) (serialPort_Close p).

(** ** serial.go *)

Definition SerialBaudRates : list Z := [9600; 19200; 38400; 57600; 115200; 230400].

Record serialConfig := mk_serialConfig { sc_baud : Z }.
Definition SerialOption := serialConfig -> serialConfig.
Definition WithBaud (baud : Z) : SerialOption := fun _ => mk_serialConfig baud.
Definition defaultSerialConfig : serialConfig := mk_serialConfig 9600.

(** What [DialSerial] can fail with: the sentinel, or what the context, the opening
    or the configuring returned, wrapped. *)
Inductive dial_error :=
  | ErrUnsupportedBaud (baud : Z)
  | Cancelled (e : os_error)
  | Opening (e : os_error)
  | Configuring (e : dial_error)
  | Ioctl (e : os_error).

Definition validate (c : serialConfig) : option dial_error :=
  if existsb (Z.eqb (sc_baud c)) SerialBaudRates then None else Some (ErrUnsupportedBaud (sc_baud c)).

(** ** termios_unix.go and termios_linux.go *)

(** syscall.Termios on Linux, with the flags this file names; 32 bits each. *)
Record Termios := mk_Termios {
  t_Iflag : Z;
  t_Oflag : Z;
  t_Cflag : Z;
  t_Lflag : Z;
  t_Cc : list Z;
  t_Ispeed : Z;
  t_Ospeed : Z
}.

#[export] Instance Termios_eta : Eta Termios := fun t =>
  mk_Termios (t_Iflag t) (t_Oflag t) (t_Cflag t) (t_Lflag t) (t_Cc t) (t_Ispeed t) (t_Ospeed t).

Definition IGNBRK : Z := 0x1.
Definition BRKINT : Z := 0x2.
Definition PARMRK : Z := 0x8.
Definition ISTRIP : Z := 0x20.
Definition INLCR : Z := 0x40.
Definition IGNCR : Z := 0x80.
Definition ICRNL : Z := 0x100.
Definition IXON : Z := 0x400.
Definition IXOFF : Z := 0x1000.
Definition OPOST : Z := 0x1.
Definition ISIG : Z := 0x1.
Definition ICANON : Z := 0x2.
Definition ECHO : Z := 0x8.
Definition ECHONL : Z := 0x40.
Definition IEXTEN : Z := 0x8000.
Definition CSIZE : Z := 0x30.
Definition CS8 : Z := 0x30.
Definition CSTOPB : Z := 0x40.
Definition CREAD : Z := 0x80.
Definition PARENB : Z := 0x100.
Definition CLOCAL : Z := 0x800.
Definition VTIME : nat := 5.
Definition VMIN : nat := 6.

Definition any_of (flags : list Z) : Z := fold_right Z.lor 0 flags.

Definition inputProcessing : Z := any_of [IGNBRK; BRKINT; PARMRK; ISTRIP; INLCR; IGNCR; ICRNL; IXON; IXOFF].
Definition lineProcessing : Z := any_of [ECHO; ECHONL; ICANON; ISIG; IEXTEN].
Definition characterFormat : Z := any_of [CSIZE; PARENB; CSTOPB].

(** [x &^= m] is [Z.ldiff]. *)
Definition rawTermios (t : Termios) : Termios :=
  t <| t_Iflag := Z.ldiff (t_Iflag t) inputProcessing |>
    <| t_Oflag := Z.ldiff (t_Oflag t) OPOST |>
    <| t_Lflag := Z.ldiff (t_Lflag t) lineProcessing |>
    <| t_Cflag := Z.lor (Z.ldiff (t_Cflag t) characterFormat) (any_of [CS8; CLOCAL; CREAD]) |>
    <| t_Cc := <[VTIME := 0]> (<[VMIN := 1]> (t_Cc t)) |>.

Definition linuxBaud : gmap Z Z :=
  {[ 9600 := 0xd; 19200 := 0xe; 38400 := 0xf; 57600 := 0x1001; 115200 := 0x1002; 230400 := 0x1003 ]}.

(** B0, B50 and so on to B38400, then B57600 to B4000000. *)
Definition speedMask : Z := any_of (map Z.of_nat (seq 0 16) ++ map (fun k => 0x1000 + Z.of_nat k) (seq 1 15)).

Definition setSpeed (t : Termios) (baud : Z) : Termios + dial_error :=
  match linuxBaud !! baud with
  | None => inr (ErrUnsupportedBaud baud)
  | Some encoded =>
      inl (t <| t_Cflag := Z.lor (Z.ldiff (t_Cflag t) speedMask) encoded |>
             <| t_Ispeed := encoded |> <| t_Ospeed := encoded |>)
  end.

(** ** serial_unix.go *)

(** The calls of the system, and what a run of [DialSerial] did to the device. *)
Record tty := mk_tty {
  tty_ctx : option os_error;
  tty_open : option os_error;
  tty_get : Termios + os_error;
  tty_set : Termios -> option os_error;
  tty_file : stream
}.

Inductive effect := Opened | Applied (t : Termios) | Closed.

Definition configureTermios (y : tty) (baud : Z) : list effect * option dial_error :=
  match tty_get y with
  | inr e => ([], Some (Ioctl e))
  | inl t =>
      match setSpeed (rawTermios t) baud with
      | inr e => ([], Some e)
      | inl t => ([Applied t], Ioctl <$> tty_set y t)
      end
  end.

Definition DialSerial (y : tty) (opts : list SerialOption) : list effect * (Port.Port + dial_error) :=
  let cfg := fold_left (fun c opt => opt c) opts defaultSerialConfig in
  match validate cfg with
  | Some e => ([], inr e)
  | None =>
      match tty_ctx y with
      | Some e => ([], inr (Cancelled e))
      | None =>
          match tty_open y with
          | Some e => ([], inr (Opening e))
          | None =>
              match configureTermios y (sc_baud cfg) with
              | (done, Some e) => ([Opened] ++ done ++ [Closed], inr (Configuring e))
              | (done, None) => ([Opened] ++ done, inl (serialPort (tty_file y)))
              end
          end
      end
  end.

(** ** What a port promises *)

(** transport/port.go, with the errors the drivers put into its vocabulary. *)
Record port_contract (p : Port.Port) : Prop := mk_port_contract {
  pc_sane : Port.sane p;
  pc_whole t i b n : Port.pt_Write p t i b = Some (n, None) -> n = len b;
  pc_words e : Port.port_error p e -> (exists t, e = ETransport t) \/ exists n, e = EOther n
}.

(** A stream returns no more than it was given room for, and octets; a write under
    a deadline returns. *)
Record stream_ok (c : stream) : Prop := mk_stream_ok {
  so_read t i room bs : st_Read c t i room = (bs, None) -> len bs <= room /\ octets_ok bs;
  so_write t i b : is_Some (st_Write c (Some t) i b)
}.

Definition worded (e : error) : Prop := (exists t, e = ETransport t) \/ exists n, e = EOther n.

Lemma translate_worded e : worded (translate e).
Proof. unfold translate. repeat case_match; first [by left; eexists|by right; eexists]. Qed.

Lemma translateSerial_worded e : worded (translateSerial e).
Proof. unfold translateSerial. repeat case_match; first [by left; eexists|by right; eexists]. Qed.

(** Two adapters of one shape: what holds of both is proved once. *)
Section adapter.
Variables (tr : os_error -> error) (tr_worded : forall e, worded (tr e)).
Variable c : stream.

Lemma adapted_contract p : stream_ok c ->
  (forall t i room, Port.pt_Read p t i room = counted (let '(bs, err) := st_Read c t i room in (bs, tr <$> err))) ->
  (forall t i b, Port.pt_Write p t i b =
    match st_Write c t i b with
    | Some (n, Some err) => Some (n, Some (tr err))
    | Some (n, None) => if decide (n <> len b) then Some (n, Some (ETransport ErrShortWrite)) else Some (n, None)
    | None => None
    end) ->
  (forall i t, Port.pt_SetReadDeadline p i t = tr <$> st_SetReadDeadline c i t) ->
  Port.pt_WriteDeadliner p = Some (fun i t => tr <$> st_SetWriteDeadline c i t) ->
  port_contract p /\ Port.unblocked p.
Proof.
  intros [Hc Hn] HR HW HD HS. split; [split|].
  - assert (Hx : forall t i room bs, Port.pt_Read p t i room = Ok bs -> len bs <= room /\ octets_ok bs).
    { intros t i room bs. rewrite HR. destruct (st_Read c t i room) as [bs' [e|]] eqn:E; [done|]. intros [= <-].
      by apply (Hc t i room). }
    intros t. split; intros i room bs E; by apply (Hx t i room).
  - intros t i b n. rewrite HW. destruct (st_Write c t i b) as [[k [e|]]|]; [done| |done]. case_decide as Hk; [done|].
    intros [= <-]. destruct (decide (k = len b)); [done|by destruct Hk].
  - intros e [i t e0 E|t i room e0 E|D i t e0 ED E|t i b n e0 E].
    + rewrite HD in E. destruct (st_SetReadDeadline c i t); [|done]. injection E as <-. apply tr_worded.
    + rewrite HR in E. destruct (st_Read c t i room) as [bs' [e1|]]; [|done]. injection E as <-. apply tr_worded.
    + rewrite HS in ED. injection ED as <-. destruct (st_SetWriteDeadline c i t); [|done]. injection E as <-. apply tr_worded.
    + rewrite HW in E. destruct (st_Write c t i b) as [[k [e1|]]|]; [injection E as _ <-; apply tr_worded| |done].
      case_decide; [|done]. injection E as _ <-. left. by eexists.
  - unfold Port.unblocked. rewrite HS. intros t i b. rewrite HW. destruct (Hn t i b) as [[k [e|]] ->]; [by eexists|].
    case_decide; by eexists.
Qed.

End adapter.

Lemma conn_contract c : stream_ok c -> port_contract (conn c) /\ Port.unblocked (conn c).
Proof. intros Hc. by apply (adapted_contract translate translate_worded c). Qed.

Lemma serialPort_contract c : stream_ok c -> port_contract (serialPort c) /\ Port.unblocked (serialPort c).
Proof. intros Hc. by apply (adapted_contract translateSerial translateSerial_worded c). Qed.

(** Its stream has been closed when the loop makes round [r]: setting a deadline
    says so. *)
Definition shut (closing : os_error -> bool) (c : stream) (r : nat) : Prop :=
  forall i t, (r <= i)%nat -> exists e, st_SetReadDeadline c i t = Some e /\ closing e = true.

Definition conn_closing (e : os_error) : bool := oe_netClosed e || oe_pipeClosed e.
Definition file_closing (e : os_error) : bool := oe_osClosed e && negb (oe_expired e).

Lemma translate_closing e : conn_closing e = true -> translate e = ETransport ErrClosed.
Proof. unfold translate, conn_closing. by intros ->. Qed.

Lemma translateSerial_closing e : file_closing e = true -> translateSerial e = ETransport ErrClosed.
Proof. unfold translateSerial, file_closing. by destruct (oe_expired e), (oe_osClosed e). Qed.

(** A port of this package over stream [c], closed by round [r]. *)
Inductive driven (c : stream) (r : nat) : Port.Port -> Prop :=
  | driven_conn : shut conn_closing c r -> driven c r (conn c)
  | driven_serial : shut file_closing c r -> driven c r (serialPort c).

Lemma driven_contract c r p : stream_ok c -> driven c r p -> port_contract p /\ Port.unblocked p.
Proof. intros Hc []; [by apply conn_contract|by apply serialPort_contract]. Qed.

Lemma driven_closed c r p i t : driven c r p -> (r <= i)%nat -> Port.pt_SetReadDeadline p i t = Some (ETransport ErrClosed).
Proof.
  intros [Hs|Hs] Hi; destruct (Hs i t Hi) as (e & E & He); cbn [Port.pt_SetReadDeadline conn serialPort];
    unfold conn_SetReadDeadline, serialPort_SetReadDeadline; rewrite E; cbn; f_equal;
    [by apply translate_closing|by apply translateSerial_closing].
Qed.

(** ** Closing a port is a shutdown *)

Section with_suite.
Context {S : Secure.CipherSuite} `{!Secure.SuiteLaws S}.

(** Once its port is closed a server makes no other round. *)
Lemma closed_round w fuel s :
  (forall t, Port.pt_SetReadDeadline (Server.w_port w) (Server.s_round s) t = Some (ETransport ErrClosed)) ->
  exists s' o, Server.round w fuel s = Some (s', Some o) /\ (o = None \/ o = Some (ETransport ErrClosed)).
Proof.
  intros Hc. unfold Server.round. destruct (Server.w_cancelled w (Server.s_round s)); [eexists _, _; split; [done|by left]|].
  unfold Server.read. cbn [Server.deadlineAt]. rewrite Hc. eexists _, _. split; [done|]. unfold Server.stopped. case_match; auto.
Qed.

Lemma serve_closed w m r fuel : Server.world_ok w -> Port.patient (Server.w_port w) m -> Port.unblocked (Server.w_port w) ->
  Port.enough m fuel ->
  (forall i t, (r <= i)%nat -> Port.pt_SetReadDeadline (Server.w_port w) i t = Some (ETransport ErrClosed)) ->
  forall n s, Server.server_ok (S := S) s -> (Server.s_round s + n = r)%nat ->
  exists s' e, Server.serve w (Datatypes.S n) fuel s = Some (s', e) /\
    (Server.serve w n fuel s = None -> e = None \/ e = Some (ETransport ErrClosed)).
Proof.
  intros Hw Hm Hu Hf Hc n. induction n as [|n IH]; intros s Hs Hn.
  - destruct (closed_round w fuel s) as (s' & o & E & Ho); [intros t; apply Hc; lia|].
    exists s', o. cbn [Server.serve]. by rewrite E.
  - destruct (Server.round_returns w m fuel s Hw Hs Hm Hu Hf) as [[s1 [x|]] E].
    + exists s1, x. cbn [Server.serve]. by rewrite E.
    + destruct (Server.round_spec w fuel s s1 None Hw Hs E) as (H1 & H2 & _).
      destruct (IH s1 H1) as (s' & e & E1 & E2); [lia|]. exists s', e.
      cbn [Server.serve] in *. by rewrite E.
Qed.

(** C25. A device behind a driver is shut down by closing its port. Whatever
    happens on a TCP, an in-memory or a serial port until then, a server whose port
    is closed by its [r]th round returns: with ErrClosed (or nil, if it was told to
    stop as well) when nothing ended it sooner, and always with an error in the
    vocabulary of the transport, of the stream, or of a frame that could not be
    built; half a frame written is never taken for a success. *)
Theorem close_ends_serving w c m r fuel s : driven c r (Server.w_port w) -> stream_ok c ->
  (forall t, Forall PdLaws.stimulus_ok (Server.w_application w t)) -> Server.server_ok (S := S) s ->
  Port.patient (Server.w_port w) m -> Server.s_started s = false -> (Server.s_round s <= r)%nat -> Port.enough m fuel ->
  exists s' e, Server.Run w (Datatypes.S (r - Server.s_round s)) fuel s = Some (s', e) /\
    Server.server_ok (S := S) s' /\
    (Server.Run w (r - Server.s_round s) fuel s = None -> e = None \/ e = Some (ETransport ErrClosed)) /\
    (forall x, e = Some x -> worded x \/ exists f, Frame.frame_ok f /\ Frame.Append f [] = Err x) /\
    (forall t i b n, Port.pt_Write (Server.w_port w) t i b = Some (n, None) -> n = len b).
Proof.
  intros Hp Hc Happ [Hd _] Hm Hst Hr Hf. pose proof (driven_contract c r _ Hc Hp) as [[P1 P2 P3] Hu].
  assert (Hw : Server.world_ok w) by (by split).
  unfold Server.Run. rewrite Hst. set (s0 := s <| Server.s_started := true |> <| Server.s_scan := Reader.newReader |>).
  assert (Hs0 : Server.server_ok (S := S) s0) by (by split; [|exact Reader.well_new]).
  destruct (serve_closed w m r fuel Hw Hm Hu Hf (fun i t => driven_closed c r _ i t Hp) (r - Server.s_round s) s0 Hs0)
    as (s' & e & E & He); [cbn; lia|].
  destruct (Server.serve_spec w _ fuel s0 s' e Hw Hs0 E) as [Hs' Hx].
  exists s', e. split_and!; try done. intros x ->. destruct Hx as [[Hx|[-> _]]|Hx]; [left; by apply P3|left; left; by eexists|by right].
Qed.

End with_suite.

(** ** The line a serial port is left with *)

Definition modeFlags : Z := any_of [speedMask; characterFormat; CLOCAL; CREAD].

(** [t] is [t0] made 8N1 at [baud]: raw in both directions, a read waits for one
    octet, and whatever this file does not name is as it was. *)
Record lined (baud : Z) (t0 t : Termios) : Prop := mk_lined {
  ld_speed : exists code, linuxBaud !! baud = Some code /\ Z.land (t_Cflag t) speedMask = code /\
    t_Ispeed t = code /\ t_Ospeed t = code;
  ld_format : Z.land (t_Cflag t) characterFormat = CS8;
  ld_local : Z.land (t_Cflag t) (any_of [CLOCAL; CREAD]) = any_of [CLOCAL; CREAD];
  ld_raw : Z.land (t_Iflag t) inputProcessing = 0 /\ Z.land (t_Oflag t) OPOST = 0 /\ Z.land (t_Lflag t) lineProcessing = 0;
  ld_rest : Z.ldiff (t_Cflag t) modeFlags = Z.ldiff (t_Cflag t0) modeFlags /\
    Z.ldiff (t_Iflag t) inputProcessing = Z.ldiff (t_Iflag t0) inputProcessing /\
    Z.ldiff (t_Oflag t) OPOST = Z.ldiff (t_Oflag t0) OPOST /\
    Z.ldiff (t_Lflag t) lineProcessing = Z.ldiff (t_Lflag t0) lineProcessing;
  ld_cc : length (t_Cc t) = length (t_Cc t0) /\ forall i, i <> VMIN -> i <> VTIME -> t_Cc t !! i = t_Cc t0 !! i;
  ld_wait : (VMIN < length (t_Cc t0))%nat -> t_Cc t !! VMIN = Some 1 /\ t_Cc t !! VTIME = Some 0
}.

(** Clearing the field [m] of a word and setting [v] in it: what a mask then reads. *)
Lemma bit_of {a b} i : a = b -> Z.testbit a i = Z.testbit b i.
Proof. by intros ->. Qed.

Lemma field_read a m v M : Z.ldiff M m = 0 -> Z.land (Z.lor (Z.ldiff a m) v) M = Z.land v M.
Proof.
  intros H. apply Z.bits_inj'. intros i _. pose proof (bit_of i H) as Hi.
  rewrite Z.ldiff_spec, Z.bits_0 in Hi. rewrite !Z.land_spec, Z.lor_spec, Z.ldiff_spec.
  by destruct (Z.testbit a i), (Z.testbit m i), (Z.testbit v i), (Z.testbit M i).
Qed.

Lemma field_past a m v M : Z.land M m = 0 -> Z.land M v = 0 -> Z.land (Z.lor (Z.ldiff a m) v) M = Z.land a M.
Proof.
  intros H1 H2. apply Z.bits_inj'. intros i _. pose proof (bit_of i H1) as Hi. pose proof (bit_of i H2) as Hj.
  rewrite Z.land_spec, Z.bits_0 in Hi, Hj. rewrite !Z.land_spec, Z.lor_spec, Z.ldiff_spec.
  by destruct (Z.testbit a i), (Z.testbit m i), (Z.testbit v i), (Z.testbit M i).
Qed.

Lemma field_set b v M : Z.ldiff M v = 0 -> Z.land (Z.lor b v) M = M.
Proof.
  intros H. apply Z.bits_inj'. intros i _. pose proof (bit_of i H) as Hi.
  rewrite Z.ldiff_spec, Z.bits_0 in Hi. rewrite !Z.land_spec, Z.lor_spec.
  by destruct (Z.testbit b i), (Z.testbit v i), (Z.testbit M i).
Qed.

Lemma field_other a m v D : Z.ldiff m D = 0 -> Z.ldiff v D = 0 -> Z.ldiff (Z.lor (Z.ldiff a m) v) D = Z.ldiff a D.
Proof.
  intros H1 H2. apply Z.bits_inj'. intros i _. pose proof (bit_of i H1) as Hi. pose proof (bit_of i H2) as Hj.
  rewrite Z.ldiff_spec, Z.bits_0 in Hi, Hj. rewrite !Z.ldiff_spec, Z.lor_spec, Z.ldiff_spec.
  by destruct (Z.testbit a i), (Z.testbit m i), (Z.testbit v i), (Z.testbit D i).
Qed.

Lemma field_cleared a m : Z.land (Z.ldiff a m) m = 0 /\ Z.ldiff (Z.ldiff a m) m = Z.ldiff a m.
Proof.
  split; apply Z.bits_inj'; intros i _; rewrite ?Z.land_spec, ?Z.ldiff_spec, ?Z.ldiff_spec, ?Z.bits_0;
    by destruct (Z.testbit a i), (Z.testbit m i).
Qed.

Lemma linuxBaud_codes baud code : linuxBaud !! baud = Some code ->
  baud ∈ SerialBaudRates /\ code ∈ [0xd; 0xe; 0xf; 0x1001; 0x1002; 0x1003].
Proof.
  unfold linuxBaud, SerialBaudRates. rewrite !elem_of_cons, !elem_of_nil.
  rewrite !lookup_insert_Some, lookup_singleton_Some. intuition (subst; auto 10).
Qed.

Lemma cflag_words x baud code : linuxBaud !! baud = Some code ->
  let y := Z.lor (Z.ldiff (Z.lor (Z.ldiff x characterFormat) (any_of [CS8; CLOCAL; CREAD])) speedMask) code in
  Z.land y speedMask = code /\ Z.land y characterFormat = CS8 /\
  Z.land y (any_of [CLOCAL; CREAD]) = any_of [CLOCAL; CREAD] /\ Z.ldiff y modeFlags = Z.ldiff x modeFlags.
Proof.
  intros [_ Hc]%linuxBaud_codes. cbv zeta.
  assert (Hk : Z.land code speedMask = code /\ Z.land characterFormat code = 0 /\
    Z.land (any_of [CLOCAL; CREAD]) code = 0 /\ Z.ldiff code modeFlags = 0).
  { rewrite !elem_of_cons, elem_of_nil in Hc. by destruct Hc as [->|[->|[->|[->|[->|[->|[]]]]]]]. }
  destruct Hk as (K1 & K2 & K3 & K4). split_and!.
  - by rewrite field_read.
  - by rewrite field_past, field_read.
  - by rewrite field_past, field_set.
  - by rewrite !field_other.
Qed.

Lemma configured t0 baud : match setSpeed (rawTermios t0) baud with
  | inl t => lined baud t0 t
  | inr e => linuxBaud !! baud = None /\ e = ErrUnsupportedBaud baud
  end.
Proof.
  unfold setSpeed. destruct (linuxBaud !! baud) as [code|] eqn:E; [|done].
  destruct (cflag_words (t_Cflag t0) baud code E) as (W1 & W2 & W3 & W4).
  destruct (field_cleared (t_Iflag t0) inputProcessing) as [I1 I2].
  destruct (field_cleared (t_Oflag t0) OPOST) as [O1 O2].
  destruct (field_cleared (t_Lflag t0) lineProcessing) as [L1 L2].
  set (cc := <[VTIME := 0]> (<[VMIN := 1]> (t_Cc t0))).
  split; try done.
  - by exists code.
  - change (length cc = length (t_Cc t0) /\ forall i, i <> VMIN -> i <> VTIME -> cc !! i = t_Cc t0 !! i).
    unfold cc. rewrite !length_insert. split; [done|]. intros i H1 H2. by rewrite !list_lookup_insert_ne by congruence.
  - intros Hl. change (cc !! VMIN = Some 1 /\ cc !! VTIME = Some 0). unfold cc, VMIN, VTIME in *. split.
    + rewrite list_lookup_insert_ne by done. apply list_lookup_insert_eq. lia.
    + apply list_lookup_insert_eq. rewrite length_insert. lia.
Qed.

Lemma validate_rate baud : match validate (mk_serialConfig baud) with
  | None => baud ∈ SerialBaudRates
  | Some e => baud ∉ SerialBaudRates /\ e = ErrUnsupportedBaud baud
  end.
Proof.
  unfold validate. cbn [sc_baud]. destruct (existsb (Z.eqb baud) SerialBaudRates) eqn:E.
  - apply existsb_exists in E as (x & Hx & ->%Z.eqb_eq). by apply list_elem_of_In.
  - split; [|done]. intros Hx. assert (existsb (Z.eqb baud) SerialBaudRates = true); [|congruence].
    apply existsb_exists. exists baud. split; [by apply list_elem_of_In|apply Z.eqb_refl].
Qed.

(** Every rate that is accepted can be encoded. *)
Lemma rate_encodes baud : baud ∈ SerialBaudRates -> is_Some (linuxBaud !! baud).
Proof.
  unfold SerialBaudRates. rewrite !elem_of_cons, elem_of_nil.
  intros [->|[->|[->|[->|[->|[->|[]]]]]]]; by eexists.
Qed.

(** A serial port is the line that was asked for, or nothing. When [DialSerial]
    returns a port, the rate is one OSDP defines, the device was configured once,
    and it is left raw, 8N1, at exactly that rate whatever rate and modes it had
    before, with every bit outside those fields as it was. When it fails the file it
    opened is closed; a rate OSDP does not define is refused before the device is
    touched, and none that is accepted fails for want of an encoding. *)
Theorem DialSerial_spec y opts :
  let baud := sc_baud (fold_left (fun c opt => opt c) opts defaultSerialConfig) in
  match DialSerial y opts with
  | (done, inl p) =>
      p = serialPort (tty_file y) /\ baud ∈ SerialBaudRates /\
      exists t0 t, tty_get y = inl t0 /\ tty_set y t = None /\ done = [Opened; Applied t] /\ lined baud t0 t
  | (done, inr e) =>
      (done = [] \/ exists more, done = Opened :: more ++ [Closed]) /\
      (baud ∉ SerialBaudRates -> done = [] /\ e = ErrUnsupportedBaud baud) /\
      (baud ∈ SerialBaudRates -> (exists x, e = Cancelled x /\ tty_ctx y = Some x) \/
        (exists x, e = Opening x /\ tty_open y = Some x) \/
        exists x, e = Configuring (Ioctl x) /\ (tty_get y = inr x \/ exists t, tty_set y t = Some x))
  end.
Proof.
  cbv zeta. unfold DialSerial. set (cfg := fold_left _ opts defaultSerialConfig). destruct cfg as [baud]. cbn [sc_baud].
  pose proof (validate_rate baud) as Hv. destruct (validate _) as [e|].
  { destruct Hv as [Hn ->]. split; [by left|]. by split. }
  destruct (tty_ctx y) as [e|]; [split; [by left|split; [done|left; by eexists]]|].
  destruct (tty_open y) as [e|]; [split; [by left|split; [done|right; left; by eexists]]|].
  unfold configureTermios. destruct (tty_get y) as [t0|e].
  2:{ split; [right; by exists []|]. split; [done|]. right. right. exists e. split; [done|by left]. }
  pose proof (configured t0 baud) as Hc. destruct (setSpeed (rawTermios t0) baud) as [t|e].
  2:{ destruct Hc as [Hn _]. destruct (rate_encodes baud Hv) as [? ?]. congruence. }
  destruct (tty_set y t) as [e|] eqn:Es; cbn [fmap option_fmap option_map].
  - split; [right; by exists [Applied t]|]. split; [done|]. right. right. exists e. split; [done|right; by exists t].
  - split; [done|]. split; [done|]. by exists t0, t.
Qed.

(** ** Witnesses *)

Abbreviation AES := Secure.AES128.suite (only parsing).

(** A connection on which nothing arrives, closed by the second round. *)
Definition kat_expired : os_error := mk_os_error false false false true false true 1.
Definition kat_closed : os_error := mk_os_error true false false false false false 2.
Definition kat_stream : stream :=
  mk_stream (fun _ _ _ => ([], Some kat_expired)) (fun _ _ b => Some (len b, None))
    (fun i _ => if decide (2 <= i)%nat then Some kat_closed else None) (fun _ _ => None) (Some kat_closed).
Definition kat_driven : Server.world :=
  Server.mk_world (fun _ => false) (fun _ => false) (fun _ => 0) (fun _ => 0) (conn kat_stream) (fun _ => []).

Lemma kat_stopped : option_map (fun x => x.2) (Server.Run kat_driven 3 3100 Server.kat_server) = Some (Some (ETransport ErrClosed)).
Proof. vm_compute. reflexivity. Qed.

Example close_ends_serving_witness : exists s',
  Server.Run kat_driven 3 3100 Server.kat_server = Some (s', Some (ETransport ErrClosed)) /\
  Server.server_ok (S := AES) s' /\ conn_Close kat_stream = None.
Proof.
  destruct (close_ends_serving (S := AES) kat_driven kat_stream 1 2 3100 Server.kat_server) as (s' & e & E & Hs & _).
  - apply driven_conn. intros i t Hi. exists kat_closed. cbn [kat_stream st_SetReadDeadline]. by rewrite decide_True.
  - split; [by intros t i room bs|intros t i b; by eexists].
  - intros t. by apply Forall_nil_2.
  - exact Server.kat_server_ok.
  - intros t i. exists i. split; [lia|]. intros room. by eexists.
  - reflexivity.
  - vm_compute. lia.
  - unfold Port.enough. lia.
  - exists s'. change (Datatypes.S (2 - Server.s_round Server.kat_server)) with 3%nat in E.
    pose proof kat_stopped as Hk. rewrite E in Hk. injection Hk as ->. by split_and!.
Defined.

(** A terminal as a login shell left it, at 38400 and seven bits with parity. *)
Definition kat_termios : Termios := mk_Termios 0x2d02 0x5 0x12f 0x8a3b (replicate 32 4) 0xf 0xf.
Definition kat_tty : tty := mk_tty None None (inl kat_termios) (fun _ => None) kat_stream.

Example DialSerial_spec_witness : exists t,
  DialSerial kat_tty [WithBaud 115200] = ([Opened; Applied t], inl (serialPort kat_stream)) /\
  lined 115200 kat_termios t /\ t_Cflag t = 0x18b2.
Proof.
  pose proof (DialSerial_spec kat_tty [WithBaud 115200]) as H. cbv zeta in H.
  change (DialSerial kat_tty [WithBaud 115200]) with
    (let t := match setSpeed (rawTermios kat_termios) 115200 with inl t => t | inr _ => kat_termios end in
     ([Opened; Applied t], inl (serialPort kat_stream) : Port.Port + dial_error)) in *.
  destruct H as (_ & _ & t0 & t & [= <-] & _ & [= Et] & Hl). exists t. rewrite <- Et in *. by split_and!.
Defined.
