(* ===== verification/Drift.v ===== *)
(** * The schema gate: tools/schemadrift

    compare.go, schema.go, ledger.go, fbs.go, proto.go, verify.go and main.go: the
    check that each FlatBuffers table still is the protobuf message it mirrors. The
    files are read line by line with regular expressions; each expression is a
    function on the line here ([scan] and the combinators under it), none of them
    needs to backtrack but the optional label of a proto field, which is tried
    first. A drift's message for people is the constructor [detail] with the values
    it would print. The file tree is a function from paths to contents. *)

From Stdlib Require Import Ascii String.
From S2P Require Import Prelude.

Local Open Scope string_scope.
Local Open Scope list_scope.

(** ** Regular expressions on one line *)

Definition code (a : ascii) : Z := Z.of_N (N_of_ascii a).

Definition within (lo hi : ascii) (a : ascii) : bool :=
  bool_decide (code lo <= code a) && bool_decide (code a <= code hi).

Definition digit : ascii -> bool := within "0"%char "9"%char.
Definition lower : ascii -> bool := within "a"%char "z"%char.
Definition upper : ascii -> bool := within "A"%char "Z"%char.
Definition exactly (c a : ascii) : bool := bool_decide (a = c).

(** [\s] is [[\t\n\f\r ]]. *)
Definition space (a : ascii) : bool :=
  bool_decide (code a ∈ [9; 10; 12; 13; 32]).
Definition word (a : ascii) : bool := lower a || upper a || digit a || exactly "_"%char a.
Definition dotted (a : ascii) : bool := word a || exactly "."%char a.
Definition plain (a : ascii) : bool := lower a || digit a || exactly "_"%char a.

(** The longest prefix whose characters satisfy [p], and the rest. *)
Fixpoint span (p : ascii -> bool) (s : string) : string * string :=
  match s with
  | EmptyString => ("", "")
  | String a s' => if p a then let '(x, y) := span p s' in (String a x, y) else ("", s)
  end.

(** What an expression matches is removed from the front of the line; captures are
    returned. *)
Definition many (p : ascii -> bool) (s : string) : option string := Some (span p s).2.
Definition some (p : ascii -> bool) (s : string) : option string :=
  match span p s with
  | (EmptyString, _) => None
  | (_, rest) => Some rest
  end.
Definition capture (p : ascii -> bool) (s : string) : option (string * string) :=
  match span p s with
  | (EmptyString, _) => None
  | x => Some x
  end.
Fixpoint text (t s : string) : option string :=
  match t, s with
  | EmptyString, _ => Some s
  | String a t, String b s => if decide (a = b) then text t s else None
  | String _ _, EmptyString => None
  end.
(** [$]. *)
Definition final (s : string) : option unit := match s with EmptyString => Some () | _ => None end.

(** An identifier whose first character is of a smaller class. *)
Definition identifier (first rest : ascii -> bool) (s : string) : option (string * string) :=
  match s with
  | String a _ => if first a then capture rest s else None
  | EmptyString => None
  end.

(** [strconv.Atoi] on digits: a 64-bit int, or its largest and an error. *)
Fixpoint digits (n : Z) (s : string) : Z :=
  match s with
  | EmptyString => n
  | String a s => digits (10 * n + (code a - 48)) s
  end.
Definition maxInt : Z := 2 ^ 63 - 1.
Definition Atoi (s : string) : Z * bool :=
  let n := digits 0 s in if decide (n <= maxInt) then (n, true) else (maxInt, false).

(** ** schema.go *)

Record Field := mk_Field {
  f_Name : string;
  f_Type : string;
  f_Slot : Z
}.

Record Message := mk_Message {
  m_Name : string;
  m_Fields : list Field;
  m_File : string;
  m_Line : nat
}.

Definition Message_Field (m : Message) (name : string) : option Field :=
  list_find (fun f => f_Name f = name) (m_Fields m) ≫= fun '(_, f) => Some f.

Definition fbsOrdinal (protoNumber : Z) : Z := protoNumber - 1.
Definition protoNumber (fbsID : Z) : Z := fbsID + 1.

(** ** fbs.go *)

Definition fbsNamespace (s : string) : option string :=
  s ← many space s; s ← text "namespace" s; s ← some space s;
  '(name, s) ← capture dotted s; s ← many space s; _ ← text ";" s; Some name.

Definition fbsTable (s : string) : option string :=
  s ← text "table" s; s ← some space s;
  '(name, s) ← identifier (fun a => lower a || upper a || exactly "_"%char a) word s;
  s ← many space s; _ ← text "{" s; Some name.

Definition fbsField (s : string) : option (string * string * string) :=
  s ← some space s; '(name, s) ← identifier (fun a => lower a || exactly "_"%char a) plain s;
  s ← many space s; s ← text ":" s; s ← many space s;
  '(ty, s) ← capture (fun a => word a || exactly "["%char a || exactly "]"%char a) s;
  s ← many space s; s ← text "(" s; s ← many space s; s ← text "id" s; s ← many space s; s ← text ":" s;
  s ← many space s; '(id, s) ← capture digit s; s ← many space s; _ ← text ")" s; Some (name, ty, id).

Definition suffixed (suffix s : string) : bool :=
  (String.length suffix <? String.length s)%nat &&
  bool_decide (String.substring (String.length s - String.length suffix) (String.length suffix) s = suffix).

Definition fbsSource (s : string) : option string :=
  s ← text "//" s; s ← many space s; s ← text "source:" s; s ← many space s;
  '(path, s) ← capture (fun a => negb (space a)) s; s ← many space s; _ ← final s;
  if suffixed ".proto" path then Some path else None.

(** [(?://+|/\*+)?] *)
Definition comment (s : string) : string :=
  match text "//" s with
  | Some s => (span (exactly "/"%char) s).2
  | None => match text "/*" s with
            | Some s => (span (exactly "*"%char) s).2
            | None => s
            end
  end.

Definition fbsMirrors (s : string) : option string :=
  s ← many space s; s ← many space (comment s); s ← text "mirrors:" s; s ← many space s;
  '(name, s) ← capture dotted s; s ← many space s; _ ← final s; Some name.

Record Schema := mk_Schema {
  s_Path : string;
  s_Namespace : string;
  s_Source : string;
  s_Tables : list Message;
  s_Declared : gmap string string
}.

#[export] Instance Message_eta : Eta Message := fun m => mk_Message (m_Name m) (m_Fields m) (m_File m) (m_Line m).
#[export] Instance Schema_eta : Eta Schema := fun s =>
  mk_Schema (s_Path s) (s_Namespace s) (s_Source s) (s_Tables s) (s_Declared s).

(** [strings.Split(content, "\n")]: never empty. *)
Fixpoint lines (s : string) : list string :=
  match s with
  | EmptyString => [""]
  | String a s =>
      if decide (code a = 10) then "" :: lines s
      else match lines s with
           | [] => [String a ""]
           | l :: ls => String a l :: ls
           end
  end.

Definition parseFBSField (line : string) : option Field :=
  '(name, ty, id) ← fbsField line;
  let '(id, ok) := Atoi id in
  if ok : bool then Some (mk_Field name ty (protoNumber id)) else None.

Definition add_field (m : Message) (f : option Field) : Message :=
  match f with
  | Some f => m <| m_Fields := (m_Fields m ++ [f]) |>
  | None => m
  end.

Definition closing (line : string) : bool := bool_decide (is_Some (text "}" line)).

(** What a file can fail with. *)
Inductive schema_error :=
  | NotRead (path : string)
  | NotClosed (path name : string)
  | NotFollowed (path mirror : string)
  | NoSource (path : string)
  | ClaimsToMirror (path : string) (e : schema_error)
  | NamespaceMirrors (path namespace package : string).

(** The state of the loop: the schema, [current] and [pendingMirror]. *)
Definition fbs_line (path : string) (st : Schema * option Message * string) (i : nat) (line : string)
    : Schema * option Message * string :=
  let '(s, current, pendingMirror) := st in
  match fbsSource line with
  | Some source => (s <| s_Source := source |>, current, pendingMirror)
  | None =>
  match fbsNamespace line with
  | Some ns => (s <| s_Namespace := ns |>, current, pendingMirror)
  | None =>
  match fbsMirrors line with
  | Some mirror => (s, current, mirror)
  | None =>
  match fbsTable line with
  | Some name =>
      let current := Some (mk_Message name [] path (i + 1)%nat) in
      if decide (pendingMirror = "") then (s, current, pendingMirror)
      else (s <| s_Declared := <[name := pendingMirror]> (s_Declared s) |>, current, "")
  | None =>
      match current with
      | Some table =>
          if closing line then (s <| s_Tables := (s_Tables s ++ [table]) |>, None, pendingMirror)
          else (s, Some (add_field table (parseFBSField line)), pendingMirror)
      | None => (s, None, pendingMirror)
      end
  end end end end.

Fixpoint scan {A} (step : A -> nat -> string -> A) (st : A) (i : nat) (ls : list string) : A :=
  match ls with
  | [] => st
  | l :: ls => scan step (step st i l) (S i) ls
  end.

Definition ParseFBS (read : string -> option string) (path : string) : Schema + schema_error :=
  match read path with
  | None => inr (NotRead path)
  | Some content =>
      let '(s, current, pendingMirror) := scan (fbs_line path) (mk_Schema path "" "" [] ∅, None, "") 0 (lines content) in
      match current with
      | Some table => inr (NotClosed path (m_Name table))
      | None => if decide (pendingMirror = "") then inl s else inr (NotFollowed path pendingMirror)
      end
  end.

(** ** proto.go *)

Definition protoPackage (s : string) : option string :=
  s ← many space s; s ← text "package" s; s ← some space s;
  '(name, s) ← capture dotted s; s ← many space s; _ ← text ";" s; Some name.

Definition protoBlock (keyword s : string) : option string :=
  s ← text keyword s; s ← some space s;
  '(name, s) ← identifier (fun a => lower a || upper a || exactly "_"%char a) word s;
  s ← many space s; _ ← text "{" s; Some name.
Definition protoMessage : string -> option string := protoBlock "message".
Definition protoEnum : string -> option string := protoBlock "enum".

(** A field after its label: the type, the name and the number. *)
Definition protoDeclaration (s : string) : option (string * string * string) :=
  '(ty, s) ← capture dotted s; s ← some space s;
  '(name, s) ← identifier (fun a => lower a || exactly "_"%char a) plain s;
  s ← many space s; s ← text "=" s; s ← many space s; '(number, s) ← capture digit s; s ← many space s;
  match s with
  | String a _ => if exactly "["%char a || exactly ";"%char a then Some (ty, name, number) else None
  | EmptyString => None
  end.

Definition labelled (label s : string) : option (string * (string * string * string)) :=
  s ← text label s; s ← some space s; d ← protoDeclaration s; Some (label, d).

(** With the label if the rest then matches, and without it otherwise. *)
Definition protoField (s : string) : option (string * (string * string * string)) :=
  s ← some space s;
  match labelled "repeated" s with
  | Some x => Some x
  | None =>
      match labelled "optional" s with
      | Some x => Some x
      | None => d ← protoDeclaration s; Some ("", d)
      end
  end.

Record ProtoFile := mk_ProtoFile {
  pf_Path : string;
  pf_Package : string;
  pf_Messages : list Message;
  pf_Enums : gset string
}.

#[export] Instance ProtoFile_eta : Eta ProtoFile := fun f =>
  mk_ProtoFile (pf_Path f) (pf_Package f) (pf_Messages f) (pf_Enums f).

Definition parseProtoField (line : string) : option Field :=
  '(label, (kind, name, number)) ← protoField line;
  let '(number, ok) := Atoi number in
  if ok : bool then
    Some (mk_Field name (if decide (label = "repeated") then "repeated " +:+ kind else kind) number)
  else None.

(** [if current != nil { f.Messages = append(f.Messages, *current) }] *)
Definition flush (f : ProtoFile) (current : option Message) : ProtoFile :=
  match current with
  | Some m => f <| pf_Messages := (pf_Messages f ++ [m]) |>
  | None => f
  end.

Definition proto_line (path : string) (st : ProtoFile * option Message) (i : nat) (line : string)
    : ProtoFile * option Message :=
  let '(f, current) := st in
  match protoPackage line with
  | Some package => (f <| pf_Package := package |>, current)
  | None =>
  match protoEnum line with
  | Some name => (f <| pf_Enums := pf_Enums f ∪ {[name]} |>, current)
  | None =>
  match protoMessage line with
  | Some name => (flush f current, Some (mk_Message name [] path (i + 1)%nat))
  | None =>
      if closing line then (flush f current, None)
      else (f, current ← current; Some (add_field current (parseProtoField line)))
  end end end.

Definition ParseProto (read : string -> option string) (path : string) : ProtoFile + schema_error :=
  match read path with
  | None => inr (NotRead path)
  | Some content =>
      let '(f, current) := scan (proto_line path) (mk_ProtoFile path "" [] ∅, None) 0 (lines content) in
      match current with
      | Some m => inr (NotClosed path (m_Name m))
      | None => inl f
      end
  end.

(** ** ledger.go *)

Record Ledger := mk_Ledger {
  l_Slots : gmap string (gmap Z Z);
  l_Names : gmap string (gmap Z string)
}.

#[export] Instance Ledger_eta : Eta Ledger := fun l => mk_Ledger (l_Slots l) (l_Names l).

(** [^\s*-\s*key:\s*] and [^\s*key:\s*], and the end of either line. *)
Definition entry (key s : string) : option string := s ← many space s; s ← text key s; many space s.
Definition item (key s : string) : option string := s ← many space s; s ← text "-" s; entry key s.
Definition ended {A} (x : A * string) : option A := let '(a, s) := x in s ← many space s; _ ← final s; Some a.

Definition ledgerMessage (s : string) : option string := s ← item "message:" s; x ← capture dotted s; ended x.
Definition ledgerNumber (s : string) : option string := s ← item "number:" s; x ← capture digit s; ended x.
Definition ledgerOrdinal (s : string) : option string := s ← entry "ordinal:" s; x ← capture digit s; ended x.
Definition ledgerName (s : string) : option string :=
  s ← entry "name:" s; x ← capture (fun a => negb (space a)) s; ended x.
Definition ledgerSection (s : string) : bool :=
  bool_decide (is_Some ('(_, s) ← identifier lower plain s; text ":" s)).

(** [l.Slots[message][number] = ordinal]: the message has its map. *)
Definition put {A} (m : gmap string (gmap Z A)) (message : string) (number : Z) (a : A) : gmap string (gmap Z A) :=
  <[message := <[number := a]> (default ∅ (m !! message))]> m.

Definition ledger_line (st : Ledger * string * Z) (i : nat) (line : string) : Ledger * string * Z :=
  let '(l, message, number) := st in
  if ledgerSection line then (l, "", number)
  else
  match ledgerMessage line with
  | Some m => (l <| l_Slots := <[m := ∅]> (l_Slots l) |> <| l_Names := <[m := ∅]> (l_Names l) |>, m, number)
  | None =>
  if decide (message = "") then (l, message, number)
  else
  match ledgerNumber line with
  | Some n => (l, message, (Atoi n).1)
  | None =>
  match ledgerOrdinal line with
  | Some o => (l <| l_Slots := put (l_Slots l) message number (Atoi o).1 |>, message, number)
  | None =>
  match ledgerName line with
  | Some n => (l <| l_Names := put (l_Names l) message number n |>, message, number)
  | None => (l, message, number)
  end end end end.

Definition ParseLedger (read : string -> option string) (path : string) : Ledger + schema_error :=
  match read path with
  | None => inr (NotRead path)
  | Some content => inl (scan ledger_line (mk_Ledger ∅ ∅, "", 0) 0 (lines content)).1.1
  end.

(** Slots, names, and whether there is a record; an absent map reads as empty. *)
Definition Ledger_Message (l : Ledger) (name : string) : gmap Z Z * gmap Z string * bool :=
  (default ∅ (l_Slots l !! name), default ∅ (l_Names l !! name), bool_decide (is_Some (l_Slots l !! name))).

(** ** compare.go *)

Definition fbsTypeFor : gmap string string :=
  list_to_map [("double", "double"); ("float", "float"); ("int32", "int"); ("int64", "long"); ("uint32", "uint");
    ("uint64", "ulong"); ("sint32", "int"); ("sint64", "long"); ("fixed32", "uint"); ("fixed64", "ulong");
    ("bool", "bool"); ("string", "string"); ("bytes", "[ubyte]"); ("repeated bytes", "[[ubyte]]");
    ("repeated string", "[string]"); ("repeated int32", "[int]")].

(** What a drift's Detail would say. *)
Inductive detail :=
  | NoEntry
  | MissingFromMirror (file : string)
  | NotInProto (file : string)
  | MirrorAt (slot want got : Z)
  | NoMapping (type : string)
  | ShouldMirrorAs (type expected got : string)
  | NotInLedger (slot : Z)
  | LedgerOrdinal (slot ordinal want : Z)
  | LedgerName (slot : Z) (named : string)
  | MirrorsNothing (file : string) (line : nat) (source : string).

Record Drift := mk_Drift {
  d_Message : string;
  d_Field : string;
  d_Detail : detail
}.

(** The mirror's type of a proto type, if it is known. *)
Definition expectedType (enums : gset string) (ty : string) : option string :=
  if decide (ty ∈ enums) then Some ty else fbsTypeFor !! ty.

Definition compareField (message : string) (want got : Field) (enums : gset string) : list Drift :=
  let drift := mk_Drift message (f_Name want) in
  (if decide (f_Slot want <> f_Slot got)
   then [drift (MirrorAt (f_Slot want) (fbsOrdinal (f_Slot want)) (fbsOrdinal (f_Slot got)))] else []) ++
  match expectedType enums (f_Type want) with
  | None => [drift (NoMapping (f_Type want))]
  | Some expected =>
      if decide (expected <> f_Type got) then [drift (ShouldMirrorAs (f_Type want) expected (f_Type got))] else []
  end.

Definition compareLedger (message : string) (want : Field) (slots : gmap Z Z) (names : gmap Z string) : list Drift :=
  let drift := mk_Drift message (f_Name want) in
  match slots !! f_Slot want with
  | None => [drift (NotInLedger (f_Slot want))]
  | Some ordinal =>
      (if decide (ordinal <> fbsOrdinal (f_Slot want))
       then [drift (LedgerOrdinal (f_Slot want) ordinal (fbsOrdinal (f_Slot want)))] else []) ++
      match names !! f_Slot want with
      | Some named => if decide (named <> f_Name want) then [drift (LedgerName (f_Slot want) named)] else []
      | None => []
      end
  end.

Definition Compare (proto fbs : Message) (qualified : string) (ledger : Ledger) (enums : gset string) : list Drift :=
  let '(slots, names, known) := Ledger_Message ledger qualified in
  (if known : bool then [] else [mk_Drift qualified "" NoEntry]) ++
  flat_map (fun want =>
    match Message_Field fbs (f_Name want) with
    | None => [mk_Drift qualified (f_Name want) (MissingFromMirror (m_File proto))]
    | Some got =>
        compareField qualified want got enums ++
        (if known then compareLedger qualified want slots names else [])
    end) (m_Fields proto) ++
  flat_map (fun got =>
    match Message_Field proto (f_Name got) with
    | None => [mk_Drift qualified (f_Name got) (NotInProto (m_File fbs))]
    | Some _ => []
    end) (m_Fields fbs).

(** ** verify.go *)

(** [filepath.Join] is the file tree's; [join] is what it makes of the two. *)
Definition protoSource (read : string -> option string) (join : string -> string) (schema : Schema)
    : ProtoFile + schema_error :=
  if decide (s_Source schema = "") then inr (NoSource (s_Path schema))
  else
    let path := join (s_Source schema) in
    match ParseProto read path with
    | inr e => inr (ClaimsToMirror (s_Path schema) e)
    | inl source =>
        if decide (s_Namespace schema <> "" /\ pf_Package source <> "" /\ s_Namespace schema <> pf_Package source)
        then inr (NamespaceMirrors (s_Path schema) (s_Namespace schema) (pf_Package source))
        else inl source
    end.

(** [byName]: the last message of a name. *)
Definition byName (f : ProtoFile) : gmap string Message :=
  fold_left (fun by_name m => <[m_Name m := m]> by_name) (pf_Messages f) ∅.

Definition qualifiedName (s : Schema) (table : Message) : string :=
  match s_Declared s !! m_Name table with
  | Some declared => declared
  | None => s_Namespace s +:+ "." +:+ m_Name table
  end.

Definition verifyTable (s : Schema) (source : ProtoFile) (ledger : Ledger) (table : Message) : nat * list Drift :=
  match byName source !! m_Name table with
  | None => (0%nat, [mk_Drift (qualifiedName s table) "" (MirrorsNothing (m_File table) (m_Line table) (s_Source s))])
  | Some message => (1%nat, Compare message table (qualifiedName s table) ledger (pf_Enums source))
  end.

Definition verify (read : string -> option string) (join : string -> string) (ledger : Ledger) (fbsPath : string)
    : nat * list Drift + schema_error :=
  match ParseFBS read fbsPath with
  | inr e => inr e
  | inl schema =>
      if decide (s_Source schema = "" /\ s_Declared schema = ∅) then inl (0%nat, [])
      else
        match protoSource read join schema with
        | inr e => inr e
        | inl source =>
            inl (fold_left (fun '(n, ds) table =>
              let '(n', ds') := verifyTable schema source ledger table in ((n + n')%nat, (ds ++ ds')))
              (s_Tables schema) (0%nat, []))
        end
  end.

(** ** main.go *)

(** How the command ends: the error it exits with, the disagreements, or the number of
    tables that agree. *)
Inductive outcome :=
  | NoSchemas
  | BadLedger (e : schema_error)
  | BadSchema (e : schema_error)
  | NothingMirrored (schemas : nat)
  | Disagree (drifts : list Drift)
  | Agree (checked : nat).

Fixpoint verifyAll (read : string -> option string) (join : string -> string) (ledger : Ledger) (paths : list string)
    (checked : nat) (drifts : list Drift) : nat * list Drift + schema_error :=
  match paths with
  | [] => inl (checked, drifts)
  | path :: paths =>
      match verify read join ledger path with
      | inr e => inr e
      | inl (n, found) => verifyAll read join ledger paths (checked + n)%nat (drifts ++ found)
      end
  end.

Definition run (read : string -> option string) (join : string -> string) (schemas : list string) (ledgerPath : string)
    : outcome :=
  if decide (schemas = []) then NoSchemas
  else
    match ParseLedger read ledgerPath with
    | inr e => BadLedger e
    | inl ledger =>
        match verifyAll read join ledger schemas 0 [] with
        | inr e => BadSchema e
        | inl (checked, drifts) =>
            if decide (checked = 0%nat) then NothingMirrored (length schemas)
            else if decide (drifts = []) then Agree checked else Disagree drifts
        end
    end.

(** ** What agreement means *)

(** A table is the message it mirrors: each field of the one has a field of the other
    at its slot and of its type's mirror, the ledger gave that slot to it, and the
    table has no field of its own. *)
Record mirrored (proto fbs : Message) (qualified : string) (ledger : Ledger) (enums : gset string) : Prop := mk_mirrored {
  mi_fields want : want ∈ m_Fields proto -> exists got,
    Message_Field fbs (f_Name want) = Some got /\ f_Slot got = f_Slot want /\
    expectedType enums (f_Type want) = Some (f_Type got);
  mi_ledger : exists slots, l_Slots ledger !! qualified = Some slots /\
    forall want, want ∈ m_Fields proto -> slots !! f_Slot want = Some (fbsOrdinal (f_Slot want));
  mi_names want named : want ∈ m_Fields proto ->
    default ∅ (l_Names ledger !! qualified) !! f_Slot want = Some named -> named = f_Name want;
  mi_only got : got ∈ m_Fields fbs -> is_Some (Message_Field proto (f_Name got))
}.

Lemma flat_map_nil {A B} (f : A -> list B) l : flat_map f l = [] <-> forall x, x ∈ l -> f x = [].
Proof.
  induction l as [|a l IH]; cbn [flat_map]; [split; [intros _ x Hx; by apply elem_of_nil in Hx|done]|].
  rewrite app_nil, IH. split.
  - intros [Ha Hl] x. rewrite elem_of_cons. intros [->|Hx]; auto.
  - intros Hl. split; [apply Hl|intros x Hx; apply Hl]; rewrite elem_of_cons; auto.
Qed.

Lemma guard_nil {A} (P : Prop) `{Decision P} (x : A) : (if decide (~ P) then [x] else []) = [] <-> P.
Proof. destruct (decide (~ P)) as [|Hn]; [done|]. split; [|done]. intros _. by destruct (decide P). Qed.

Lemma compareField_nil q want got enums : compareField q want got enums = [] <->
  f_Slot got = f_Slot want /\ expectedType enums (f_Type want) = Some (f_Type got).
Proof.
  unfold compareField. rewrite app_nil, guard_nil. destruct (expectedType enums (f_Type want)) as [e|].
  - rewrite guard_nil. split; [by intros [-> ->]|by intros [-> [= ->]]].
  - split; [by intros []|by intros []].
Qed.

Lemma compareLedger_nil q want slots names : compareLedger q want slots names = [] <->
  slots !! f_Slot want = Some (fbsOrdinal (f_Slot want)) /\
  forall named, names !! f_Slot want = Some named -> named = f_Name want.
Proof.
  unfold compareLedger. destruct (slots !! f_Slot want) as [o|]; [|split; [done|by intros []]].
  rewrite app_nil, guard_nil. destruct (names !! f_Slot want) as [named|].
  - rewrite guard_nil. split; [intros [-> ->]; split; [done|by intros ? [= ->]]|intros [[= ->] Hn]; auto].
  - split; [intros [-> _]; by split|by intros [[= ->] _]].
Qed.

(** [Compare] is silent exactly when there is nothing to say. *)
Lemma Compare_nil proto fbs q ledger enums : Compare proto fbs q ledger enums = [] <-> mirrored proto fbs q ledger enums.
Proof.
  unfold Compare, Ledger_Message. rewrite !app_nil, !flat_map_nil.
  destruct (l_Slots ledger !! q) as [slots|] eqn:Es.
  2:{ rewrite bool_decide_false by (by intros []). split; [by intros []|]. intros [_ (? & ? & _) _ _]. congruence. }
  rewrite bool_decide_true by done. cbn [default]. split.
  - intros (_ & Hw & Hg).
    assert (Hf : forall want, want ∈ m_Fields proto -> exists got, Message_Field fbs (f_Name want) = Some got /\
      compareField q want got enums = [] /\ compareLedger q want slots (default ∅ (l_Names ledger !! q)) = []).
    { intros want Hin. specialize (Hw want Hin). destruct (Message_Field fbs (f_Name want)) as [got|]; [|done].
      apply app_nil in Hw. by exists got. }
    split.
    + intros want Hin. destruct (Hf want Hin) as (got & E & Hc%compareField_nil & _). by exists got.
    + exists slots. split; [done|]. intros want Hin. destruct (Hf want Hin) as (got & E & _ & Hl%compareLedger_nil). apply Hl.
    + intros want named Hin. destruct (Hf want Hin) as (got & E & _ & Hl%compareLedger_nil). apply Hl.
    + intros got Hin. specialize (Hg got Hin). by destruct (Message_Field proto (f_Name got)).
  - intros [Hf (slots' & E & Hl) Hn Ho]. rewrite Es in E. injection E as <-. split; [done|]. split.
    + intros want Hin. destruct (Hf want Hin) as (got & -> & Hc). rewrite app_nil. split; [by apply compareField_nil|].
      apply compareLedger_nil. split; [by apply Hl|]. intros named. by apply Hn.
    + intros got Hin. by destruct (Ho got Hin) as [? ->].
Qed.

(** One schema file: [n] of its tables mirror a message each. *)
Definition schema_holds (read : string -> option string) (join : string -> string) (ledger : Ledger)
    (path : string) (n : nat) : Prop :=
  exists schema, ParseFBS read path = inl schema /\
    ((s_Source schema = "" /\ s_Declared schema = ∅ /\ n = 0%nat) \/
     exists source, protoSource read join schema = inl source /\ n = length (s_Tables schema) /\
       forall table, table ∈ s_Tables schema -> exists message, byName source !! m_Name table = Some message /\
         mirrored message table (qualifiedName schema table) ledger (pf_Enums source)).

(** What [byName] finds is a message of the file and of that name. *)
Lemma byName_Some f name m : byName f !! name = Some m -> m ∈ pf_Messages f /\ m_Name m = name.
Proof.
  unfold byName. rewrite <- fold_left_rev_right.
  assert (Hrev : forall x, x ∈ rev (pf_Messages f) -> x ∈ pf_Messages f)
    by (intros x; rewrite !list_elem_of_In; apply in_rev).
  revert Hrev. generalize (rev (pf_Messages f)) as l. intros l. revert m.
  induction l as [|a l IH]; intros m Hl; cbn [fold_right]; [by rewrite lookup_empty|].
  rewrite lookup_insert_Some. intros [[E ->]|[_ E]].
  - split; [apply Hl; by left|done].
  - apply IH; [|done]. intros x Hx. apply Hl. by right.
Qed.

Lemma verifyTable_clean s source ledger table n : verifyTable s source ledger table = (n, []) <->
  n = 1%nat /\ exists message, byName source !! m_Name table = Some message /\
    mirrored message table (qualifiedName s table) ledger (pf_Enums source).
Proof.
  unfold verifyTable. destruct (byName source !! m_Name table) as [m|].
  - split.
    + intros [= <- E]. split; [done|]. exists m. split; [done|]. by apply Compare_nil.
    + intros (-> & m' & [= <-] & Hm). f_equal. by apply Compare_nil.
  - split; [done|]. by intros (_ & ? & ? & _).
Qed.

(** The loop over the tables of a file. *)
Lemma tables_clean s source ledger l : forall n0 ds0 n,
  fold_left (fun '(n, ds) table => let '(n', ds') := verifyTable s source ledger table in ((n + n')%nat, (ds ++ ds')))
    l (n0, ds0) = (n, []) <->
  ds0 = [] /\ n = (n0 + length l)%nat /\ forall table, table ∈ l -> exists message, byName source !! m_Name table = Some message /\
    mirrored message table (qualifiedName s table) ledger (pf_Enums source).
Proof.
  induction l as [|t l IH]; intros n0 ds0 n; cbn [fold_left length].
  - split.
    + intros [= -> ->]. split_and!; [done|lia|]. intros table Ht. by apply elem_of_nil in Ht.
    + intros (-> & -> & _). f_equal. lia.
  - destruct (verifyTable s source ledger t) as [n1 ds1] eqn:Et. rewrite IH, app_nil. split.
    + intros ((-> & ->) & -> & Hl). apply verifyTable_clean in Et as [-> Ht]. split_and!; [done|lia|].
      intros table. rewrite elem_of_cons. intros [->|Hin]; [exact Ht|by apply Hl].
    + intros (-> & -> & Hl).
      assert (Et2 : verifyTable s source ledger t = (1%nat, [])) by (apply verifyTable_clean; split; [done|apply Hl; by left]).
      rewrite Et in Et2. injection Et2 as -> ->. split_and!; [done..|lia|]. intros table Ht. apply Hl. by right.
Qed.

Lemma verify_clean read join ledger path n : verify read join ledger path = inl (n, []) <->
  schema_holds read join ledger path n.
Proof.
  unfold verify, schema_holds. destruct (ParseFBS read path) as [schema|e]; [|split; [done|by intros (? & ? & _)]].
  case_decide as Hs.
  - split.
    + intros [= <-]. exists schema. split; [done|]. left. by destruct Hs.
    + intros (s & [= <-] & [(_ & _ & ->)|(source & E & _)]); [done|]. unfold protoSource in E. by rewrite decide_True in E by apply Hs.
  - destruct (protoSource read join schema) as [source|e] eqn:Ep.
    + split.
      * intros [= E]. apply tables_clean in E as (_ & -> & Hl). exists schema. split; [done|]. right. by exists source.
      * intros (s & [= <-] & [(H1 & H2 & _)|(src & E & -> & Hl)]); [by destruct Hs|]. rewrite Ep in E. injection E as <-.
        f_equal. by apply tables_clean.
    + split; [done|]. intros (s & [= <-] & [(H1 & H2 & _)|(src & E & _)]); [by destruct Hs|congruence].
Qed.

Lemma verifyAll_clean read join ledger paths : forall n0 ds0 n,
  verifyAll read join ledger paths n0 ds0 = inl (n, []) <->
  ds0 = [] /\ exists ns, Forall2 (schema_holds read join ledger) paths ns /\ n = (n0 + sum_list ns)%nat.
Proof.
  induction paths as [|path paths IH]; intros n0 ds0 n; cbn [verifyAll].
  - split.
    + intros [= -> ->]. split; [done|]. exists []. split; [done|]. cbn. lia.
    + intros (-> & ns & Hns & ->). apply Forall2_nil_inv_l in Hns as ->. cbn. do 2 f_equal. lia.
  - destruct (verify read join ledger path) as [[n1 found]|e] eqn:Ev.
    + rewrite IH, app_nil. split.
      * intros ((-> & ->) & ns & Hns & ->). apply verify_clean in Ev. split; [done|]. exists (n1 :: ns).
        split; [by apply Forall2_cons|]. cbn. lia.
      * intros (-> & ns & Hns & ->). apply Forall2_cons_inv_l in Hns as (n2 & ns' & Hp%verify_clean & Hns & ->).
        rewrite Ev in Hp. injection Hp as -> ->. split; [done|]. exists ns'. split; [done|]. cbn. lia.
    + split; [done|]. intros (-> & ns & Hns & _). apply Forall2_cons_inv_l in Hns as (n2 & ns' & Hp%verify_clean & _). congruence.
Qed.

(** C26. The gate passes exactly when there is something to check and everything its
    parsers read agrees. [run] reports [checked] tables as agreeing if and only if that
    many tables mirror a message, there is at least one, and, in every schema of the
    tree, each table [ParseFBS] reads is field by field the message of its name that
    [ParseProto] reads in the .proto the file names: same slots, the types' mirrors, the
    slots and names the ledger recorded, and no field of its own. A tree without schemas,
    or with none that declares a mirror, never passes. What is compared is what was
    parsed: a declaration the line expressions do not match, a map field say, is on
    neither side, so the gate passes without it ([map_field_unseen]). *)
Theorem gate_exact read join schemas ledgerPath checked : run read join schemas ledgerPath = Agree checked <->
  (0 < checked)%nat /\ exists ledger, ParseLedger read ledgerPath = inl ledger /\
    exists ns, Forall2 (schema_holds read join ledger) schemas ns /\ checked = sum_list ns.
Proof.
  unfold run. case_decide as Hs.
  { subst schemas. split; [done|]. intros (Hc & ledger & _ & ns & Hns & ->). apply Forall2_nil_inv_l in Hns as ->. cbn in Hc. lia. }
  destruct (ParseLedger read ledgerPath) as [ledger|e]; [|split; [done|by intros (_ & ? & ? & _)]].
  destruct (verifyAll read join ledger schemas 0 []) as [[n ds]|e] eqn:E.
  - split.
    + case_decide; [done|]. case_decide; [|done]. intros [= <-]. subst ds. apply verifyAll_clean in E as (_ & ns & Hns & ->).
      split; [lia|]. exists ledger. split; [done|]. by exists ns.
    + intros (Hc & l & [= <-] & ns & Hns & ->).
      assert (E2 : verifyAll read join ledger schemas 0 [] = inl (sum_list ns, [])) by (apply verifyAll_clean; eauto).
      rewrite E in E2. injection E2 as -> ->. by rewrite decide_False, decide_True by (done || lia).
  - split; [done|]. intros (Hc & l & [= <-] & ns & Hns & ->).
    assert (E2 : verifyAll read join ledger schemas 0 [] = inl (sum_list ns, [])) by (apply verifyAll_clean; eauto).
    congruence.
Qed.

(** Two releases that pass against one ledger: a recorded slot means the same field
    in both. *)
Lemma slot_keeps_name p1 b1 e1 p2 b2 e2 q ledger f1 f2 : mirrored p1 b1 q ledger e1 -> mirrored p2 b2 q ledger e2 ->
  f1 ∈ m_Fields p1 -> f2 ∈ m_Fields p2 -> f_Slot f1 = f_Slot f2 ->
  is_Some (default ∅ (l_Names ledger !! q) !! f_Slot f1) -> f_Name f1 = f_Name f2.
Proof.
  intros H1 H2 Hf1 Hf2 Hs [name Hn]. rewrite <- (mi_names _ _ _ _ _ H1 f1 name Hf1 Hn).
  rewrite Hs in Hn. by rewrite <- (mi_names _ _ _ _ _ H2 f2 name Hf2 Hn).
Qed.

(** ** On the repository's schema *)

(** protobuf/osdp/event/v1/payloads.proto, its mirror and buffers.lock, as far as
    CardRead goes. *)
Definition card_proto (more : string) : string := "package osdp.event.v1;

// A credential presented at a reader. osdp_RAW.
message CardRead {
  // Which reader on the device, usually zero.
  int32 reader = 1 [(google.api.field_behavior) = OUTPUT_ONLY];

  // The format code the device reported.
  int32 format = 2 [(google.api.field_behavior) = OUTPUT_ONLY];
  int32 bit_count = 3 [(google.api.field_behavior) = OUTPUT_ONLY];
  bytes data = 4 [(google.api.field_behavior) = OUTPUT_ONLY];
" +:+ more +:+ "}
".

Definition card_fbs (data : string) : string := "// source: osdp/event/v1/payloads.proto
namespace osdp.event.v1;

/// A credential presented at a reader. osdp_RAW.
table CardRead {
  /// Which reader on the device, usually zero.
  reader:int (id: 0);
  format:int (id: 1);
  bit_count:int (id: 2);
  data:[ubyte] (id: " +:+ data +:+ ");
}
".

Definition card_lock : string := "version: 1
messages:
  - message: osdp.event.v1.CardRead
    fields:
      - number: 1
        ordinal: 0
        name: reader
      - number: 2
        ordinal: 1
        name: format
      - number: 3
        ordinal: 2
        name: bit_count
      - number: 4
        ordinal: 3
        name: data
enums:
".

Definition tree (proto fbs : string) (path : string) : option string :=
  if decide (path = "protobuf/osdp/event/v1/payloads.proto") then Some proto
  else if decide (path = "payloads.fbs") then Some fbs
  else if decide (path = "buffers.lock") then Some card_lock
  else None.
Definition gate (proto fbs : string) : outcome :=
  run (tree proto fbs) (fun path => "protobuf/" +:+ path) ["payloads.fbs"] "buffers.lock".

Example card_agrees : gate (card_proto "") (card_fbs "3") = Agree 1.
Proof. vm_compute. reflexivity. Qed.

Example card_moved : gate (card_proto "") (card_fbs "4") =
  Disagree [mk_Drift "osdp.event.v1.CardRead" "data" (MirrorAt 4 3 4)].
Proof. vm_compute. reflexivity. Qed.

(** A field the small parser cannot read is passed over in silence, though the
    mirror does not have it and the ledger has not recorded it. *)
Example map_field_unseen : gate (card_proto "  map<string, string> labels = 5;
") (card_fbs "3") = Agree 1.
Proof. vm_compute. reflexivity. Qed.
